(** * A shallow embedding of mm.c: a segregated-free-list allocator

    The allocator of [mm.c] keeps one growable heap region.  Every block
    carries a 4-byte header and a 4-byte footer packing (size, allocated);
    free blocks hold two 32-bit offsets ("bias") relative to [heap_listp]
    in the first 8 payload bytes; ten list heads sit at the start of the
    region.

    The embedding is a state-and-error monad over a byte-addressed memory.
    [size_t] and pointers are 64-bit, [u_32] words are 32-bit and stored
    little-endian.  An access outside the region handed out by the backing
    store is a [Fault]; [exit] is an [Exit]; loops whose termination depends
    on the heap contents take a budget and end in [OutOfFuel] when it is
    spent.  The build modelled is the one of the file as it stands:
    [DEBUG] is not defined, so [dbg_printf] expands to nothing and the
    public operations do not call the checker. *)

From Stdlib Require Import ZArith Lia List Bool.
Import ListNotations.
Local Open Scope Z_scope.

(** ** Machine integers *)

(** Conversion to [size_t] (and to a pointer): 64-bit wrap-around. *)
Definition size_t (x : Z) : Z := x mod 2 ^ 64.

(** Conversion to [unsigned int]: 32-bit wrap-around. *)
Definition u_32 (x : Z) : Z := x mod 2 ^ 32.

Definition NULL : Z := 0.

(** Pointer arithmetic on [char *]. *)
Definition padd (p n : Z) : Z := size_t (p + n).

(** ** Byte-addressed memory *)

(** A cell holds a byte; only its value modulo 256 is observable. *)
Definition memory : Type := Z -> Z.

Definition byte_at (m : memory) (a : Z) : Z := m a mod 256.

(** Little-endian 32-bit load and store. *)
Definition get32 (m : memory) (a : Z) : Z :=
  byte_at m a + 2 ^ 8 * byte_at m (a + 1)
  + 2 ^ 16 * byte_at m (a + 2) + 2 ^ 24 * byte_at m (a + 3).

Definition set32 (m : memory) (a v : Z) : memory :=
  fun x => if (a <=? x) && (x <? a + 4)
           then (v / 2 ^ (8 * (x - a))) mod 256
           else m x.

Definition fill (m : memory) (p n c : Z) : memory :=
  fun x => if (p <=? x) && (x <? p + n) then c mod 256 else m x.

Definition copy (m : memory) (dst src n : Z) : memory :=
  fun x => if (dst <=? x) && (x <? dst + n) then m (src + (x - dst)) else m x.

(** ** Allocator state

    The two globals of [mm.c] together with the backing store. *)

Record state : Type := mkState {
  mem : memory;
  mem_start_brk : Z;      (* first byte of the region *)
  mem_brk : Z;            (* one past the last byte handed out *)
  mem_max_addr : Z;       (* one past the last byte that can be handed out *)
  sbrk_calls : nat;       (* number of growth requests made so far *)
  heap_listp : Z;         (* static char *heap_listp *)
  seg_lists : Z           (* static u_32 *seg_lists *)
}.

Definition set_mem (s : state) (m : memory) : state :=
  mkState m (mem_start_brk s) (mem_brk s) (mem_max_addr s) (sbrk_calls s)
          (heap_listp s) (seg_lists s).

Definition set_heap_listp (s : state) (p : Z) : state :=
  mkState (mem s) (mem_start_brk s) (mem_brk s) (mem_max_addr s) (sbrk_calls s)
          p (seg_lists s).

Definition set_seg_lists (s : state) (p : Z) : state :=
  mkState (mem s) (mem_start_brk s) (mem_brk s) (mem_max_addr s) (sbrk_calls s)
          (heap_listp s) p.

(** A process that has not touched the allocator yet: an empty region
    starting at [lo] that may grow up to [hi]. *)
Definition fresh (m : memory) (lo hi : Z) : state :=
  mkState m lo lo hi 0%nat NULL NULL.

(** ** Outcomes and the monad *)

Inductive outcome (A : Type) : Type :=
| Ret (a : A) (s : state)   (* the call returns [a] *)
| Fault                     (* access outside the region *)
| Exit (code : Z)           (* the process was terminated by [exit] *)
| OutOfFuel.                (* loop budget spent *)

Arguments Ret {A} a s.
Arguments Fault {A}.
Arguments Exit {A} code.
Arguments OutOfFuel {A}.

Definition M (A : Type) : Type := state -> outcome A.

Definition ret {A} (a : A) : M A := fun s => Ret a s.

Definition bind {A B} (c : M A) (k : A -> M B) : M B :=
  fun s => match c s with
           | Ret a s' => k a s'
           | Fault => Fault
           | Exit code => Exit code
           | OutOfFuel => OutOfFuel
           end.

Notation "x <- c1 ;; c2" := (bind c1 (fun x => c2))
  (at level 61, c1 at next level, right associativity).
Notation "c1 ;; c2" := (bind c1 (fun _ => c2))
  (at level 61, right associativity).

Definition get_heap_listp : M Z := fun s => Ret (heap_listp s) s.
Definition get_seg_lists : M Z := fun s => Ret (seg_lists s) s.
Definition put_heap_listp (p : Z) : M unit := fun s => Ret tt (set_heap_listp s p).
Definition put_seg_lists (p : Z) : M unit := fun s => Ret tt (set_seg_lists s p).

(** [n] bytes at [p] lie inside the region. *)
Definition valid (s : state) (p n : Z) : bool :=
  (mem_start_brk s <=? p) && (p + n <=? mem_brk s).

Definition load32 (p : Z) : M Z :=
  fun s => if valid s p 4 then Ret (get32 (mem s) p) s else Fault.

Definition store32 (p v : Z) : M unit :=
  fun s => if valid s p 4 then Ret tt (set_mem s (set32 (mem s) p v)) else Fault.

(** [memset] and [memcpy]; a length of zero touches nothing. *)
Definition memset (p c n : Z) : M unit :=
  fun s => if n =? 0 then Ret tt s
           else if valid s p n then Ret tt (set_mem s (fill (mem s) p n c))
           else Fault.

Definition memcpy (dst src n : Z) : M unit :=
  fun s => if n =? 0 then Ret tt s
           else if valid s dst n && valid s src n
                then Ret tt (set_mem s (copy (mem s) dst src n))
                else Fault.

(** Modelled from the spec: the backing store ([memlib.h] is not part of
    the sources).  [mem_sbrk] extends the region by [incr] bytes and
    returns the start of the extension, or [(void * )-1] when the store is
    exhausted; [mem_heap_lo] and [mem_heap_hi] are the first and the last
    byte of the region. *)
Definition mem_sbrk (incr : Z) : M Z :=
  fun s =>
    if mem_brk s + incr <=? mem_max_addr s
    then Ret (mem_brk s)
             (mkState (mem s) (mem_start_brk s) (mem_brk s + incr) (mem_max_addr s)
                      (S (sbrk_calls s)) (heap_listp s) (seg_lists s))
    else Ret (size_t (-1))
             (mkState (mem s) (mem_start_brk s) (mem_brk s) (mem_max_addr s)
                      (S (sbrk_calls s)) (heap_listp s) (seg_lists s)).

Definition mem_heap_lo : M Z := fun s => Ret (mem_start_brk s) s.
Definition mem_heap_hi : M Z := fun s => Ret (mem_brk s - 1) s.

(** ** Constants and macros of mm.c *)

Definition ALIGNMENT : Z := 8.
Definition WSIZE : Z := 4.
Definition DSIZE : Z := 8.
Definition CHUNKSIZE : Z := Z.shiftl 1 12.
Definition LISTNUM : Z := 10.

(** [ALIGN(p) = ((size_t)(p) + (ALIGNMENT - 1)) & ~0x7] *)
Definition ALIGN (p : Z) : Z :=
  Z.land (size_t (size_t p + (ALIGNMENT - 1))) (Z.lnot 7).

Definition MAX (x y : Z) : Z := if x >? y then x else y.

(** [PACK(size, alloc) = (size) | (alloc)] *)
Definition PACK (size alloc : Z) : Z := Z.lor size alloc.

Definition GET (p : Z) : M Z := load32 p.
(** The stored value is converted to [u_32]. *)
Definition PUT (p val : Z) : M unit := store32 p (u_32 val).

Definition GET_SIZE (p : Z) : M Z := v <- GET p ;; ret (Z.land v (Z.lnot 7)).
Definition GET_ALLOC (p : Z) : M Z := v <- GET p ;; ret (Z.land v 1).

Definition HDRP (bp : Z) : Z := padd bp (- WSIZE).
Definition FTRP (bp : Z) : M Z :=
  sz <- GET_SIZE (HDRP bp) ;; ret (padd (padd bp sz) (- DSIZE)).

Definition NEXT_BLKP (bp : Z) : M Z :=
  sz <- GET_SIZE (padd bp (- WSIZE)) ;; ret (padd bp sz).
Definition PREV_BLKP (bp : Z) : M Z :=
  sz <- GET_SIZE (padd bp (- DSIZE)) ;; ret (padd bp (- sz)).

Definition PTR2PREVBIAS (bp : Z) : Z := bp.
Definition PTR2NEXTBIAS (bp : Z) : Z := padd bp WSIZE.

Definition PREV_FBP_BIAS (bp : Z) : M Z := load32 (PTR2PREVBIAS bp).
Definition NEXT_FBP_BIAS (bp : Z) : M Z := load32 (PTR2NEXTBIAS bp).

(** [B2P(base, bias)]: a zero bias is the null pointer. *)
Definition B2P (base bias : Z) : Z :=
  if bias >? 0 then size_t (size_t base + size_t bias) else NULL.

(** [P2B(base, ptr) = (u_32)((size_t)(ptr) - (size_t)(base))] *)
Definition P2B (base ptr : Z) : Z := u_32 (size_t (size_t ptr - size_t base)).

Definition SET_BIAS (p bias : Z) : M unit := store32 p (u_32 bias).

(** [seg_lists[i]] as an lvalue, read and written. *)
Definition seg_slot (segs i : Z) : Z := padd segs (4 * i).
Definition seg_get (i : Z) : M Z := segs <- get_seg_lists ;; load32 (seg_slot segs i).
Definition seg_set (i v : Z) : M unit :=
  segs <- get_seg_lists ;; store32 (seg_slot segs i) (u_32 v).

(** ** The segregated lists *)

(** [while ((list_index < LISTNUM - 1) && (asize > (16 << list_index)))
      ++list_index;]
    The index never exceeds 9, so nine iterations exhaust the loop. *)
Fixpoint list_index_loop (n : nat) (list_index asize : Z) : Z :=
  match n with
  | O => list_index
  | S n' =>
      if (list_index <? LISTNUM - 1) && (asize >? Z.shiftl 16 list_index)
      then list_index_loop n' (list_index + 1) asize
      else list_index
  end.

Definition list_index_of (asize : Z) : Z := list_index_loop 9 0 asize.

(** The scan of [add_to_list]:
    [while ((next_ptr != NULL) && (asize > GET_SIZE(HDRP(next_ptr))))
       { prev_ptr = next_ptr; next_ptr = B2P(heap_listp, NEXT_FBP_BIAS(next_ptr)); }] *)
Fixpoint add_scan (fuel : nat) (asize prev_ptr next_ptr : Z) : M (Z * Z) :=
  match fuel with
  | O => fun _ => OutOfFuel
  | S fuel' =>
      if next_ptr =? NULL then ret (prev_ptr, next_ptr)
      else
        sz <- GET_SIZE (HDRP next_ptr) ;;
        if asize >? sz then
          nb <- NEXT_FBP_BIAS next_ptr ;;
          base <- get_heap_listp ;;
          add_scan fuel' asize next_ptr (B2P base nb)
        else ret (prev_ptr, next_ptr)
  end.

Definition add_to_list (fuel : nat) (bp asize : Z) : M unit :=
  let list_index := list_index_of asize in
  base <- get_heap_listp ;;
  h <- seg_get list_index ;;
  let next_ptr := B2P base h in
  if next_ptr =? NULL then
    (* empty list, just insert *)
    SET_BIAS (PTR2NEXTBIAS bp) 0 ;;
    SET_BIAS (PTR2PREVBIAS bp) 0 ;;
    seg_set list_index (P2B base bp)
  else
    sz <- GET_SIZE (HDRP next_ptr) ;;
    if asize <=? sz then
      (* insert as the new first node *)
      SET_BIAS (PTR2NEXTBIAS bp) (P2B base next_ptr) ;;
      SET_BIAS (PTR2PREVBIAS next_ptr) (P2B base bp) ;;
      SET_BIAS (PTR2PREVBIAS bp) 0 ;;
      seg_set list_index (P2B base bp)
    else
      pn <- add_scan fuel asize NULL next_ptr ;;
      let prev_ptr := fst pn in
      let next_ptr := snd pn in
      if negb (next_ptr =? NULL) then
        (* insert in the middle *)
        SET_BIAS (PTR2NEXTBIAS bp) (P2B base next_ptr) ;;
        SET_BIAS (PTR2PREVBIAS next_ptr) (P2B base bp) ;;
        SET_BIAS (PTR2NEXTBIAS prev_ptr) (P2B base bp) ;;
        SET_BIAS (PTR2PREVBIAS bp) (P2B base prev_ptr)
      else
        (* insert as the last node *)
        SET_BIAS (PTR2NEXTBIAS bp) 0 ;;
        SET_BIAS (PTR2NEXTBIAS prev_ptr) (P2B base bp) ;;
        SET_BIAS (PTR2PREVBIAS bp) (P2B base prev_ptr)
  .

Definition remove_from_list (bp asize : Z) : M unit :=
  let list_index := list_index_of asize in
  base <- get_heap_listp ;;
  nb <- NEXT_FBP_BIAS bp ;;
  let next_ptr := B2P base nb in
  pb <- PREV_FBP_BIAS bp ;;
  let prev_ptr := B2P base pb in
  if (prev_ptr =? NULL) && (next_ptr =? NULL) then
    seg_set list_index 0
  else if (prev_ptr =? NULL) && negb (next_ptr =? NULL) then
    SET_BIAS (PTR2PREVBIAS next_ptr) 0 ;;
    seg_set list_index (P2B base next_ptr)
  else if negb (prev_ptr =? NULL) && (next_ptr =? NULL) then
    SET_BIAS (PTR2NEXTBIAS prev_ptr) 0
  else
    SET_BIAS (PTR2NEXTBIAS prev_ptr) (P2B base next_ptr) ;;
    SET_BIAS (PTR2PREVBIAS next_ptr) (P2B base prev_ptr).

(** ** Placement, coalescing, growth *)

Definition place (fuel : nat) (bp size : Z) : M Z :=
  blk_size <- GET_SIZE (HDRP bp) ;;
  let delta := size_t (blk_size - size) in
  remove_from_list bp blk_size ;;
  if delta <? 2 * DSIZE then
    PUT (HDRP bp) (PACK blk_size 1) ;;
    ft <- FTRP bp ;; PUT ft (PACK blk_size 1) ;;
    ret bp
  else
    PUT (HDRP bp) (PACK size 1) ;;
    ft <- FTRP bp ;; PUT ft (PACK size 1) ;;
    nx <- NEXT_BLKP bp ;; add_to_list fuel nx delta ;;
    nx <- NEXT_BLKP bp ;; PUT (HDRP nx) (PACK delta 0) ;;
    nx <- NEXT_BLKP bp ;; ft <- FTRP nx ;; PUT ft (PACK delta 0) ;;
    ret bp.

Definition coalesce (fuel : nat) (bp : Z) : M Z :=
  pv <- PREV_BLKP bp ;; prev_alloc <- GET_ALLOC (HDRP pv) ;;
  nx <- NEXT_BLKP bp ;; next_alloc <- GET_ALLOC (HDRP nx) ;;
  asize <- GET_SIZE (HDRP bp) ;;
  if negb (prev_alloc =? 0) && negb (next_alloc =? 0) then ret bp
  else if negb (prev_alloc =? 0) && (next_alloc =? 0) then
    (* just coalesce the next block *)
    nx <- NEXT_BLKP bp ;; next_size <- GET_SIZE (HDRP nx) ;;
    remove_from_list bp asize ;;
    nx <- NEXT_BLKP bp ;; remove_from_list nx next_size ;;
    let asize := size_t (asize + next_size) in
    PUT (HDRP bp) (PACK asize 0) ;;
    ft <- FTRP bp ;; PUT ft (PACK asize 0) ;;
    add_to_list fuel bp asize ;;
    ret bp
  else if (prev_alloc =? 0) && negb (next_alloc =? 0) then
    (* just coalesce the prev block *)
    pv <- PREV_BLKP bp ;; prev_size <- GET_SIZE (HDRP pv) ;;
    remove_from_list bp asize ;;
    pv <- PREV_BLKP bp ;; remove_from_list pv prev_size ;;
    let asize := size_t (asize + prev_size) in
    bp <- PREV_BLKP bp ;;
    PUT (HDRP bp) (PACK asize 0) ;;
    ft <- FTRP bp ;; PUT ft (PACK asize 0) ;;
    add_to_list fuel bp asize ;;
    ret bp
  else
    (* coalesce both the prev and next block *)
    nx <- NEXT_BLKP bp ;; next_size <- GET_SIZE (HDRP nx) ;;
    pv <- PREV_BLKP bp ;; prev_size <- GET_SIZE (HDRP pv) ;;
    remove_from_list bp asize ;;
    pv <- PREV_BLKP bp ;; remove_from_list pv prev_size ;;
    nx <- NEXT_BLKP bp ;; remove_from_list nx next_size ;;
    let asize := size_t (asize + size_t (next_size + prev_size)) in
    bp <- PREV_BLKP bp ;;
    PUT (HDRP bp) (PACK asize 0) ;;
    ft <- FTRP bp ;; PUT ft (PACK asize 0) ;;
    add_to_list fuel bp asize ;;
    ret bp.

Definition extend_heap (fuel : nat) (size : Z) : M Z :=
  let asize := ALIGN size in
  bp <- mem_sbrk asize ;;
  if bp =? size_t (-1) then ret NULL
  else
    PUT (HDRP bp) (PACK asize 0) ;;
    ft <- FTRP bp ;; PUT ft (PACK asize 0) ;;
    nx <- NEXT_BLKP bp ;; PUT (HDRP nx) (PACK 0 1) ;;
    add_to_list fuel bp asize ;;
    coalesce fuel bp.

(** ** Public operations *)

(** [mm_init]: the result is the C [int], [-1] on error and [0] on success. *)
Definition mm_init (fuel : nat) : M Z :=
  p <- mem_sbrk (14 * WSIZE) ;;
  put_heap_listp p ;;
  if p =? size_t (-1) then ret (-1)
  else
    PUT (padd p (0 * WSIZE)) 0 ;;
    PUT (padd p (1 * WSIZE)) 0 ;;
    PUT (padd p (2 * WSIZE)) 0 ;;
    PUT (padd p (3 * WSIZE)) 0 ;;
    PUT (padd p (4 * WSIZE)) 0 ;;
    PUT (padd p (5 * WSIZE)) 0 ;;
    PUT (padd p (6 * WSIZE)) 0 ;;
    PUT (padd p (7 * WSIZE)) 0 ;;
    PUT (padd p (8 * WSIZE)) 0 ;;
    PUT (padd p (9 * WSIZE)) 0 ;;
    PUT (padd p (10 * WSIZE)) 0 ;;
    PUT (padd p (11 * WSIZE)) (PACK DSIZE 1) ;;
    PUT (padd p (12 * WSIZE)) (PACK DSIZE 1) ;;
    PUT (padd p (13 * WSIZE)) (PACK 0 1) ;;
    put_seg_lists p ;;
    put_heap_listp (padd p (12 * WSIZE)) ;;
    r <- extend_heap fuel CHUNKSIZE ;;
    if r =? NULL then ret (-1) else ret 0.

(** The scan of [malloc]:
    [while ((bp != NULL) && ((asize > GET_SIZE(HDRP(bp)))))
       bp = B2P(heap_listp, NEXT_FBP_BIAS(bp));] *)
Fixpoint fit_scan (fuel : nat) (asize bp : Z) : M Z :=
  match fuel with
  | O => fun _ => OutOfFuel
  | S fuel' =>
      if bp =? NULL then ret bp
      else
        sz <- GET_SIZE (HDRP bp) ;;
        if asize >? sz then
          nb <- NEXT_FBP_BIAS bp ;;
          base <- get_heap_listp ;;
          fit_scan fuel' asize (B2P base nb)
        else ret bp
  end.

(** The [for] loop of [malloc] over the lists before the last one; it
    yields [bp] and the value of [list_index] on leaving the loop.  [n]
    counts the iterations that remain, nine at the start. *)
Fixpoint malloc_lists (fuel n : nat) (list_index asize bp : Z) : M (Z * Z) :=
  match n with
  | O => ret (bp, list_index)
  | S n' =>
      if list_index <? LISTNUM - 1 then
        if asize <=? Z.shiftl 16 list_index then
          h <- seg_get list_index ;;
          if negb (h =? 0) then
            base <- get_heap_listp ;;
            bp' <- fit_scan fuel asize (B2P base h) ;;
            if negb (bp' =? NULL) then ret (bp', list_index)
            else malloc_lists fuel n' (list_index + 1) asize bp'
          else malloc_lists fuel n' (list_index + 1) asize bp
        else malloc_lists fuel n' (list_index + 1) asize bp
      else ret (bp, list_index)
  end.

(** Lines 186-205 of [malloc]: the search for a free block. *)
Definition malloc_search (fuel : nat) (asize : Z) : M Z :=
  r <- malloc_lists fuel 9 0 asize NULL ;;
  let bp := fst r in
  let list_index := snd r in
  if bp =? NULL then
    base <- get_heap_listp ;;
    h <- seg_get list_index ;;
    fit_scan fuel asize (B2P base h)
  else ret bp.

(** [asize = (size <= DSIZE) ? (DSIZE << 1) : (ALIGN(size + DSIZE))] *)
Definition adjust (size : Z) : Z :=
  if size <=? DSIZE then Z.shiftl DSIZE 1 else ALIGN (size_t (size + DSIZE)).

Definition lazy_init (fuel : nat) : M unit :=
  hl <- get_heap_listp ;;
  if hl =? NULL then (mm_init fuel ;; ret tt) else ret tt.

Definition malloc (fuel : nat) (size : Z) : M Z :=
  lazy_init fuel ;;
  if size =? 0 then ret NULL
  else
    let asize := adjust size in
    bp <- malloc_search fuel asize ;;
    if bp =? NULL then
      bp <- extend_heap fuel (MAX asize CHUNKSIZE) ;;
      if bp =? NULL then ret NULL
      else place fuel bp asize
    else place fuel bp asize.

Definition free (fuel : nat) (bp : Z) : M unit :=
  lazy_init fuel ;;
  if bp =? NULL then ret tt
  else
    asize <- GET_SIZE (HDRP bp) ;;
    PUT (HDRP bp) (PACK asize 0) ;;
    ft <- FTRP bp ;; PUT ft (PACK asize 0) ;;
    add_to_list fuel bp asize ;;
    coalesce fuel bp ;;
    ret tt.

Definition realloc (fuel : nat) (oldptr size : Z) : M Z :=
  if size =? 0 then free fuel oldptr ;; ret 0
  else if oldptr =? NULL then malloc fuel size
  else
    newptr <- malloc fuel size ;;
    if newptr =? NULL then ret 0
    else
      nsz <- GET_SIZE (HDRP newptr) ;;
      let size := u_32 (nsz - DSIZE) in
      osz <- GET_SIZE (HDRP oldptr) ;;
      let oldsize := u_32 (osz - DSIZE) in
      let oldsize := if size <? oldsize then size else oldsize in
      memcpy newptr oldptr oldsize ;;
      free fuel oldptr ;;
      ret newptr.

Definition calloc (fuel : nat) (nmemb size : Z) : M Z :=
  let asize := size_t (nmemb * size) in
  newptr <- malloc fuel asize ;;
  sz <- GET_SIZE (HDRP newptr) ;;
  memset newptr 0 sz ;;
  ret newptr.

(** ** The consistency checker *)

Definition in_heap (p : Z) : M bool :=
  hi <- mem_heap_hi ;; lo <- mem_heap_lo ;; ret ((p <=? hi) && (p >=? lo)).

Definition aligned (p : Z) : bool := size_t (ALIGN p) =? size_t p.

Definition exit {A} (code : Z) : M A := fun _ => Exit code.

(** [a || b] on C truth values, [b] evaluated only when [a] is false. *)
Definition orelse (a : bool) (b : M bool) : M bool :=
  if a then ret true else b.

(** One turn of the walk over the blocks (lines 346-370): the four tests on
    the block at [heap_bp], each of which may set [error_found]. *)
Definition check_block (heap_bp error_found : Z) : M Z :=
  hs <- GET_SIZE (HDRP heap_bp) ;;
  ft <- FTRP heap_bp ;; fs <- GET_SIZE ft ;;
  let error_found := if negb (hs =? fs) then 1 else error_found in
  ha <- GET_ALLOC (HDRP heap_bp) ;;
  ft <- FTRP heap_bp ;; fa <- GET_ALLOC ft ;;
  let error_found := if negb (ha =? fa) then 1 else error_found in
  let error_found := if negb (aligned heap_bp) then 1 else error_found in
  ih <- in_heap heap_bp ;;
  let error_found := if negb ih then 1 else error_found in
  ret error_found.

(** [while (GET_SIZE(HDRP(heap_bp)) || !GET_ALLOC(HDRP(heap_bp))) ...] *)
Fixpoint check_blocks (fuel : nat) (heap_bp error_found : Z) : M Z :=
  match fuel with
  | O => fun _ => OutOfFuel
  | S fuel' =>
      sz <- GET_SIZE (HDRP heap_bp) ;;
      go <- orelse (negb (sz =? 0))
                   (al <- GET_ALLOC (HDRP heap_bp) ;; ret (al =? 0)) ;;
      if go then
        error_found <- check_block heap_bp error_found ;;
        nx <- NEXT_BLKP heap_bp ;;
        check_blocks fuel' nx error_found
      else ret error_found
  end.

(** One turn of the walk over a list (lines 381-394). *)
Definition check_entry (list_index free_bp error_found : Z) : M Z :=
  pv <- PREV_BLKP free_bp ;; pa <- GET_ALLOC (HDRP pv) ;;
  unc <- orelse (pa =? 0)
                (nx <- NEXT_BLKP free_bp ;; na <- GET_ALLOC (HDRP nx) ;;
                 ret (na =? 0)) ;;
  let error_found := if unc then 1 else error_found in
  size <- GET_SIZE (HDRP free_bp) ;;
  let error_found :=
    if negb ((size >? Z.shiftl 8 list_index) && (size <=? Z.shiftl 16 list_index))
    then 1 else error_found in
  ret error_found.

Fixpoint check_list (fuel : nat) (list_index free_bp error_found : Z) : M Z :=
  match fuel with
  | O => fun _ => OutOfFuel
  | S fuel' =>
      if free_bp =? NULL then ret error_found
      else
        error_found <- check_entry list_index free_bp error_found ;;
        nb <- NEXT_FBP_BIAS free_bp ;;
        base <- get_heap_listp ;;
        check_list fuel' list_index (B2P base nb) error_found
  end.

(** [for (int list_index = 0; list_index < LISTNUM; ++list_index)]; [n]
    counts the iterations that remain, ten at the start. *)
Fixpoint check_lists (fuel n : nat) (list_index error_found : Z) : M Z :=
  match n with
  | O => ret error_found
  | S n' =>
      if list_index <? LISTNUM then
        base <- get_heap_listp ;;
        h <- seg_get list_index ;;
        error_found <- check_list fuel list_index (B2P base h) error_found ;;
        check_lists fuel n' (list_index + 1) error_found
      else ret error_found
  end.

(** The value of [error_found] when line 398 is reached. *)
Definition checkheap_flag (fuel : nat) : M Z :=
  hl <- get_heap_listp ;;
  let error_found := if hl =? NULL then 1 else 0 in
  sl <- get_seg_lists ;;
  let error_found := if sl =? NULL then 1 else error_found in
  error_found <- check_blocks fuel hl error_found ;;
  check_lists fuel 10 0 error_found.

Definition mm_checkheap (fuel : nat) (lineno : Z) : M unit :=
  error_found <- checkheap_flag fuel ;;
  if negb (error_found =? 0) then exit 0 else ret tt.

(** * Specification-level definitions *)

(** ** Size classes (section 4.2 of the specification)

    [class_of size] is the smallest [k] with [size <= 16 * 2^k], clamped to
    the last index. *)
Definition class_bound (k : Z) : Z := 16 * 2 ^ k.

Fixpoint class_from (n : nat) (k size : Z) : Z :=
  match n with
  | O => k
  | S n' => if size <=? class_bound k then k else class_from n' (k + 1) size
  end.

Definition class_of (size : Z) : Z := class_from 9 0 size.

(** ** The search of section 4.3, steps 2 and 3

    [cascade] walks the classes [k], [k + 1], ... that come before the last
    one, skipping empty lists; in a non-empty list it takes the first entry
    whose size is at least [asize] and stops if there is one. *)
Fixpoint cascade (fuel n : nat) (k asize : Z) : M Z :=
  match n with
  | O => ret NULL
  | S n' =>
      h <- seg_get k ;;
      if h =? 0 then cascade fuel n' (k + 1) asize
      else
        base <- get_heap_listp ;;
        bp <- fit_scan fuel asize (B2P base h) ;;
        if bp =? NULL then cascade fuel n' (k + 1) asize else ret bp
  end.

Definition spec_search (fuel : nat) (asize : Z) : M Z :=
  let c := class_of asize in
  bp <- cascade fuel (Z.to_nat (LISTNUM - 1 - c)) c asize ;;
  if bp =? NULL then
    (* one explicit scan of the final, open-ended class *)
    base <- get_heap_listp ;;
    h <- seg_get (LISTNUM - 1) ;;
    fit_scan fuel asize (B2P base h)
  else ret bp.

(** ** Free lists as sequences of nodes

    [chain s pb b l]: following the next offsets from the offset [b] visits
    exactly the nodes [l] and ends in a zero offset; every node lies in the
    region together with its header, and its previous offset names the node
    before it ([pb] for the first one). *)
Definition node_ok (s : state) (q : Z) : Prop :=
  mem_start_brk s <= q - 4 /\ q + 8 <= mem_brk s.

Fixpoint chain (s : state) (pb b : Z) (l : list Z) : Prop :=
  match l with
  | [] => b = 0
  | q :: l' =>
      0 < b < 2 ^ 32 /\ q = heap_listp s + b /\ node_ok s q /\
      get32 (mem s) q = pb /\ chain s b (get32 (mem s) (q + 4)) l'
  end.

(** The list of class [i] consists of the nodes [l]. *)
Definition list_rep (s : state) (i : Z) (l : list Z) : Prop :=
  chain s 0 (get32 (mem s) (seg_lists s + 4 * i)) l.

(** The size field of the block at [q]. *)
Definition size_at (s : state) (q : Z) : Z :=
  Z.land (get32 (mem s) (q - 4)) (Z.lnot 7).

Fixpoint ascending (s : state) (l : list Z) : Prop :=
  match l with
  | [] => True
  | q :: l' => (forall q', In q' l' -> size_at s q <= size_at s q') /\ ascending s l'
  end.

(** The region, with the room it may still grow into, is a range of 64-bit
    addresses that contains neither the null pointer nor [(void * )-1]. *)
Definition region_ok (s : state) : Prop :=
  0 < mem_start_brk s /\ mem_start_brk s <= mem_brk s /\
  mem_brk s <= mem_max_addr s /\ mem_max_addr s < 2 ^ 64 - 1.

(** Only the memory differs between two states. *)
Definition same_regs (s s' : state) : Prop :=
  mem_start_brk s' = mem_start_brk s /\ mem_brk s' = mem_brk s /\
  mem_max_addr s' = mem_max_addr s /\ sbrk_calls s' = sbrk_calls s /\
  heap_listp s' = heap_listp s /\ seg_lists s' = seg_lists s.

(** A computation that changes nothing but the memory. *)
Definition mem_only {A} (c : M A) : Prop :=
  forall s a s', c s = Ret a s' -> same_regs s s'.

(** The backing store refuses the growth that [malloc] asks for when no
    free block fits [asize]. *)
Definition growth_refused (s : state) (asize : Z) : Prop :=
  mem_max_addr s < mem_brk s + ALIGN (MAX asize CHUNKSIZE).

(** The state after a refused growth request. *)
Definition refused (s : state) : state :=
  mkState (mem s) (mem_start_brk s) (mem_brk s) (mem_max_addr s)
          (S (sbrk_calls s)) (heap_listp s) (seg_lists s).

(** ** The checker's findings as a list

    The failed tests of a run of the checker, in the order in which the
    code meets them.  Each constructor stands for one of the diagnostics of
    [mm_checkheap]. *)
Inductive violation : Type :=
| HeapNotInitialized
| ListsNotInitialized
| SizeMismatch (bp : Z)
| AllocMismatch (bp : Z)
| NotAligned (bp : Z)
| NotInHeap (bp : Z)
| NotCoalesced (list_index bp : Z)
| WrongList (list_index bp : Z).

Definition when (b : bool) (v : violation) : list violation :=
  if b then [v] else [].

Definition block_violations (heap_bp : Z) : M (list violation) :=
  hs <- GET_SIZE (HDRP heap_bp) ;;
  ft <- FTRP heap_bp ;; fs <- GET_SIZE ft ;;
  ha <- GET_ALLOC (HDRP heap_bp) ;;
  ft <- FTRP heap_bp ;; fa <- GET_ALLOC ft ;;
  ih <- in_heap heap_bp ;;
  ret (when (negb (hs =? fs)) (SizeMismatch heap_bp)
       ++ when (negb (ha =? fa)) (AllocMismatch heap_bp)
       ++ when (negb (aligned heap_bp)) (NotAligned heap_bp)
       ++ when (negb ih) (NotInHeap heap_bp)).

Fixpoint heap_violations (fuel : nat) (heap_bp : Z) : M (list violation) :=
  match fuel with
  | O => fun _ => OutOfFuel
  | S fuel' =>
      sz <- GET_SIZE (HDRP heap_bp) ;;
      go <- orelse (negb (sz =? 0))
                   (al <- GET_ALLOC (HDRP heap_bp) ;; ret (al =? 0)) ;;
      if go then
        here <- block_violations heap_bp ;;
        nx <- NEXT_BLKP heap_bp ;;
        rest <- heap_violations fuel' nx ;;
        ret (here ++ rest)
      else ret []
  end.

Definition entry_violations (list_index free_bp : Z) : M (list violation) :=
  pv <- PREV_BLKP free_bp ;; pa <- GET_ALLOC (HDRP pv) ;;
  unc <- orelse (pa =? 0)
                (nx <- NEXT_BLKP free_bp ;; na <- GET_ALLOC (HDRP nx) ;;
                 ret (na =? 0)) ;;
  size <- GET_SIZE (HDRP free_bp) ;;
  ret (when unc (NotCoalesced list_index free_bp)
       ++ when (negb ((size >? Z.shiftl 8 list_index)
                      && (size <=? Z.shiftl 16 list_index)))
               (WrongList list_index free_bp)).

Fixpoint list_violations (fuel : nat) (list_index free_bp : Z) : M (list violation) :=
  match fuel with
  | O => fun _ => OutOfFuel
  | S fuel' =>
      if free_bp =? NULL then ret []
      else
        here <- entry_violations list_index free_bp ;;
        nb <- NEXT_FBP_BIAS free_bp ;;
        base <- get_heap_listp ;;
        rest <- list_violations fuel' list_index (B2P base nb) ;;
        ret (here ++ rest)
  end.

Fixpoint lists_violations (fuel n : nat) (list_index : Z) : M (list violation) :=
  match n with
  | O => ret []
  | S n' =>
      if list_index <? LISTNUM then
        base <- get_heap_listp ;;
        h <- seg_get list_index ;;
        here <- list_violations fuel list_index (B2P base h) ;;
        rest <- lists_violations fuel n' (list_index + 1) ;;
        ret (here ++ rest)
      else ret []
  end.

Definition checkheap_violations (fuel : nat) : M (list violation) :=
  hl <- get_heap_listp ;;
  sl <- get_seg_lists ;;
  blocks <- heap_violations fuel hl ;;
  lists <- lists_violations fuel 10 0 ;;
  ret (when (hl =? NULL) HeapNotInitialized
       ++ when (sl =? NULL) ListsNotInitialized
       ++ blocks ++ lists).

(** [error_found] after the tests that failed were [l]. *)
Definition raise (error_found : Z) (l : list violation) : Z :=
  match l with [] => error_found | _ :: _ => 1 end.

(** A computation that leaves the state as it found it. *)
Definition readonly {A} (c : M A) : Prop :=
  forall s a s', c s = Ret a s' -> s' = s.

(** ** Boundary tags (invariant 1 of section 3)

    The blocks met on the way from [bp] to the end sentinel, a header of
    size zero with the allocated bit set. *)
Fixpoint heap_blocks (fuel : nat) (bp : Z) : M (list Z) :=
  match fuel with
  | O => fun _ => OutOfFuel
  | S fuel' =>
      sz <- GET_SIZE (HDRP bp) ;;
      al <- GET_ALLOC (HDRP bp) ;;
      if (sz =? 0) && negb (al =? 0) then ret []
      else
        nx <- NEXT_BLKP bp ;;
        rest <- heap_blocks fuel' nx ;;
        ret (bp :: rest)
  end.

(** The header word of the block at [bp] equals its footer word. *)
Definition tags_agree (s : state) (bp : Z) : Prop :=
  get32 (mem s) (bp - 4) = get32 (mem s) (bp + size_at s bp - 8).

(** The heap can be walked from the prologue to the sentinel and every
    block on the way has a header equal to its footer. *)
Definition boundary_tags_ok (s : state) : Prop :=
  exists fuel l,
    heap_blocks fuel (heap_listp s) s = Ret l s /\
    forall bp, In bp l -> tags_agree s bp.

(** ** Concrete runs

    A process whose region starts at [0x10000], may grow by one megabyte
    and holds zero bytes. *)
Definition boot : state := fresh (fun _ => 0) 65536 (65536 + 2 ^ 20).

(** The same process with a backing store that is exhausted once the
    allocator has initialised itself. *)
Definition boot_small : state := fresh (fun _ => 0) 65536 (65536 + 56 + 4096).

(** The state a call leaves behind (the state before it when it does not
    return) and the value it returns. *)
Definition exec {A} (c : M A) (s : state) : state :=
  match c s with Ret _ s' => s' | _ => s end.

Definition value {A} (c : M A) (s : state) : option A :=
  match c s with Ret a _ => Some a | _ => None end.

Definition booted : state := exec (mm_init 100) boot.
Definition cramped : state := exec (mm_init 100) boot_small.

(** The first payload address of a freshly initialised heap. *)
Definition first_bp : Z := 65536 + 56.

(** A caller took 24 bytes and wrote one word past them, onto the footer. *)
Definition smashed : state :=
  exec (store32 (first_bp + 24) 0) (exec (malloc 100 24) booted).

(** A block of 20000 bytes was taken and given back. *)
Definition big_free : state :=
  exec (free 100 first_bp) (exec (malloc 100 20000) booted).

(** Eight bytes taken with [malloc] and with [calloc]. *)
Definition took8 : state := exec (malloc 100 8) booted.
Definition zeroed8 : state := exec (calloc 100 1 8) booted.

(** The largest [size_t] asked of [malloc]. *)
Definition huge : state := exec (malloc 100 (2 ^ 64 - 1)) booted.

(** The caller of [took8] filled its eight bytes: 20 0 0 0 0 0 0 0. *)
Definition patterned : state :=
  exec (store32 (first_bp + 4) 0) (exec (store32 first_bp 20) took8).

(** ... and then asked [realloc] for [2^64 - 8] bytes. *)
Definition resized : state := exec (realloc 100 first_bp (2 ^ 64 - 8)) patterned.

(** Four blocks were taken, of 112, 16, 128 and 16 bytes, and the first
    and the third were given back: list 3 holds both of them. *)
Definition two_free : state :=
  exec (free 100 (first_bp + 128))
    (exec (free 100 first_bp)
       (exec (malloc 100 8)
          (exec (malloc 100 120)
             (exec (malloc 100 8)
                (exec (malloc 100 100) booted))))).

(** Six blocks were taken, of 112, 16, 120, 16, 128 and 16 bytes; the
    first and the fifth were given back, and the tags of the third have
    just been marked free, as [free] does before it calls [add_to_list]. *)
Definition mark_free (bp : Z) : M unit :=
  asize <- GET_SIZE (HDRP bp) ;;
  PUT (HDRP bp) (PACK asize 0) ;;
  ft <- FTRP bp ;; PUT ft (PACK asize 0).

Definition marked : state :=
  exec (mark_free (first_bp + 128))
    (exec (free 100 (first_bp + 264))
       (exec (free 100 first_bp)
          (exec (malloc 100 8)
             (exec (malloc 100 120)
                (exec (malloc 100 8)
                   (exec (malloc 100 112)
                      (exec (malloc 100 8)
                         (exec (malloc 100 100) booted)))))))).

(** The bytes [p], ..., [p + n - 1]. *)
Definition bytes (s : state) (p : Z) (n : nat) : list Z :=
  map (fun i => byte_at (mem s) (p + Z.of_nat i)) (seq 0 n).

(** ** The heap invariant

    The blocks of the heap as a list, the ten lists as lists of nodes, and
    what ties them to the memory. *)

(** The word that tags a block of [sz] bytes. *)
Definition tag (sz : Z) (fr : bool) : Z := if fr then sz else sz + 1.

(** The offset that stands for the node [q]. *)
Definition off (s : state) (q : Z) : Z := q - heap_listp s.

Definition head_off (s : state) (l : list Z) (e : Z) : Z :=
  match l with [] => e | q :: _ => off s q end.

Fixpoint last_off (s : state) (pb : Z) (l : list Z) : Z :=
  match l with [] => pb | q :: l' => last_off s (off s q) l' end.

(** The previous offsets along [l], the first of them being [pb]. *)
Fixpoint prevs (s : state) (pb : Z) (l : list Z) : Prop :=
  match l with
  | [] => True
  | q :: l' => get32 (mem s) q = pb /\ prevs s (off s q) l'
  end.

(** The next offsets along [l], the last of them being [e]. *)
Fixpoint nexts (s : state) (l : list Z) (e : Z) : Prop :=
  match l with
  | [] => True
  | q :: l' => get32 (mem s) (q + 4) = head_off s l' e /\ nexts s l' e
  end.

Definition nodes_ok (s : state) (l : list Z) : Prop :=
  forall q, In q l -> node_ok s q /\ 0 < off s q < 2 ^ 32.

Definition links (s : state) (pb : Z) (l : list Z) : Prop :=
  nodes_ok s l /\ prevs s pb l /\ nexts s l 0.

(** Two nodes whose link words do not overlap. *)
Definition far (q q' : Z) : Prop := q + 8 <= q' \/ q' + 8 <= q.

(** The nodes of [l] are pairwise far from each other. *)
Fixpoint sep (l : list Z) : Prop :=
  match l with
  | [] => True
  | q :: l' => (forall q', In q' l' -> far q q') /\ sep l'
  end.

(** The memory after [bp] has been put between [l1] and [l2] in the list
    whose head is stored at [slot]. *)
Definition add_mem (s : state) (slot bp : Z) (l1 l2 : list Z) : memory :=
  let m := mem s in
  let d := off s bp in
  match l1, l2 with
  | [], [] => set32 (set32 (set32 m (bp + 4) 0) bp 0) slot d
  | [], n :: _ => set32 (set32 (set32 (set32 m (bp + 4) (off s n)) n d) bp 0) slot d
  | _ :: _, n :: _ =>
      let p := last l1 NULL in
      set32 (set32 (set32 (set32 m (bp + 4) (off s n)) n d) (p + 4) d) bp (off s p)
  | _ :: _, [] =>
      let p := last l1 NULL in
      set32 (set32 (set32 m (bp + 4) 0) (p + 4) d) bp (off s p)
  end.

(** The memory after the node between [l1] and [l2] has been taken out. *)
Definition remove_mem (s : state) (slot : Z) (l1 l2 : list Z) : memory :=
  let m := mem s in
  match l1, l2 with
  | [], [] => set32 m slot 0
  | [], n :: _ => set32 (set32 m n 0) slot (off s n)
  | _ :: _, [] => set32 m (last l1 NULL + 4) 0
  | _ :: _, n :: _ =>
      let p := last l1 NULL in
      set32 (set32 m (p + 4) (off s n)) n (off s p)
  end.

(** A block: the address of its payload, its size in bytes (header and
    footer included) and whether it is free. *)
Definition block : Type := (Z * Z * bool)%type.

(** The blocks [bs] tile the addresses from [q] to [e]: each starts where
    the one before it ends, and each size is a multiple of 8, at least 16. *)
Fixpoint laid (q : Z) (bs : list block) (e : Z) : Prop :=
  match bs with
  | [] => q = e
  | (a, sz, fr) :: bs' =>
      a = q /\ 16 <= sz /\ sz mod 8 = 0 /\ laid (q + sz) bs' e
  end.

(** Header and footer of every block hold its tag, except for the blocks
    in [T], whose tags are still to be written. *)
Definition tags (m : memory) (bs : list block) (T : list Z) : Prop :=
  forall a sz fr, In (a, sz, fr) bs -> ~ In a T ->
    get32 m (a - 4) = tag sz fr /\ get32 m (a + sz - 8) = tag sz fr.

Definition is_free (b : block) : bool := snd b.

Definition head_free (bs : list block) : bool :=
  match bs with [] => false | b :: _ => is_free b end.

Fixpoint last_free (bs : list block) : bool :=
  match bs with
  | [] => false
  | [b] => is_free b
  | _ :: bs' => last_free bs'
  end.

(** No free block is followed by a free block. *)
Fixpoint coalesced (bs : list block) : Prop :=
  match bs with
  | [] => True
  | b :: bs' => (is_free b = true -> head_free bs' = false) /\ coalesced bs'
  end.

(** The backing store offers less than 4 GiB in all, so that every
    address it can hand out is within reach of a 32-bit offset from its
    start and every block size fits a 32-bit tag.  Section 4.1 of the
    specification bounds the heap to this range; the code never tests
    it. *)
Definition small_store (s : state) : Prop :=
  mem_max_addr s - mem_start_brk s < 2 ^ 32.

(** The globals point where [mm_init] puts them, and the region is 8-byte
    aligned and holds at least the list heads and the sentinels. *)
Definition placement (s : state) : Prop :=
  region_ok s /\
  mem_start_brk s mod 8 = 0 /\
  seg_lists s = mem_start_brk s /\
  heap_listp s = mem_start_brk s + 48 /\
  mem_start_brk s + 56 <= mem_brk s.

(** [placement] on a small store: the form in which the proofs carry the
    two along. *)
Definition geometry (s : state) : Prop :=
  region_ok s /\
  mem_start_brk s mod 8 = 0 /\
  seg_lists s = mem_start_brk s /\
  heap_listp s = mem_start_brk s + 48 /\
  mem_start_brk s + 56 <= mem_brk s /\
  mem_max_addr s - mem_start_brk s < 2 ^ 32.

(** Prologue header and footer, and the end sentinel. *)
Definition sentinels (s : state) : Prop :=
  get32 (mem s) (mem_start_brk s + 44) = 9 /\
  get32 (mem s) (mem_start_brk s + 48) = 9 /\
  get32 (mem s) (mem_brk s - 4) = 1.

(** The block structure of the heap. *)
Definition blocks_ok (s : state) (bs : list block) (T : list Z) : Prop :=
  geometry s /\ sentinels s /\
  laid (mem_start_brk s + 56) bs (mem_brk s) /\
  tags (mem s) bs T.

(** Sizes along a list never decrease. *)
Fixpoint ascend (l : list (Z * Z)) : Prop :=
  match l with
  | [] => True
  | x :: l' => (forall y, In y l' -> snd x <= snd y) /\ ascend l'
  end.

(** The ten lists [ls 0], ..., [ls 9], each a list of (address, size):
    every list is a well-formed chain in ascending order of size without
    repetition; its entries are free blocks of its class; and every free
    block is entered in the list of its class, except those in [U], which
    are in no list. *)
Definition lists_ok (s : state) (bs : list block)
           (ls : Z -> list (Z * Z)) (U : list Z) : Prop :=
  (forall i, 0 <= i <= 9 ->
     list_rep s i (map fst (ls i)) /\ ascend (ls i) /\ NoDup (map fst (ls i))) /\
  (forall i q sz, 0 <= i <= 9 -> In (q, sz) (ls i) ->
     In (q, sz, true) bs /\ class_of sz = i /\ ~ In q U) /\
  (forall q sz, In (q, sz, true) bs -> ~ In q U -> In (q, sz) (ls (class_of sz))).

Definition core (s : state) (bs : list block)
           (ls : Z -> list (Z * Z)) (U T : list Z) : Prop :=
  blocks_ok s bs T /\ lists_ok s bs ls U.

(** The global invariant on a small store, in the form the proofs use:
    the blocks [bs] tile the heap between the prologue and the epilogue,
    8-byte aligned and inside the region; header and footer of each block
    agree; no two neighbours are both free; the free blocks are exactly the
    entries of the lists, each in the list of its class and in ascending
    order of size; and every link of a list leads to a node inside the
    region. *)
Definition heap_ok (s : state) (bs : list block) (ls : Z -> list (Z * Z)) : Prop :=
  core s bs ls [] [] /\ coalesced bs.

(** Changes from [m] to [m'] are confined to the bytes in [P]. *)
Definition confined (m m' : memory) (P : Z -> Prop) : Prop :=
  forall x, ~ P x -> byte_at m' x = byte_at m x.

(** The word at [a]. *)
Definition word (a : Z) (x : Z) : Prop := a <= x < a + 4.

(** The list heads and the link words of the free blocks: what the list
    operations may write. *)
Definition links_area (s : state) (bs : list block) (x : Z) : Prop :=
  mem_start_brk s <= x < mem_start_brk s + 40 \/
  exists q sz, In (q, sz, true) bs /\ q <= x < q + 8.

Definition upd (ls : Z -> list (Z * Z)) (i : Z) (l : list (Z * Z)) : Z -> list (Z * Z) :=
  fun j => if j =? i then l else ls j.

(** From [s] to [s'] the region may have grown; the globals are the same. *)
Definition grown (s s' : state) : Prop :=
  mem_start_brk s' = mem_start_brk s /\ mem_brk s <= mem_brk s' /\
  heap_listp s' = heap_listp s /\ seg_lists s' = seg_lists s.

(** Both boundary tags of the block at [a] rewritten. *)
Definition retag (m : memory) (a sz : Z) (fr : bool) : memory :=
  set32 (set32 m (a - 4) (tag sz fr)) (a + sz - 8) (tag sz fr).

(** What the allocator may write without touching the payload of an
    allocated block: the list heads, the free blocks, and what lies from the
    epilogue on. *)
Definition free_area (s : state) (bs : list block) (x : Z) : Prop :=
  mem_start_brk s <= x < mem_start_brk s + 40 \/
  (exists q z, In (q, z, true) bs /\ q - 4 <= x < q + z - 4) \/
  mem_brk s - 4 <= x.

(** What [coalesce] achieves on the free block [bp] of size [sz]. *)
Definition coalesce_post (fuel : nat) (s : state) (bs : list block) (bp sz : Z) : Prop :=
  exists m' ls' bs' r z,
    coalesce fuel bp s = Ret r (set_mem s m') /\
    heap_ok (set_mem s m') bs' ls' /\
    In (r, z, true) bs' /\ sz <= z /\
    (forall b zb, In (b, zb, false) bs -> In (b, zb, false) bs') /\
    (length bs' <= length bs)%nat /\
    (forall x, free_area s bs' x -> free_area s bs x) /\
    confined (mem s) m' (free_area s bs).

(** The state after a growth request of [incr] bytes that was granted. *)
Definition granted (s : state) (incr : Z) : state :=
  mkState (mem s) (mem_start_brk s) (mem_brk s + incr) (mem_max_addr s)
          (S (sbrk_calls s)) (heap_listp s) (seg_lists s).

(** The memory of the grown heap once the new block and the new epilogue
    are written. *)
Definition extend_mem (s : state) (size : Z) : memory :=
  set32 (retag (mem s) (mem_brk s) size true) (mem_brk s + size - 4) 1.

(** What [malloc] achieves when it returns [r] in the state [s']. *)
Definition malloc_post (s : state) (bs : list block) (n r : Z) (s' : state) : Prop :=
  exists bs' ls',
    heap_ok s' bs' ls' /\
    (forall b zb, In (b, zb, false) bs -> In (b, zb, false) bs') /\
    (length bs' <= length bs + 2)%nat /\
    confined (mem s) (mem s') (free_area s bs) /\
    (mem_max_addr s' = mem_max_addr s /\ mem_start_brk s' = mem_start_brk s) /\
    (r <> NULL ->
     exists z, In (r, z, false) bs' /\ adjust n <= z /\
               forall z0, ~ In (r, z0, false) bs).

(** The fourteen words that [mm_init] writes at the start of the region. *)
Definition init_words : list Z := [0; 0; 0; 0; 0; 0; 0; 0; 0; 0; 0; 9; 9; 1].

Fixpoint put_words (m : memory) (a : Z) (ws : list Z) : memory :=
  match ws with
  | [] => m
  | w :: ws' => put_words (set32 m a w) (a + 4) ws'
  end.

(** The state in which [mm_init] calls [extend_heap]. *)
Definition init_state (s : state) : state :=
  mkState (put_words (mem s) (mem_start_brk s) init_words)
          (mem_start_brk s) (mem_brk s + 56) (mem_max_addr s)
          (S (sbrk_calls s)) (mem_start_brk s + 48) (mem_start_brk s).

(** A region that no allocator call has touched yet: it is empty and
    starts at a multiple of 8. *)
Definition untouched (s : state) : Prop :=
  region_ok s /\ mem_brk s = mem_start_brk s /\ mem_start_brk s mod 8 = 0.

(** The global invariant set of section 3, for the layout [bs] and the
    list contents [ls], whatever the size of the backing store: the blocks
    tile the heap between the prologue and the epilogue, each of at least
    16 bytes and a multiple of 8, header and footer of each hold its size
    and state (invariants 1 and 2); no two neighbours are both free
    (invariant 3); the free blocks are exactly the entries of the lists,
    each in the list of its class and in ascending order (invariant 4);
    and every link of a list is the offset of a node inside the region
    (invariant 5). *)
Definition invariant (s : state) (bs : list block) (ls : Z -> list (Z * Z)) : Prop :=
  (placement s /\ sentinels s /\
   laid (mem_start_brk s + 56) bs (mem_brk s) /\ tags (mem s) bs []) /\
  lists_ok s bs ls [] /\ coalesced bs.

(** The heap satisfies the global invariant, for some layout of blocks and
    some contents of the ten lists. *)
Definition ready (s : state) : Prop := exists bs ls, invariant s bs ls.

(** [p] is the payload pointer of an allocated block of a heap that
    satisfies the invariant. *)
Definition live (s : state) (p : Z) : Prop :=
  exists bs ls z, invariant s bs ls /\ In (p, z, false) bs.

(** The loop budget covers every block that fits into the region. *)
Definition enough (fuel : nat) (s : state) : Prop :=
  mem_max_addr s - mem_start_brk s <= 16 * Z.of_nat fuel.

(** The public calls other than [calloc] and [mm_init], and what they
    return: [free] returns nothing, which is 0 here. *)
Inductive call : Type :=
| Malloc (n : Z)
| Free (p : Z)
| Realloc (p n : Z).

Definition run (fuel : nat) (c : call) : M Z :=
  match c with
  | Malloc n => malloc fuel n
  | Free p => free fuel p ;; ret 0
  | Realloc p n => realloc fuel p n
  end.

(** The sizes for which [size + DSIZE] and the rounding do not wrap. *)
Definition in_range (n : Z) : Prop := 0 <= n <= 2 ^ 64 - 16.

(** The calls the invariant is claimed for: sizes in range, and pointers
    that are null or live. *)
Definition admissible (s : state) (c : call) : Prop :=
  match c with
  | Malloc n => in_range n
  | Free p => p = NULL \/ live s p
  | Realloc p n => (p = NULL \/ live s p) /\ in_range n
  end.

(** The states reached by admissible calls. *)
Inductive reach (fuel : nat) : state -> state -> Prop :=
| reach_refl s : reach fuel s s
| reach_step s c r s1 s2 :
    admissible s c -> run fuel c s = Ret r s1 -> reach fuel s1 s2 -> reach fuel s s2.

(** A small process after [mm_init], and after a first [malloc(8)]. *)
Definition started : state := exec (mm_init 300) boot_small.
Definition holding : state := exec (malloc 300 8) started.

(** A request of [2^64 - 8] bytes on the fresh heap: the adjusted size
    wraps around to 0. *)
Definition wrapped : state := exec (malloc 100 (2 ^ 64 - 8)) booted.

(** A process on a backing store of 5 GiB, after [mm_init] and after a
    request of [2^32 + 100] bytes. *)
Definition big : state := fresh (fun _ => 0) 65536 (65536 + 5 * 2 ^ 30).
Definition big_booted : state := exec (mm_init 100) big.
Definition big_took : state := exec (malloc 100 (2 ^ 32 + 100)) big_booted.

(** On the same store, blocks of 5000 and 4072 bytes were taken, which
    leaves a free block of 16 bytes at the end of the heap; then [realloc]
    is asked to resize the first one to [2^32 + 100] bytes. *)
Definition big_two : state :=
  exec (malloc 100 4072) (exec (malloc 100 5000) big_booted).
Definition big_moved : state :=
  exec (realloc 100 first_bp (2 ^ 32 + 100)) big_two.

(** Two processes that have not called [mm_init], on backing stores of
    100 and of 40 bytes. *)
Definition tiny100 : state := fresh (fun _ => 0) 65536 (65536 + 100).
Definition tiny40 : state := fresh (fun _ => 0) 65536 (65536 + 40).

(** ** Layouts after an operation

    What an operation makes of the list of blocks, as a function of the
    list before it. *)

(** The layout after [place] has taken [asize] bytes from the free block
    [bp] of [bsz] bytes that lies between [pre] and [post]: the block is
    split when the rest is a block of its own, of 16 bytes or more. *)
Definition placed (pre : list block) (bp bsz asize : Z) (post : list block) : list block :=
  if bsz - asize <? 16
  then pre ++ (bp, bsz, false) :: post
  else pre ++ (bp, asize, false) :: (bp + asize, bsz - asize, true) :: post.

(** The block that [coalesce] returns for the free block [bp] that follows
    the blocks [pre]: the block before it when that one is free. *)
Definition coalesced_ptr (pre : list block) (bp : Z) : Z :=
  if last_free pre then fst (fst (last pre (0, 0, false))) else bp.

(** The layout after [coalesce]: the free block [bp] of [sz] bytes between
    [pre] and [post] is one block with each neighbour that is free. *)
Definition coalesced_layout (pre : list block) (bp sz : Z) (post : list block)
  : list block :=
  let pre' := if last_free pre then removelast pre else pre in
  let zp := if last_free pre then snd (fst (last pre (0, 0, false))) else 0 in
  let post' := if head_free post then tl post else post in
  let zn := if head_free post then snd (fst (hd (0, 0, false) post)) else 0 in
  pre' ++ (coalesced_ptr pre bp, zp + sz + zn, true) :: post'.

Definition coalesce_exact_post (fuel : nat) (s : state) (bs pre : list block)
           (bp sz : Z) (post : list block) : Prop :=
  exists m' ls',
    coalesce fuel bp s = Ret (coalesced_ptr pre bp) (set_mem s m') /\
    heap_ok (set_mem s m') (coalesced_layout pre bp sz post) ls' /\
    confined (mem s) m' (free_area s bs).

(** No free block of the layout has [asize] bytes or more. *)
Definition no_fit (bs : list block) (asize : Z) : Prop :=
  forall q z, In (q, z, true) bs -> z < asize.

(** The three ways a [malloc] of a nonzero size ends on a heap with the
    layout [bs]: a free block is taken and the heap keeps its size; no free
    block is large enough and the store refuses to grow; or the heap grows
    and the block at its end is taken. *)
Definition malloc_cases (fuel : nat) (s : state) (bs : list block) (n : Z) : Prop :=
  let asize := adjust n in
  let sz := MAX asize CHUNKSIZE in
  (exists pre bp bsz post m' ls',
      bs = pre ++ (bp, bsz, true) :: post /\ asize <= bsz /\
      malloc fuel n s = Ret bp (set_mem s m') /\
      heap_ok (set_mem s m') (placed pre bp bsz asize post) ls' /\
      confined (mem s) m' (free_area s bs)) \/
  (no_fit bs asize /\ mem_max_addr s < mem_brk s + sz /\
   malloc fuel n s = Ret NULL (refused s)) \/
  (no_fit bs asize /\ mem_brk s + sz <= mem_max_addr s /\
   exists pre bp bsz m' ls',
      coalesced_layout bs (mem_brk s) sz [] = pre ++ [(bp, bsz, true)] /\
      bp = coalesced_ptr bs (mem_brk s) /\ asize <= bsz /\
      malloc fuel n s = Ret bp (set_mem (granted s sz) m') /\
      heap_ok (set_mem (granted s sz) m') (placed pre bp bsz asize []) ls' /\
      confined (mem s) m' (free_area s bs)).

(** A small process whose backing store has room left after [mm_init]. *)
Definition roomy : state := fresh (fun _ => 0) 65536 (65536 + 8192).
Definition settled : state := exec (mm_init 600) roomy.

(** The small process after [malloc(8)] and the first two steps of
    [free]: the block is marked free and listed, but not yet merged with
    the free block behind it. *)
Definition free_before_coalesce (fuel : nat) (bp : Z) : M unit :=
  asize <- GET_SIZE (HDRP bp) ;;
  PUT (HDRP bp) (PACK asize 0) ;;
  ft <- FTRP bp ;; PUT ft (PACK asize 0) ;;
  add_to_list fuel bp asize.

Definition unmerged : state := exec (free_before_coalesce 300 first_bp) holding.

(** ** Findings of the checker *)

(** What the checker reports for the entry [e], a node with the size of
    its block, of the list [i] of a heap without free neighbours. *)
Definition entry_findings (i : Z) (e : Z * Z) : list violation :=
  when (negb ((snd e >? Z.shiftl 8 i) && (snd e <=? Z.shiftl 16 i)))
       (WrongList i (fst e)).

(** What it reports for the lists [i], [i + 1], ... , [n] of them. *)
Fixpoint lists_findings (ls : Z -> list (Z * Z)) (n : nat) (i : Z) : list violation :=
  match n with
  | O => []
  | S n' => flat_map (entry_findings i) (ls i) ++ lists_findings ls n' (i + 1)
  end.

(** * Theorems *)

(** ** The monad *)

Lemma bind_ret_l {A B} (a : A) (k : A -> M B) s : bind (ret a) k s = k a s.
Proof. reflexivity. Qed.

Lemma bind_assoc {A B C} (c : M A) (k : A -> M B) (h : B -> M C) s :
  bind (bind c k) h s = bind c (fun a => bind (k a) h) s.
Proof. unfold bind. destruct (c s); reflexivity. Qed.

Lemma bind_subst {A B C} (c : M A) (c' : M C) (f : C -> A) (k : A -> M B) s :
  (forall s, c s = bind c' (fun x => ret (f x)) s) ->
  bind c k s = bind c' (fun x => k (f x)) s.
Proof. intros H. unfold bind at 1. rewrite H. unfold bind, ret. destruct (c' s); reflexivity. Qed.

Lemma bind_ext {A B} (c : M A) (k k' : A -> M B) s :
  (forall a s', k a s' = k' a s') -> bind c k s = bind c k' s.
Proof. intros H. unfold bind. destruct (c s); auto. Qed.

(** ** Size classes *)

Lemma shiftl16 k : 0 <= k -> Z.shiftl 16 k = class_bound k.
Proof. intros H. unfold class_bound. now rewrite Z.shiftl_mul_pow2. Qed.

Lemma list_index_loop_class n : forall k size,
  0 <= k -> k + Z.of_nat n = 9 ->
  list_index_loop n k size = class_from n k size.
Proof.
  induction n as [|n IH]; intros k size Hk Hn; cbn [list_index_loop class_from];
    [reflexivity|].
  rewrite shiftl16 by assumption.
  replace (k <? LISTNUM - 1) with true by (symmetry; apply Z.ltb_lt; unfold LISTNUM; lia).
  rewrite Z.gtb_ltb, Z.ltb_antisym.
  destruct (size <=? class_bound k); cbn [negb andb]; [reflexivity|].
  apply IH; lia.
Qed.

(** The index computed by [add_to_list] and [remove_from_list] is the
    class of the specification. *)
Lemma list_index_of_class size : list_index_of size = class_of size.
Proof. apply list_index_loop_class; lia. Qed.

Lemma class_from_spec n : forall k size,
  0 <= k ->
  let c := class_from n k size in
  k <= c <= k + Z.of_nat n /\
  (forall j, k <= j < c -> class_bound j < size) /\
  (c < k + Z.of_nat n -> size <= class_bound c).
Proof.
  induction n as [|n IH]; intros k size Hk; cbn [class_from]; cbv zeta.
  - split; [lia|]. split; intros; lia.
  - destruct (size <=? class_bound k) eqn:E.
    + apply Z.leb_le in E. split; [lia|]. split; [intros; lia|auto].
    + apply Z.leb_gt in E.
      destruct (IH (k + 1) size ltac:(lia)) as (H1 & H2 & H3).
      split; [lia|]. split.
      * intros j Hj. destruct (Z.eq_dec j k) as [->|Hne]; [assumption|].
        apply H2. lia.
      * intros Hc. apply H3. lia.
Qed.

Lemma class_bound_mono j k : 0 <= j <= k -> class_bound j <= class_bound k.
Proof.
  intros H. unfold class_bound.
  apply Z.mul_le_mono_nonneg_l; [lia|].
  apply Z.pow_le_mono_r; lia.
Qed.

Lemma class_of_facts size :
  0 <= class_of size <= 9 /\
  (forall j, 0 <= j < class_of size -> class_bound j < size) /\
  (class_of size < 9 -> size <= class_bound (class_of size)).
Proof. exact (class_from_spec 9 0 size (Z.le_refl 0)). Qed.

Lemma class_of_range size : 0 <= class_of size <= 9.
Proof. apply class_of_facts. Qed.

Lemma class_of_above size j : 0 <= j < class_of size -> class_bound j < size.
Proof. apply class_of_facts. Qed.

Lemma class_of_below size k : class_of size <= k -> k < 9 -> size <= class_bound k.
Proof.
  intros H1 H2.
  destruct (class_of_facts size) as (H0 & _ & H).
  etransitivity; [apply H; lia|].
  apply class_bound_mono. lia.
Qed.

(** ** The search of [malloc] *)

Section Search.
Variables (fuel : nat) (asize : Z).

(** Lists below the class of [asize] are passed over without a look. *)
Lemma malloc_lists_skip n : forall k s,
  0 <= k -> k + Z.of_nat n = 9 -> k <= class_of asize ->
  malloc_lists fuel n k asize NULL s =
  malloc_lists fuel (Z.to_nat (9 - class_of asize)) (class_of asize) asize NULL s.
Proof.
  induction n as [|n IH]; intros k s Hk Hn Hc.
  - replace (class_of asize) with k by (pose proof (class_of_range asize); lia).
    replace (9 - k) with 0 by lia. reflexivity.
  - destruct (Z.eq_dec k (class_of asize)) as [E|E].
    + rewrite <- E. replace (Z.to_nat (9 - k)) with (S n) by lia. reflexivity.
    + cbn [malloc_lists].
      replace (k <? LISTNUM - 1) with true
        by (symmetry; apply Z.ltb_lt; unfold LISTNUM; lia).
      rewrite shiftl16 by assumption.
      replace (asize <=? class_bound k) with false
        by (symmetry; apply Z.leb_gt; apply class_of_above; lia).
      apply IH; lia.
Qed.

(** From the class of [asize] on, the loop is the cascade. *)
Lemma malloc_lists_cascade n : forall k s,
  0 <= k -> k + Z.of_nat n = 9 -> class_of asize <= k ->
  bind (malloc_lists fuel n k asize NULL)
       (fun r => if fst r =? NULL
                 then base <- get_heap_listp ;; h <- seg_get (snd r) ;;
                      fit_scan fuel asize (B2P base h)
                 else ret (fst r)) s =
  bind (cascade fuel n k asize)
       (fun bp => if bp =? NULL
                  then base <- get_heap_listp ;; h <- seg_get (LISTNUM - 1) ;;
                       fit_scan fuel asize (B2P base h)
                  else ret bp) s.
Proof.
  induction n as [|n IH]; intros k s Hk Hn Hc.
  - cbn [malloc_lists cascade]. rewrite !bind_ret_l. cbn [fst snd].
    replace k with (LISTNUM - 1) by (unfold LISTNUM; lia). reflexivity.
  - cbn [malloc_lists cascade].
    replace (k <? LISTNUM - 1) with true
      by (symmetry; apply Z.ltb_lt; unfold LISTNUM; lia).
    rewrite shiftl16 by assumption.
    replace (asize <=? class_bound k) with true
      by (symmetry; apply Z.leb_le; apply class_of_below; lia).
    rewrite !bind_assoc. apply bind_ext. intros h s1.
    destruct (h =? 0) eqn:Eh; cbn [negb].
    + apply IH; lia.
    + rewrite !bind_assoc. apply bind_ext. intros base s2.
      rewrite !bind_assoc. apply bind_ext. intros bp s3.
      destruct (bp =? NULL) eqn:Eb; cbn [negb].
      * apply Z.eqb_eq in Eb. subst bp. apply IH; lia.
      * rewrite !bind_ret_l. cbn [fst]. rewrite Eb. reflexivity.
Qed.

Lemma malloc_search_cascade s :
  malloc_search fuel asize s = spec_search fuel asize s.
Proof.
  unfold malloc_search, spec_search.
  pose proof (class_of_range asize) as Hr.
  unfold bind at 1.
  rewrite (malloc_lists_skip 9 0 s) by lia.
  change (LISTNUM - 1) with 9 at 1.
  apply (malloc_lists_cascade (Z.to_nat (9 - class_of asize)) (class_of asize) s); lia.
Qed.
End Search.

(** ** Memory accesses *)

Lemma valid_true s p n :
  mem_start_brk s <= p -> p + n <= mem_brk s -> valid s p n = true.
Proof. intros H1 H2. unfold valid. apply andb_true_iff. split; apply Z.leb_le; assumption. Qed.

Lemma valid_inv s p n :
  valid s p n = true -> mem_start_brk s <= p /\ p + n <= mem_brk s.
Proof. unfold valid. intros H. apply andb_true_iff in H. destruct H as [H1 H2]. apply Z.leb_le in H1, H2. auto. Qed.

Lemma load32_ok s p :
  mem_start_brk s <= p -> p + 4 <= mem_brk s ->
  load32 p s = Ret (get32 (mem s) p) s.
Proof. intros H1 H2. unfold load32. now rewrite valid_true. Qed.

Lemma store32_ok s p v :
  mem_start_brk s <= p -> p + 4 <= mem_brk s ->
  store32 p v s = Ret tt (set_mem s (set32 (mem s) p v)).
Proof. intros H1 H2. unfold store32. now rewrite valid_true. Qed.

Lemma size_t_small x : 0 <= x < 2 ^ 64 -> size_t x = x.
Proof. apply Z.mod_small. Qed.

Lemma padd_small p n : 0 <= p + n < 2 ^ 64 -> padd p n = p + n.
Proof. apply Z.mod_small. Qed.

Lemma B2P_zero base : B2P base 0 = NULL.
Proof. reflexivity. Qed.

Lemma B2P_pos base b :
  0 < b -> 0 <= base + b < 2 ^ 64 -> B2P base b = base + b.
Proof.
  intros Hb Hr. unfold B2P.
  replace (b >? 0) with true by (symmetry; apply Z.gtb_lt; assumption).
  unfold size_t. rewrite <- Zplus_mod. now apply Z.mod_small.
Qed.

Lemma GET_SIZE_node s q :
  region_ok s -> node_ok s q ->
  GET_SIZE (HDRP q) s = Ret (size_at s q) s.
Proof.
  intros (H0 & H1 & H2) (Hq1 & Hq2).
  unfold GET_SIZE, GET, HDRP, WSIZE. rewrite padd_small by lia.
  unfold bind. rewrite load32_ok by lia. reflexivity.
Qed.

Lemma NEXT_BIAS_node s q :
  region_ok s -> node_ok s q ->
  NEXT_FBP_BIAS q s = Ret (get32 (mem s) (q + 4)) s.
Proof.
  intros (H0 & H1 & H2) (Hq1 & Hq2).
  unfold NEXT_FBP_BIAS, PTR2NEXTBIAS, WSIZE. rewrite padd_small by lia.
  apply load32_ok; lia.
Qed.

Lemma PREV_BIAS_node s q :
  region_ok s -> node_ok s q ->
  PREV_FBP_BIAS q s = Ret (get32 (mem s) q) s.
Proof.
  intros (H0 & H1 & H2) (Hq1 & Hq2).
  unfold PREV_FBP_BIAS, PTR2PREVBIAS. apply load32_ok; lia.
Qed.

(** The pointer decoded from the offset that starts a chain is its first
    node, or null when the chain is empty. *)
Lemma chain_head s pb b l :
  region_ok s -> chain s pb b l ->
  B2P (heap_listp s) b = match l with [] => NULL | q :: _ => q end.
Proof.
  intros (H0 & H1 & H2) Hc. destruct l as [|q l]; cbn [chain] in Hc.
  - subst b. reflexivity.
  - destruct Hc as (Hb & Hq & (Hq1 & Hq2) & _). subst q.
    apply B2P_pos; lia.
Qed.

Lemma chain_head_nonnull s pb b q l :
  region_ok s -> chain s pb b (q :: l) -> q <> NULL.
Proof.
  intros (H0 & H1 & H2) (Hb & Hq & (Hq1 & Hq2) & _). unfold NULL. lia.
Qed.

(** ** First fit in an ascending list is best fit *)

Lemma fit_scan_chain asize l : forall fuel pb b s,
  region_ok s -> chain s pb b l -> (length l < fuel)%nat ->
  exists bp,
    fit_scan fuel asize (B2P (heap_listp s) b) s = Ret bp s /\
    ((bp = NULL /\ forall q, In q l -> size_at s q < asize) \/
     (exists l1 l2, l = l1 ++ bp :: l2 /\
                    (forall q, In q l1 -> size_at s q < asize) /\
                    asize <= size_at s bp)).
Proof.
  induction l as [|q l IH]; intros fuel pb b s Hr Hc Hf.
  - destruct fuel as [|fuel]; [cbn in Hf; lia|].
    rewrite (chain_head s pb b []) by assumption.
    exists NULL. split; [reflexivity|]. left. split; [reflexivity|]. intros q [].
  - destruct fuel as [|fuel]; [cbn in Hf; lia|].
    rewrite (chain_head s pb b (q :: l)) by assumption.
    pose proof (chain_head_nonnull s pb b q l Hr Hc) as Hq.
    destruct Hc as (Hb & Hqb & Hn & Hp & Hc).
    cbn [fit_scan].
    replace (q =? NULL) with false by (symmetry; apply Z.eqb_neq; assumption).
    unfold bind at 1. rewrite GET_SIZE_node by assumption.
    destruct (asize >? size_at s q) eqn:E.
    + unfold bind at 1. rewrite NEXT_BIAS_node by assumption.
      unfold bind at 1. unfold get_heap_listp.
      destruct (IH fuel b (get32 (mem s) (q + 4)) s Hr Hc) as (bp & Hbp & Hres);
        [cbn in Hf; lia|].
      exists bp. split; [exact Hbp|].
      apply Z.gtb_lt in E.
      destruct Hres as [(-> & Hall)|(l1 & l2 & -> & Hall & Hfit)].
      * left. split; [reflexivity|]. intros q' [<-|Hin]; auto.
      * right. exists (q :: l1), l2. split; [reflexivity|]. split; [|assumption].
        intros q' [<-|Hin]; auto.
    + exists q. split; [reflexivity|]. right. exists [], l.
      split; [reflexivity|]. split; [intros q' []|].
      rewrite Z.gtb_ltb in E. apply Z.ltb_ge in E. assumption.
Qed.

Lemma ascending_app s l1 q l2 :
  ascending s (l1 ++ q :: l2) ->
  forall q', In q' (q :: l2) -> size_at s q <= size_at s q'.
Proof.
  induction l1 as [|a l1 IH]; cbn [app ascending].
  - intros (H & _) q' [<-|Hin]; [lia|auto].
  - intros (_ & H). auto.
Qed.

(** ** The checker *)

Lemma readonly_ret {A} (a : A) : readonly (ret a).
Proof. intros s a' s' H. inversion H. reflexivity. Qed.

(** A run that is known to return [a] returns it in the state [exec]
    names; a read-only run returns it in the state it started from. *)
Lemma exec_value {A} (c : M A) s a : value c s = Some a -> c s = Ret a (exec c s).
Proof. unfold value, exec. destruct (c s); intros H; inversion H. reflexivity. Qed.

Lemma readonly_value {A} (c : M A) s a :
  readonly c -> value c s = Some a -> c s = Ret a s.
Proof.
  intros Hc H. apply exec_value in H. rewrite H. f_equal.
  eapply Hc. eassumption.
Qed.

Lemma readonly_bind {A B} (c : M A) (k : A -> M B) :
  readonly c -> (forall a, readonly (k a)) -> readonly (bind c k).
Proof.
  intros Hc Hk s b s' H. unfold bind in H.
  destruct (c s) as [a s1| | |] eqn:E; try discriminate.
  apply Hc in E. subst s1. eapply Hk. eassumption.
Qed.

Lemma readonly_load32 p : readonly (load32 p).
Proof. intros s a s' H. unfold load32 in H. destruct (valid s p 4); inversion H. reflexivity. Qed.

Lemma readonly_get_heap_listp : readonly get_heap_listp.
Proof. intros s a s' H. inversion H. reflexivity. Qed.

Lemma readonly_get_seg_lists : readonly get_seg_lists.
Proof. intros s a s' H. inversion H. reflexivity. Qed.

Lemma readonly_in_heap p : readonly (in_heap p).
Proof. intros s a s' H. inversion H. reflexivity. Qed.

Lemma readonly_orelse a b : readonly b -> readonly (orelse a b).
Proof. intros H. unfold orelse. destruct a; [apply readonly_ret|assumption]. Qed.

Lemma readonly_if {A} (b : bool) (c1 c2 : M A) :
  readonly c1 -> readonly c2 -> readonly (if b then c1 else c2).
Proof. destruct b; auto. Qed.

Create HintDb readonly.
#[local] Hint Resolve readonly_ret readonly_load32 readonly_get_heap_listp
  readonly_get_seg_lists readonly_in_heap : readonly.

Ltac readonly_tac :=
  repeat first
    [ solve [auto with readonly]
    | apply readonly_bind; [|intros ?]
    | apply readonly_orelse
    | apply readonly_if ].

Lemma readonly_GET_SIZE p : readonly (GET_SIZE p).
Proof. unfold GET_SIZE, GET. readonly_tac. Qed.

Lemma readonly_GET_ALLOC p : readonly (GET_ALLOC p).
Proof. unfold GET_ALLOC, GET. readonly_tac. Qed.

#[local] Hint Resolve readonly_GET_SIZE readonly_GET_ALLOC : readonly.

Lemma readonly_FTRP p : readonly (FTRP p).
Proof. unfold FTRP. readonly_tac. Qed.

Lemma readonly_NEXT_BLKP p : readonly (NEXT_BLKP p).
Proof. unfold NEXT_BLKP. readonly_tac. Qed.

Lemma readonly_PREV_BLKP p : readonly (PREV_BLKP p).
Proof. unfold PREV_BLKP. readonly_tac. Qed.

Lemma readonly_seg_get i : readonly (seg_get i).
Proof. unfold seg_get. readonly_tac. Qed.

Lemma readonly_NEXT_FBP_BIAS p : readonly (NEXT_FBP_BIAS p).
Proof. unfold NEXT_FBP_BIAS. readonly_tac. Qed.

Lemma readonly_PREV_FBP_BIAS p : readonly (PREV_FBP_BIAS p).
Proof. unfold PREV_FBP_BIAS. readonly_tac. Qed.

#[local] Hint Resolve readonly_FTRP readonly_NEXT_BLKP readonly_PREV_BLKP
  readonly_seg_get readonly_NEXT_FBP_BIAS readonly_PREV_FBP_BIAS : readonly.

Lemma readonly_block_violations bp : readonly (block_violations bp).
Proof. unfold block_violations. readonly_tac. Qed.

Lemma readonly_entry_violations i bp : readonly (entry_violations i bp).
Proof. unfold entry_violations. readonly_tac. Qed.

#[local] Hint Resolve readonly_block_violations readonly_entry_violations : readonly.

Lemma readonly_heap_violations fuel : forall bp, readonly (heap_violations fuel bp).
Proof.
  induction fuel as [|fuel IH]; intros bp; cbn [heap_violations].
  - intros s a s' H. discriminate.
  - readonly_tac.
Qed.

Lemma readonly_list_violations fuel i : forall bp, readonly (list_violations fuel i bp).
Proof.
  induction fuel as [|fuel IH]; intros bp; cbn [list_violations].
  - intros s a s' H. discriminate.
  - readonly_tac.
Qed.

Lemma readonly_lists_violations fuel n : forall i, readonly (lists_violations fuel n i).
Proof.
  induction n as [|n IH]; intros i; cbn [lists_violations].
  - apply readonly_ret.
  - pose proof (readonly_list_violations fuel). readonly_tac.
Qed.

#[local] Hint Resolve readonly_heap_violations readonly_lists_violations : readonly.

Lemma readonly_checkheap_violations fuel : readonly (checkheap_violations fuel).
Proof. unfold checkheap_violations. readonly_tac. Qed.

Lemma raise_app e l1 l2 : raise (raise e l1) l2 = raise e (l1 ++ l2).
Proof. destruct l1, l2; reflexivity. Qed.

Ltac step := rewrite ?bind_assoc; apply bind_ext; intros ? ?.

Lemma check_block_flag bp e s :
  check_block bp e s = bind (block_violations bp) (fun l => ret (raise e l)) s.
Proof.
  unfold check_block, block_violations.
  do 7 step. rewrite bind_ret_l.
  match goal with
  | |- ret (if ?b4 then _ else if ?b3 then _ else if ?b2 then _ else if ?b1 then _ else _) _ = _ =>
      destruct b1, b2, b3, b4; reflexivity
  end.
Qed.

Lemma check_blocks_flag fuel : forall bp e s,
  check_blocks fuel bp e s =
  bind (heap_violations fuel bp) (fun l => ret (raise e l)) s.
Proof.
  induction fuel as [|fuel IH]; intros bp e s; cbn [check_blocks heap_violations].
  - reflexivity.
  - do 2 step.
    match goal with |- context [if ?g then _ else _] => destruct g end.
    + rewrite (bind_subst _ _ _ _ _ (check_block_flag bp e)).
      do 2 step. rewrite IH. step. rewrite bind_ret_l.
      now rewrite raise_app.
    + reflexivity.
Qed.

Lemma check_entry_flag i bp e s :
  check_entry i bp e s = bind (entry_violations i bp) (fun l => ret (raise e l)) s.
Proof.
  unfold check_entry, entry_violations.
  do 4 step. rewrite bind_ret_l.
  match goal with
  | |- ret (if ?b2 then _ else if ?b1 then _ else _) _ = _ =>
      destruct b1, b2; reflexivity
  end.
Qed.

Lemma check_list_flag fuel i : forall bp e s,
  check_list fuel i bp e s =
  bind (list_violations fuel i bp) (fun l => ret (raise e l)) s.
Proof.
  induction fuel as [|fuel IH]; intros bp e s; cbn [check_list list_violations].
  - reflexivity.
  - destruct (bp =? NULL); [reflexivity|].
    rewrite (bind_subst _ _ _ _ _ (check_entry_flag i bp e)).
    do 3 step. rewrite IH. step. rewrite bind_ret_l.
    now rewrite raise_app.
Qed.

Lemma check_lists_flag fuel n : forall i e s,
  check_lists fuel n i e s =
  bind (lists_violations fuel n i) (fun l => ret (raise e l)) s.
Proof.
  induction n as [|n IH]; intros i e s; cbn [check_lists lists_violations].
  - reflexivity.
  - destruct (i <? LISTNUM); [|reflexivity].
    do 2 step.
    rewrite (bind_subst _ _ _ _ _ (check_list_flag fuel i _ e)).
    step. rewrite IH. step. rewrite bind_ret_l.
    now rewrite raise_app.
Qed.

(** The flag tested on line 398 is set exactly when some test failed. *)
Lemma checkheap_flag_violations fuel s :
  checkheap_flag fuel s =
  bind (checkheap_violations fuel) (fun l => ret (raise 0 l)) s.
Proof.
  unfold checkheap_flag, checkheap_violations.
  do 2 step.
  rewrite (bind_subst _ _ _ _ _ (check_blocks_flag fuel _ _)).
  step. rewrite check_lists_flag. step. rewrite bind_ret_l.
  rewrite raise_app.
  match goal with
  | |- ret (raise (if ?b2 then _ else if ?b1 then _ else _) ?l) _ = _ =>
      destruct b1, b2; cbn [when app raise]; try reflexivity;
      destruct l; reflexivity
  end.
Qed.

(** C1, as amended: the checker runs every test on every block and on
    every list entry, whatever the earlier tests found.  When none fails it
    returns and leaves the state untouched; when at least one fails it ends
    the process with [exit(0)].  A fault or an endless walk of the list of
    findings is a fault or an endless walk of the checker.  The location
    tag plays no part. *)
Theorem mm_checkheap_outcome fuel lineno s :
  match checkheap_violations fuel s with
  | Ret [] _ => mm_checkheap fuel lineno s = Ret tt s
  | Ret (_ :: _) _ => mm_checkheap fuel lineno s = Exit 0
  | Fault => mm_checkheap fuel lineno s = Fault
  | Exit code => mm_checkheap fuel lineno s = Exit code
  | OutOfFuel => mm_checkheap fuel lineno s = OutOfFuel
  end.
Proof.
  unfold mm_checkheap.
  rewrite (bind_subst _ _ _ _ _ (checkheap_flag_violations fuel)).
  unfold bind.
  destruct (checkheap_violations fuel s) as [l s'| | |] eqn:E; try reflexivity.
  apply readonly_checkheap_violations in E. subst s'.
  destruct l; reflexivity.
Qed.

(** C1 as stated fails: on a heap whose first block has a clobbered
    footer the checker finds three violations and does not return, it
    ends the process. *)
Lemma mm_checkheap_terminates_process :
  value (checkheap_violations 100) smashed =
    Some [SizeMismatch first_bp; AllocMismatch first_bp; NotCoalesced 8 (first_bp + 32)]
  /\ mm_checkheap 100 398 smashed = Exit 0
  /\ ~ (exists s', mm_checkheap 100 398 smashed = Ret tt s').
Proof.
  assert (H : mm_checkheap 100 398 smashed = Exit 0) by (vm_compute; reflexivity).
  split; [vm_compute; reflexivity|]. split; [exact H|].
  intros [s' H']. rewrite H in H'. discriminate.
Qed.

(** ** What the operations leave alone *)

Lemma same_regs_refl s : same_regs s s.
Proof. repeat split. Qed.

Lemma same_regs_trans s1 s2 s3 :
  same_regs s1 s2 -> same_regs s2 s3 -> same_regs s1 s3.
Proof. unfold same_regs. intuition congruence. Qed.

Lemma same_regs_region s s' : same_regs s s' -> region_ok s -> region_ok s'.
Proof. unfold same_regs, region_ok. intros (-> & -> & -> & _). auto. Qed.

Lemma readonly_mem_only {A} (c : M A) : readonly c -> mem_only c.
Proof. intros H s a s' E. apply H in E. subst. apply same_regs_refl. Qed.

Lemma mem_only_ret {A} (a : A) : mem_only (ret a).
Proof. apply readonly_mem_only, readonly_ret. Qed.

Lemma mem_only_bind {A B} (c : M A) (k : A -> M B) :
  mem_only c -> (forall a, mem_only (k a)) -> mem_only (bind c k).
Proof.
  intros Hc Hk s b s' H. unfold bind in H.
  destruct (c s) as [a s1| | |] eqn:E; try discriminate.
  eapply same_regs_trans; [eapply Hc|eapply Hk]; eassumption.
Qed.

Lemma mem_only_if {A} (b : bool) (c1 c2 : M A) :
  mem_only c1 -> mem_only c2 -> mem_only (if b then c1 else c2).
Proof. destruct b; auto. Qed.

Lemma mem_only_store32 p v : mem_only (store32 p v).
Proof.
  intros s a s' H. unfold store32 in H.
  destruct (valid s p 4); inversion H. repeat split.
Qed.

Lemma mem_only_memset p c n : mem_only (memset p c n).
Proof.
  intros s a s' H. unfold memset in H.
  destruct (n =? 0); [inversion H; apply same_regs_refl|].
  destruct (valid s p n); inversion H. repeat split.
Qed.

Lemma mem_only_memcpy d p n : mem_only (memcpy d p n).
Proof.
  intros s a s' H. unfold memcpy in H.
  destruct (n =? 0); [inversion H; apply same_regs_refl|].
  destruct (valid s d n && valid s p n); inversion H. repeat split.
Qed.

Create HintDb mem_only.
#[local] Hint Resolve mem_only_ret mem_only_store32 mem_only_memset mem_only_memcpy
  : mem_only.
#[local] Hint Extern 1 (mem_only _) =>
  (apply readonly_mem_only; solve [auto with readonly]) : mem_only.

Ltac mem_only_tac :=
  repeat first
    [ solve [auto with mem_only]
    | apply mem_only_bind; [|intros ?]
    | apply mem_only_if ].

Lemma mem_only_PUT p v : mem_only (PUT p v).
Proof. unfold PUT. mem_only_tac. Qed.

Lemma mem_only_SET_BIAS p v : mem_only (SET_BIAS p v).
Proof. unfold SET_BIAS. mem_only_tac. Qed.

Lemma mem_only_seg_set i v : mem_only (seg_set i v).
Proof. unfold seg_set. mem_only_tac. Qed.

#[local] Hint Resolve mem_only_PUT mem_only_SET_BIAS mem_only_seg_set : mem_only.

Lemma readonly_add_scan fuel asize : forall p n, readonly (add_scan fuel asize p n).
Proof.
  induction fuel as [|fuel IH]; intros p n; cbn [add_scan].
  - intros s a s' H. discriminate.
  - readonly_tac.
Qed.

Lemma readonly_fit_scan fuel asize : forall bp, readonly (fit_scan fuel asize bp).
Proof.
  induction fuel as [|fuel IH]; intros bp; cbn [fit_scan].
  - intros s a s' H. discriminate.
  - readonly_tac.
Qed.

#[local] Hint Resolve readonly_add_scan readonly_fit_scan : readonly.

Lemma readonly_cascade fuel asize n : forall k, readonly (cascade fuel n k asize).
Proof.
  induction n as [|n IH]; intros k; cbn [cascade]; readonly_tac.
Qed.

#[local] Hint Resolve readonly_cascade : readonly.

Lemma readonly_spec_search fuel asize : readonly (spec_search fuel asize).
Proof. unfold spec_search. readonly_tac. Qed.

(** The search changes nothing. *)
Lemma readonly_malloc_search fuel asize : readonly (malloc_search fuel asize).
Proof.
  intros s a s' H. rewrite malloc_search_cascade in H.
  eapply readonly_spec_search. eassumption.
Qed.

#[local] Hint Resolve readonly_malloc_search : readonly.

Lemma mem_only_add_to_list fuel bp asize : mem_only (add_to_list fuel bp asize).
Proof. unfold add_to_list. mem_only_tac. Qed.

Lemma mem_only_remove_from_list bp asize : mem_only (remove_from_list bp asize).
Proof. unfold remove_from_list. mem_only_tac. Qed.

#[local] Hint Resolve mem_only_add_to_list mem_only_remove_from_list : mem_only.

Lemma mem_only_place fuel bp size : mem_only (place fuel bp size).
Proof. unfold place. mem_only_tac. Qed.

Lemma mem_only_coalesce fuel bp : mem_only (coalesce fuel bp).
Proof. unfold coalesce. mem_only_tac. Qed.

#[local] Hint Resolve mem_only_place mem_only_coalesce : mem_only.

(** ** When [malloc] returns null *)

Lemma bind_inv {A B} (c : M A) (k : A -> M B) s b s' :
  bind c k s = Ret b s' -> exists a s1, c s = Ret a s1 /\ k a s1 = Ret b s'.
Proof.
  unfold bind. destruct (c s) as [a s1| | |]; try discriminate.
  intros H. exists a, s1. auto.
Qed.

Lemma ret_inv {A} (a b : A) s s' : ret a s = Ret b s' -> a = b /\ s = s'.
Proof. intros H. inversion H. auto. Qed.

(** Take a returning chain of binds apart, one step at a time. *)
Ltac unbind H :=
  lazymatch type of H with
  | bind _ _ _ = Ret _ _ =>
      let a := fresh "a" in
      let s := fresh "s" in
      let E := fresh "E" in
      apply bind_inv in H; destruct H as (a & s & E & H); unbind H
  | ret _ _ = Ret _ _ => apply ret_inv in H; destruct H as [? ?]; subst
  | _ => idtac
  end.

Lemma store32_valid p v s a s' :
  store32 p v s = Ret a s' -> mem_start_brk s <= p /\ p + 4 <= mem_brk s.
Proof.
  unfold store32. destruct (valid s p 4) eqn:E; [|discriminate].
  intros _. now apply valid_inv.
Qed.

Lemma HDRP_nonnull bp v s a s' :
  region_ok s -> PUT (HDRP bp) v s = Ret a s' -> bp <> NULL.
Proof.
  intros Hr H. apply store32_valid in H. intros ->.
  unfold region_ok in Hr. unfold HDRP, padd, size_t, WSIZE, NULL in H.
  change ((0 + - (4)) mod 2 ^ 64) with (2 ^ 64 - 4) in H. lia.
Qed.

Lemma place_result fuel bp size s r s' :
  place fuel bp size s = Ret r s' -> r = bp.
Proof.
  unfold place. intros H. unbind H.
  destruct (size_t (a - size) <? 2 * DSIZE); unbind H; reflexivity.
Qed.

Lemma coalesce_result fuel bp s r s' :
  region_ok s -> bp <> NULL -> coalesce fuel bp s = Ret r s' -> r <> NULL.
Proof.
  intros Hr Hbp H. unfold coalesce in H.
  apply bind_inv in H. destruct H as (pv & s1 & E1 & H).
  apply bind_inv in H. destruct H as (pa & s2 & E2 & H).
  apply bind_inv in H. destruct H as (nx & s3 & E3 & H).
  apply bind_inv in H. destruct H as (na & s4 & E4 & H).
  apply bind_inv in H. destruct H as (sz & s5 & E5 & H).
  apply readonly_PREV_BLKP in E1. apply readonly_GET_ALLOC in E2.
  apply readonly_NEXT_BLKP in E3. apply readonly_GET_ALLOC in E4.
  apply readonly_GET_SIZE in E5. subst s1 s2 s3 s4 s5.
  destruct (negb (pa =? 0) && negb (na =? 0)); [unbind H; assumption|].
  destruct (negb (pa =? 0) && (na =? 0)); [unbind H; assumption|].
  destruct ((pa =? 0) && negb (na =? 0)).
  - apply bind_inv in H. destruct H as (pv1 & s1 & E1 & H).
    apply bind_inv in H. destruct H as (psz & s2 & E2 & H).
    apply bind_inv in H. destruct H as (u1 & s3 & E3 & H).
    apply bind_inv in H. destruct H as (pv2 & s4 & E4 & H).
    apply bind_inv in H. destruct H as (u2 & s5 & E5 & H).
    apply bind_inv in H. destruct H as (bp' & s6 & E6 & H).
    apply bind_inv in H. destruct H as (u3 & s7 & E7 & H).
    unbind H.
    apply readonly_PREV_BLKP in E1. apply readonly_GET_SIZE in E2. subst s1 s2.
    apply mem_only_remove_from_list in E3.
    apply readonly_PREV_BLKP in E4. subst s4.
    apply mem_only_remove_from_list in E5.
    apply readonly_PREV_BLKP in E6. subst s6.
    eapply HDRP_nonnull; [|exact E7].
    eapply same_regs_region; [|exact Hr].
    eapply same_regs_trans; eassumption.
  - apply bind_inv in H. destruct H as (nx1 & s1 & E1 & H).
    apply bind_inv in H. destruct H as (nsz & s2 & E2 & H).
    apply bind_inv in H. destruct H as (pv1 & s3 & E3 & H).
    apply bind_inv in H. destruct H as (psz & s4 & E4 & H).
    apply bind_inv in H. destruct H as (u1 & s5 & E5 & H).
    apply bind_inv in H. destruct H as (pv2 & s6 & E6 & H).
    apply bind_inv in H. destruct H as (u2 & s7 & E7 & H).
    apply bind_inv in H. destruct H as (nx2 & s8 & E8 & H).
    apply bind_inv in H. destruct H as (u3 & s9 & E9 & H).
    apply bind_inv in H. destruct H as (bp' & s10 & E10 & H).
    apply bind_inv in H. destruct H as (u4 & s11 & E11 & H).
    unbind H.
    apply readonly_NEXT_BLKP in E1. apply readonly_GET_SIZE in E2.
    apply readonly_PREV_BLKP in E3. apply readonly_GET_SIZE in E4.
    subst s1 s2 s3 s4.
    apply mem_only_remove_from_list in E5.
    apply readonly_PREV_BLKP in E6. subst s6.
    apply mem_only_remove_from_list in E7.
    apply readonly_NEXT_BLKP in E8. subst s8.
    apply mem_only_remove_from_list in E9.
    apply readonly_PREV_BLKP in E10. subst s10.
    eapply HDRP_nonnull; [|exact E11].
    eapply same_regs_region; [|exact Hr].
    eapply same_regs_trans; [eassumption|].
    eapply same_regs_trans; eassumption.
Qed.

Lemma size_t_range x : 0 <= size_t x < 2 ^ 64.
Proof. apply Z.mod_pos_bound. lia. Qed.

Lemma ALIGN_nonneg p : 0 <= ALIGN p.
Proof. unfold ALIGN. apply Z.land_nonneg. left. apply size_t_range. Qed.

Lemma extend_heap_refused fuel size s :
  mem_max_addr s < mem_brk s + ALIGN size ->
  extend_heap fuel size s = Ret NULL (refused s).
Proof.
  intros H. unfold extend_heap, bind, mem_sbrk.
  replace (mem_brk s + ALIGN size <=? mem_max_addr s) with false
    by (symmetry; apply Z.leb_gt; assumption).
  reflexivity.
Qed.

Lemma extend_heap_granted fuel size s r s' :
  region_ok s ->
  mem_brk s + ALIGN size <= mem_max_addr s ->
  extend_heap fuel size s = Ret r s' ->
  r <> NULL /\ sbrk_calls s' = S (sbrk_calls s).
Proof.
  intros Hr Hroom H. pose proof (ALIGN_nonneg size) as Hal.
  unfold extend_heap in H.
  apply bind_inv in H. destruct H as (bp & g & E0 & H).
  unfold mem_sbrk in E0.
  replace (mem_brk s + ALIGN size <=? mem_max_addr s) with true in E0
    by (symmetry; apply Z.leb_le; assumption).
  inversion E0; subst bp g; clear E0.
  unfold region_ok in Hr.
  replace (mem_brk s =? size_t (-1)) with false in H
    by (symmetry; apply Z.eqb_neq; change (size_t (-1)) with (2 ^ 64 - 1); lia).
  apply bind_inv in H. destruct H as (u1 & s1 & E1 & H).
  apply bind_inv in H. destruct H as (ft & s2 & E2 & H).
  apply bind_inv in H. destruct H as (u2 & s3 & E3 & H).
  apply bind_inv in H. destruct H as (nx & s4 & E4 & H).
  apply bind_inv in H. destruct H as (u3 & s5 & E5 & H).
  apply bind_inv in H. destruct H as (u4 & s6 & E6 & H).
  apply mem_only_PUT in E1. apply readonly_FTRP in E2. subst s2.
  apply mem_only_PUT in E3. apply readonly_NEXT_BLKP in E4. subst s4.
  apply mem_only_PUT in E5. apply mem_only_add_to_list in E6.
  pose proof (same_regs_trans _ _ _ E1 (same_regs_trans _ _ _ E3
               (same_regs_trans _ _ _ E5 E6))) as Hregs.
  split.
  - eapply coalesce_result; [| |exact H].
    + eapply same_regs_region; [exact Hregs|].
      unfold region_ok; cbn. lia.
    + unfold NULL. lia.
  - apply mem_only_coalesce in H.
    destruct (same_regs_trans _ _ _ Hregs H) as (_ & _ & _ & Hc & _).
    exact Hc.
Qed.

Lemma lazy_init_initialised fuel s :
  heap_listp s <> NULL -> lazy_init fuel s = Ret tt s.
Proof.
  intros H. unfold lazy_init, bind, get_heap_listp.
  replace (heap_listp s =? NULL) with false by (symmetry; apply Z.eqb_neq; assumption).
  reflexivity.
Qed.

(** The shape of [malloc] on an initialised heap. *)
Lemma malloc_initialised fuel size s :
  heap_listp s <> NULL ->
  malloc fuel size s =
  (if size =? 0 then ret NULL
   else
     bp <- malloc_search fuel (adjust size) ;;
     if bp =? NULL then
       bp <- extend_heap fuel (MAX (adjust size) CHUNKSIZE) ;;
       if bp =? NULL then ret NULL else place fuel bp (adjust size)
     else place fuel bp (adjust size)) s.
Proof.
  intros H. unfold malloc. unfold bind at 1.
  now rewrite lazy_init_initialised.
Qed.

(** A nonzero request that finds no free block and whose growth request
    is refused yields null, after that one request. *)
Lemma malloc_growth_refused fuel size s :
  heap_listp s <> NULL -> size <> 0 ->
  malloc_search fuel (adjust size) s = Ret NULL s ->
  growth_refused s (adjust size) ->
  malloc fuel size s = Ret NULL (refused s).
Proof.
  intros Hinit Hsz Hs Hg. rewrite malloc_initialised by assumption.
  replace (size =? 0) with false by (symmetry; apply Z.eqb_neq; assumption).
  unfold bind at 1. rewrite Hs. cbn [Z.eqb NULL].
  unfold bind. now rewrite extend_heap_refused.
Qed.


(** On the heap with the exhausted backing store a request of 5000 bytes
    finds no free block and is refused the growth it asks for. *)
Lemma cramped_facts :
  region_ok cramped /\ heap_listp cramped <> NULL /\
  malloc_search 100 (adjust 5000) cramped = Ret NULL cramped /\
  growth_refused cramped (adjust 5000).
Proof.
  split; [repeat split; vm_compute; congruence|].
  split; [vm_compute; congruence|].
  split; [|vm_compute; reflexivity].
  apply readonly_value; [apply readonly_malloc_search|].
  vm_compute. reflexivity.
Qed.


(** ** [calloc] *)

Lemma HDRP_NULL : HDRP NULL = 2 ^ 64 - 4.
Proof. reflexivity. Qed.

(** C8, the code at the failing input: when the allocation inside
    [calloc] yields null, [calloc] does not return null, it reads the
    header word in front of the null pointer.  That address lies outside
    every region, so the call faults. *)
Theorem calloc_null_faults fuel nmemb size s s1 :
  mem_brk s1 < 2 ^ 64 ->
  malloc fuel (size_t (nmemb * size)) s = Ret NULL s1 ->
  calloc fuel nmemb size s = Fault.
Proof.
  intros Hb Hm. unfold calloc. unfold bind at 1. rewrite Hm.
  unfold bind at 1. unfold GET_SIZE, GET. unfold bind at 1.
  rewrite HDRP_NULL. unfold load32.
  replace (valid s1 (2 ^ 64 - 4) 4) with false; [reflexivity|].
  symmetry. unfold valid. apply andb_false_iff. right. apply Z.leb_gt. lia.
Qed.

Lemma calloc_null_faults_witness :
  mem_brk (refused cramped) < 2 ^ 64 /\
  malloc 100 (size_t (1 * 5000)) cramped = Ret NULL (refused cramped) /\
  calloc 100 1 5000 cramped = Fault.
Proof.
  assert (Hb : mem_brk (refused cramped) < 2 ^ 64) by (vm_compute; reflexivity).
  assert (Hm : malloc 100 (size_t (1 * 5000)) cramped = Ret NULL (refused cramped)).
  { destruct cramped_facts as (Hr & Hi & Hs & Hg).
    change (size_t (1 * 5000)) with 5000.
    apply malloc_growth_refused; [exact Hi|lia|exact Hs|exact Hg]. }
  split; [exact Hb|]. split; [exact Hm|].
  exact (calloc_null_faults 100 1 5000 cramped (refused cramped) Hb Hm).
Defined.

(** Already a request whose product is zero takes this path. *)
Lemma calloc_zero_faults : calloc 100 0 5 booted = Fault.
Proof. vm_compute. reflexivity. Qed.

Lemma fill_inside m p n c a : p <= a < p + n -> fill m p n c a = c mod 256.
Proof.
  intros H. unfold fill.
  replace ((p <=? a) && (a <? p + n)) with true; [reflexivity|].
  symmetry. apply andb_true_iff. split; [apply Z.leb_le|apply Z.ltb_lt]; lia.
Qed.

Lemma fill_outside m p n c a : ~ (p <= a < p + n) -> fill m p n c a = m a.
Proof.
  intros H. unfold fill.
  destruct (p <=? a) eqn:E1; [|reflexivity].
  destruct (a <? p + n) eqn:E2; [|reflexivity].
  apply Z.leb_le in E1. apply Z.ltb_lt in E2. lia.
Qed.

Lemma get32_fill_zero m p n a :
  p <= a -> a + 4 <= p + n -> get32 (fill m p n 0) a = 0.
Proof.
  intros H1 H2. unfold get32, byte_at.
  rewrite !fill_inside by lia. reflexivity.
Qed.

(** C2, the code on every successful call: [calloc] clears as many bytes
    as the block is long, header and footer included, starting at the
    payload.  The last eight of them are not payload: they are the footer
    of the block and the header of the block that follows. *)
Theorem calloc_clears_block_size fuel nmemb size s p s1 :
  region_ok s1 ->
  malloc fuel (size_t (nmemb * size)) s = Ret p s1 ->
  mem_start_brk s1 <= p - 4 ->
  8 <= size_at s1 p ->
  p + size_at s1 p <= mem_brk s1 ->
  exists s',
    calloc fuel nmemb size s = Ret p s' /\
    (forall a, p <= a < p + size_at s1 p -> byte_at (mem s') a = 0) /\
    (forall a, ~ (p <= a < p + size_at s1 p) -> mem s' a = mem s1 a) /\
    get32 (mem s') (p + size_at s1 p - 8) = 0 /\
    get32 (mem s') (p + size_at s1 p - 4) = 0.
Proof.
  intros Hr Hm Hlo Hsz Hhi.
  exists (set_mem s1 (fill (mem s1) p (size_at s1 p) 0)).
  split.
  - unfold calloc. unfold bind at 1. rewrite Hm.
    unfold bind at 1. rewrite GET_SIZE_node by (auto; split; lia).
    unfold bind, memset.
    replace (size_at s1 p =? 0) with false by (symmetry; apply Z.eqb_neq; lia).
    rewrite valid_true by (unfold region_ok in Hr; lia). reflexivity.
  - cbn [mem set_mem]. repeat split.
    + intros a Ha. unfold byte_at. now rewrite fill_inside.
    + intros a Ha. now apply fill_outside.
    + apply get32_fill_zero; lia.
    + apply get32_fill_zero; lia.
Qed.

(** The failing input of C2: one element of eight bytes on a fresh heap. *)
Lemma calloc_clears_block_size_witness :
  exists s',
    calloc 100 1 8 booted = Ret first_bp s' /\
    (forall a, first_bp <= a < first_bp + size_at took8 first_bp ->
               byte_at (mem s') a = 0) /\
    (forall a, ~ (first_bp <= a < first_bp + size_at took8 first_bp) ->
               mem s' a = mem took8 a) /\
    get32 (mem s') (first_bp + size_at took8 first_bp - 8) = 0 /\
    get32 (mem s') (first_bp + size_at took8 first_bp - 4) = 0.
Proof.
  apply (calloc_clears_block_size 100 1 8 booted first_bp took8).
  - repeat split; vm_compute; congruence.
  - apply (exec_value (malloc 100 8)). vm_compute. reflexivity.
  - vm_compute. congruence.
  - vm_compute. congruence.
  - vm_compute. congruence.
Defined.

(** The same run in numbers: the block is 16 bytes long and has 8 bytes of
    payload; after [malloc] its footer is 17 and the next header 4080,
    after [calloc] both are zero while the header still says 17. *)
Lemma calloc_overwrites_footer_and_next_header :
  value (calloc 100 1 8) booted = Some first_bp /\
  size_at took8 first_bp = 16 /\
  get32 (mem took8) (first_bp + 8) = 17 /\
  get32 (mem took8) (first_bp + 12) = 4080 /\
  get32 (mem zeroed8) (first_bp - 4) = 17 /\
  get32 (mem zeroed8) (first_bp + 8) = 0 /\
  get32 (mem zeroed8) (first_bp + 12) = 0.
Proof. repeat split; vm_compute; reflexivity. Qed.

(** ** The checker and the last class *)

(** C6, the code at the failing input: a block of 24104 bytes is free, it
    is the only entry of list 9, where [add_to_list] and the class
    partition put it, and nothing else is wrong with the heap; the checker
    calls it a block in the wrong list and ends the process. *)
Theorem checkheap_rejects_last_class :
  size_at big_free first_bp = 24104 /\
  class_of 24104 = 9 /\ list_index_of 24104 = 9 /\
  list_rep big_free 9 [first_bp] /\
  value (checkheap_violations 100) big_free = Some [WrongList 9 first_bp] /\
  mm_checkheap 100 398 big_free = Exit 0.
Proof.
  split; [vm_compute; reflexivity|].
  split; [vm_compute; reflexivity|].
  split; [vm_compute; reflexivity|].
  split; [|split; vm_compute; reflexivity].
  unfold list_rep. cbn [chain]. unfold node_ok.
  repeat split; vm_compute; congruence.
Qed.

(** ** Boundary tags after [calloc] *)

Lemma heap_blocks_cons fuel bp s l s' sz al :
  heap_blocks fuel bp s = Ret l s' ->
  GET_SIZE (HDRP bp) s = Ret sz s ->
  GET_ALLOC (HDRP bp) s = Ret al s ->
  (sz =? 0) && negb (al =? 0) = false ->
  exists fuel' rest,
    fuel = S fuel' /\ l = bp :: rest /\
    heap_blocks fuel' (padd bp sz) s = Ret rest s'.
Proof.
  intros H Hsz Hal Hgo. destruct fuel as [|fuel]; [discriminate|].
  cbn [heap_blocks] in H. unfold bind at 1 in H. rewrite Hsz in H.
  unfold bind at 1 in H. rewrite Hal in H. rewrite Hgo in H.
  unfold NEXT_BLKP in H. fold (HDRP bp) in H.
  rewrite bind_assoc in H. unfold bind at 1 in H. rewrite Hsz in H.
  rewrite bind_ret_l in H.
  apply bind_inv in H. destruct H as (rest & s1 & E & H).
  apply ret_inv in H. destruct H as [<- <-].
  exists fuel, rest. auto.
Qed.

Lemma readonly_heap_blocks fuel : forall bp, readonly (heap_blocks fuel bp).
Proof.
  induction fuel as [|fuel IH]; intros bp; cbn [heap_blocks].
  - intros s a s' H. discriminate.
  - readonly_tac.
Qed.

(** The heap that [mm_init] builds has matching boundary tags; after
    [calloc(1, 8)] has returned, the block it returned has header 17 and
    footer 0, so invariant 1 is broken. *)
Lemma calloc_breaks_boundary_tags :
  boundary_tags_ok booted /\
  value (calloc 100 1 8) booted = Some first_bp /\
  ~ boundary_tags_ok zeroed8.
Proof.
  split; [|split; [vm_compute; reflexivity|]].
  - exists 100%nat, [first_bp - 8; first_bp]. split.
    + apply readonly_value; [apply readonly_heap_blocks|].
      vm_compute. reflexivity.
    + intros bp [<-|[<-|[]]]; vm_compute; reflexivity.
  - intros (fuel & l & Hw & Hall).
    apply (heap_blocks_cons _ _ _ _ _ 8 1) in Hw;
      [|apply readonly_value; [auto with readonly|vm_compute; reflexivity]..
       |vm_compute; reflexivity].
    destruct Hw as (f1 & r1 & -> & -> & Hw).
    apply (heap_blocks_cons _ _ _ _ _ 16 1) in Hw;
      [|apply readonly_value; [auto with readonly|vm_compute; reflexivity]..
       |vm_compute; reflexivity].
    destruct Hw as (f2 & r2 & -> & -> & Hw).
    specialize (Hall (padd (heap_listp zeroed8) 8) (or_intror (or_introl eq_refl))).
    vm_compute in Hall. discriminate.
Qed.

(** ** The search, summed up *)

(** C9: the search of [malloc] is the cascade of the specification: it
    starts at the class of [asize], walks the classes before the last one
    upward, skips empty lists, takes from a non-empty list the first entry
    of size at least [asize] and stops there, and otherwise scans the last
    class once.  In a list kept in ascending order that first entry is the
    smallest one that fits.  [malloc] turns to the backing store only when
    this search has come back empty. *)
Theorem malloc_search_spec fuel asize s :
  malloc_search fuel asize s = spec_search fuel asize s /\
  (forall i l,
     region_ok s -> list_rep s i l -> ascending s l -> (length l < fuel)%nat ->
     exists bp,
       fit_scan fuel asize
         (B2P (heap_listp s) (get32 (mem s) (seg_lists s + 4 * i))) s = Ret bp s /\
       ((bp = NULL /\ forall q, In q l -> size_at s q < asize) \/
        (In bp l /\ asize <= size_at s bp /\
         forall q, In q l -> asize <= size_at s q -> size_at s bp <= size_at s q))) /\
  (forall size,
     heap_listp s <> NULL -> size <> 0 -> asize = adjust size ->
     malloc fuel size s =
     (bp <- spec_search fuel asize ;;
      if bp =? NULL then
        bp <- extend_heap fuel (MAX asize CHUNKSIZE) ;;
        if bp =? NULL then ret NULL else place fuel bp asize
      else place fuel bp asize) s).
Proof.
  split; [apply malloc_search_cascade|]. split.
  - intros i l Hr Hl Ha Hf.
    destruct (fit_scan_chain asize l fuel _ _ s Hr Hl Hf) as (bp & Hbp & Hres).
    exists bp. split; [exact Hbp|].
    destruct Hres as [?|(l1 & l2 & -> & Hall & Hfit)]; [left; assumption|].
    right. split; [apply in_or_app; right; left; reflexivity|].
    split; [assumption|].
    intros q Hq Hqf. apply in_app_or in Hq. destruct Hq as [Hq|Hq].
    + specialize (Hall q Hq). lia.
    + eapply ascending_app; eassumption.
  - intros size Hinit Hsz ->. rewrite malloc_initialised by assumption.
    replace (size =? 0) with false by (symmetry; apply Z.eqb_neq; assumption).
    unfold bind at 1 3. now rewrite malloc_search_cascade.
Qed.

(** Witness of [malloc_search_spec]: list 3 holds a block of 112 and a
    block of 128 bytes; a request adjusted to 120 bytes gets the second. *)
Lemma malloc_search_spec_witness :
  region_ok two_free /\
  list_rep two_free 3 [first_bp; first_bp + 128] /\
  ascending two_free [first_bp; first_bp + 128] /\
  exists bp,
    fit_scan 100 120
      (B2P (heap_listp two_free)
           (get32 (mem two_free) (seg_lists two_free + 4 * 3))) two_free
    = Ret bp two_free /\
    ((bp = NULL /\
      forall q, In q [first_bp; first_bp + 128] -> size_at two_free q < 120) \/
     (In bp [first_bp; first_bp + 128] /\ 120 <= size_at two_free bp /\
      forall q, In q [first_bp; first_bp + 128] ->
                120 <= size_at two_free q ->
                size_at two_free bp <= size_at two_free q)).
Proof.
  assert (Hr : region_ok two_free) by (repeat split; vm_compute; congruence).
  assert (Hl : list_rep two_free 3 [first_bp; first_bp + 128]).
  { unfold list_rep. cbn [chain]. unfold node_ok.
    repeat split; vm_compute; congruence. }
  assert (Ha : ascending two_free [first_bp; first_bp + 128]).
  { cbn [ascending]. repeat split.
    - intros q' [<-|[]]. vm_compute. congruence.
    - intros q' []. }
  split; [exact Hr|]. split; [exact Hl|]. split; [exact Ha|].
  apply (proj1 (proj2 (malloc_search_spec 100 120 two_free)) 3 _ Hr Hl Ha).
  simpl. lia.
Defined.

(** ** Words and bytes *)

Lemma byte_at_range m a : 0 <= byte_at m a < 256.
Proof. apply Z.mod_pos_bound. lia. Qed.

Lemma get32_range m a : 0 <= get32 m a < 2 ^ 32.
Proof.
  unfold get32.
  pose proof (byte_at_range m a). pose proof (byte_at_range m (a + 1)).
  pose proof (byte_at_range m (a + 2)). pose proof (byte_at_range m (a + 3)).
  change (2 ^ 8) with 256. change (2 ^ 16) with 65536.
  change (2 ^ 24) with 16777216. change (2 ^ 32) with 4294967296. lia.
Qed.

Lemma byte_set32 m a v x :
  byte_at (set32 m a v) x =
  if (a <=? x) && (x <? a + 4) then (v / 2 ^ (8 * (x - a))) mod 256 else byte_at m x.
Proof.
  unfold byte_at, set32. destruct ((a <=? x) && (x <? a + 4)); [|reflexivity].
  apply Z.mod_mod. lia.
Qed.

Lemma in_range_cases a x :
  (a <=? x) && (x <? a + 4) = true -> x = a \/ x = a + 1 \/ x = a + 2 \/ x = a + 3.
Proof.
  intros H. apply andb_true_iff in H. destruct H as [H1 H2].
  apply Z.leb_le in H1. apply Z.ltb_lt in H2. lia.
Qed.

(** Byte [x - a] of the word stored at [a]. *)
Lemma get32_byte m a x :
  a <= x < a + 4 -> (get32 m a / 2 ^ (8 * (x - a))) mod 256 = byte_at m x.
Proof.
  intros H. unfold get32.
  pose proof (byte_at_range m a). pose proof (byte_at_range m (a + 1)).
  pose proof (byte_at_range m (a + 2)). pose proof (byte_at_range m (a + 3)).
  assert (C : x = a \/ x = a + 1 \/ x = a + 2 \/ x = a + 3) by lia.
  destruct C as [-> | [-> | [-> | ->]]].
  - replace (8 * (a - a)) with 0 by lia. change (2 ^ 0) with 1.
    change (2 ^ 8) with 256. change (2 ^ 16) with 65536. change (2 ^ 24) with 16777216.
    rewrite Z.div_1_r. 
    Z.div_mod_to_equations. lia.
  - replace (8 * (a + 1 - a)) with 8 by lia.
    change (2 ^ 8) with 256. change (2 ^ 16) with 65536. change (2 ^ 24) with 16777216.
    Z.div_mod_to_equations. lia.
  - replace (8 * (a + 2 - a)) with 16 by lia.
    change (2 ^ 8) with 256. change (2 ^ 16) with 65536. change (2 ^ 24) with 16777216.
    Z.div_mod_to_equations. lia.
  - replace (8 * (a + 3 - a)) with 24 by lia.
    change (2 ^ 8) with 256. change (2 ^ 16) with 65536. change (2 ^ 24) with 16777216.
    Z.div_mod_to_equations. lia.
Qed.

Lemma get32_set32_same m a v : get32 (set32 m a v) a = v mod 2 ^ 32.
Proof.
  unfold get32. rewrite !byte_set32.
  replace ((a <=? a) && (a <? a + 4)) with true by (symmetry; apply andb_true_iff; split; [apply Z.leb_le|apply Z.ltb_lt]; lia).
  replace ((a <=? a + 1) && (a + 1 <? a + 4)) with true by (symmetry; apply andb_true_iff; split; [apply Z.leb_le|apply Z.ltb_lt]; lia).
  replace ((a <=? a + 2) && (a + 2 <? a + 4)) with true by (symmetry; apply andb_true_iff; split; [apply Z.leb_le|apply Z.ltb_lt]; lia).
  replace ((a <=? a + 3) && (a + 3 <? a + 4)) with true by (symmetry; apply andb_true_iff; split; [apply Z.leb_le|apply Z.ltb_lt]; lia).
  replace (8 * (a - a)) with 0 by lia.
  replace (8 * (a + 1 - a)) with 8 by lia.
  replace (8 * (a + 2 - a)) with 16 by lia.
  replace (8 * (a + 3 - a)) with 24 by lia.
  change (2 ^ 0) with 1.
  change (2 ^ 8) with 256. change (2 ^ 16) with 65536. change (2 ^ 24) with 16777216.
  change (2 ^ 32) with 4294967296.
  Z.div_mod_to_equations. lia.
Qed.

Lemma get32_set32_other m a v a' :
  a' + 4 <= a \/ a + 4 <= a' -> get32 (set32 m a v) a' = get32 m a'.
Proof.
  intros H. unfold get32. rewrite !byte_set32.
  replace ((a <=? a') && (a' <? a + 4)) with false by (symmetry; apply andb_false_iff; rewrite Z.leb_gt, Z.ltb_ge; lia).
  replace ((a <=? a' + 1) && (a' + 1 <? a + 4)) with false by (symmetry; apply andb_false_iff; rewrite Z.leb_gt, Z.ltb_ge; lia).
  replace ((a <=? a' + 2) && (a' + 2 <? a + 4)) with false by (symmetry; apply andb_false_iff; rewrite Z.leb_gt, Z.ltb_ge; lia).
  replace ((a <=? a' + 3) && (a' + 3 <? a + 4)) with false by (symmetry; apply andb_false_iff; rewrite Z.leb_gt, Z.ltb_ge; lia).
  reflexivity.
Qed.

(** ** Walking a list while inserting *)

Lemma u_32_small x : 0 <= x < 2 ^ 32 -> u_32 x = x.
Proof. apply Z.mod_small. Qed.

Lemma P2B_sub base p : 0 <= p - base < 2 ^ 32 -> P2B base p = p - base.
Proof.
  intros H. unfold P2B, size_t, u_32. rewrite <- Zminus_mod.
  rewrite (Z.mod_small (p - base)) by lia. apply Z.mod_small. lia.
Qed.

Lemma bind_load32 {B} p (k : Z -> M B) s :
  mem_start_brk s <= p -> p + 4 <= mem_brk s ->
  bind (load32 p) k s = k (get32 (mem s) p) s.
Proof. intros H1 H2. unfold bind. now rewrite load32_ok. Qed.

Lemma bind_store32 {B} p v (k : unit -> M B) s :
  mem_start_brk s <= p -> p + 4 <= mem_brk s ->
  bind (store32 p v) k s = k tt (set_mem s (set32 (mem s) p v)).
Proof. intros H1 H2. unfold bind. now rewrite store32_ok. Qed.

Lemma last_cons {A} (l : list A) a d : last (a :: l) d = last l a.
Proof.
  revert a d. induction l as [|b l IH]; intros a d; [reflexivity|].
  change (last (a :: b :: l) d) with (last (b :: l) d).
  now rewrite !IH.
Qed.

Lemma add_scan_chain asize l : forall fuel p pb b s,
  region_ok s -> chain s pb b l -> (length l < fuel)%nat ->
  exists l1 l2,
    l = l1 ++ l2 /\
    (forall q, In q l1 -> size_at s q < asize) /\
    match l2 with [] => True | q :: _ => asize <= size_at s q end /\
    add_scan fuel asize p (B2P (heap_listp s) b) s = Ret (last l1 p, hd NULL l2) s.
Proof.
  induction l as [|q l IH]; intros fuel p pb b s Hr Hc Hf.
  - destruct fuel as [|fuel]; [cbn in Hf; lia|].
    rewrite (chain_head s pb b []) by assumption.
    exists [], []. repeat split; auto. intros q [].
  - destruct fuel as [|fuel]; [cbn in Hf; lia|].
    rewrite (chain_head s pb b (q :: l)) by assumption.
    pose proof (chain_head_nonnull s pb b q l Hr Hc) as Hq.
    destruct Hc as (Hb & Hqb & Hn & Hp & Hc).
    cbn [add_scan].
    replace (q =? NULL) with false by (symmetry; apply Z.eqb_neq; assumption).
    unfold bind at 1. rewrite GET_SIZE_node by assumption.
    destruct (asize >? size_at s q) eqn:E.
    + unfold bind at 1. rewrite NEXT_BIAS_node by assumption.
      unfold bind at 1. unfold get_heap_listp.
      destruct (IH fuel q b (get32 (mem s) (q + 4)) s Hr Hc) as (l1 & l2 & -> & Hall & Hfit & Hs);
        [cbn in Hf; lia|].
      exists (q :: l1), l2. split; [reflexivity|].
      apply Z.gtb_lt in E.
      split; [intros q' [<-|Hin]; auto|].
      split; [assumption|].
      rewrite last_cons. exact Hs.
    + exists [], (q :: l). split; [reflexivity|].
      split; [intros q' []|].
      rewrite Z.gtb_ltb in E. apply Z.ltb_ge in E.
      split; [assumption|reflexivity].
Qed.

Lemma chain_last s : forall l1 l2 pb b d,
  chain s pb b (l1 ++ l2) -> l1 <> [] ->
  In (last l1 d) l1 /\ node_ok s (last l1 d) /\
  0 < last l1 d - heap_listp s < 2 ^ 32 /\
  chain s (last l1 d - heap_listp s) (get32 (mem s) (last l1 d + 4)) l2.
Proof.
  induction l1 as [|q l1 IH]; intros l2 pb b d Hc Hne; [congruence|].
  destruct Hc as (Hb & Hq & Hn & Hp & Hc).
  destruct l1 as [|q' l1].
  - cbn [last]. split; [left; reflexivity|]. split; [assumption|].
    replace (q - heap_listp s) with b by lia. split; [assumption|]. exact Hc.
  - change (last (q :: q' :: l1) d) with (last (q' :: l1) d).
    destruct (IH l2 b (get32 (mem s) (q + 4)) d Hc ltac:(congruence)) as (H1 & H2).
    split; [right; exact H1|exact H2].
Qed.

(** ** Insertion followed by removal *)

Lemma SET_BIAS_run {B} p v (k : unit -> M B) s :
  mem_start_brk s <= p -> p + 4 <= mem_brk s ->
  bind (SET_BIAS p v) k s = k tt (set_mem s (set32 (mem s) p (u_32 v))).
Proof. apply bind_store32. Qed.

Lemma seg_slot_small s i :
  region_ok s -> mem_start_brk s <= seg_lists s + 4 * i ->
  seg_lists s + 4 * i + 4 <= mem_brk s ->
  seg_slot (seg_lists s) i = seg_lists s + 4 * i.
Proof. intros Hr H1 H2. unfold seg_slot. apply padd_small. unfold region_ok in Hr. lia. Qed.

Lemma seg_get_run {B} i (k : Z -> M B) s :
  region_ok s -> mem_start_brk s <= seg_lists s + 4 * i ->
  seg_lists s + 4 * i + 4 <= mem_brk s ->
  bind (seg_get i) k s = k (get32 (mem s) (seg_lists s + 4 * i)) s.
Proof.
  intros Hr H1 H2. unfold seg_get. rewrite bind_assoc.
  unfold bind at 1. unfold get_seg_lists.
  rewrite seg_slot_small by assumption. now apply bind_load32.
Qed.

Lemma seg_set_ok i v s :
  region_ok s -> mem_start_brk s <= seg_lists s + 4 * i ->
  seg_lists s + 4 * i + 4 <= mem_brk s ->
  seg_set i v s = Ret tt (set_mem s (set32 (mem s) (seg_lists s + 4 * i) (u_32 v))).
Proof.
  intros Hr H1 H2. unfold seg_set. unfold bind, get_seg_lists.
  rewrite seg_slot_small by assumption. now apply store32_ok.
Qed.

Lemma seg_set_run {B} i v (k : unit -> M B) s :
  region_ok s -> mem_start_brk s <= seg_lists s + 4 * i ->
  seg_lists s + 4 * i + 4 <= mem_brk s ->
  bind (seg_set i v) k s = k tt (set_mem s (set32 (mem s) (seg_lists s + 4 * i) (u_32 v))).
Proof. intros Hr H1 H2. unfold bind at 1. now rewrite seg_set_ok. Qed.

Lemma region_ok_set_mem s m : region_ok s -> region_ok (set_mem s m).
Proof. auto. Qed.

Lemma set_mem_set_mem s m1 m2 : set_mem (set_mem s m1) m2 = set_mem s m2.
Proof. reflexivity. Qed.

Lemma B2P_P2B base p :
  0 < p - base < 2 ^ 32 -> 0 <= p < 2 ^ 64 -> B2P base (p - base) = p.
Proof. intros H1 H2. rewrite B2P_pos by lia. lia. Qed.

Lemma remove_from_list_run bp asize s :
  region_ok s -> mem_start_brk s <= bp -> bp + 8 <= mem_brk s ->
  remove_from_list bp asize s =
  (let next_ptr := B2P (heap_listp s) (get32 (mem s) (bp + 4)) in
   let prev_ptr := B2P (heap_listp s) (get32 (mem s) bp) in
   if (prev_ptr =? NULL) && (next_ptr =? NULL) then
     seg_set (list_index_of asize) 0
   else if (prev_ptr =? NULL) && negb (next_ptr =? NULL) then
     SET_BIAS (PTR2PREVBIAS next_ptr) 0 ;;
     seg_set (list_index_of asize) (P2B (heap_listp s) next_ptr)
   else if negb (prev_ptr =? NULL) && (next_ptr =? NULL) then
     SET_BIAS (PTR2NEXTBIAS prev_ptr) 0
   else
     SET_BIAS (PTR2NEXTBIAS prev_ptr) (P2B (heap_listp s) next_ptr) ;;
     SET_BIAS (PTR2PREVBIAS next_ptr) (P2B (heap_listp s) prev_ptr)) s.
Proof.
  intros Hr H1 H2. pose proof Hr as (R0 & R1 & R2 & R3).
  unfold remove_from_list.
  unfold bind at 1. unfold get_heap_listp.
  unfold NEXT_FBP_BIAS, PREV_FBP_BIAS, PTR2NEXTBIAS at 1, PTR2PREVBIAS at 1, WSIZE.
  rewrite padd_small by lia.
  rewrite bind_load32 by lia. rewrite bind_load32 by lia. reflexivity.
Qed.

(** Bytes of a word that is written back where it was read. *)
Lemma byte_restore m a v x :
  get32 m a = v -> (a <=? x) && (x <? a + 4) = true ->
  (u_32 v / 2 ^ (8 * (x - a))) mod 256 = byte_at m x.
Proof.
  intros H Hx. apply andb_true_iff in Hx. destruct Hx as [H1 H2].
  apply Z.leb_le in H1. apply Z.ltb_lt in H2.
  rewrite u_32_small by (subst v; apply get32_range).
  subst v. apply get32_byte. lia.
Qed.

Lemma range_false a x : x < a \/ a + 4 <= x -> (a <=? x) && (x <? a + 4) = false.
Proof. intros H. apply andb_false_iff. rewrite Z.leb_gt, Z.ltb_ge. lia. Qed.

Section AddRemove.
Variables (fuel : nat) (bp asize : Z) (s : state) (l : list Z).
Hypothesis Hr : region_ok s.
Hypothesis Hslot :
  mem_start_brk s <= seg_lists s + 4 * list_index_of asize /\
  seg_lists s + 4 * list_index_of asize + 4 <= mem_brk s.
Hypothesis Hl : list_rep s (list_index_of asize) l.
Hypothesis Hfuel : (length l < fuel)%nat.
Hypothesis Hbp : mem_start_brk s <= bp /\ bp + 8 <= mem_brk s.
Hypothesis Hd : 0 < bp - heap_listp s < 2 ^ 32.
Hypothesis Hsep_slot :
  bp + 8 <= seg_lists s + 4 * list_index_of asize \/
  seg_lists s + 4 * list_index_of asize + 4 <= bp.
Hypothesis Hsep : forall q, In q l -> q + 8 <= bp \/ bp + 8 <= q.

Lemma add_remove_empty :
  l = [] ->
  exists s',
    (add_to_list fuel bp asize ;; remove_from_list bp asize) s = Ret tt s' /\
    same_regs s s' /\
    forall a, a < bp \/ bp + 8 <= a -> byte_at (mem s') a = byte_at (mem s) a.
Proof.
  intros ->. unfold list_rep in Hl. cbn [chain] in Hl.
  pose proof Hr as (R0 & R1 & R2 & R3).
  pose proof Hslot as (S1 & S2).
  eexists. split; [|split].
  - unfold add_to_list. rewrite !bind_assoc.
    unfold bind at 1. unfold get_heap_listp.
    rewrite ?bind_assoc.
    rewrite seg_get_run by assumption. rewrite Hl.
    rewrite B2P_zero. cbn [Z.eqb NULL].
    unfold PTR2NEXTBIAS, PTR2PREVBIAS, WSIZE. rewrite padd_small by lia.
    rewrite ?bind_assoc. rewrite SET_BIAS_run by lia.
    rewrite ?bind_assoc. rewrite SET_BIAS_run by (cbn; lia).
    rewrite ?bind_assoc. rewrite seg_set_run by (cbn; auto; lia).
    rewrite !set_mem_set_mem.
    cbn [mem set_mem mem_start_brk mem_brk mem_max_addr sbrk_calls heap_listp seg_lists].
    rewrite remove_from_list_run by (cbn; auto; lia).
    cbn [mem set_mem mem_start_brk mem_brk mem_max_addr sbrk_calls heap_listp seg_lists].
    rewrite (get32_set32_other _ _ _ (bp + 4)) by lia.
    rewrite (get32_set32_other _ _ _ (bp + 4)) by lia.
    rewrite get32_set32_same.
    rewrite (get32_set32_other _ _ _ bp) by lia.
    rewrite get32_set32_same.
    change (u_32 0 mod 2 ^ 32) with 0. rewrite B2P_zero.
    cbv zeta. cbn [Z.eqb NULL andb].
    rewrite seg_set_ok by (cbn; auto; lia).
    cbn [mem set_mem mem_start_brk mem_brk mem_max_addr sbrk_calls heap_listp seg_lists].
    reflexivity.
  - repeat split.
  - intros a Ha. cbn [mem set_mem].
    rewrite !byte_set32.
    destruct ((seg_lists s + 4 * list_index_of asize <=? a) &&
              (a <? seg_lists s + 4 * list_index_of asize + 4)) eqn:E.
    + eapply byte_restore; eauto.
    + rewrite !range_false by lia. reflexivity.
Qed.

Lemma add_remove_head q l' :
  l = q :: l' -> asize <= size_at s q ->
  exists s',
    (add_to_list fuel bp asize ;; remove_from_list bp asize) s = Ret tt s' /\
    same_regs s s' /\
    forall a, a < bp \/ bp + 8 <= a -> byte_at (mem s') a = byte_at (mem s) a.
Proof.
  intros -> Hfit. unfold list_rep in Hl.
  pose proof (chain_head _ _ _ _ Hr Hl) as Hhead.
  pose proof (chain_head_nonnull _ _ _ _ _ Hr Hl) as Hnn.
  destruct Hl as (Hh & Hq & Hn & Hp & _).
  pose proof Hn as (N1 & N2).
  pose proof Hr as (R0 & R1 & R2 & R3).
  pose proof Hslot as (S1 & S2).
  pose proof (Hsep q (or_introl eq_refl)) as Hsq.
  assert (Hb : P2B (heap_listp s) q = get32 (mem s) (seg_lists s + 4 * list_index_of asize))
    by (rewrite P2B_sub; lia).
  eexists. split; [|split].
  - unfold add_to_list. rewrite !bind_assoc.
    unfold bind at 1. unfold get_heap_listp.
    rewrite ?bind_assoc.
    rewrite seg_get_run by assumption. rewrite Hhead.
    replace (q =? NULL) with false by (symmetry; apply Z.eqb_neq; assumption).
    rewrite ?bind_assoc. unfold bind at 1. rewrite GET_SIZE_node by assumption.
    replace (asize <=? size_at s q) with true by (symmetry; apply Z.leb_le; assumption).
    unfold PTR2NEXTBIAS, PTR2PREVBIAS, WSIZE. rewrite padd_small by lia.
    rewrite ?bind_assoc. rewrite SET_BIAS_run by lia.
    rewrite ?bind_assoc. rewrite SET_BIAS_run by (cbn; lia).
    rewrite ?bind_assoc. rewrite SET_BIAS_run by (cbn; lia).
    rewrite ?bind_assoc. rewrite seg_set_run by (cbn; auto; lia).
    rewrite !set_mem_set_mem.
    cbn [mem set_mem mem_start_brk mem_brk mem_max_addr sbrk_calls heap_listp seg_lists].
    rewrite remove_from_list_run by (cbn; auto; lia).
    cbn [mem set_mem mem_start_brk mem_brk mem_max_addr sbrk_calls heap_listp seg_lists].
    rewrite (get32_set32_other _ _ _ (bp + 4)) by lia.
    rewrite (get32_set32_other _ _ _ (bp + 4)) by lia.
    rewrite (get32_set32_other _ _ _ (bp + 4)) by lia.
    rewrite get32_set32_same.
    rewrite (get32_set32_other _ _ _ bp) by lia.
    rewrite get32_set32_same.
    change (u_32 0 mod 2 ^ 32) with 0. rewrite B2P_zero.
    rewrite Hb. rewrite (u_32_small (get32 _ _)) by lia.
    rewrite (Z.mod_small (get32 _ _)) by lia.
    rewrite Hhead.
    cbv zeta. change (NULL =? NULL) with true.
    replace (q =? NULL) with false by (symmetry; apply Z.eqb_neq; assumption).
    cbn [negb andb].
    unfold PTR2PREVBIAS.
    rewrite SET_BIAS_run by (cbn; lia).
    rewrite seg_set_ok by (cbn; auto; lia).
    rewrite !set_mem_set_mem.
    cbn [mem set_mem mem_start_brk mem_brk mem_max_addr sbrk_calls heap_listp seg_lists].
    reflexivity.
  - repeat split.
  - intros a Ha. cbn [mem set_mem].
    rewrite Hb.
    rewrite !byte_set32.
    destruct ((seg_lists s + 4 * list_index_of asize <=? a) &&
              (a <? seg_lists s + 4 * list_index_of asize + 4)) eqn:E.
    + eapply byte_restore; eauto.
    + destruct ((q <=? a) && (a <? q + 4)) eqn:E'.
      * eapply byte_restore; eauto.
      * rewrite !range_false by lia. reflexivity.
Qed.


Lemma add_remove_inner q l' :
  l = q :: l' -> size_at s q < asize ->
  exists s',
    (add_to_list fuel bp asize ;; remove_from_list bp asize) s = Ret tt s' /\
    same_regs s s' /\
    forall a, a < bp \/ bp + 8 <= a -> byte_at (mem s') a = byte_at (mem s) a.
Proof.
  intros El Hbig. unfold list_rep in Hl.
  destruct (add_scan_chain asize l fuel NULL _ _ s Hr Hl Hfuel)
    as (l1 & l2 & Esplit & Hsmall & Hstop & Hscan).
  assert (Hne : l1 <> []).
  { intros ->. cbn [app] in Esplit. subst l2. rewrite El in Hstop. lia. }
  rewrite Esplit in Hl.
  destruct (chain_last s l1 l2 _ _ NULL Hl Hne) as (Hin & Hpn & Hpd & Hc2).
  rewrite <- Esplit in Hl. rewrite El in Hl.
  pose proof (chain_head _ _ _ _ Hr Hl) as Hhead.
  pose proof (chain_head_nonnull _ _ _ _ _ Hr Hl) as Hnn.
  destruct Hl as (Hh & Hq & Hn & Hp & _).
  rewrite Hhead in Hscan.
  set (p' := last l1 NULL) in *.
  pose proof Hpn as (P1 & P2).
  pose proof Hr as (R0 & R1 & R2 & R3).
  pose proof Hslot as (S1 & S2).
  assert (Hsp : p' + 8 <= bp \/ bp + 8 <= p').
  { apply Hsep. rewrite Esplit. apply in_or_app. left. exact Hin. }
  assert (Hpnn : (p' =? NULL) = false) by (apply Z.eqb_neq; unfold NULL; lia).
  assert (Hstart :
    (add_to_list fuel bp asize ;; remove_from_list bp asize) s =
    ((if negb (hd NULL l2 =? NULL) then
        SET_BIAS (PTR2NEXTBIAS bp) (P2B (heap_listp s) (hd NULL l2)) ;;
        SET_BIAS (PTR2PREVBIAS (hd NULL l2)) (P2B (heap_listp s) bp) ;;
        SET_BIAS (PTR2NEXTBIAS p') (P2B (heap_listp s) bp) ;;
        SET_BIAS (PTR2PREVBIAS bp) (P2B (heap_listp s) p')
      else
        SET_BIAS (PTR2NEXTBIAS bp) 0 ;;
        SET_BIAS (PTR2NEXTBIAS p') (P2B (heap_listp s) bp) ;;
        SET_BIAS (PTR2PREVBIAS bp) (P2B (heap_listp s) p')) ;;
     remove_from_list bp asize) s).
  { unfold add_to_list. rewrite !bind_assoc.
    unfold bind at 1. unfold get_heap_listp.
    rewrite ?bind_assoc.
    rewrite seg_get_run by assumption. rewrite Hhead.
    replace (q =? NULL) with false by (symmetry; apply Z.eqb_neq; assumption).
    rewrite ?bind_assoc. unfold bind at 1. rewrite GET_SIZE_node by assumption.
    replace (asize <=? size_at s q) with false by (symmetry; apply Z.leb_gt; assumption).
    rewrite ?bind_assoc. unfold bind at 1. rewrite Hscan.
    cbn [fst snd]. reflexivity. }
  rewrite Hstart. clear Hstart.
  destruct l2 as [|n' l2']; cbn [hd].
  - (* insert as the last node *)
    cbn [chain] in Hc2.
    change (NULL =? NULL) with true. cbn [negb].
    eexists. split; [|split].
    + unfold PTR2NEXTBIAS, PTR2PREVBIAS, WSIZE. rewrite !padd_small by lia.
      rewrite ?bind_assoc. rewrite SET_BIAS_run by lia.
      rewrite ?bind_assoc. rewrite SET_BIAS_run by (cbn; lia).
      rewrite ?bind_assoc. rewrite SET_BIAS_run by (cbn; lia).
      rewrite !set_mem_set_mem.
      cbn [mem set_mem mem_start_brk mem_brk mem_max_addr sbrk_calls heap_listp seg_lists].
      rewrite remove_from_list_run by (cbn; auto; lia).
      cbn [mem set_mem mem_start_brk mem_brk mem_max_addr sbrk_calls heap_listp seg_lists].
      rewrite (get32_set32_other _ _ _ (bp + 4)) by lia.
      rewrite (get32_set32_other _ _ _ (bp + 4)) by lia.
      rewrite get32_set32_same.
      rewrite get32_set32_same.
      change (u_32 0 mod 2 ^ 32) with 0. rewrite B2P_zero.
      rewrite (P2B_sub _ p') by lia.
      rewrite (u_32_small (p' - _)) by lia.
      rewrite (Z.mod_small (p' - _)) by lia.
      rewrite B2P_P2B by lia.
      cbv zeta. change (NULL =? NULL) with true. rewrite Hpnn.
      cbn [negb andb].
      unfold PTR2NEXTBIAS, WSIZE. rewrite !padd_small by lia.
      unfold SET_BIAS. rewrite store32_ok by (cbn; lia).
      rewrite !set_mem_set_mem.
      cbn [mem set_mem mem_start_brk mem_brk mem_max_addr sbrk_calls heap_listp seg_lists].
      reflexivity.
    + repeat split.
    + intros a Ha. cbn [mem set_mem].
      rewrite !byte_set32.
      destruct ((p' + 4 <=? a) && (a <? p' + 4 + 4)) eqn:E.
      * eapply byte_restore; eauto.
      * rewrite !range_false by lia. reflexivity.
  - (* insert in the middle *)
    destruct Hc2 as (Hbn & Hn' & Hnn' & Hpv & _).
    pose proof Hnn' as (N1 & N2).
    assert (Hsn : n' + 8 <= bp \/ bp + 8 <= n').
    { apply Hsep. rewrite Esplit. apply in_or_app. right. left. reflexivity. }
    assert (Hn0 : (n' =? NULL) = false) by (apply Z.eqb_neq; unfold NULL; lia).
    rewrite Hn0. cbn [negb].
    assert (Hbn' : P2B (heap_listp s) n' = get32 (mem s) (p' + 4))
      by (rewrite P2B_sub; lia).
    eexists. split; [|split].
    + unfold PTR2NEXTBIAS, PTR2PREVBIAS, WSIZE. rewrite !padd_small by lia.
      rewrite ?bind_assoc. rewrite SET_BIAS_run by lia.
      rewrite ?bind_assoc. rewrite SET_BIAS_run by (cbn; lia).
      rewrite ?bind_assoc. rewrite SET_BIAS_run by (cbn; lia).
      rewrite ?bind_assoc. rewrite SET_BIAS_run by (cbn; lia).
      rewrite !set_mem_set_mem.
      cbn [mem set_mem mem_start_brk mem_brk mem_max_addr sbrk_calls heap_listp seg_lists].
      rewrite remove_from_list_run by (cbn; auto; lia).
      cbn [mem set_mem mem_start_brk mem_brk mem_max_addr sbrk_calls heap_listp seg_lists].
      rewrite (get32_set32_other _ _ _ (bp + 4)) by lia.
      rewrite (get32_set32_other _ _ _ (bp + 4)) by lia.
      rewrite (get32_set32_other _ _ _ (bp + 4)) by lia.
      rewrite get32_set32_same.
      rewrite get32_set32_same.
      rewrite Hbn'.
      rewrite (P2B_sub _ p') by lia.
      rewrite (u_32_small (p' - _)) by lia.
      rewrite (Z.mod_small (p' - _)) by lia.
      rewrite (u_32_small (get32 _ _)) by lia.
      rewrite (Z.mod_small (get32 _ _)) by lia.
      rewrite B2P_P2B by lia.
      rewrite (B2P_pos _ (get32 _ _)) by lia. rewrite <- Hn'.
      cbv zeta. rewrite Hpnn, Hn0.
      cbn [negb andb].
      unfold PTR2NEXTBIAS, PTR2PREVBIAS, WSIZE. rewrite !padd_small by lia.
      rewrite SET_BIAS_run by (cbn; lia).
      unfold SET_BIAS. rewrite store32_ok by (cbn; lia).
      rewrite !set_mem_set_mem.
      cbn [mem set_mem mem_start_brk mem_brk mem_max_addr sbrk_calls heap_listp seg_lists].
      reflexivity.
    + repeat split.
    + intros a Ha. cbn [mem set_mem].
      rewrite Hbn'. rewrite (P2B_sub _ p') by lia.
      rewrite !byte_set32.
      destruct ((n' <=? a) && (a <? n' + 4)) eqn:E.
      * eapply byte_restore; eauto.
      * destruct ((p' + 4 <=? a) && (a <? p' + 4 + 4)) eqn:E'.
        -- eapply byte_restore; eauto.
        -- rewrite !range_false by lia. reflexivity.
Qed.

End AddRemove.

Lemma get32_ext m m' a :
  (forall x, a <= x < a + 4 -> byte_at m' x = byte_at m x) ->
  get32 m' a = get32 m a.
Proof. intros H. unfold get32. rewrite !H by lia. reflexivity. Qed.

(** C10: let the list of the class of [asize] be well formed and let the
    two link words of [bp] lie in the region, apart from the head of that
    list and from the link words of its nodes.  Then [add_to_list]
    followed by [remove_from_list] returns, and afterwards every byte
    outside the two link words of [bp] is what it was: every list head and
    the previous and next offsets of every other block are restored. *)
Theorem add_then_remove_restores fuel bp asize s l :
  region_ok s ->
  mem_start_brk s <= seg_lists s + 4 * list_index_of asize /\
  seg_lists s + 4 * list_index_of asize + 4 <= mem_brk s ->
  list_rep s (list_index_of asize) l ->
  (length l < fuel)%nat ->
  mem_start_brk s <= bp /\ bp + 8 <= mem_brk s ->
  0 < bp - heap_listp s < 2 ^ 32 ->
  bp + 8 <= seg_lists s + 4 * list_index_of asize \/
  seg_lists s + 4 * list_index_of asize + 4 <= bp ->
  (forall q, In q l -> q + 8 <= bp \/ bp + 8 <= q) ->
  exists s',
    (add_to_list fuel bp asize ;; remove_from_list bp asize) s = Ret tt s' /\
    same_regs s s' /\
    (forall a, a < bp \/ bp + 8 <= a -> byte_at (mem s') a = byte_at (mem s) a) /\
    (forall j, seg_lists s + 4 * j + 4 <= bp \/ bp + 8 <= seg_lists s + 4 * j ->
               get32 (mem s') (seg_lists s + 4 * j) =
               get32 (mem s) (seg_lists s + 4 * j)) /\
    (forall q, q + 8 <= bp \/ bp + 8 <= q ->
               get32 (mem s') q = get32 (mem s) q /\
               get32 (mem s') (q + 4) = get32 (mem s) (q + 4)).
Proof.
  intros Hr Hslot Hl Hfuel Hbp Hd Hss Hsep.
  assert (H : exists s',
    (add_to_list fuel bp asize ;; remove_from_list bp asize) s = Ret tt s' /\
    same_regs s s' /\
    forall a, a < bp \/ bp + 8 <= a -> byte_at (mem s') a = byte_at (mem s) a).
  { destruct l as [|q l'] eqn:El.
    - eapply add_remove_empty; eauto.
    - destruct (Z_lt_le_dec (size_at s q) asize).
      + eapply add_remove_inner; eauto.
      + eapply add_remove_head; eauto. }
  destruct H as (s' & Hrun & Hregs & Hbytes).
  exists s'. split; [exact Hrun|]. split; [exact Hregs|]. split; [exact Hbytes|].
  split.
  - intros j Hj. apply get32_ext. intros x Hx. apply Hbytes. lia.
  - intros q Hq. split; apply get32_ext; intros x Hx; apply Hbytes; lia.
Qed.

(** Witness of [add_then_remove_restores]: list 3 holds blocks of 112 and
    128 bytes, and the block of 120 bytes between them has been marked
    free; it is inserted between the two and removed again. *)
Lemma add_then_remove_restores_witness :
  list_rep marked (list_index_of 120) [first_bp; first_bp + 264] /\
  exists s',
    (add_to_list 100 (first_bp + 128) 120 ;;
     remove_from_list (first_bp + 128) 120) marked = Ret tt s' /\
    same_regs marked s' /\
    (forall a, a < first_bp + 128 \/ first_bp + 128 + 8 <= a ->
               byte_at (mem s') a = byte_at (mem marked) a) /\
    (forall j, seg_lists marked + 4 * j + 4 <= first_bp + 128 \/
               first_bp + 128 + 8 <= seg_lists marked + 4 * j ->
               get32 (mem s') (seg_lists marked + 4 * j) =
               get32 (mem marked) (seg_lists marked + 4 * j)) /\
    (forall q, q + 8 <= first_bp + 128 \/ first_bp + 128 + 8 <= q ->
               get32 (mem s') q = get32 (mem marked) q /\
               get32 (mem s') (q + 4) = get32 (mem marked) (q + 4)).
Proof.
  assert (Hl : list_rep marked (list_index_of 120) [first_bp; first_bp + 264]).
  { unfold list_rep. cbn [chain]. unfold node_ok.
    repeat split; vm_compute; congruence. }
  split; [exact Hl|].
  apply (add_then_remove_restores 100 (first_bp + 128) 120 marked
           [first_bp; first_bp + 264]).
  - repeat split; vm_compute; congruence.
  - split; vm_compute; congruence.
  - exact Hl.
  - simpl. lia.
  - split; vm_compute; congruence.
  - split; vm_compute; congruence.
  - right. vm_compute. congruence.
  - intros q [<-|[<-|[]]]; [left|right]; vm_compute; congruence.
Defined.

(** ** Tags and rounding *)

(* ---------- definitions ---------- *)

Lemma land_lnot7 x : Z.land x (Z.lnot 7) = 8 * (x / 8).
Proof.
  rewrite <- Z.ldiff_land. change 7 with (Z.ones 3).
  rewrite Z.ldiff_ones_r by lia.
  rewrite Z.shiftr_div_pow2, Z.shiftl_mul_pow2 by lia.
  change (2 ^ 3) with 8. lia.
Qed.

Lemma land_1 x : Z.land x 1 = x mod 2.
Proof. change 1 with (Z.ones 1). rewrite Z.land_ones by lia. reflexivity. Qed.

Lemma lor_1_even x : x mod 2 = 0 -> Z.lor x 1 = x + 1.
Proof.
  intros H. pose proof (Z.add_lor_land x 1) as E.
  rewrite land_1 in E. lia.
Qed.

Lemma PACK_free sz : PACK sz 0 = sz.
Proof. unfold PACK. apply Z.lor_0_r. Qed.

Lemma PACK_alloc sz : sz mod 8 = 0 -> PACK sz 1 = sz + 1.
Proof.
  intros H. unfold PACK. apply lor_1_even.
  Z.div_mod_to_equations. lia.
Qed.

Lemma PACK_tag sz (fr : bool) : sz mod 8 = 0 -> PACK sz (if fr then 0 else 1) = tag sz fr.
Proof. intros H. destruct fr; [apply PACK_free|now apply PACK_alloc]. Qed.

Lemma tag_size sz fr : sz mod 8 = 0 -> Z.land (tag sz fr) (Z.lnot 7) = sz.
Proof.
  intros H. rewrite land_lnot7. unfold tag.
  destruct fr; Z.div_mod_to_equations; lia.
Qed.

Lemma tag_alloc sz fr : sz mod 8 = 0 -> Z.land (tag sz fr) 1 = if fr then 0 else 1.
Proof.
  intros H. rewrite land_1. unfold tag.
  destruct fr; Z.div_mod_to_equations; lia.
Qed.

Lemma tag_range sz fr : 0 <= sz < 2 ^ 32 - 1 -> 0 <= tag sz fr < 2 ^ 32.
Proof. unfold tag. destruct fr; lia. Qed.

Lemma ALIGN_spec p : 0 <= p -> p + 7 < 2 ^ 64 -> ALIGN p = 8 * ((p + 7) / 8).
Proof.
  intros H1 H2. unfold ALIGN, ALIGNMENT. rewrite land_lnot7.
  rewrite (size_t_small p) by lia. rewrite size_t_small by lia.
  replace (p + (8 - 1)) with (p + 7) by lia. reflexivity.
Qed.

Lemma ALIGN_mod8 p : ALIGN p mod 8 = 0.
Proof.
  unfold ALIGN. rewrite land_lnot7.
  rewrite Z.mul_comm. apply Z.mod_mul. lia.
Qed.

Lemma ALIGN_ge p : 0 <= p -> p + 7 < 2 ^ 64 -> p <= ALIGN p < p + 8.
Proof.
  intros H1 H2. rewrite ALIGN_spec by assumption.
  Z.div_mod_to_equations. lia.
Qed.

Lemma adjust_small size : 0 < size <= 8 -> adjust size = 16.
Proof.
  intros H. unfold adjust, DSIZE.
  replace (size <=? 8) with true by (symmetry; apply Z.leb_le; lia).
  reflexivity.
Qed.

Lemma adjust_large size :
  8 < size -> size + 15 < 2 ^ 64 -> adjust size = 8 * ((size + 15) / 8).
Proof.
  intros H1 H2. unfold adjust, DSIZE.
  replace (size <=? 8) with false by (symmetry; apply Z.leb_gt; lia).
  rewrite (size_t_small (size + 8)) by lia.
  rewrite ALIGN_spec by lia. f_equal. f_equal. lia.
Qed.

(** On the sizes for which the rounding does not wrap, the adjusted size
    is the request plus the overhead, rounded up to a multiple of 8 and at
    least 16. *)
Lemma adjust_facts size :
  0 < size -> size + 15 < 2 ^ 64 ->
  16 <= adjust size /\ adjust size mod 8 = 0 /\
  size + 8 <= adjust size /\ adjust size < size + 16 + 8.
Proof.
  intros H1 H2. destruct (Z_le_gt_dec size 8).
  - rewrite adjust_small by lia. repeat split; try lia.
  - rewrite adjust_large by lia. Z.div_mod_to_equations. lia.
Qed.

(** ** Lists as links *)

(* ---------- definitions ---------- *)

Lemma chain_links s l : forall pb b,
  chain s pb b l <-> b = head_off s l 0 /\ links s pb l.
Proof.
  unfold links, nodes_ok.
  induction l as [|q l IH]; intros pb b; cbn [chain head_off prevs nexts].
  - split; [|tauto]. intros ->. split; [reflexivity|].
    split; [intros q' []|split; exact I].
  - rewrite IH. unfold off. split.
    + intros (Hb & Hq & Hn & Hp & Hnx & Hall & Hpv & Hn2).
      split; [lia|]. split.
      * intros q' [<-|Hin]; [split; [assumption|lia]|auto].
      * replace (q - heap_listp s) with b by lia. repeat split; assumption.
    + intros (Hb & Hall & (Hp & Hpv) & (Hnx & Hn2)).
      destruct (Hall q (or_introl eq_refl)) as [Hn Ho].
      split; [lia|]. split; [lia|]. split; [assumption|]. split; [assumption|].
      split; [assumption|]. split; [intros q' Hin; apply Hall; right; assumption|].
      replace b with (q - heap_listp s) by lia. split; assumption.
Qed.

Lemma list_rep_links s i l :
  list_rep s i l <->
  get32 (mem s) (seg_lists s + 4 * i) = head_off s l 0 /\ links s 0 l.
Proof. unfold list_rep. apply chain_links. Qed.

Lemma head_off_app s l1 l2 e :
  head_off s (l1 ++ l2) e = head_off s l1 (head_off s l2 e).
Proof. destruct l1; reflexivity. Qed.

Lemma last_off_app s pb l1 l2 :
  last_off s pb (l1 ++ l2) = last_off s (last_off s pb l1) l2.
Proof. revert pb. induction l1 as [|q l1 IH]; intros pb; cbn; auto. Qed.

Lemma prevs_app s l1 : forall pb l2,
  prevs s pb (l1 ++ l2) <-> prevs s pb l1 /\ prevs s (last_off s pb l1) l2.
Proof.
  induction l1 as [|q l1 IH]; intros pb l2; cbn [app prevs last_off].
  - tauto.
  - rewrite IH. tauto.
Qed.

Lemma nexts_app s l1 : forall l2 e,
  nexts s (l1 ++ l2) e <-> nexts s l1 (head_off s l2 e) /\ nexts s l2 e.
Proof.
  induction l1 as [|q l1 IH]; intros l2 e; cbn [app nexts].
  - tauto.
  - rewrite IH, head_off_app. tauto.
Qed.

Lemma nodes_ok_app s l1 l2 :
  nodes_ok s (l1 ++ l2) <-> nodes_ok s l1 /\ nodes_ok s l2.
Proof.
  unfold nodes_ok. split.
  - intros H. split; intros q Hq; apply H; apply in_or_app; auto.
  - intros [H1 H2] q Hq. apply in_app_or in Hq. destruct Hq; auto.
Qed.

Lemma nodes_ok_cons s q l :
  nodes_ok s (q :: l) <-> (node_ok s q /\ 0 < off s q < 2 ^ 32) /\ nodes_ok s l.
Proof.
  unfold nodes_ok. split.
  - intros H. split; [apply H; left; reflexivity|intros q' Hq; apply H; right; assumption].
  - intros [H1 H2] q' [<-|Hq]; auto.
Qed.

(** Frames: the three parts of [links] look at different words. *)
Lemma nodes_ok_frame s s' l : same_regs s s' -> nodes_ok s l -> nodes_ok s' l.
Proof.
  intros (E1 & E2 & _ & _ & E3 & _) H q Hq. destruct (H q Hq) as [[H1 H2] H3].
  unfold node_ok, off. rewrite E1, E2, E3. auto.
Qed.

Lemma prevs_frame s s' l : forall pb,
  heap_listp s' = heap_listp s ->
  (forall q, In q l -> get32 (mem s') q = get32 (mem s) q) ->
  prevs s pb l -> prevs s' pb l.
Proof.
  induction l as [|q l IH]; intros pb E H; cbn [prevs]; [auto|].
  intros [H1 H2]. split.
  - rewrite H by (left; reflexivity). assumption.
  - unfold off. rewrite E. apply IH; auto. intros q' Hq. apply H. right. assumption.
Qed.

Lemma head_off_frame s s' l e :
  heap_listp s' = heap_listp s -> head_off s' l e = head_off s l e.
Proof. intros E. destruct l; [reflexivity|]. unfold head_off, off. now rewrite E. Qed.

Lemma last_off_frame s s' l : forall pb,
  heap_listp s' = heap_listp s -> last_off s' pb l = last_off s pb l.
Proof.
  induction l as [|q l IH]; intros pb E; cbn; [reflexivity|].
  unfold off. rewrite E. now apply IH.
Qed.

Lemma nexts_frame s s' l e :
  heap_listp s' = heap_listp s ->
  (forall q, In q l -> get32 (mem s') (q + 4) = get32 (mem s) (q + 4)) ->
  nexts s l e -> nexts s' l e.
Proof.
  intros E. induction l as [|q l IH]; intros H; cbn [nexts]; [auto|].
  intros [H1 H2]. split.
  - rewrite H by (left; reflexivity). now rewrite (head_off_frame s s').
  - apply IH; auto. intros q' Hq. apply H. right. assumption.
Qed.

(** Changing the end of a run of next offsets is changing the next offset
    of its last node. *)
Lemma nexts_new_end s s' l p e e' :
  heap_listp s' = heap_listp s ->
  (forall q, In q l -> get32 (mem s') (q + 4) = get32 (mem s) (q + 4)) ->
  get32 (mem s') (p + 4) = e' ->
  nexts s (l ++ [p]) e -> nexts s' (l ++ [p]) e'.
Proof.
  intros E H Hp. rewrite !nexts_app. cbn [nexts head_off].
  intros (H1 & _). split.
  - unfold off. rewrite E. eapply nexts_frame; eauto.
  - split; auto.
Qed.

(** Changing the start of a run of previous offsets is changing the
    previous offset of its first node. *)
Lemma prevs_new_start s s' l pb pb' :
  heap_listp s' = heap_listp s ->
  match l with
  | [] => True
  | n :: l' => get32 (mem s') n = pb' /\
               forall q, In q l' -> get32 (mem s') q = get32 (mem s) q
  end ->
  prevs s pb l -> prevs s' pb' l.
Proof.
  intros E. destruct l as [|n l']; cbn [prevs]; [auto|].
  intros [H1 H2] [_ H3]. split; [assumption|].
  unfold off. rewrite E. eapply prevs_frame; eauto.
Qed.

Lemma same_regs_hl s s' : same_regs s s' -> heap_listp s' = heap_listp s.
Proof. intros (_ & _ & _ & _ & E & _). exact E. Qed.

(** Splicing [bp] in between [l1] and [l2]. *)
Lemma links_insert s s' pb l1 l2 bp :
  same_regs s s' ->
  links s pb (l1 ++ l2) ->
  node_ok s bp -> 0 < off s bp < 2 ^ 32 ->
  (forall q, In q l1 -> get32 (mem s') q = get32 (mem s) q) ->
  get32 (mem s') bp = last_off s pb l1 ->
  match l2 with
  | [] => True
  | n :: l2' => get32 (mem s') n = off s bp /\
                forall q, In q l2' -> get32 (mem s') q = get32 (mem s) q
  end ->
  (l1 = [] \/
   exists l1' p, l1 = l1' ++ [p] /\ get32 (mem s') (p + 4) = off s bp /\
     forall q, In q l1' -> get32 (mem s') (q + 4) = get32 (mem s) (q + 4)) ->
  get32 (mem s') (bp + 4) = head_off s l2 0 ->
  (forall q, In q l2 -> get32 (mem s') (q + 4) = get32 (mem s) (q + 4)) ->
  links s' pb (l1 ++ bp :: l2).
Proof.
  intros Hregs (Hn & Hp & Hx) Hbp Hoff Hp1 Hpb Hp2 Hx1 Hxb Hx2.
  pose proof (same_regs_hl _ _ Hregs) as E.
  apply nodes_ok_app in Hn. destruct Hn as [Hn1 Hn2].
  apply prevs_app in Hp. destruct Hp as [Hpa Hpc].
  apply nexts_app in Hx. destruct Hx as [Hxa Hxc].
  unfold links. split; [|split].
  - apply nodes_ok_app. split; [eapply nodes_ok_frame; eauto|].
    apply nodes_ok_cons. split.
    + eapply (nodes_ok_frame s s' [bp]); eauto.
      * intros q [<-|[]]. auto.
      * left. reflexivity.
    + eapply nodes_ok_frame; eauto.
  - apply prevs_app. split; [eapply prevs_frame; eauto|].
    cbn [prevs]. rewrite (last_off_frame s s') by assumption.
    split; [assumption|].
    replace (off s' bp) with (off s bp) by (unfold off; now rewrite E).
    eapply prevs_new_start; eauto.
  - apply nexts_app. cbn [nexts head_off]. split.
    + replace (off s' bp) with (off s bp) by (unfold off; now rewrite E).
      destruct Hx1 as [->|(l1' & p & -> & Hp4 & Hfr)]; [exact I|].
      eapply nexts_new_end; eauto.
    + rewrite (head_off_frame s s') by assumption.
      split; [assumption|]. eapply nexts_frame; eauto.
Qed.

(** Splicing [bp] out from between [l1] and [l2]. *)
Lemma links_remove s s' pb l1 l2 bp :
  same_regs s s' ->
  links s pb (l1 ++ bp :: l2) ->
  (forall q, In q l1 -> get32 (mem s') q = get32 (mem s) q) ->
  match l2 with
  | [] => True
  | n :: l2' => get32 (mem s') n = last_off s pb l1 /\
                forall q, In q l2' -> get32 (mem s') q = get32 (mem s) q
  end ->
  (l1 = [] \/
   exists l1' p, l1 = l1' ++ [p] /\ get32 (mem s') (p + 4) = head_off s l2 0 /\
     forall q, In q l1' -> get32 (mem s') (q + 4) = get32 (mem s) (q + 4)) ->
  (forall q, In q l2 -> get32 (mem s') (q + 4) = get32 (mem s) (q + 4)) ->
  links s' pb (l1 ++ l2).
Proof.
  intros Hregs (Hn & Hp & Hx) Hp1 Hp2 Hx1 Hx2.
  pose proof (same_regs_hl _ _ Hregs) as E.
  apply nodes_ok_app in Hn. destruct Hn as [Hn1 Hn2].
  apply nodes_ok_cons in Hn2. destruct Hn2 as [_ Hn2].
  apply prevs_app in Hp. destruct Hp as [Hpa [_ Hpc]].
  apply nexts_app in Hx. destruct Hx as [Hxa [_ Hxc]].
  unfold links. split; [|split].
  - apply nodes_ok_app. split; eapply nodes_ok_frame; eauto.
  - apply prevs_app. split; [eapply prevs_frame; eauto|].
    rewrite (last_off_frame s s') by assumption.
    eapply prevs_new_start; eauto.
  - apply nexts_app. split.
    + rewrite (head_off_frame s s') by assumption.
      destruct Hx1 as [->|(l1' & p & -> & Hp4 & Hfr)]; [exact I|].
      eapply nexts_new_end; eauto.
    + eapply nexts_frame; eauto.
Qed.

Lemma far_sym q q' : far q q' -> far q' q.
Proof. unfold far. lia. Qed.

Lemma sep_app l1 l2 :
  sep (l1 ++ l2) <->
  sep l1 /\ sep l2 /\ forall q q', In q l1 -> In q' l2 -> far q q'.
Proof.
  induction l1 as [|a l1 IH]; cbn [app sep].
  - split; [intros H; repeat split; auto; intros q q' []|tauto].
  - rewrite IH. split.
    + intros (Ha & H1 & H2 & H12). repeat split; auto.
      * intros q' Hq. apply Ha. apply in_or_app. auto.
      * intros q q' [<-|Hq] Hq'; [apply Ha; apply in_or_app; auto|auto].
    + intros ((Ha & H1) & H2 & H12). repeat split; auto.
      * intros q' Hq. apply in_app_or in Hq. destruct Hq; [auto|].
        apply H12; [left; reflexivity|assumption].
      * intros q q' Hq Hq'. apply H12; [right|]; assumption.
Qed.

Lemma sep_cons q l : sep (q :: l) <-> (forall q', In q' l -> far q q') /\ sep l.
Proof. reflexivity. Qed.

Lemma last_off_snoc s pb l p : last_off s pb (l ++ [p]) = off s p.
Proof. rewrite last_off_app. reflexivity. Qed.

Lemma links_head s pb l : links s pb l ->
  match l with [] => True | q :: _ => node_ok s q /\ 0 < off s q < 2 ^ 32 end.
Proof.
  intros (H & _). destruct l as [|q l]; [exact I|]. apply H. left. reflexivity.
Qed.

(** ** Insertion and removal on the memory *)

(* ---------- definitions ---------- *)

Ltac simp_state :=
  rewrite ?set_mem_set_mem;
  cbn [mem set_mem mem_start_brk mem_brk mem_max_addr sbrk_calls heap_listp seg_lists].

Ltac side :=
  cbn [mem set_mem mem_start_brk mem_brk mem_max_addr sbrk_calls heap_listp seg_lists];
  auto; lia.

Section AddToList.
Variables (fuel : nat) (bp asize : Z) (s : state) (L : list Z).
Hypothesis Hr : region_ok s.
Hypothesis Hslot :
  mem_start_brk s <= seg_lists s + 4 * list_index_of asize /\
  seg_lists s + 4 * list_index_of asize + 4 <= mem_brk s.
Hypothesis HL : list_rep s (list_index_of asize) L.
Hypothesis Hfuel : (length L < fuel)%nat.
Hypothesis Hbp : node_ok s bp.
Hypothesis Hd : 0 < off s bp < 2 ^ 32.

Lemma add_to_list_eval :
  exists l1 l2,
    L = l1 ++ l2 /\
    (forall q, In q l1 -> size_at s q < asize) /\
    match l2 with [] => True | n :: _ => asize <= size_at s n end /\
    add_to_list fuel bp asize s =
    Ret tt (set_mem s (add_mem s (seg_lists s + 4 * list_index_of asize) bp l1 l2)).
Proof.
  unfold list_rep in HL.
  destruct (add_scan_chain asize L fuel NULL _ _ s Hr HL Hfuel)
    as (l1 & l2 & Esplit & Hsmall & Hstop & Hscan).
  exists l1, l2. split; [exact Esplit|]. split; [exact Hsmall|]. split; [exact Hstop|].
  pose proof Hr as (R0 & R1 & R2 & R3).
  pose proof Hslot as (S1 & S2).
  pose proof Hbp as (B1 & B2).
  unfold off in Hd.
  pose proof (chain_head _ _ _ _ Hr HL) as Hhead.
  unfold add_to_list. rewrite ?bind_assoc.
  unfold bind at 1. unfold get_heap_listp.
  rewrite ?bind_assoc.
  rewrite seg_get_run by assumption. rewrite Hhead.
  unfold PTR2NEXTBIAS at 1 2 3 5, PTR2PREVBIAS, WSIZE. rewrite (padd_small bp) by lia.
  rewrite (P2B_sub _ bp) by lia.
  destruct l1 as [|q1 l1'].
  - (* nothing smaller in the list *)
    cbn [app] in Esplit. subst l2.
    destruct L as [|n l'].
    + change (NULL =? NULL) with true. cbv iota.
      rewrite ?bind_assoc. rewrite SET_BIAS_run by lia.
      rewrite ?bind_assoc. rewrite SET_BIAS_run by side.
      rewrite seg_set_ok by side.
      simp_state. rewrite ?u_32_small by lia. reflexivity.
    + pose proof (chain_head_nonnull _ _ _ _ _ Hr HL) as Hnn.
      destruct HL as (Hh & Hq & Hn & Hp & _).
      pose proof Hn as (N1 & N2).
      replace (n =? NULL) with false by (symmetry; apply Z.eqb_neq; assumption).
      rewrite ?bind_assoc. unfold bind at 1. rewrite GET_SIZE_node by assumption.
      replace (asize <=? size_at s n) with true by (symmetry; apply Z.leb_le; assumption).
      rewrite (P2B_sub _ n) by lia.
      rewrite ?bind_assoc. rewrite SET_BIAS_run by lia.
      rewrite ?bind_assoc. rewrite SET_BIAS_run by side.
      rewrite ?bind_assoc. rewrite SET_BIAS_run by side.
      rewrite seg_set_ok by side.
      simp_state. rewrite ?u_32_small by lia. reflexivity.
  - (* the scan passes over [l1] *)
    assert (Hne : q1 :: l1' <> []) by congruence.
    rewrite Esplit in HL.
    destruct (chain_last s (q1 :: l1') l2 _ _ NULL HL Hne) as (Hin & Hpn & Hpd & Hc2).
    rewrite <- Esplit in HL.
    set (p := last (q1 :: l1') NULL) in *.
    pose proof Hpn as (P1 & P2).
    assert (EL : L = q1 :: (l1' ++ l2)) by (rewrite Esplit; reflexivity).
    rewrite EL in HL, Hhead. rewrite EL. cbv iota.
    pose proof (chain_head_nonnull _ _ _ _ _ Hr HL) as Hnn.
    destruct HL as (Hh & Hq & Hn & Hp & _).
    replace (q1 =? NULL) with false by (symmetry; apply Z.eqb_neq; assumption).
    rewrite ?bind_assoc. unfold bind at 1. rewrite GET_SIZE_node by assumption.
    pose proof (Hsmall q1 (or_introl eq_refl)) as Hq1.
    replace (asize <=? size_at s q1) with false by (symmetry; apply Z.leb_gt; assumption).
    rewrite ?bind_assoc. unfold bind at 1. rewrite Hhead in Hscan. rewrite Hscan.
    cbn [fst snd]. fold p.
    rewrite (P2B_sub _ p) by lia.
    unfold PTR2NEXTBIAS, WSIZE. rewrite (padd_small p) by lia.
    destruct l2 as [|n l2']; cbn [hd].
    + change (NULL =? NULL) with true. cbn [negb].
      rewrite ?bind_assoc. rewrite SET_BIAS_run by lia.
      rewrite ?bind_assoc. rewrite SET_BIAS_run by side.
      unfold SET_BIAS. rewrite store32_ok by side.
      simp_state. rewrite ?u_32_small by lia. reflexivity.
    + destruct Hc2 as (Hbn & Hn' & Hnn' & Hpv & _).
      pose proof Hnn' as (N1 & N2).
      replace (n =? NULL) with false by (symmetry; apply Z.eqb_neq; unfold NULL; lia).
      cbn [negb].
      rewrite (P2B_sub _ n) by lia.
      rewrite ?bind_assoc. rewrite SET_BIAS_run by lia.
      rewrite ?bind_assoc. rewrite SET_BIAS_run by side.
      rewrite ?bind_assoc. rewrite SET_BIAS_run by side.
      unfold SET_BIAS. rewrite store32_ok by side.
      simp_state. rewrite ?u_32_small by lia. reflexivity.
Qed.
End AddToList.

Ltac g32 :=
  repeat first [ rewrite get32_set32_same | rewrite get32_set32_other by lia ];
  rewrite ?Z.mod_small by lia.

Lemma last_snoc {A} (l : list A) a d : last (l ++ [a]) d = a.
Proof. induction l as [|b l IH]; [reflexivity|]. rewrite <- app_comm_cons, last_cons.
  destruct l; [reflexivity|]. rewrite <- IH at 2. cbn [app]. now rewrite last_cons, last_cons. Qed.

Lemma add_mem_list_rep s i bp l1 l2 :
  list_rep s i (l1 ++ l2) ->
  node_ok s bp -> 0 < off s bp < 2 ^ 32 ->
  sep (bp :: l1 ++ l2) ->
  (forall q, In q (bp :: l1 ++ l2) ->
             q + 8 <= seg_lists s + 4 * i \/ seg_lists s + 4 * i + 4 <= q) ->
  list_rep (set_mem s (add_mem s (seg_lists s + 4 * i) bp l1 l2)) i (l1 ++ bp :: l2).
Proof.
  intros HL Hbp Hd Hsep Hslot.
  apply list_rep_links in HL. destruct HL as [Hhd Hlk].
  apply list_rep_links. simp_state.
  destruct Hsep as [Hfb Hsep].
  pose proof (Hslot bp (or_introl eq_refl)) as Hsb.
  assert (Hsl : forall q, In q (l1 ++ l2) ->
            q + 8 <= seg_lists s + 4 * i \/ seg_lists s + 4 * i + 4 <= q)
    by (intros q Hq; apply Hslot; right; assumption).
  assert (Hregs : same_regs s (set_mem s (add_mem s (seg_lists s + 4 * i) bp l1 l2)))
    by (repeat split).
  pose proof (proj1 Hlk) as Hnodes.
  destruct l1 as [|q1 l1t].
  - (* at the head *)
    cbn [app] in *. split.
    + unfold head_off, off. simp_state.
      destruct l2; unfold add_mem; g32; reflexivity.
    + apply (links_insert s _ 0 [] l2 bp); auto.
      * intros q [].
      * cbn [last_off]. unfold far in Hfb.
        destruct l2 as [|n l2']; unfold add_mem; cbn [mem set_mem]; [g32; reflexivity|].
        pose proof (Hfb n (or_introl eq_refl)). g32. reflexivity.
      * destruct l2 as [|n l2']; [exact I|].
        unfold add_mem; cbn [mem set_mem].
        pose proof (Hfb n (or_introl eq_refl)) as Hn. unfold far in Hn.
        pose proof (Hsl n (or_introl eq_refl)).
        destruct Hsep as [Hfn _].
        split; [g32; reflexivity|].
        intros q Hq. pose proof (Hfb q (or_intror Hq)) as H1. unfold far in H1.
        pose proof (Hfn q Hq) as H2. unfold far in H2.
        pose proof (Hsl q (or_intror Hq)). g32. reflexivity.
      * destruct l2 as [|n l2']; unfold add_mem; cbn [mem set_mem head_off].
        -- g32. reflexivity.
        -- pose proof (Hfb n (or_introl eq_refl)) as Hn. unfold far in Hn.
           destruct (Hnodes n (or_introl eq_refl)) as [_ Hon].
           g32. reflexivity.
      * intros q Hq.
        pose proof (Hfb q Hq) as H1. unfold far in H1. pose proof (Hsl q Hq).
        destruct l2 as [|n l2']; [destruct Hq|].
        unfold add_mem; cbn [mem set_mem].
        destruct Hsep as [Hfn _].
        destruct Hq as [<-|Hq]; [g32; reflexivity|].
        pose proof (Hfn q Hq) as H2. unfold far in H2. g32. reflexivity.
  - (* after the last node of [l1] *)
    destruct (exists_last (l := q1 :: l1t) ltac:(congruence)) as (l1' & p & El1).
    assert (Elast : last (q1 :: l1t) NULL = p) by (rewrite El1; apply last_snoc).
    assert (Em : add_mem s (seg_lists s + 4 * i) bp (q1 :: l1t) l2 =
      match l2 with
      | [] => set32 (set32 (set32 (mem s) (bp + 4) 0) (p + 4) (off s bp)) bp (off s p)
      | n :: _ => set32 (set32 (set32 (set32 (mem s) (bp + 4) (off s n)) n (off s bp))
                          (p + 4) (off s bp)) bp (off s p)
      end).
    { unfold add_mem. rewrite Elast. destruct l2; reflexivity. }
    rewrite Em in *. clear Em Elast. rewrite El1 in *. clear El1 q1 l1t.
    rewrite <- app_assoc in Hsep, Hfb, Hsl, Hnodes, Hhd, Hlk. cbn [app] in Hsep, Hfb, Hsl, Hnodes.
    apply sep_app in Hsep. destruct Hsep as (Hs1 & Hs2 & H12).
    cbn [sep] in Hs2. destruct Hs2 as [Hfp Hs2].
    assert (Hp_in : In p (l1' ++ p :: l2)) by (apply in_or_app; right; left; reflexivity).
    pose proof (Hfb p Hp_in) as Hbp_p. unfold far in Hbp_p.
    pose proof (Hsl p Hp_in) as Hsp.
    destruct (Hnodes p Hp_in) as [_ Hop].
    split.
    + rewrite (head_off_frame s) by reflexivity.
      rewrite <- app_assoc, head_off_app. rewrite head_off_app in Hhd.
      cbn [app head_off] in Hhd |- *. rewrite <- Hhd.
      destruct l2 as [|n l2'].
      * g32. reflexivity.
      * assert (Hn_in : In n (l1' ++ p :: n :: l2'))
          by (apply in_or_app; right; right; left; reflexivity).
        pose proof (Hsl n Hn_in). g32. reflexivity.
    + rewrite app_assoc in Hlk.
      apply (links_insert s _ 0 (l1' ++ [p]) l2 bp); auto.
      * intros q Hq. apply in_app_or in Hq.
        assert (Hq_in : In q (l1' ++ p :: l2)).
        { apply in_or_app. destruct Hq as [Hq|[<-|[]]]; [left|right; left]; auto. }
        pose proof (Hfb q Hq_in) as H1. unfold far in H1.
        assert (Hqp : q = p \/ far q p).
        { destruct Hq as [Hq|[<-|[]]]; [right|left; reflexivity].
          apply H12; [assumption|left; reflexivity]. }
        unfold far in Hqp.
        destruct l2 as [|n l2']; cbn [mem set_mem]; [g32; reflexivity|].
        assert (H2 : far q n).
        { destruct Hq as [Hq|[<-|[]]].
          - apply H12; [assumption|right; left; reflexivity].
          - apply Hfp. left. reflexivity. }
        unfold far in H2. g32. reflexivity.
      * rewrite last_off_snoc.
        destruct l2 as [|n l2']; cbn [mem set_mem]; g32; reflexivity.
      * destruct l2 as [|n l2']; [exact I|]. cbn [mem set_mem].
        assert (Hn_in : In n (l1' ++ p :: n :: l2'))
          by (apply in_or_app; right; right; left; reflexivity).
        pose proof (Hfb n Hn_in) as Hbn. unfold far in Hbn.
        pose proof (Hfp n (or_introl eq_refl)) as Hpn. unfold far in Hpn.
        split; [g32; reflexivity|].
        intros q Hq.
        assert (Hq_in : In q (l1' ++ p :: n :: l2'))
          by (apply in_or_app; right; right; right; assumption).
        pose proof (Hfb q Hq_in) as H1. unfold far in H1.
        pose proof (Hfp q (or_intror Hq)) as H2. unfold far in H2.
        destruct Hs2 as [Hfn _].
        pose proof (Hfn q Hq) as H3. unfold far in H3.
        g32. reflexivity.
      * right. exists l1', p. split; [reflexivity|]. split.
        -- destruct l2 as [|n l2']; cbn [mem set_mem]; g32; reflexivity.
        -- intros q Hq.
           assert (Hq_in : In q (l1' ++ p :: l2)) by (apply in_or_app; left; assumption).
           pose proof (Hfb q Hq_in) as H1. unfold far in H1.
           pose proof (H12 q p Hq (or_introl eq_refl)) as H2. unfold far in H2.
           destruct l2 as [|n l2']; cbn [mem set_mem]; [g32; reflexivity|].
           pose proof (H12 q n Hq (or_intror (or_introl eq_refl))) as H3. unfold far in H3.
           g32. reflexivity.
      * destruct l2 as [|n l2']; cbn [mem set_mem head_off]; [g32; reflexivity|].
        assert (Hn_in : In n (l1' ++ p :: n :: l2'))
          by (apply in_or_app; right; right; left; reflexivity).
        pose proof (Hfb n Hn_in) as Hbn. unfold far in Hbn.
        pose proof (Hfp n (or_introl eq_refl)) as Hpn. unfold far in Hpn.
        destruct (Hnodes n Hn_in) as [_ Hon].
        g32. reflexivity.
      * intros q Hq.
        assert (Hq_in : In q (l1' ++ p :: l2)) by (apply in_or_app; right; right; assumption).
        pose proof (Hfb q Hq_in) as H1. unfold far in H1.
        pose proof (Hfp q Hq) as H2. unfold far in H2.
        destruct l2 as [|n l2']; [destruct Hq|]. cbn [mem set_mem].
        destruct Hs2 as [Hfn _].
        destruct Hq as [<-|Hq]; [g32; reflexivity|].
        pose proof (Hfn q Hq) as H3. unfold far in H3. g32. reflexivity.
Qed.

Ltac in_tac := repeat rewrite in_app_iff; cbn [In]; intuition auto.

Ltac b32 := rewrite ?byte_set32; rewrite ?range_false by lia.

Lemma add_mem_frame s slot bp l1 l2 x :
  (x < bp \/ bp + 8 <= x) -> (x < slot \/ slot + 4 <= x) ->
  (forall q, In q (l1 ++ l2) -> x < q \/ q + 8 <= x) ->
  byte_at (add_mem s slot bp l1 l2) x = byte_at (mem s) x.
Proof.
  intros Hb Hs Hq. unfold add_mem.
  destruct l1 as [|q1 l1t].
  - destruct l2 as [|n l2']; [b32; reflexivity|].
    pose proof (Hq n (or_introl eq_refl)). b32. reflexivity.
  - destruct (exists_last (l := q1 :: l1t) ltac:(congruence)) as (l1' & p & El1).
    assert (Elast : last (q1 :: l1t) NULL = p) by (rewrite El1; apply last_snoc).
    rewrite Elast. rewrite El1 in Hq.
    assert (Hp : x < p \/ p + 8 <= x).
    { apply Hq. apply in_or_app. left. apply in_or_app. right. left. reflexivity. }
    destruct l2 as [|n l2']; [b32; reflexivity|].
    assert (Hn : x < n \/ n + 8 <= x).
    { apply Hq. apply in_or_app. right. left. reflexivity. }
    b32. reflexivity.
Qed.

(** [add_to_list], on a well-formed list: the block goes after the nodes
    that are smaller and before the first one that is not; only its own
    link words, the list head and link words of nodes of the list
    change. *)
Lemma add_to_list_spec fuel bp asize s L :
  region_ok s ->
  mem_start_brk s <= seg_lists s + 4 * list_index_of asize /\
  seg_lists s + 4 * list_index_of asize + 4 <= mem_brk s ->
  list_rep s (list_index_of asize) L ->
  (length L < fuel)%nat ->
  node_ok s bp -> 0 < off s bp < 2 ^ 32 ->
  sep (bp :: L) ->
  (forall q, In q (bp :: L) ->
     q + 8 <= seg_lists s + 4 * list_index_of asize \/
     seg_lists s + 4 * list_index_of asize + 4 <= q) ->
  exists l1 l2 m',
    L = l1 ++ l2 /\
    (forall q, In q l1 -> size_at s q < asize) /\
    match l2 with [] => True | n :: _ => asize <= size_at s n end /\
    add_to_list fuel bp asize s = Ret tt (set_mem s m') /\
    list_rep (set_mem s m') (list_index_of asize) (l1 ++ bp :: l2) /\
    (forall x, (x < bp \/ bp + 8 <= x) ->
               (x < seg_lists s + 4 * list_index_of asize \/
                seg_lists s + 4 * list_index_of asize + 4 <= x) ->
               (forall q, In q L -> x < q \/ q + 8 <= x) ->
               byte_at m' x = byte_at (mem s) x).
Proof.
  intros Hr Hslot HL Hfuel Hbp Hd Hsep Hsl.
  destruct (add_to_list_eval fuel bp asize s L Hr Hslot HL Hfuel Hbp Hd)
    as (l1 & l2 & -> & Hsmall & Hfit & Hrun).
  exists l1, l2, (add_mem s (seg_lists s + 4 * list_index_of asize) bp l1 l2).
  split; [reflexivity|]. split; [assumption|]. split; [assumption|].
  split; [assumption|]. split.
  - apply add_mem_list_rep; assumption.
  - intros x Hx1 Hx2 Hx3. apply add_mem_frame; assumption.
Qed.

Lemma B2P_off s q :
  region_ok s -> node_ok s q -> 0 < off s q < 2 ^ 32 ->
  B2P (heap_listp s) (off s q) = q.
Proof.
  intros (R0 & R1 & R2 & R3) (N1 & N2) Ho. unfold off in *.
  apply B2P_P2B; lia.
Qed.

Lemma P2B_off s q : 0 < off s q < 2 ^ 32 -> P2B (heap_listp s) q = off s q.
Proof. intros H. unfold off in *. apply P2B_sub. lia. Qed.

Lemma remove_from_list_eval bp asize s l1 l2 :
  region_ok s ->
  mem_start_brk s <= seg_lists s + 4 * list_index_of asize /\
  seg_lists s + 4 * list_index_of asize + 4 <= mem_brk s ->
  list_rep s (list_index_of asize) (l1 ++ bp :: l2) ->
  remove_from_list bp asize s =
  Ret tt (set_mem s (remove_mem s (seg_lists s + 4 * list_index_of asize) l1 l2)).
Proof.
  intros Hr Hslot HL.
  apply list_rep_links in HL. destruct HL as [Hhd (Hn & Hp & Hx)].
  pose proof Hr as (R0 & R1 & R2 & R3).
  pose proof Hslot as (S1 & S2).
  apply nodes_ok_app in Hn. destruct Hn as [Hn1 Hn2].
  apply nodes_ok_cons in Hn2. destruct Hn2 as [[Hbp Hob] Hn2].
  apply prevs_app in Hp. destruct Hp as [_ [Hpb _]].
  apply nexts_app in Hx. destruct Hx as [_ [Hxb _]].
  pose proof Hbp as (B1 & B2).
  rewrite remove_from_list_run by (auto; lia).
  rewrite Hpb, Hxb. cbv zeta.
  destruct l1 as [|q1 l1t].
  - cbn [last_off]. rewrite B2P_zero. change (NULL =? NULL) with true.
    destruct l2 as [|n l2']; cbn [head_off].
    + rewrite B2P_zero. change (NULL =? NULL) with true. cbn [andb].
      rewrite seg_set_ok by side. reflexivity.
    + destruct (Hn2 n (or_introl eq_refl)) as [Hnn Hon].
      pose proof Hnn as (N1 & N2).
      rewrite B2P_off by assumption.
      replace (n =? NULL) with false by (symmetry; apply Z.eqb_neq; unfold NULL; lia).
      cbn [andb negb]. unfold PTR2PREVBIAS.
      rewrite SET_BIAS_run by lia.
      rewrite seg_set_ok by side.
      rewrite P2B_off by assumption.
      simp_state. rewrite ?u_32_small by lia. reflexivity.
  - destruct (exists_last (l := q1 :: l1t) ltac:(congruence)) as (l1' & p & El1).
    assert (Elast : last (q1 :: l1t) NULL = p) by (rewrite El1; apply last_snoc).
    assert (Em : remove_mem s (seg_lists s + 4 * list_index_of asize) (q1 :: l1t) l2 =
      match l2 with
      | [] => set32 (mem s) (p + 4) 0
      | n :: _ => set32 (set32 (mem s) (p + 4) (off s n)) n (off s p)
      end).
    { unfold remove_mem. rewrite Elast. destruct l2; reflexivity. }
    rewrite Em. clear Em Elast. rewrite El1 in *. clear El1 q1 l1t.
    rewrite last_off_snoc.
    destruct (Hn1 p ltac:(apply in_or_app; right; left; reflexivity)) as [Hpn Hop].
    pose proof Hpn as (P1 & P2).
    rewrite (B2P_off s p) by assumption.
    replace (p =? NULL) with false by (symmetry; apply Z.eqb_neq; unfold NULL; lia).
    cbn [andb negb].
    unfold PTR2NEXTBIAS, WSIZE. rewrite (padd_small p) by lia.
    destruct l2 as [|n l2']; cbn [head_off].
    + rewrite B2P_zero. change (NULL =? NULL) with true. cbn [andb negb].
      unfold SET_BIAS. rewrite store32_ok by lia. reflexivity.
    + destruct (Hn2 n (or_introl eq_refl)) as [Hnn Hon].
      pose proof Hnn as (N1 & N2).
      rewrite B2P_off by assumption.
      replace (n =? NULL) with false by (symmetry; apply Z.eqb_neq; unfold NULL; lia).
      cbn [andb negb]. unfold PTR2PREVBIAS.
      rewrite SET_BIAS_run by lia.
      unfold SET_BIAS. rewrite store32_ok by side.
      rewrite !P2B_off by assumption.
      simp_state. rewrite ?u_32_small by lia. reflexivity.
Qed.

Lemma remove_mem_list_rep s i bp l1 l2 :
  list_rep s i (l1 ++ bp :: l2) ->
  sep (l1 ++ bp :: l2) ->
  (forall q, In q (l1 ++ l2) ->
             q + 8 <= seg_lists s + 4 * i \/ seg_lists s + 4 * i + 4 <= q) ->
  list_rep (set_mem s (remove_mem s (seg_lists s + 4 * i) l1 l2)) i (l1 ++ l2).
Proof.
  intros HL Hsep Hsl.
  apply list_rep_links in HL. destruct HL as [Hhd Hlk].
  apply list_rep_links. simp_state.
  assert (Hregs : same_regs s (set_mem s (remove_mem s (seg_lists s + 4 * i) l1 l2)))
    by (repeat split).
  pose proof (proj1 Hlk) as Hnodes.
  apply sep_app in Hsep. destruct Hsep as (Hs1 & Hs2 & H12).
  destruct Hs2 as [_ Hs2].
  assert (H12' : forall q q', In q l1 -> In q' l2 -> far q q')
    by (intros q q' Hq Hq'; apply H12; [|right]; assumption).
  clear H12.
  destruct l1 as [|q1 l1t].
  - cbn [app] in *. split.
    + rewrite (head_off_frame s) by reflexivity.
      destruct l2 as [|n l2']; unfold remove_mem; cbn [head_off]; [g32; reflexivity|].
      destruct (Hnodes n (or_intror (or_introl eq_refl))) as [_ Hon].
      g32. reflexivity.
    + apply (links_remove s _ 0 [] l2 bp); auto.
      * intros q [].
      * destruct l2 as [|n l2']; [exact I|].
        unfold remove_mem; cbn [mem set_mem last_off].
        pose proof (Hsl n (or_introl eq_refl)).
        split; [g32; reflexivity|].
        intros q Hq. destruct Hs2 as [Hfn _].
        pose proof (Hfn q Hq) as H1. unfold far in H1.
        pose proof (Hsl q (or_intror Hq)). g32. reflexivity.
      * intros q Hq. pose proof (Hsl q Hq).
        destruct l2 as [|n l2']; [destruct Hq|].
        unfold remove_mem; cbn [mem set_mem].
        destruct Hs2 as [Hfn _].
        destruct Hq as [<-|Hq]; [g32; reflexivity|].
        pose proof (Hfn q Hq) as H1. unfold far in H1. g32. reflexivity.
  - destruct (exists_last (l := q1 :: l1t) ltac:(congruence)) as (l1' & p & El1).
    assert (Elast : last (q1 :: l1t) NULL = p) by (rewrite El1; apply last_snoc).
    assert (Em : remove_mem s (seg_lists s + 4 * i) (q1 :: l1t) l2 =
      match l2 with
      | [] => set32 (mem s) (p + 4) 0
      | n :: _ => set32 (set32 (mem s) (p + 4) (off s n)) n (off s p)
      end).
    { unfold remove_mem. rewrite Elast. destruct l2; reflexivity. }
    rewrite Em in *. clear Em Elast. rewrite El1 in *. clear El1 q1 l1t.
    apply sep_app in Hs1. destruct Hs1 as (Hs1 & _ & H1p).
    assert (Hp_in : In p (l1' ++ [p])) by (apply in_or_app; right; left; reflexivity).
    assert (Hsp := Hsl p ltac:(apply in_or_app; left; exact Hp_in)).
    split.
    + rewrite (head_off_frame s) by reflexivity.
      rewrite <- !app_assoc, !head_off_app in Hhd.
      rewrite <- !app_assoc, !head_off_app.
      cbn [app head_off] in Hhd |- *.
      rewrite <- Hhd.
      destruct l2 as [|n l2']; [g32; reflexivity|].
      assert (Hsn := Hsl n ltac:(in_tac)).
      g32. reflexivity.
    + apply (links_remove s _ 0 (l1' ++ [p]) l2 bp); auto.
      * intros q Hq.
        assert (Hqp : q = p \/ far q p).
        { apply in_app_or in Hq. destruct Hq as [Hq|[<-|[]]]; [right|left; reflexivity].
          apply H1p; [assumption|left; reflexivity]. }
        unfold far in Hqp.
        destruct l2 as [|n l2']; cbn [mem set_mem]; [g32; reflexivity|].
        pose proof (H12' q n Hq (or_introl eq_refl)) as H2. unfold far in H2.
        g32. reflexivity.
      * destruct l2 as [|n l2']; [exact I|]. cbn [mem set_mem].
        rewrite last_off_snoc.
        destruct (Hnodes p ltac:(apply in_or_app; left; exact Hp_in)) as [_ Hop].
        split; [g32; reflexivity|].
        intros q Hq.
        pose proof (H12' p q Hp_in (or_intror Hq)) as H1. unfold far in H1.
        destruct Hs2 as [Hfn _].
        pose proof (Hfn q Hq) as H3. unfold far in H3.
        g32. reflexivity.
      * right. exists l1', p. split; [reflexivity|]. split.
        -- destruct l2 as [|n l2']; cbn [mem set_mem head_off]; [g32; reflexivity|].
           pose proof (H12' p n Hp_in (or_introl eq_refl)) as H1. unfold far in H1.
           destruct (Hnodes n ltac:(apply in_or_app; right; right; left; reflexivity))
             as [_ Hon].
           g32. reflexivity.
        -- intros q Hq.
           pose proof (H1p q p Hq (or_introl eq_refl)) as H2. unfold far in H2.
           destruct l2 as [|n l2']; cbn [mem set_mem]; [g32; reflexivity|].
           pose proof (H12' q n ltac:(apply in_or_app; left; exact Hq) (or_introl eq_refl))
             as H3. unfold far in H3.
           g32. reflexivity.
      * intros q Hq.
        pose proof (H12' p q Hp_in Hq) as H2. unfold far in H2.
        destruct l2 as [|n l2']; [destruct Hq|]. cbn [mem set_mem].
        destruct Hs2 as [Hfn _].
        destruct Hq as [<-|Hq]; [g32; reflexivity|].
        pose proof (Hfn q Hq) as H3. unfold far in H3. g32. reflexivity.
Qed.

Lemma remove_mem_frame s slot l1 l2 x :
  (x < slot \/ slot + 4 <= x) ->
  (forall q, In q (l1 ++ l2) -> x < q \/ q + 8 <= x) ->
  byte_at (remove_mem s slot l1 l2) x = byte_at (mem s) x.
Proof.
  intros Hs Hq. unfold remove_mem.
  destruct l1 as [|q1 l1t].
  - destruct l2 as [|n l2']; [b32; reflexivity|].
    pose proof (Hq n (or_introl eq_refl)). b32. reflexivity.
  - destruct (exists_last (l := q1 :: l1t) ltac:(congruence)) as (l1' & p & El1).
    assert (Elast : last (q1 :: l1t) NULL = p) by (rewrite El1; apply last_snoc).
    rewrite Elast. rewrite El1 in Hq.
    assert (Hp : x < p \/ p + 8 <= x).
    { apply Hq. apply in_or_app. left. apply in_or_app. right. left. reflexivity. }
    destruct l2 as [|n l2']; [b32; reflexivity|].
    assert (Hn : x < n \/ n + 8 <= x).
    { apply Hq. apply in_or_app. right. left. reflexivity. }
    b32. reflexivity.
Qed.

(** [remove_from_list], on a well-formed list that holds the block: the
    block is unlinked; only the list head and link words of the other
    nodes of the list change. *)
Lemma remove_from_list_spec bp asize s l1 l2 :
  region_ok s ->
  mem_start_brk s <= seg_lists s + 4 * list_index_of asize /\
  seg_lists s + 4 * list_index_of asize + 4 <= mem_brk s ->
  list_rep s (list_index_of asize) (l1 ++ bp :: l2) ->
  sep (l1 ++ bp :: l2) ->
  (forall q, In q (l1 ++ l2) ->
     q + 8 <= seg_lists s + 4 * list_index_of asize \/
     seg_lists s + 4 * list_index_of asize + 4 <= q) ->
  exists m',
    remove_from_list bp asize s = Ret tt (set_mem s m') /\
    list_rep (set_mem s m') (list_index_of asize) (l1 ++ l2) /\
    (forall x, (x < seg_lists s + 4 * list_index_of asize \/
                seg_lists s + 4 * list_index_of asize + 4 <= x) ->
               (forall q, In q (l1 ++ l2) -> x < q \/ q + 8 <= x) ->
               byte_at m' x = byte_at (mem s) x).
Proof.
  intros Hr Hslot HL Hsep Hsl.
  exists (remove_mem s (seg_lists s + 4 * list_index_of asize) l1 l2).
  split; [apply remove_from_list_eval; assumption|]. split.
  - apply (remove_mem_list_rep s _ bp); assumption.
  - intros x Hx1 Hx2. apply remove_mem_frame; assumption.
Qed.

(** ** Layouts *)

(* ---------- definitions ---------- *)

Lemma laid_app q bs1 : forall bs2 e,
  laid q (bs1 ++ bs2) e <-> exists mid, laid q bs1 mid /\ laid mid bs2 e.
Proof.
  revert q. induction bs1 as [|[[a sz] fr] bs1 IH]; intros q bs2 e; cbn [app laid].
  - split.
    + intros H. exists q. auto.
    + intros (mid & -> & H). exact H.
  - rewrite IH. split.
    + intros (H1 & H2 & H3 & mid & H4 & H5). exists mid. tauto.
    + intros (mid & (H1 & H2 & H3 & H4) & H5). repeat split; auto. exists mid. tauto.
Qed.

Lemma laid_le q bs : forall e, laid q bs e -> q <= e.
Proof.
  revert q. induction bs as [|[[a sz] fr] bs IH]; intros q e; cbn [laid].
  - lia.
  - intros (_ & H1 & _ & H2). apply IH in H2. lia.
Qed.

Lemma laid_in q bs : forall e a sz fr,
  laid q bs e -> In (a, sz, fr) bs ->
  q <= a /\ a + sz <= e /\ 16 <= sz /\ sz mod 8 = 0.
Proof.
  revert q. induction bs as [|[[a0 sz0] fr0] bs IH]; intros q e a sz fr; cbn [laid].
  - intros _ [].
  - intros (E & H1 & H2 & H3) [Hin|Hin].
    + inversion Hin; subst. apply laid_le in H3. lia.
    + destruct (IH _ _ _ _ _ H3 Hin) as (? & ? & ? & ?). lia.
Qed.

Lemma laid_mod8 q bs : forall e a sz fr,
  q mod 8 = 0 -> laid q bs e -> In (a, sz, fr) bs -> a mod 8 = 0.
Proof.
  revert q. induction bs as [|[[a0 sz0] fr0] bs IH]; intros q e a sz fr Hq; cbn [laid].
  - intros _ [].
  - intros (E & H1 & H2 & H3) [Hin|Hin].
    + inversion Hin; subst. assumption.
    + eapply (IH (q + sz0)); eauto.
      rewrite Z.add_mod by lia. rewrite Hq, H2. reflexivity.
Qed.

Lemma laid_end_mod8 q bs : forall e,
  q mod 8 = 0 -> laid q bs e -> e mod 8 = 0.
Proof.
  revert q. induction bs as [|[[a0 sz0] fr0] bs IH]; intros q e Hq; cbn [laid].
  - intros <-. assumption.
  - intros (E & H1 & H2 & H3). eapply (IH (q + sz0)); eauto.
    rewrite Z.add_mod by lia. rewrite Hq, H2. reflexivity.
Qed.

(** Two blocks of a layout are the same block or do not overlap. *)
Lemma laid_disjoint q bs : forall e a sz fr a' sz' fr',
  laid q bs e -> In (a, sz, fr) bs -> In (a', sz', fr') bs ->
  (a = a' /\ sz = sz' /\ fr = fr') \/ a + sz <= a' \/ a' + sz' <= a.
Proof.
  revert q. induction bs as [|[[a0 sz0] fr0] bs IH]; intros q e a sz fr a' sz' fr'; cbn [laid].
  - intros _ [].
  - intros (E & H1 & H2 & H3) [Hin|Hin] [Hin'|Hin'].
    + inversion Hin; inversion Hin'; subst. left. auto.
    + inversion Hin; subst. right. left.
      destruct (laid_in _ _ _ _ _ _ H3 Hin') as (? & _). lia.
    + inversion Hin'; subst. right. right.
      destruct (laid_in _ _ _ _ _ _ H3 Hin) as (? & _). lia.
    + eapply IH; eauto.
Qed.

(** A block is found at one place in the layout. *)
Lemma laid_split q bs e a sz fr :
  laid q bs e -> In (a, sz, fr) bs ->
  exists bs1 bs2, bs = bs1 ++ (a, sz, fr) :: bs2 /\
                  laid q bs1 a /\ laid (a + sz) bs2 e.
Proof.
  intros Hl Hin. apply in_split in Hin. destruct Hin as (bs1 & bs2 & ->).
  exists bs1, bs2. split; [reflexivity|].
  apply laid_app in Hl. destruct Hl as (mid & H1 & H2).
  cbn [laid] in H2. destruct H2 as (-> & _ & _ & H2). auto.
Qed.

(** ** Frames *)

(* ---------- definitions ---------- *)

Lemma confined_refl m P : confined m m P.
Proof. intros x _. reflexivity. Qed.

Lemma confined_trans m1 m2 m3 P :
  confined m1 m2 P -> confined m2 m3 P -> confined m1 m3 P.
Proof. intros H1 H2 x Hx. rewrite H2, H1 by assumption. reflexivity. Qed.

Lemma confined_weaken m m' (P Q : Z -> Prop) :
  (forall x, P x -> Q x) -> confined m m' P -> confined m m' Q.
Proof. intros H H1 x Hx. apply H1. auto. Qed.

Lemma confined_set32 m a v : confined m (set32 m a v) (word a).
Proof.
  intros x Hx. unfold word in Hx. rewrite byte_set32, range_false by lia. reflexivity.
Qed.

Lemma confined_set32_in m a v (P : Z -> Prop) :
  (forall x, word a x -> P x) -> confined m (set32 m a v) P.
Proof. intros H. eapply confined_weaken; [exact H|apply confined_set32]. Qed.

Lemma confined_get32 m m' P a :
  confined m m' P -> (forall x, word a x -> ~ P x) -> get32 m' a = get32 m a.
Proof. intros H Ha. apply get32_ext. intros x Hx. apply H. apply Ha. exact Hx. Qed.

Lemma same_regs_grown s s' : same_regs s s' -> grown s s'.
Proof. intros (E1 & E2 & _ & _ & E3 & E4). unfold grown. rewrite E2. repeat split; auto; lia. Qed.

Lemma grown_set_mem s m : grown s (set_mem s m).
Proof. unfold grown. cbn. repeat split; lia. Qed.

Lemma grown_trans s1 s2 s3 : grown s1 s2 -> grown s2 s3 -> grown s1 s3.
Proof. unfold grown. intros (A1 & A2 & A3 & A4) (B1 & B2 & B3 & B4). repeat split; try congruence. lia. Qed.

Lemma chain_frame s s' l : forall pb b,
  grown s s' ->
  (forall q, In q l -> get32 (mem s') q = get32 (mem s) q /\
                       get32 (mem s') (q + 4) = get32 (mem s) (q + 4)) ->
  chain s pb b l -> chain s' pb b l.
Proof.
  induction l as [|q l IH]; intros pb b Hg Hw; cbn [chain]; [auto|].
  intros (Hb & Hq & (N1 & N2) & Hp & Hc).
  destruct Hg as (E1 & E2 & E3 & E4).
  destruct (Hw q (or_introl eq_refl)) as [W1 W2].
  split; [assumption|]. split; [congruence|].
  split; [unfold node_ok; rewrite E1; lia|].
  split; [congruence|]. rewrite W2.
  apply IH; [repeat split; assumption| |assumption].
  intros q' Hq'. apply Hw. right. assumption.
Qed.

Lemma list_rep_frame s s' i l :
  grown s s' ->
  get32 (mem s') (seg_lists s + 4 * i) = get32 (mem s) (seg_lists s + 4 * i) ->
  (forall q, In q l -> get32 (mem s') q = get32 (mem s) q /\
                       get32 (mem s') (q + 4) = get32 (mem s) (q + 4)) ->
  list_rep s i l -> list_rep s' i l.
Proof.
  intros Hg Hs Hw. unfold list_rep.
  pose proof Hg as (_ & _ & _ & E4). rewrite E4, Hs.
  now apply chain_frame.
Qed.

(** What the block structure says about one block. *)
Lemma block_facts s bs T a sz fr :
  blocks_ok s bs T -> In (a, sz, fr) bs ->
  mem_start_brk s + 56 <= a /\ a + sz <= mem_brk s /\
  16 <= sz /\ sz mod 8 = 0 /\ a mod 8 = 0 /\ sz < 2 ^ 32 - 1 /\
  node_ok s a /\ 8 <= off s a < 2 ^ 32.
Proof.
  intros (Hg & _ & Hl & _) Hin.
  destruct Hg as ((R0 & R1 & R2 & R3) & G8 & Gseg & Ghl & G56 & Gcap).
  destruct (laid_in _ _ _ _ _ _ Hl Hin) as (L1 & L2 & L3 & L4).
  assert (La : a mod 8 = 0).
  { eapply laid_mod8; [|exact Hl|exact Hin].
    rewrite Z.add_mod by lia. rewrite G8. reflexivity. }
  unfold node_ok, off. rewrite Ghl. repeat split; try lia.
Qed.

Lemma block_tags s bs T a sz fr :
  blocks_ok s bs T -> In (a, sz, fr) bs -> ~ In a T ->
  get32 (mem s) (a - 4) = tag sz fr /\
  get32 (mem s) (a + sz - 8) = tag sz fr /\
  size_at s a = sz.
Proof.
  intros Hb Hin HT.
  destruct (block_facts _ _ _ _ _ _ Hb Hin) as (_ & _ & _ & H8 & _).
  destruct Hb as (_ & _ & _ & Ht).
  destruct (Ht _ _ _ Hin HT) as [H1 H2].
  split; [assumption|]. split; [assumption|].
  unfold size_at. rewrite H1. now apply tag_size.
Qed.

Lemma NoDup_far_sep l :
  NoDup l -> (forall q q', In q l -> In q' l -> q <> q' -> far q q') -> sep l.
Proof.
  induction 1 as [|q l Hq Hnd IH]; intros Hfar; cbn [sep]; [exact I|].
  split.
  - intros q' Hq'. apply Hfar; [left; reflexivity|right; assumption|].
    intros ->. contradiction.
  - apply IH. intros a b Ha Hb. apply Hfar; right; assumption.
Qed.

Lemma blocks_far s bs T a sz fr a' sz' fr' :
  blocks_ok s bs T -> In (a, sz, fr) bs -> In (a', sz', fr') bs ->
  a <> a' -> a + sz <= a' \/ a' + sz' <= a.
Proof.
  intros (_ & _ & Hl & _) H1 H2 Hne.
  destruct (laid_disjoint _ _ _ _ _ _ _ _ _ Hl H1 H2) as [(E & _)|H]; [contradiction|exact H].
Qed.

(** A block has one size and one state. *)
Lemma blocks_unique s bs T a sz fr sz' fr' :
  blocks_ok s bs T -> In (a, sz, fr) bs -> In (a, sz', fr') bs ->
  sz = sz' /\ fr = fr'.
Proof.
  intros (_ & _ & Hl & _) H1 H2.
  destruct (laid_in _ _ _ _ _ _ Hl H1) as (_ & _ & ? & _).
  destruct (laid_in _ _ _ _ _ _ Hl H2) as (_ & _ & ? & _).
  destruct (laid_disjoint _ _ _ _ _ _ _ _ _ Hl H1 H2) as [(_ & E1 & E2)|Hd]; [auto|lia].
Qed.

Section Listed.
Variables (s : state) (bs : list block) (ls : Z -> list (Z * Z)) (U T : list Z).
Hypothesis Hcore : core s bs ls U T.

Lemma listed_block i q sz :
  0 <= i <= 9 -> In (q, sz) (ls i) ->
  In (q, sz, true) bs /\ class_of sz = i /\ ~ In q U.
Proof. destruct Hcore as (_ & _ & H & _). apply H. Qed.

Lemma listed_node i q :
  0 <= i <= 9 -> In q (map fst (ls i)) -> exists sz, In (q, sz) (ls i).
Proof.
  intros Hi Hq. apply in_map_iff in Hq. destruct Hq as ([q' sz] & E & Hin).
  cbn in E. subst q'. exists sz. exact Hin.
Qed.

(** Nodes of the lists are far from each other, within a list and across
    lists. *)
Lemma listed_far i j q q' :
  0 <= i <= 9 -> 0 <= j <= 9 ->
  In q (map fst (ls i)) -> In q' (map fst (ls j)) -> q <> q' -> far q q'.
Proof.
  intros Hi Hj Hq Hq' Hne.
  destruct (listed_node i q Hi Hq) as (sz & Hin).
  destruct (listed_node j q' Hj Hq') as (sz' & Hin').
  destruct (listed_block _ _ _ Hi Hin) as (B & _).
  destruct (listed_block _ _ _ Hj Hin') as (B' & _).
  destruct Hcore as (Hb & _).
  destruct (block_facts _ _ _ _ _ _ Hb B) as (_ & _ & ? & _).
  destruct (block_facts _ _ _ _ _ _ Hb B') as (_ & _ & ? & _).
  pose proof (blocks_far _ _ _ _ _ _ _ _ _ Hb B B' Hne). unfold far. lia.
Qed.

Lemma listed_sep i : 0 <= i <= 9 -> sep (map fst (ls i)).
Proof.
  intros Hi. apply NoDup_far_sep.
  - destruct Hcore as (_ & H & _). apply H. assumption.
  - intros q q' Hq Hq'. apply (listed_far i i); assumption.
Qed.

(** A node is in one list only. *)
Lemma listed_once i j q :
  0 <= i <= 9 -> 0 <= j <= 9 ->
  In q (map fst (ls i)) -> In q (map fst (ls j)) -> i = j.
Proof.
  intros Hi Hj Hq Hq'.
  destruct (listed_node i q Hi Hq) as (sz & Hin).
  destruct (listed_node j q Hj Hq') as (sz' & Hin').
  destruct (listed_block _ _ _ Hi Hin) as (B & C & _).
  destruct (listed_block _ _ _ Hj Hin') as (B' & C' & _).
  destruct Hcore as (Hb & _).
  destruct (blocks_unique _ _ _ _ _ _ _ _ Hb B B') as [E _]. congruence.
Qed.

Lemma listed_slot i j q :
  0 <= i <= 9 -> 0 <= j <= 9 -> In q (map fst (ls i)) ->
  q + 8 <= seg_lists s + 4 * j \/ seg_lists s + 4 * j + 4 <= q.
Proof.
  intros Hi Hj Hq.
  destruct (listed_node i q Hi Hq) as (sz & Hin).
  destruct (listed_block _ _ _ Hi Hin) as (B & _).
  destruct Hcore as (Hb & _).
  destruct (block_facts _ _ _ _ _ _ Hb B) as (? & _).
  destruct Hb as ((_ & _ & Gseg & _) & _). rewrite Gseg. lia.
Qed.
End Listed.

(** ** Lists under the invariant *)

Ltac in_all := rewrite ?in_app_iff in *; cbn [In] in *; intuition auto.

Lemma geometry_set_mem s m : geometry s -> geometry (set_mem s m).
Proof. auto. Qed.

(** Tags and sentinels are no link words. *)
Lemma header_outside s bs T a sz fr x :
  blocks_ok s bs T -> In (a, sz, fr) bs ->
  word (a - 4) x \/ word (a + sz - 8) x -> ~ links_area s bs x.
Proof.
  intros Hb Hin Hx [Hs|(q & z & Hq & Hr)].
  - destruct (block_facts _ _ _ _ _ _ Hb Hin) as (? & ? & ? & _).
    unfold word in Hx. lia.
  - destruct (block_facts _ _ _ _ _ _ Hb Hin) as (? & ? & ? & _).
    destruct (block_facts _ _ _ _ _ _ Hb Hq) as (? & ? & ? & _).
    destruct (Z.eq_dec a q) as [->|Hne].
    + destruct (blocks_unique _ _ _ _ _ _ _ _ Hb Hin Hq) as [-> _].
      unfold word in Hx. lia.
    + pose proof (blocks_far _ _ _ _ _ _ _ _ _ Hb Hin Hq Hne).
      unfold word in Hx. lia.
Qed.

Lemma sentinel_outside s bs T x :
  blocks_ok s bs T ->
  word (mem_start_brk s + 44) x \/ word (mem_start_brk s + 48) x \/
  word (mem_brk s - 4) x ->
  ~ links_area s bs x.
Proof.
  intros Hb Hx [Hs|(q & z & Hq & Hr)].
  - destruct Hb as ((_ & _ & _ & _ & G56 & _) & _). unfold word in Hx. lia.
  - destruct (block_facts _ _ _ _ _ _ Hb Hq) as (? & ? & ? & _).
    unfold word in Hx. lia.
Qed.

Lemma blocks_ok_links_frame s bs T m' :
  blocks_ok s bs T -> confined (mem s) m' (links_area s bs) ->
  blocks_ok (set_mem s m') bs T.
Proof.
  intros Hb Hc. pose proof Hb as (Hg & (S1 & S2 & S3) & Hl & Ht).
  split; [exact Hg|]. split; [|split; [exact Hl|]].
  - unfold sentinels. cbn [mem set_mem mem_start_brk mem_brk].
    rewrite !(confined_get32 _ _ _ _ Hc); [auto| | |];
      intros x Hx; eapply sentinel_outside; eauto.
  - intros a sz fr Hin HT. cbn [mem set_mem].
    destruct (Ht a sz fr Hin HT) as [H1 H2].
    rewrite !(confined_get32 _ _ _ _ Hc); [auto| |];
      intros x Hx; eapply header_outside; eauto.
Qed.

Lemma ascend_app l1 l2 :
  ascend (l1 ++ l2) <->
  ascend l1 /\ ascend l2 /\ forall x y, In x l1 -> In y l2 -> snd x <= snd y.
Proof.
  induction l1 as [|a l1 IH]; cbn [app ascend].
  - split; [intros H; repeat split; auto; intros x y []|tauto].
  - rewrite IH. split.
    + intros (Ha & H1 & H2 & H12). repeat split; auto.
      * intros y Hy. apply Ha. apply in_or_app. auto.
      * intros x y [<-|Hx] Hy; [apply Ha; apply in_or_app; auto|auto].
    + intros ((Ha & H1) & H2 & H12). repeat split; auto.
      * intros y Hy. apply in_app_or in Hy. destruct Hy; [auto|].
        apply H12; [left; reflexivity|assumption].
      * intros x y Hx Hy. apply H12; [right|]; assumption.
Qed.

Lemma ascend_remove l1 x l2 : ascend (l1 ++ x :: l2) -> ascend (l1 ++ l2).
Proof.
  rewrite !ascend_app. cbn [ascend]. intros (H1 & (_ & H2) & H12).
  repeat split; auto. intros a b Ha Hb. apply H12; [|right]; assumption.
Qed.

Lemma upd_same ls i l : upd ls i l i = l.
Proof. unfold upd. now rewrite Z.eqb_refl. Qed.

Lemma upd_other ls i l j : j <> i -> upd ls i l j = ls j.
Proof. intros H. unfold upd. apply Z.eqb_neq in H. now rewrite H. Qed.

Lemma slot_in_region s i :
  geometry s -> 0 <= i <= 9 ->
  mem_start_brk s <= seg_lists s + 4 * i /\ seg_lists s + 4 * i + 4 <= mem_brk s.
Proof. intros (_ & _ & -> & _ & G56 & _) Hi. lia. Qed.

Lemma geometry_region s : geometry s -> region_ok s.
Proof. intros (H & _). exact H. Qed.

(** Taking a listed block out of its list. *)
Lemma core_remove s bs ls U T bp sz :
  core s bs ls U T -> In (bp, sz, true) bs -> ~ In bp U ->
  exists m' ls',
    remove_from_list bp sz s = Ret tt (set_mem s m') /\
    core (set_mem s m') bs ls' (bp :: U) T /\
    confined (mem s) m' (links_area s bs).
Proof.
  intros Hcore Hin HU.
  pose proof Hcore as (Hb & Hl1 & Hl2 & Hl3).
  pose proof Hb as (Hg & _).
  remember (class_of sz) as i eqn:Eci.
  assert (Hi : 0 <= i <= 9) by (subst i; apply class_of_range).
  assert (Ei : list_index_of sz = i) by (subst i; apply list_index_of_class).
  pose proof (Hl3 _ _ Hin HU) as Hlisted. rewrite <- Eci in Hlisted.
  destruct (in_split _ _ Hlisted) as (L1 & L2 & EL).
  destruct (Hl1 i Hi) as (Hrep & Hasc & Hnd).
  assert (Emap : map fst (ls i) = map fst L1 ++ bp :: map fst L2)
    by (rewrite EL, map_app; reflexivity).
  pose proof (listed_sep _ _ _ _ _ Hcore i Hi) as Hsep.
  rewrite Emap in Hrep, Hsep, Hnd.
  assert (Hsl : forall q, In q (map fst L1 ++ map fst L2) ->
            q + 8 <= seg_lists s + 4 * i \/ seg_lists s + 4 * i + 4 <= q).
  { intros q Hq. apply (listed_slot _ _ _ _ _ Hcore i i); auto.
    rewrite Emap. in_all. }
  destruct (remove_from_list_spec bp sz s (map fst L1) (map fst L2))
    as (m' & Hrun & Hrep' & Hframe);
    try rewrite Ei; auto using geometry_region, slot_in_region.
  rewrite Ei in Hrep', Hframe.
  assert (Hconf : confined (mem s) m' (links_area s bs)).
  { intros x Hx. apply Hframe.
    - destruct Hg as (_ & _ & Gseg & _). rewrite Gseg.
      assert (~ (mem_start_brk s <= x < mem_start_brk s + 40))
        by (intros ?; apply Hx; left; assumption). lia.
    - intros q Hq.
      assert (Hq' : In q (map fst (ls i))) by (rewrite Emap; in_all).
      destruct (listed_node ls i q Hi Hq') as (z & Hz).
      destruct (Hl2 _ _ _ Hi Hz) as (Hblk & _).
      assert (~ (q <= x < q + 8)) by (intros ?; apply Hx; right; eauto). lia. }
  exists m', (upd ls i (L1 ++ L2)).
  split; [exact Hrun|]. split; [|exact Hconf].
  split; [apply blocks_ok_links_frame; assumption|].
  apply NoDup_remove in Hnd. destruct Hnd as [Hnd Hbp].
  split; [|split].
  - intros j Hj. destruct (Z.eq_dec j i) as [->|Hne].
    + rewrite upd_same. rewrite map_app. split; [exact Hrep'|]. split; [|exact Hnd].
      rewrite EL in Hasc. eapply ascend_remove; eauto.
    + rewrite upd_other by assumption.
      destruct (Hl1 j Hj) as (Hrj & Haj & Hnj).
      split; [|split; assumption].
      eapply list_rep_frame; [apply grown_set_mem| | |exact Hrj]; cbn [mem set_mem].
      * apply get32_ext. intros x Hx. apply Hframe; [lia|].
        intros q Hq.
        assert (Hq' : In q (map fst (ls i))) by (rewrite Emap; in_all).
        pose proof (listed_slot _ _ _ _ _ Hcore i j q Hi Hj Hq'). lia.
      * intros q' Hq'.
        pose proof (listed_slot _ _ _ _ _ Hcore j i q' Hj Hi Hq') as Hs.
        assert (Hfar : forall q, In q (map fst L1 ++ map fst L2) -> far q' q).
        { intros q Hq. apply (listed_far _ _ _ _ _ Hcore j i); auto.
          - rewrite Emap. in_all.
          - intros ->. apply Hne. eapply (listed_once _ _ _ _ _ Hcore); eauto.
            rewrite Emap. in_all. }
        split; apply get32_ext; intros x Hx; apply Hframe; try lia;
          intros q Hq; specialize (Hfar q Hq); unfold far in Hfar; lia.
  - intros j q z Hj Hq.
    destruct (Z.eq_dec j i) as [->|Hne].
    + rewrite upd_same in Hq.
      assert (Hq' : In (q, z) (ls i)) by (rewrite EL; in_all).
      destruct (Hl2 _ _ _ Hi Hq') as (B & C & NU).
      split; [exact B|]. split; [exact C|].
      intros [<-|HinU]; [|contradiction].
      apply Hbp. rewrite <- map_app. apply (in_map fst _ _ Hq).
    + rewrite upd_other in Hq by assumption.
      destruct (Hl2 _ _ _ Hj Hq) as (B & C & NU).
      split; [exact B|]. split; [exact C|].
      intros [<-|HinU]; [|contradiction].
      apply Hne. apply (listed_once _ _ _ _ _ Hcore j i bp Hj Hi).
      * apply (in_map fst _ _ Hq).
      * rewrite Emap. in_all.
  - intros q z Hq HqU.
    assert (Hqb : q <> bp) by (intros ->; apply HqU; left; reflexivity).
    assert (HqU' : ~ In q U) by (intros ?; apply HqU; right; assumption).
    pose proof (Hl3 _ _ Hq HqU') as Hql.
    destruct (Z.eq_dec (class_of z) i) as [E|Hne].
    + rewrite E in *. rewrite upd_same. rewrite EL in Hql.
      apply in_app_or in Hql. apply in_or_app.
      destruct Hql as [?|[Heq|?]]; auto. inversion Heq. congruence.
    + rewrite upd_other by assumption. exact Hql.
Qed.

Lemma listed_length s bs ls U T i :
  core s bs ls U T -> 0 <= i <= 9 -> (length (ls i) <= length bs)%nat.
Proof.
  intros Hcore Hi. pose proof Hcore as (_ & Hl1 & Hl2 & _).
  destruct (Hl1 i Hi) as (_ & _ & Hnd).
  rewrite <- (length_map fst (ls i)).
  rewrite <- (length_map (fun b : block => fst (fst b)) bs).
  apply NoDup_incl_length; [exact Hnd|].
  intros q Hq. destruct (listed_node ls i q Hi Hq) as (z & Hz).
  destruct (Hl2 _ _ _ Hi Hz) as (B & _).
  apply (in_map (fun b : block => fst (fst b)) _ _ B).
Qed.

Lemma NoDup_insert (l1 l2 : list Z) a :
  NoDup (l1 ++ l2) -> ~ In a (l1 ++ l2) -> NoDup (l1 ++ a :: l2).
Proof.
  intros H1 H2. apply (NoDup_Add (Add_app a l1 l2)). split; assumption.
Qed.

(** Putting an unlisted free block into the list of its class. *)
Lemma core_add fuel s bs ls U T bp sz :
  core s bs ls (bp :: U) T -> In (bp, sz, true) bs -> ~ In bp U ->
  (forall q, In q T -> In q (bp :: U)) -> (length bs < fuel)%nat ->
  exists m' ls',
    add_to_list fuel bp sz s = Ret tt (set_mem s m') /\
    core (set_mem s m') bs ls' U T /\
    confined (mem s) m' (links_area s bs).
Proof.
  intros Hcore Hin HU HT Hfuel.
  pose proof Hcore as (Hb & Hl1 & Hl2 & Hl3).
  pose proof Hb as (Hg & _).
  remember (class_of sz) as i eqn:Eci.
  assert (Hi : 0 <= i <= 9) by (subst i; apply class_of_range).
  assert (Ei : list_index_of sz = i) by (subst i; apply list_index_of_class).
  destruct (Hl1 i Hi) as (Hrep & Hasc & Hnd).
  destruct (block_facts _ _ _ _ _ _ Hb Hin) as (F1 & F2 & F3 & F4 & F5 & F6 & F7 & F8).
  assert (Hnot : forall q, In q (map fst (ls i)) -> q <> bp).
  { intros q Hq ->. destruct (listed_node ls i bp Hi Hq) as (z & Hz).
    destruct (Hl2 _ _ _ Hi Hz) as (_ & _ & NU). apply NU. left; reflexivity. }
  assert (Hfar : forall j q, 0 <= j <= 9 -> In q (map fst (ls j)) -> far bp q).
  { intros j q Hj Hq. destruct (listed_node ls j q Hj Hq) as (z & Hz).
    destruct (Hl2 _ _ _ Hj Hz) as (B & _ & NU).
    destruct (block_facts _ _ _ _ _ _ Hb B) as (? & ? & ? & _).
    assert (Hne : bp <> q) by (intros <-; apply NU; left; reflexivity).
    pose proof (blocks_far _ _ _ _ _ _ _ _ _ Hb Hin B Hne). unfold far. lia. }
  assert (Hgs : seg_lists s = mem_start_brk s) by (destruct Hg as (_ & _ & G & _); exact G).
  destruct (add_to_list_spec fuel bp sz s (map fst (ls i)))
    as (l1 & l2 & m' & EL & Hlt & Hge & Hrun & Hrep' & Hframe);
    try rewrite Ei; auto using geometry_region, slot_in_region.
  { rewrite length_map. pose proof (listed_length _ _ _ _ _ i Hcore Hi). lia. }
  { lia. }
  { apply sep_cons. split; [intros q Hq; apply (Hfar i); assumption|].
    apply (listed_sep _ _ _ _ _ Hcore i Hi). }
  { intros q [<-|Hq]; [lia|]. apply (listed_slot _ _ _ _ _ Hcore i i); assumption. }
  rewrite Ei in Hrep', Hframe.
  destruct (map_eq_app _ _ _ _ EL) as (L1 & L2 & EL' & E1 & E2).
  assert (Hsz : forall q z, In (q, z) (ls i) -> size_at s q = z).
  { intros q z Hz. destruct (Hl2 _ _ _ Hi Hz) as (B & _ & NU).
    apply (block_tags _ _ _ _ _ _ Hb B). intros HqT. apply NU, HT, HqT. }
  assert (Hconf : confined (mem s) m' (links_area s bs)).
  { intros x Hx. apply Hframe.
    - assert (~ (bp <= x < bp + 8)) by (intros ?; apply Hx; right; eauto). lia.
    - rewrite Hgs.
      assert (~ (mem_start_brk s <= x < mem_start_brk s + 40))
        by (intros ?; apply Hx; left; assumption). lia.
    - intros q Hq. destruct (listed_node ls i q Hi Hq) as (z & Hz).
      destruct (Hl2 _ _ _ Hi Hz) as (B & _).
      assert (~ (q <= x < q + 8)) by (intros ?; apply Hx; right; eauto). lia. }
  exists m', (upd ls i (L1 ++ (bp, sz) :: L2)).
  split; [exact Hrun|]. split; [|exact Hconf].
  split; [apply blocks_ok_links_frame; assumption|].
  split; [|split].
  - intros j Hj. destruct (Z.eq_dec j i) as [->|Hne].
    + rewrite upd_same. rewrite map_app. cbn [map fst]. rewrite E1, E2.
      split; [exact Hrep'|]. split.
      * rewrite EL' in Hasc. apply ascend_app in Hasc.
        destruct Hasc as (A1 & A2 & A12).
        assert (HL1 : forall x, In x L1 -> snd x < sz).
        { intros [q z] Hx. cbn [snd]. rewrite <- (Hsz q z) by (rewrite EL'; in_all).
          apply Hlt. rewrite <- E1. apply (in_map fst _ _ Hx). }
        assert (HL2 : forall y, In y L2 -> sz <= snd y).
        { destruct L2 as [|[n zn] L2']; [intros y []|].
          cbn [map fst] in E2. rewrite <- E2 in Hge.
          rewrite (Hsz n zn) in Hge by (rewrite EL'; in_all).
          intros y [<-|Hy]; [exact Hge|].
          cbn [ascend] in A2. destruct A2 as [A2 _].
          specialize (A2 y Hy). cbn [snd] in A2. lia. }
        apply ascend_app. split; [exact A1|]. split.
        -- cbn [ascend]. split; [exact HL2|exact A2].
        -- intros x y Hx [<-|Hy]; [cbn [snd]; specialize (HL1 x Hx); lia|auto].
      * apply NoDup_insert; rewrite <- EL; [exact Hnd|].
        intros Hq. apply (Hnot bp Hq). reflexivity.
    + rewrite upd_other by assumption.
      destruct (Hl1 j Hj) as (Hrj & Haj & Hnj).
      split; [|split; assumption].
      eapply list_rep_frame; [apply grown_set_mem| | |exact Hrj]; cbn [mem set_mem].
      * apply get32_ext. intros x Hx. apply Hframe; [lia|lia|].
        intros q Hq.
        pose proof (listed_slot _ _ _ _ _ Hcore i j q Hi Hj Hq). lia.
      * intros q' Hq'.
        pose proof (listed_slot _ _ _ _ _ Hcore j i q' Hj Hi Hq') as Hs.
        pose proof (Hfar j q' Hj Hq') as Hfb.
        assert (Hfl : forall q, In q (map fst (ls i)) -> far q' q).
        { intros q Hq. apply (listed_far _ _ _ _ _ Hcore j i); auto.
          intros ->. apply Hne. eapply (listed_once _ _ _ _ _ Hcore); eauto. }
        unfold far in Hfb.
        split; apply get32_ext; intros x Hx; apply Hframe; try lia;
          intros q Hq; specialize (Hfl q Hq); unfold far in Hfl; lia.
  - intros j q z Hj Hq.
    destruct (Z.eq_dec j i) as [->|Hne].
    + rewrite upd_same in Hq.
      apply in_app_or in Hq. destruct Hq as [Hq|[Hq|Hq]].
      * destruct (Hl2 i q z Hi) as (B & C & NU); [rewrite EL'; in_all|].
        split; [exact B|]. split; [exact C|]. intros ?; apply NU; right; assumption.
      * inversion Hq; subst q z. split; [exact Hin|]. split; [symmetry; exact Eci|exact HU].
      * destruct (Hl2 i q z Hi) as (B & C & NU); [rewrite EL'; in_all|].
        split; [exact B|]. split; [exact C|]. intros ?; apply NU; right; assumption.
    + rewrite upd_other in Hq by assumption.
      destruct (Hl2 _ _ _ Hj Hq) as (B & C & NU).
      split; [exact B|]. split; [exact C|]. intros ?; apply NU; right; assumption.
  - intros q z Hq HqU.
    destruct (Z.eq_dec q bp) as [->|Hqb].
    + destruct (blocks_unique _ _ _ _ _ _ _ _ Hb Hq Hin) as [-> _].
      rewrite <- Eci. rewrite upd_same. in_all.
    + assert (HqU' : ~ In q (bp :: U)) by (intros [?|?]; [congruence|contradiction]).
      pose proof (Hl3 _ _ Hq HqU') as Hql.
      destruct (Z.eq_dec (class_of z) i) as [E|Hne].
      * rewrite E in *. rewrite upd_same. rewrite EL' in Hql. in_all.
      * rewrite upd_other by assumption. exact Hql.
Qed.

(** ** Reading the tags *)

Lemma run_bind {A B} (c : M A) (k : A -> M B) s a s1 :
  c s = Ret a s1 -> bind c k s = k a s1.
Proof. intros H. unfold bind. now rewrite H. Qed.

Lemma GET_SIZE_run s p :
  mem_start_brk s <= p -> p + 4 <= mem_brk s ->
  GET_SIZE p s = Ret (Z.land (get32 (mem s) p) (Z.lnot 7)) s.
Proof. intros. unfold GET_SIZE, GET. rewrite bind_load32 by assumption. reflexivity. Qed.

Lemma GET_ALLOC_run s p :
  mem_start_brk s <= p -> p + 4 <= mem_brk s ->
  GET_ALLOC p s = Ret (Z.land (get32 (mem s) p) 1) s.
Proof. intros. unfold GET_ALLOC, GET. rewrite bind_load32 by assumption. reflexivity. Qed.

Lemma HDRP_small a : 4 <= a < 2 ^ 64 -> HDRP a = a - 4.
Proof. intros. unfold HDRP, WSIZE. rewrite padd_small by lia. lia. Qed.

Lemma laid_last q pre a sz fr e : laid q (pre ++ [(a, sz, fr)]) e -> a + sz = e.
Proof.
  intros H. apply laid_app in H. destruct H as (mid & _ & H).
  cbn [laid] in H. lia.
Qed.

Lemma laid_mid q pre a sz fr post e :
  laid q (pre ++ (a, sz, fr) :: post) e ->
  laid q pre a /\ laid (a + sz) post e /\ 16 <= sz /\ sz mod 8 = 0.
Proof.
  intros H. apply laid_app in H. destruct H as (mid & H1 & H2).
  cbn [laid] in H2. destruct H2 as (-> & ? & ? & ?). auto.
Qed.

Lemma nil_or_last {A} (l : list A) : l = [] \/ exists l' a, l = l' ++ [a].
Proof.
  destruct l as [|x l]; [left; reflexivity|right].
  destruct (exists_last (l := x :: l) ltac:(congruence)) as (l' & a & E).
  exists l', a. exact E.
Qed.

Lemma last_free_snoc pre b : last_free (pre ++ [b]) = is_free b.
Proof.
  induction pre as [|c l IH]; [reflexivity|].
  cbn [app last_free]. destruct (l ++ [b]) eqn:El; [destruct l; discriminate|].
  exact IH.
Qed.

Section Block.
Variables (s : state) (bs : list block) (T : list Z).
Hypothesis Hb : blocks_ok s bs T.

Lemma block_addr a sz fr :
  In (a, sz, fr) bs -> 4 <= a - 4 /\ a + sz < 2 ^ 64.
Proof.
  intros Hin.
  destruct (block_facts _ _ _ _ _ _ Hb Hin) as (? & ? & _).
  destruct Hb as (((R0 & R1 & R2 & R3) & _) & _). lia.
Qed.

Lemma hdr_run a sz fr :
  In (a, sz, fr) bs -> ~ In a T ->
  GET_SIZE (HDRP a) s = Ret sz s /\
  GET_ALLOC (HDRP a) s = Ret (if fr then 0 else 1) s /\
  FTRP a s = Ret (a + sz - 8) s /\
  NEXT_BLKP a s = Ret (a + sz) s.
Proof.
  intros Hin HT.
  destruct (block_facts _ _ _ _ _ _ Hb Hin) as (F1 & F2 & F3 & F4 & F5 & F6 & F7 & F8).
  destruct (block_addr _ _ _ Hin) as (A1 & A2).
  destruct (block_tags _ _ _ _ _ _ Hb Hin HT) as (T1 & T2 & T3).
  assert (E : GET_SIZE (HDRP a) s = Ret sz s).
  { rewrite HDRP_small by lia. rewrite GET_SIZE_run by lia.
    rewrite T1, tag_size by assumption. reflexivity. }
  split; [exact E|]. split; [|split].
  - rewrite HDRP_small by lia. rewrite GET_ALLOC_run by lia.
    rewrite T1, tag_alloc by assumption. reflexivity.
  - unfold FTRP. rewrite (run_bind _ _ _ _ _ E). unfold ret, DSIZE.
    rewrite (padd_small a) by lia. rewrite padd_small by lia.
    f_equal; lia.
  - unfold NEXT_BLKP. change (padd a (- WSIZE)) with (HDRP a).
    rewrite (run_bind _ _ _ _ _ E). unfold ret.
    rewrite padd_small by lia. reflexivity.
Qed.

(** The block before [a], or the prologue. *)
Lemma prev_run pre a sz fr post :
  bs = pre ++ (a, sz, fr) :: post -> (forall b z f, In (b, z, f) pre -> ~ In b T) ->
  exists pv,
    PREV_BLKP a s = Ret pv s /\
    GET_ALLOC (HDRP pv) s = Ret (if last_free pre then 0 else 1) s /\
    (pre = [] \/ exists pre' z f, pre = pre' ++ [(pv, z, f)] /\ pv + z = a).
Proof.
  intros E HT.
  assert (Hin : In (a, sz, fr) bs) by (rewrite E; in_all).
  destruct (block_facts _ _ _ _ _ _ Hb Hin) as (F1 & F2 & F3 & F4 & F5 & F6 & F7 & F8).
  destruct (block_addr _ _ _ Hin) as (A1 & A2).
  pose proof Hb as (Hg & (S1 & S2 & S3) & Hl & Ht).
  rewrite E in Hl. apply laid_mid in Hl. destruct Hl as (L1 & L2 & _).
  pose proof Hg as ((R0 & R1 & R2 & R3) & _).
  destruct (nil_or_last pre) as [->|(pre' & [[pv z] f] & ->)].
  - cbn [laid] in L1.
    assert (Ep : padd a (- DSIZE) = a - 8) by (unfold DSIZE; rewrite padd_small by lia; lia).
    exists (a - 8). unfold PREV_BLKP. rewrite Ep.
    assert (G : GET_SIZE (a - 8) s = Ret 8 s).
    { rewrite GET_SIZE_run by lia. replace (a - 8) with (mem_start_brk s + 48) by lia.
      rewrite S2. reflexivity. }
    rewrite (run_bind _ _ _ _ _ G). unfold ret. rewrite padd_small by lia.
    split; [reflexivity|]. split; [|left; reflexivity].
    rewrite HDRP_small by lia. rewrite GET_ALLOC_run by lia.
    replace (a - 8 - 4) with (mem_start_brk s + 44) by lia.
    rewrite S1. reflexivity.
  - pose proof (laid_last _ _ _ _ _ _ L1) as Ea.
    assert (Hp : In (pv, z, f) bs) by (rewrite E; in_all).
    assert (HpT : ~ In pv T) by (apply (HT pv z f); in_all).
    destruct (block_facts _ _ _ _ _ _ Hb Hp) as (P1 & P2 & P3 & P4 & P5 & P6 & P7 & P8).
    destruct (block_tags _ _ _ _ _ _ Hb Hp HpT) as (T1 & T2 & T3).
    destruct (hdr_run _ _ _ Hp HpT) as (_ & Ha & _).
    assert (Ep : padd a (- DSIZE) = a - 8) by (unfold DSIZE; rewrite padd_small by lia; lia).
    exists pv. unfold PREV_BLKP. rewrite Ep.
    assert (G : GET_SIZE (a - 8) s = Ret z s).
    { rewrite GET_SIZE_run by lia. replace (a - 8) with (pv + z - 8) by lia.
      rewrite T2, tag_size by assumption. reflexivity. }
    rewrite (run_bind _ _ _ _ _ G). unfold ret. rewrite padd_small by lia.
    split; [f_equal; lia|]. split.
    + rewrite Ha. f_equal.
      rewrite last_free_snoc. reflexivity.
    + right. exists pre', z, f. auto.
Qed.

(** The block after [a], or the epilogue. *)
Lemma next_run pre a sz fr post :
  bs = pre ++ (a, sz, fr) :: post -> ~ In a T ->
  (forall b z f, In (b, z, f) post -> ~ In b T) ->
  NEXT_BLKP a s = Ret (a + sz) s /\
  GET_ALLOC (HDRP (a + sz)) s = Ret (if head_free post then 0 else 1) s /\
  (post = [] \/ exists z f post', post = (a + sz, z, f) :: post').
Proof.
  intros E HaT HT.
  assert (Hin : In (a, sz, fr) bs) by (rewrite E; in_all).
  destruct (block_facts _ _ _ _ _ _ Hb Hin) as (F1 & F2 & F3 & F4 & F5 & F6 & F7 & F8).
  destruct (block_addr _ _ _ Hin) as (A1 & A2).
  destruct (hdr_run _ _ _ Hin HaT) as (_ & _ & _ & Hn).
  split; [exact Hn|].
  pose proof Hb as (Hg & (S1 & S2 & S3) & Hl & Ht).
  rewrite E in Hl. apply laid_mid in Hl. destruct Hl as (L1 & L2 & _).
  destruct post as [|[[n z] f] post'].
  - cbn [laid] in L2. split; [|left; reflexivity].
    rewrite HDRP_small by lia. rewrite GET_ALLOC_run by lia.
    replace (a + sz - 4) with (mem_brk s - 4) by lia. rewrite S3. reflexivity.
  - cbn [laid] in L2. destruct L2 as (-> & _).
    assert (Hp : In (a + sz, z, f) bs) by (rewrite E; in_all).
    assert (HpT : ~ In (a + sz) T) by (apply (HT (a + sz) z f); in_all).
    destruct (hdr_run _ _ _ Hp HpT) as (_ & Ha & _).
    split; [exact Ha|]. right. eauto.
Qed.
End Block.

(** The two stores that write the tags of a block. *)
Lemma put_tags_run {B} s a sz (fr : bool) v (k : unit -> M B) :
  region_ok s -> mem_start_brk s <= a - 4 -> a + sz <= mem_brk s ->
  16 <= sz -> sz mod 8 = 0 -> sz < 2 ^ 32 - 1 -> u_32 v = tag sz fr ->
  bind (PUT (HDRP a) v)
       (fun _ => bind (FTRP a) (fun ft => bind (PUT ft v) k)) s =
  k tt (set_mem s (retag (mem s) a sz fr)).
Proof.
  intros (R0 & R1 & R2 & R3) H1 H2 H3 H4 H5 Hv.
  pose proof (tag_range sz fr ltac:(lia)) as Htr.
  rewrite HDRP_small by lia. unfold PUT. rewrite Hv.
  rewrite bind_store32 by lia.
  unfold FTRP. rewrite HDRP_small by lia. rewrite bind_assoc.
  rewrite (run_bind _ _ _ sz (set_mem s (set32 (mem s) (a - 4) (tag sz fr)))).
  2:{ rewrite GET_SIZE_run by side. cbn [mem set_mem].
      rewrite get32_set32_same, Z.mod_small by lia.
      rewrite tag_size by assumption. reflexivity. }
  rewrite bind_ret_l. unfold DSIZE.
  rewrite (padd_small a) by lia. rewrite padd_small by lia.
  rewrite bind_store32 by side. simp_state.
  unfold retag. replace (a + sz + -8) with (a + sz - 8) by lia. reflexivity.
Qed.

(** ** Rewriting the tags *)

Lemma get32_retag_other m a sz fr p :
  p + 4 <= a - 4 \/ a <= p -> p + 4 <= a + sz - 8 \/ a + sz - 4 <= p ->
  get32 (retag m a sz fr) p = get32 m p.
Proof. intros H1 H2. unfold retag. rewrite !get32_set32_other by lia. reflexivity. Qed.

Lemma get32_retag_tags m a sz fr :
  16 <= sz -> 0 <= tag sz fr < 2 ^ 32 ->
  get32 (retag m a sz fr) (a - 4) = tag sz fr /\
  get32 (retag m a sz fr) (a + sz - 8) = tag sz fr.
Proof.
  intros H1 H2. unfold retag. split.
  - rewrite get32_set32_other by lia. rewrite get32_set32_same. apply Z.mod_small. lia.
  - rewrite get32_set32_same. apply Z.mod_small. lia.
Qed.

Lemma confined_retag m a sz fr :
  confined m (retag m a sz fr) (fun x => word (a - 4) x \/ word (a + sz - 8) x).
Proof.
  intros x Hx. unfold retag, word in *. rewrite !byte_set32.
  rewrite !range_false by lia. reflexivity.
Qed.

(** The lists survive a change of the layout that keeps the listed blocks
    and their link words. *)
Lemma lists_reshape s s' bs ls U bs' U' :
  lists_ok s bs ls U -> grown s s' ->
  (forall i, 0 <= i <= 9 ->
     get32 (mem s') (seg_lists s + 4 * i) = get32 (mem s) (seg_lists s + 4 * i)) ->
  (forall q z, In (q, z, true) bs -> ~ In q U ->
     get32 (mem s') q = get32 (mem s) q /\
     get32 (mem s') (q + 4) = get32 (mem s) (q + 4)) ->
  (forall q z, In (q, z, true) bs -> ~ In q U -> In (q, z, true) bs' /\ ~ In q U') ->
  (forall q z, In (q, z, true) bs' -> ~ In q U' -> In (q, z, true) bs /\ ~ In q U) ->
  lists_ok s' bs' ls U'.
Proof.
  intros (Hl1 & Hl2 & Hl3) Hgr Hslot Hnode Hto Hfrom.
  split; [|split].
  - intros i Hi. destruct (Hl1 i Hi) as (Hrep & Hasc & Hnd).
    split; [|split; assumption].
    eapply list_rep_frame; [exact Hgr|apply Hslot; exact Hi| |exact Hrep].
    intros q Hq. destruct (listed_node ls i q Hi Hq) as (z & Hz).
    destruct (Hl2 _ _ _ Hi Hz) as (B & _ & NU). eapply Hnode; eauto.
  - intros i q z Hi Hq. destruct (Hl2 _ _ _ Hi Hq) as (B & C & NU).
    destruct (Hto _ _ B NU) as (B' & NU'). auto.
  - intros q z Hq NU'. destruct (Hfrom _ _ Hq NU') as (B & NU). auto.
Qed.

(** Writing the tags of a block of the new layout. *)
Lemma core_retag s bs ls U T bs' U' T' a sz fr :
  core s bs ls U T ->
  laid (mem_start_brk s + 56) bs' (mem_brk s) ->
  In (a, sz, fr) bs' ->
  (forall b z f, In (b, z, f) bs' -> b <> a -> ~ In b T' ->
     In (b, z, f) bs /\ ~ In b T) ->
  (forall q z, In (q, z, true) bs -> ~ In q U -> In (q, z, true) bs' /\ ~ In q U') ->
  (forall q z, In (q, z, true) bs' -> ~ In q U' -> In (q, z, true) bs /\ ~ In q U) ->
  core (set_mem s (retag (mem s) a sz fr)) bs' ls U' T'.
Proof.
  intros (Hb & Hl) Hlaid Hin Hold Hto Hfrom.
  pose proof Hb as (Hg & (S1 & S2 & S3) & Hl0 & Ht).
  pose proof Hg as ((R0 & R1 & R2 & R3) & G8 & Gseg & Ghl & G56 & Gcap).
  destruct (laid_in _ _ _ _ _ _ Hlaid Hin) as (A1 & A2 & A3 & A4).
  assert (Htr : 0 <= tag sz fr < 2 ^ 32) by (apply tag_range; lia).
  split.
  - split; [exact Hg|]. split; [|split; [exact Hlaid|]].
    + unfold sentinels. cbn [mem set_mem mem_start_brk mem_brk].
      rewrite !get32_retag_other by lia. auto.
    + intros b z f Hbin HbT. cbn [mem set_mem].
      destruct (Z.eq_dec b a) as [->|Hne].
      * destruct (laid_disjoint _ _ _ _ _ _ _ _ _ Hlaid Hbin Hin) as [(_ & -> & ->)|Hd].
        -- apply get32_retag_tags; assumption.
        -- destruct (laid_in _ _ _ _ _ _ Hlaid Hbin) as (_ & _ & ? & _). lia.
      * destruct (Hold _ _ _ Hbin Hne HbT) as (Hbo & HbT0).
        destruct (laid_disjoint _ _ _ _ _ _ _ _ _ Hlaid Hbin Hin) as [(? & _)|Hd];
          [contradiction|].
        destruct (laid_in _ _ _ _ _ _ Hlaid Hbin) as (_ & _ & ? & _).
        rewrite !get32_retag_other by lia. apply (Ht _ _ _ Hbo HbT0).
  - eapply lists_reshape; [exact Hl|apply grown_set_mem| | |exact Hto|exact Hfrom];
      cbn [mem set_mem].
    + intros i Hi. rewrite get32_retag_other by lia. reflexivity.
    + intros q z Hq NU. destruct (Hto _ _ Hq NU) as (Hq' & NU').
      destruct (laid_in _ _ _ _ _ _ Hlaid Hq') as (_ & _ & ? & _).
      destruct (laid_disjoint _ _ _ _ _ _ _ _ _ Hlaid Hq' Hin) as [(-> & -> & _)|Hd];
        rewrite !get32_retag_other by lia; auto.
Qed.

Lemma coalesced_app l1 l2 :
  coalesced (l1 ++ l2) <->
  coalesced l1 /\ coalesced l2 /\ (last_free l1 = true -> head_free l2 = false).
Proof.
  induction l1 as [|b l1 IH]; cbn [app coalesced].
  - cbn [last_free]. split; [intros H; repeat split; auto; discriminate|tauto].
  - rewrite IH. destruct l1 as [|c l1]; cbn [app head_free last_free coalesced] in *.
    + tauto.
    + tauto.
Qed.

Lemma laid_flip q pre a sz fr fr' post e :
  laid q (pre ++ (a, sz, fr) :: post) e -> laid q (pre ++ (a, sz, fr') :: post) e.
Proof.
  intros H. apply laid_app in H. destruct H as (mid & H1 & H2).
  apply laid_app. exists mid. split; [exact H1|exact H2].
Qed.

Lemma laid_cut q pre a sz fr post e k :
  16 <= k -> k mod 8 = 0 -> 16 <= sz - k ->
  laid q (pre ++ (a, sz, fr) :: post) e ->
  laid q (pre ++ (a, k, false) :: (a + k, sz - k, true) :: post) e.
Proof.
  intros K1 K2 K3 H. apply laid_app in H. destruct H as (mid & H1 & H2).
  apply laid_app. exists mid. split; [exact H1|].
  cbn [laid] in *. destruct H2 as (E & ? & Hm & H2). subst mid.
  repeat split; auto.
  - rewrite Zminus_mod, K2, Hm. reflexivity.
  - replace (a + k + (sz - k)) with (a + sz) by lia. exact H2.
Qed.

Lemma mid_unique q pre a sz fr post e b z f :
  laid q (pre ++ (a, sz, fr) :: post) e ->
  In (b, z, f) (pre ++ (a, sz, fr) :: post) ->
  (b = a /\ z = sz /\ f = fr) \/
  (b <> a /\ (In (b, z, f) pre /\ b + z <= a \/ In (b, z, f) post /\ a + sz <= b)).
Proof.
  intros Hl Hin. destruct (laid_mid _ _ _ _ _ _ _ Hl) as (L1 & L2 & L3 & _).
  apply in_app_or in Hin. destruct Hin as [Hin|[Hin|Hin]].
  - destruct (laid_in _ _ _ _ _ _ L1 Hin) as (? & ? & ? & _). right. split; [lia|]. left. auto.
  - inversion Hin; subst. left. auto.
  - destruct (laid_in _ _ _ _ _ _ L2 Hin) as (? & ? & ? & _). right. split; [lia|]. right. auto.
Qed.

(** ** Placement *)

Ltac simp_state_in H :=
  rewrite ?set_mem_set_mem in H;
  cbn [mem set_mem mem_start_brk mem_brk mem_max_addr sbrk_calls heap_listp seg_lists] in H.

Lemma put_tags_run2 {B} s a sz (fr : bool) v (c : M Z) (k : unit -> M B) :
  region_ok s -> mem_start_brk s <= a - 4 -> a + sz <= mem_brk s ->
  16 <= sz -> sz mod 8 = 0 -> sz < 2 ^ 32 - 1 -> u_32 v = tag sz fr ->
  (let s1 := set_mem s (set32 (mem s) (a - 4) (tag sz fr)) in c s1 = Ret a s1) ->
  bind (PUT (HDRP a) v)
       (fun _ => bind c (fun a' => bind (FTRP a') (fun ft => bind (PUT ft v) k))) s =
  k tt (set_mem s (retag (mem s) a sz fr)).
Proof.
  intros (R0 & R1 & R2 & R3) H1 H2 H3 H4 H5 Hv Hc.
  pose proof (tag_range sz fr ltac:(lia)) as Htr.
  rewrite HDRP_small by lia. unfold PUT. rewrite Hv.
  rewrite bind_store32 by lia.
  rewrite (run_bind _ _ _ _ _ Hc).
  unfold FTRP. rewrite HDRP_small by lia. rewrite bind_assoc.
  rewrite (run_bind _ _ _ sz (set_mem s (set32 (mem s) (a - 4) (tag sz fr)))).
  2:{ rewrite GET_SIZE_run by side. cbn [mem set_mem].
      rewrite get32_set32_same, Z.mod_small by lia.
      rewrite tag_size by assumption. reflexivity. }
  rewrite bind_ret_l. unfold DSIZE.
  rewrite (padd_small a) by lia. rewrite padd_small by lia.
  rewrite bind_store32 by side. simp_state.
  unfold retag. replace (a + sz + -8) with (a + sz - 8) by lia. reflexivity.
Qed.

Lemma links_in_free_area s bs T x :
  blocks_ok s bs T -> links_area s bs x -> free_area s bs x.
Proof.
  intros Hb [H|(q & z & Hq & Hx)]; [left; exact H|].
  right; left. exists q, z. split; [exact Hq|].
  destruct (block_facts _ _ _ _ _ _ Hb Hq) as (_ & _ & ? & _). lia.
Qed.

Lemma u_32_PACK_alloc sz : sz mod 8 = 0 -> 0 <= sz < 2 ^ 32 - 1 -> u_32 (PACK sz 1) = tag sz false.
Proof.
  intros H1 H2. rewrite PACK_alloc by assumption. rewrite u_32_small by lia. reflexivity.
Qed.

Lemma u_32_PACK_free sz : 0 <= sz < 2 ^ 32 -> u_32 (PACK sz 0) = tag sz true.
Proof. intros H. rewrite PACK_free. rewrite u_32_small by lia. reflexivity. Qed.

Lemma coalesced_flip pre a sz post :
  coalesced (pre ++ (a, sz, true) :: post) -> coalesced (pre ++ (a, sz, false) :: post).
Proof.
  rewrite !coalesced_app. cbn [coalesced head_free is_free snd].
  intros (H1 & (H2 & H3) & H4). repeat split; auto; discriminate.
Qed.

Lemma coalesced_cut pre a sz post k :
  coalesced (pre ++ (a, sz, true) :: post) ->
  coalesced (pre ++ (a, k, false) :: (a + k, sz - k, true) :: post).
Proof.
  rewrite !coalesced_app. cbn [coalesced head_free is_free snd].
  intros (H1 & (H2 & H3) & H4). repeat split; auto; discriminate.
Qed.

Lemma not_in_nil (q : Z) : ~ In q [].
Proof. intros []. Qed.

(** [place] on a free block of the heap that is large enough. *)
Lemma place_spec fuel s bs ls pre post bp bsz asize :
  heap_ok s bs ls -> bs = pre ++ (bp, bsz, true) :: post ->
  16 <= asize <= bsz -> asize mod 8 = 0 -> (length bs + 1 < fuel)%nat ->
  exists m' ls' z rest,
    place fuel bp asize s = Ret bp (set_mem s m') /\
    heap_ok (set_mem s m') (pre ++ (bp, z, false) :: rest ++ post) ls' /\
    asize <= z /\ z mod 8 = 0 /\
    (rest = [] \/ rest = [(bp + z, bsz - z, true)]) /\
    confined (mem s) m' (free_area s bs).
Proof.
  intros (Hcore & Hco) E Hsz Hmod Hfuel.
  assert (Hin : In (bp, bsz, true) bs) by (rewrite E; in_all).
  pose proof Hcore as (Hb & Hl).
  pose proof Hb as (Hg & _ & Hlaid & _).
  pose proof Hg as (Hr & G8 & Gseg & Ghl & G56 & Gcap).
  destruct (block_facts _ _ _ _ _ _ Hb Hin) as (F1 & F2 & F3 & F4 & F5 & F6 & F7 & F8).
  destruct (block_addr _ _ _ Hb _ _ _ Hin) as (A1 & A2).
  destruct (hdr_run _ _ _ Hb _ _ _ Hin (not_in_nil bp)) as (G1 & _).
  destruct (core_remove _ _ _ _ _ _ _ Hcore Hin (not_in_nil bp))
    as (m1 & ls1 & R1 & C1 & Fr1).
  pose proof C1 as (Hb1 & Hl1).
  assert (Fr1' : confined (mem s) m1 (free_area s bs)).
  { eapply confined_weaken; [|exact Fr1]. intros x. apply (links_in_free_area _ _ _ _ Hb). }
  unfold place. rewrite (run_bind _ _ _ _ _ G1). cbv zeta.
  rewrite (size_t_small (bsz - asize)) by lia.
  rewrite (run_bind _ _ _ _ _ R1).
  pose proof (region_ok_set_mem s m1 Hr) as Hr1.
  unfold DSIZE. change (2 * 8) with 16.
  destruct (bsz - asize <? 16) eqn:Ed.
  - apply Z.ltb_lt in Ed.
    rewrite (put_tags_run _ bp bsz false) by (side || (apply u_32_PACK_alloc; lia)).
    unfold ret. simp_state.
    exists (retag m1 bp bsz false), ls1, bsz, []. cbn [app].
    split; [reflexivity|]. split; [|split; [lia|split; [assumption|split; [left; reflexivity|]]]].
    + split; [|apply coalesced_flip; rewrite <- E; exact Hco].
      rewrite E in Hlaid.
      pose proof (laid_flip _ _ _ _ _ false _ _ Hlaid) as Hlaid'.
      replace (set_mem s (retag m1 bp bsz false))
        with (set_mem (set_mem s m1) (retag (mem (set_mem s m1)) bp bsz false))
        by (simp_state; reflexivity).
      apply (core_retag _ bs ls1 [bp] [] _ [] []); auto.
      * in_all.
      * intros b z f Hbin Hne _. split; [|apply not_in_nil].
        rewrite E. apply in_app_or in Hbin. destruct Hbin as [?|[Heq|?]]; [in_all| |in_all].
        inversion Heq; subst; contradiction.
      * intros q z Hq NU. split; [|apply not_in_nil].
        rewrite E in Hq. apply in_app_or in Hq. destruct Hq as [?|[Heq|?]]; [in_all| |in_all].
        inversion Heq; subst. exfalso. apply NU. left; reflexivity.
      * intros q z Hq _.
        destruct (mid_unique _ _ _ _ _ _ _ _ _ _ Hlaid' Hq) as [(_ & _ & Hf)|(Hne & Hd)];
          [discriminate|].
        split; [rewrite E; in_all|intros [->|[]]; contradiction].
    + eapply confined_trans; [exact Fr1'|].
      eapply confined_weaken; [|apply confined_retag].
      intros x Hx. right; left. exists bp, bsz. split; [exact Hin|].
      unfold word in Hx. lia.
  - apply Z.ltb_ge in Ed.
    set (nx := bp + asize). set (delta := bsz - asize).
    rewrite (put_tags_run _ bp asize false) by (side || (apply u_32_PACK_alloc; lia)).
    simp_state.
    set (m2 := retag m1 bp asize false).
    set (bs2 := pre ++ (bp, asize, false) :: (nx, delta, true) :: post).
    rewrite E in Hlaid.
    assert (Hlaid2 : laid (mem_start_brk s + 56) bs2 (mem_brk s))
      by (apply (laid_cut _ pre bp bsz true post _ asize); auto; lia).
    assert (Hin2 : In (bp, asize, false) bs2) by (unfold bs2; in_all).
    assert (Hnx : In (nx, delta, true) bs2) by (unfold bs2; in_all).
    assert (C2 : core (set_mem s m2) bs2 ls1 [nx] [nx]).
    { replace (set_mem s m2)
        with (set_mem (set_mem s m1) (retag (mem (set_mem s m1)) bp asize false))
        by (simp_state; reflexivity).
      apply (core_retag _ bs ls1 [bp] [] _ [nx] [nx]); auto.
      - intros b z f Hbin Hne HT. split; [|apply not_in_nil].
        rewrite E. unfold bs2 in Hbin. apply in_app_or in Hbin.
        destruct Hbin as [?|[Heq|[Heq|?]]]; [in_all| | |in_all].
        + inversion Heq; subst; contradiction.
        + inversion Heq; subst. exfalso. apply HT. left; reflexivity.
      - intros q z Hq NU. rewrite E in Hq.
        destruct (mid_unique _ _ _ _ _ _ _ _ _ _ Hlaid Hq) as [(-> & _)|(Hne & Hd)].
        + exfalso. apply NU. left; reflexivity.
        + split; [unfold bs2; clear - Hd; in_all|].
          intros [Heq|[]]. unfold nx in Heq.
          destruct Hd as [(Hq1 & ?)|(Hq1 & ?)]; [|lia].
          destruct (laid_mid _ _ _ _ _ _ _ Hlaid) as (L1 & _).
          destruct (laid_in _ _ _ _ _ _ L1 Hq1) as (_ & _ & ? & _). lia.
      - intros q z Hq NU. unfold bs2 in Hq. apply in_app_or in Hq.
        destruct Hq as [Hq|[Heq|[Heq|Hq]]].
        + assert (Hq' : In (q, z, true) bs) by (rewrite E; in_all).
          split; [exact Hq'|]. intros [<-|[]].
          destruct (blocks_unique _ _ _ _ _ _ _ _ Hb Hin Hq') as (_ & _).
          destruct (laid_mid _ _ _ _ _ _ _ Hlaid) as (L1 & _).
          destruct (laid_in _ _ _ _ _ _ L1 Hq) as (_ & ? & ? & _). lia.
        + discriminate.
        + inversion Heq; subst. exfalso. apply NU. left; reflexivity.
        + assert (Hq' : In (q, z, true) bs) by (rewrite E; in_all).
          split; [exact Hq'|]. intros [<-|[]].
          destruct (laid_mid _ _ _ _ _ _ _ Hlaid) as (_ & L2 & _).
          destruct (laid_in _ _ _ _ _ _ L2 Hq) as (? & _). lia. }
    pose proof C2 as (Hb2 & Hl2).
    assert (HnT : ~ In bp [nx]) by (intros [Heq|[]]; unfold nx in Heq; lia).
    destruct (hdr_run _ _ _ Hb2 _ _ _ Hin2 HnT) as (_ & _ & _ & N2).
    rewrite (run_bind _ _ _ _ _ N2). fold nx.
    destruct (core_add fuel _ _ _ [] [nx] nx delta C2 Hnx (not_in_nil nx))
      as (m3 & ls3 & R3 & C3 & Fr3).
    { auto. }
    { unfold bs2. rewrite E in Hfuel. rewrite length_app in *. cbn [length] in *. lia. }
    rewrite (run_bind _ _ _ _ _ R3). simp_state.
    pose proof C3 as (Hb3 & Hl3). simp_state_in Hb3.
    destruct (hdr_run _ _ _ Hb3 _ _ _ Hin2 HnT) as (_ & _ & _ & N3).
    rewrite (run_bind _ _ _ _ _ N3). fold nx.
    pose proof (region_ok_set_mem s m3 Hr) as Hr3.
    fold delta.
    assert (D8 : delta mod 8 = 0) by (unfold delta; rewrite Zminus_mod, F4, Hmod; reflexivity).
    rewrite (put_tags_run2 _ nx delta true).
    all: try (side || (unfold nx, delta; side) || (apply u_32_PACK_free; unfold delta; lia)).
    2:{ cbv zeta. unfold NEXT_BLKP. change (padd bp (- WSIZE)) with (HDRP bp).
        rewrite HDRP_small by lia.
        erewrite run_bind; [|rewrite GET_SIZE_run by side; reflexivity].
        cbn [mem set_mem]. unfold ret.
        rewrite get32_set32_other by (unfold nx; lia).
        destruct (block_tags _ _ _ _ _ _ Hb3 Hin2 HnT) as (T1 & _).
        cbn [mem set_mem] in T1. rewrite T1. rewrite tag_size by assumption.
        rewrite padd_small by lia. reflexivity. }
    unfold ret. simp_state.
    exists (retag m3 nx delta true), ls3, asize, [(nx, delta, true)].
    split; [reflexivity|].
    split; [|split; [lia|split; [assumption|split; [right; reflexivity|]]]].
    + split; [|apply coalesced_cut; rewrite <- E; exact Hco].
      cbn [app]. fold bs2.
      replace (set_mem s (retag m3 nx delta true))
        with (set_mem (set_mem s m3) (retag (mem (set_mem s m3)) nx delta true))
        by (simp_state; reflexivity).
      apply (core_retag _ bs2 ls3 [] [nx] _ [] []); auto.
      * intros b z f Hbin Hne _. split; [exact Hbin|]. intros [Heq|[]]. congruence.
    + eapply confined_trans; [exact Fr1'|].
      apply (confined_trans _ m2); [|apply (confined_trans _ m3)].
      * eapply confined_weaken; [|apply confined_retag].
        intros x Hx. right; left. exists bp, bsz. split; [exact Hin|].
        unfold word in Hx. lia.
      * eapply confined_weaken; [|exact Fr3].
        intros x [Hx|(q & z & Hq & Hx)]; [left; exact Hx|].
        right; left. unfold bs2 in Hq. apply in_app_or in Hq.
        destruct Hq as [Hq|[Heq|[Heq|Hq]]].
        -- assert (Hq' : In (q, z, true) bs) by (rewrite E; in_all).
           destruct (block_facts _ _ _ _ _ _ Hb Hq') as (_ & _ & ? & _).
           exists q, z. split; [exact Hq'|lia].
        -- discriminate.
        -- inversion Heq; subst q z. exists bp, bsz. split; [exact Hin|].
           unfold nx, delta in *. lia.
        -- assert (Hq' : In (q, z, true) bs) by (rewrite E; in_all).
           destruct (block_facts _ _ _ _ _ _ Hb Hq') as (_ & _ & ? & _).
           exists q, z. split; [exact Hq'|lia].
      * eapply confined_weaken; [|apply confined_retag].
        intros x Hx. right; left. exists bp, bsz. split; [exact Hin|].
        unfold word, nx, delta in Hx. lia.
Qed.

(** ** Merging *)

Lemma set_mem_same s : set_mem s (mem s) = s.
Proof. destruct s. reflexivity. Qed.

(** The blocks of a layout cover it, tags included. *)
Lemma laid_cover bs : forall q e x,
  laid q bs e -> q - 4 <= x < e - 4 ->
  exists b z f, In (b, z, f) bs /\ b - 4 <= x < b + z - 4.
Proof.
  induction bs as [|[[a sz] fr] bs IH]; intros q e x Hl Hx; cbn [laid] in Hl.
  - lia.
  - destruct Hl as (-> & H16 & H8 & Hl).
    destruct (Z_lt_dec x (q + sz - 4)) as [Hlt|Hge].
    + exists q, sz, fr. split; [left; reflexivity|lia].
    + destruct (IH _ _ x Hl ltac:(lia)) as (b & z & f & Hin & Hb).
      exists b, z, f. split; [right; exact Hin|exact Hb].
Qed.

Lemma laid_end_unique bs : forall q e e', laid q bs e -> laid q bs e' -> e = e'.
Proof.
  induction bs as [|[[a sz] fr] bs IH]; intros q e e' H1 H2; cbn [laid] in *.
  - congruence.
  - destruct H1 as (_ & _ & _ & H1). destruct H2 as (_ & _ & _ & H2).
    eapply IH; eauto.
Qed.

Lemma laid_span q bs e :
  laid q bs e -> bs <> [] -> q mod 8 = 0 -> 16 <= e - q /\ (e - q) mod 8 = 0.
Proof.
  intros Hl Hne Hq. split.
  - destruct bs as [|[[a sz] fr] bs']; [contradiction|].
    cbn [laid] in Hl. destruct Hl as (-> & ? & ? & Hl). apply laid_le in Hl. lia.
  - pose proof (laid_end_mod8 _ _ _ Hq Hl) as He.
    rewrite Zminus_mod, He, Hq. reflexivity.
Qed.

Lemma laid_join q pre mid post e a z :
  laid q (pre ++ mid ++ post) e -> laid a mid (a + z) -> mid <> [] -> q mod 8 = 0 ->
  laid q pre a /\ laid (a + z) post e /\ 16 <= z /\ z mod 8 = 0 /\
  laid q (pre ++ (a, z, true) :: post) e.
Proof.
  intros Hl Hm Hne Hq.
  apply laid_app in Hl. destruct Hl as (x1 & L1 & Hl).
  apply laid_app in Hl. destruct Hl as (x2 & L2 & L3).
  assert (E1 : x1 = a).
  { destruct mid as [|[[b sz] fr] mid']; [contradiction|].
    cbn [laid] in L2, Hm. destruct L2 as (? & _). destruct Hm as (? & _). congruence. }
  subst x1.
  assert (E2 : x2 = a + z) by (eapply laid_end_unique; eauto).
  subst x2.
  assert (Ha : a mod 8 = 0) by (eapply laid_end_mod8; eauto).
  destruct (laid_span _ _ _ Hm Hne Ha) as (S1 & S2).
  replace (a + z - a) with z in * by lia.
  split; [exact L1|]. split; [exact L3|]. split; [exact S1|]. split; [exact S2|].
  apply laid_app. exists a. split; [exact L1|]. cbn [laid]. auto.
Qed.

(** A run of unlisted free blocks becomes one block. *)
Lemma core_merge s ls U pre mid post a z :
  core s (pre ++ mid ++ post) ls U [] ->
  mid <> [] -> laid a mid (a + z) ->
  (forall q, In q U <-> exists zq fq, In (q, zq, fq) mid) ->
  core (set_mem s (retag (mem s) a z true)) (pre ++ (a, z, true) :: post) ls [a] [].
Proof.
  intros Hcore Hne Hm HU.
  pose proof Hcore as (Hb & Hl).
  pose proof Hb as (Hg & _ & Hlaid & _).
  pose proof Hg as (Hr & G8 & Gseg & Ghl & G56 & Gcap).
  assert (H56 : (mem_start_brk s + 56) mod 8 = 0)
    by (rewrite Z.add_mod by lia; rewrite G8; reflexivity).
  destruct (laid_join _ _ _ _ _ _ _ Hlaid Hm Hne H56) as (L1 & L3 & Z16 & Z8 & Hlaid').
  apply (core_retag _ (pre ++ mid ++ post) ls U []); auto.
  - in_all.
  - intros b zb f Hbin Hba _. split; [|apply not_in_nil].
    apply in_app_or in Hbin. destruct Hbin as [?|[Heq|?]]; [in_all| |in_all].
    inversion Heq; subst; contradiction.
  - intros q zq Hq NU.
    assert (Hnm : ~ In (q, zq, true) mid) by (intros Hc; apply NU, HU; eauto).
    apply in_app_or in Hq. destruct Hq as [Hq|Hq].
    + split; [in_all|]. intros [<-|[]].
      destruct (laid_in _ _ _ _ _ _ L1 Hq) as (_ & ? & ? & _). lia.
    + apply in_app_or in Hq. destruct Hq as [Hq|Hq]; [contradiction|].
      split; [in_all|]. intros [<-|[]].
      destruct (laid_in _ _ _ _ _ _ L3 Hq) as (? & _). lia.
  - intros q zq Hq NU.
    assert (Hqa : q <> a) by (intros ->; apply NU; left; reflexivity).
    apply in_app_or in Hq. destruct Hq as [Hq|[Heq|Hq]].
    + split; [in_all|]. intros HqU. apply HU in HqU. destruct HqU as (z' & f' & Hq').
      destruct (laid_in _ _ _ _ _ _ L1 Hq) as (_ & ? & ? & _).
      destruct (laid_in _ _ _ _ _ _ Hm Hq') as (? & _). lia.
    + inversion Heq; subst; contradiction.
    + split; [in_all|]. intros HqU. apply HU in HqU. destruct HqU as (z' & f' & Hq').
      destruct (laid_in _ _ _ _ _ _ L3 Hq) as (? & _).
      destruct (laid_in _ _ _ _ _ _ Hm Hq') as (_ & ? & ? & _). lia.
Qed.

(** After a merge the free area has not grown. *)
Lemma free_area_merge s bs T pre mid post a z x :
  blocks_ok s bs T -> bs = pre ++ mid ++ post ->
  laid a mid (a + z) -> (forall b, In b mid -> is_free b = true) ->
  free_area s (pre ++ (a, z, true) :: post) x -> free_area s bs x.
Proof.
  intros Hb E Hm Hfree [H|[(q & zq & Hq & Hx)|H]]; [left; exact H| |right; right; exact H].
  right; left. apply in_app_or in Hq. destruct Hq as [Hq|[Heq|Hq]].
  - exists q, zq. split; [rewrite E; in_all|exact Hx].
  - inversion Heq; subst q zq.
    destruct (laid_cover _ _ _ x Hm ltac:(lia)) as (b & zb & f & Hin & Hbx).
    pose proof (Hfree _ Hin) as Hf. cbn in Hf. subst f.
    exists b, zb. split; [rewrite E; in_all|exact Hbx].
  - exists q, zq. split; [rewrite E; in_all|exact Hx].
Qed.

Lemma confined_retag_merge s bs T pre mid post a z m :
  blocks_ok s bs T -> bs = pre ++ mid ++ post -> mid <> [] ->
  laid a mid (a + z) -> (forall b, In b mid -> is_free b = true) ->
  confined m (retag m a z true) (free_area s bs).
Proof.
  intros Hb E Hne Hm Hfree.
  eapply confined_weaken; [|apply confined_retag].
  intros x Hx.
  pose proof Hb as ((_ & G8 & _) & _ & Hlaid & _).
  assert (H56 : (mem_start_brk s + 56) mod 8 = 0)
    by (rewrite Z.add_mod by lia; rewrite G8; reflexivity).
  rewrite E in Hlaid.
  destruct (laid_join _ _ _ _ _ _ _ Hlaid Hm Hne H56) as (_ & _ & Z16 & _).
  apply (free_area_merge s bs T pre mid post a z x Hb E Hm Hfree).
  right; left. exists a, z. split; [in_all|]. unfold word in Hx. lia.
Qed.

Lemma prev_blk s bs T pre pv z f a sz fr post :
  blocks_ok s bs T -> bs = pre ++ (pv, z, f) :: (a, sz, fr) :: post -> ~ In pv T ->
  PREV_BLKP a s = Ret pv s /\ pv + z = a.
Proof.
  intros Hb E HT.
  assert (Hp : In (pv, z, f) bs) by (rewrite E; in_all).
  assert (Hin : In (a, sz, fr) bs) by (rewrite E; in_all).
  destruct (block_facts _ _ _ _ _ _ Hb Hin) as (F1 & F2 & F3 & F4 & F5 & F6 & F7 & F8).
  destruct (block_addr _ _ _ Hb _ _ _ Hin) as (A1 & A2).
  destruct (block_facts _ _ _ _ _ _ Hb Hp) as (P1 & P2 & P3 & P4 & P5 & P6 & P7 & P8).
  destruct (block_tags _ _ _ _ _ _ Hb Hp HT) as (T1 & T2 & T3).
  pose proof Hb as (Hg & _ & Hl & _).
  rewrite E in Hl. apply laid_mid in Hl. destruct Hl as (_ & L2 & _).
  cbn [laid] in L2. destruct L2 as (Ea & _).
  destruct Hg as ((R0 & _) & _).
  split; [|lia].
  assert (Ep : padd a (- DSIZE) = a - 8) by (unfold DSIZE; rewrite padd_small by lia; lia).
  unfold PREV_BLKP. rewrite Ep.
  assert (G : GET_SIZE (a - 8) s = Ret z s).
  { rewrite GET_SIZE_run by lia. replace (a - 8) with (pv + z - 8) by lia.
    rewrite T2, tag_size by assumption. reflexivity. }
  rewrite (run_bind _ _ _ _ _ G). unfold ret. rewrite padd_small by lia.
  f_equal; lia.
Qed.

(** The end of every merging branch of [coalesce]. *)
Lemma merge_finish fuel s ls U pre mid post a z :
  core s (pre ++ mid ++ post) ls U [] ->
  mid <> [] -> laid a mid (a + z) ->
  (forall b, In b mid -> is_free b = true) ->
  (forall q, In q U <-> exists zq fq, In (q, zq, fq) mid) ->
  (length (pre ++ mid ++ post) < fuel)%nat ->
  exists m' ls',
    (PUT (HDRP a) (PACK z 0) ;;
     ft <- FTRP a ;; PUT ft (PACK z 0) ;;
     add_to_list fuel a z ;; ret a) s = Ret a (set_mem s m') /\
    core (set_mem s m') (pre ++ (a, z, true) :: post) ls' [] [] /\
    confined (mem s) m' (free_area s (pre ++ mid ++ post)).
Proof.
  intros Hcore Hne Hm Hfree HU Hfuel.
  pose proof Hcore as (Hb & Hl).
  pose proof Hb as (Hg & _ & Hlaid & _).
  pose proof Hg as (Hr & G8 & Gseg & Ghl & G56 & Gcap).
  pose proof (core_merge _ _ _ _ _ _ _ _ Hcore Hne Hm HU) as C1.
  pose proof C1 as (Hb1 & _). pose proof Hb1 as (_ & _ & Hlaid1 & _).
  cbn [mem_start_brk mem_brk set_mem] in Hlaid1.
  assert (Hin : In (a, z, true) (pre ++ (a, z, true) :: post)) by in_all.
  destruct (laid_in _ _ _ _ _ _ Hlaid1 Hin) as (A1 & A2 & A3 & A4).
  destruct Hr as (R0 & R1 & R2 & R3).
  rewrite (put_tags_run _ a z true);
    [|repeat split; lia|lia|lia|lia|lia|lia|apply u_32_PACK_free; lia].
  destruct (core_add fuel _ _ _ [] [] a z C1 Hin (not_in_nil a)) as (m2 & ls2 & R & C2 & Fr2).
  { intros q []. }
  { rewrite !length_app in *. cbn [length].
    assert (0 < length mid)%nat by (destruct mid; [contradiction|cbn; lia]). lia. }
  rewrite (run_bind _ _ _ _ _ R). unfold ret. simp_state. simp_state_in C2.
  exists m2, ls2. split; [reflexivity|]. split; [exact C2|].
  apply (confined_trans _ (retag (mem s) a z true)).
  - eapply (confined_retag_merge s _ []); eauto.
  - eapply confined_weaken; [|exact Fr2].
    intros x Hx. apply (links_in_free_area _ _ _ _ Hb1) in Hx.
    eapply (free_area_merge s _ [] pre mid post a z); eauto.
Qed.

(** ** Coalescing *)

Lemma head_free_cons post :
  head_free post = true -> exists n z post', post = (n, z, true) :: post'.
Proof.
  destruct post as [|[[n z] f] post']; cbn; [discriminate|].
  intros ->. eauto.
Qed.

Lemma last_free_snoc_inv pre :
  last_free pre = true -> exists pre' p z, pre = pre' ++ [(p, z, true)].
Proof.
  destruct (nil_or_last pre) as [->|(pre' & [[p z] f] & ->)]; [discriminate|].
  rewrite last_free_snoc. cbn. intros ->. eauto.
Qed.

Section Coalesce.
Variables (fuel : nat) (s : state) (bs : list block) (ls : Z -> list (Z * Z)).
Variables (pre post : list block) (bp sz : Z).
Hypothesis Hcore : core s bs ls [] [].
Hypothesis E : bs = pre ++ (bp, sz, true) :: post.
Hypothesis Hco : coalesced (pre ++ (bp, sz, false) :: post).
Hypothesis Hfuel : (length bs < fuel)%nat.

Lemma coalesce_none :
  last_free pre = false -> head_free post = false -> coalesce_post fuel s bs bp sz.
Proof.
  intros Epf Enf.
  assert (Hin : In (bp, sz, true) bs) by (rewrite E; in_all).
  pose proof Hcore as (Hb & Hl).
  destruct (hdr_run _ _ _ Hb _ _ _ Hin (not_in_nil bp)) as (G1 & _).
  destruct (prev_run _ _ _ Hb _ _ _ _ _ E (fun b z f _ => not_in_nil b)) as (pv & P1 & P2 & _).
  destruct (next_run _ _ _ Hb _ _ _ _ _ E (not_in_nil bp) (fun b z f _ => not_in_nil b))
    as (N1 & N2 & _).
  exists (mem s), ls, bs, bp, sz.
  split.
  { unfold coalesce.
    rewrite (run_bind _ _ _ _ _ P1), (run_bind _ _ _ _ _ P2).
    rewrite (run_bind _ _ _ _ _ N1), (run_bind _ _ _ _ _ N2).
    rewrite (run_bind _ _ _ _ _ G1).
    rewrite Epf, Enf. change (1 =? 0) with false. cbn [negb andb].
    rewrite set_mem_same. reflexivity. }
  rewrite set_mem_same.
  split.
  { split; [exact Hcore|]. rewrite E. revert Hco. rewrite !coalesced_app.
    cbn [coalesced head_free is_free snd]. rewrite Epf, Enf.
    intros (H1 & (H2 & H3) & H4). repeat split; auto; discriminate. }
  split; [exact Hin|]. split; [lia|]. split; [auto|]. split; [lia|]. split; [auto|].
  apply confined_refl.
Qed.

Lemma coalesce_next :
  last_free pre = false -> head_free post = true -> coalesce_post fuel s bs bp sz.
Proof.
  intros Epf Enf.
  assert (Hin : In (bp, sz, true) bs) by (rewrite E; in_all).
  pose proof Hcore as (Hb & Hl).
  pose proof Hb as (Hg & _ & Hlaid & _).
  destruct (hdr_run _ _ _ Hb _ _ _ Hin (not_in_nil bp)) as (G1 & _).
  destruct (prev_run _ _ _ Hb _ _ _ _ _ E (fun b z f _ => not_in_nil b)) as (pv & P1 & P2 & _).
  destruct (next_run _ _ _ Hb _ _ _ _ _ E (not_in_nil bp) (fun b z f _ => not_in_nil b))
    as (N1 & N2 & _).
  destruct (head_free_cons _ Enf) as (nx & nsz & post' & Epost).
  assert (Enx : nx = bp + sz).
  { rewrite E, Epost in Hlaid. apply laid_mid in Hlaid. destruct Hlaid as (_ & L & _).
    cbn [laid] in L. lia. }
  assert (Hnx : In (nx, nsz, true) bs) by (rewrite E, Epost; in_all).
  destruct (hdr_run _ _ _ Hb _ _ _ Hnx (not_in_nil nx)) as (G2 & _).
  destruct (block_facts _ _ _ _ _ _ Hb Hin) as (F1 & F2 & F3 & F4 & F5 & F6 & F7 & F8).
  destruct (block_facts _ _ _ _ _ _ Hb Hnx) as (X1 & X2 & X3 & X4 & X5 & X6 & X7 & X8).
  destruct (block_addr _ _ _ Hb _ _ _ Hnx) as (A1 & A2).
  (* the two removals *)
  destruct (core_remove _ _ _ _ _ _ _ Hcore Hin (not_in_nil bp))
    as (m1 & ls1 & R1 & C1 & Fr1).
  pose proof C1 as (Hb1 & _).
  destruct (hdr_run _ _ _ Hb1 _ _ _ Hin (not_in_nil bp)) as (_ & _ & _ & N1').
  assert (Hnb : ~ In nx [bp]) by (intros [?|[]]; lia).
  destruct (core_remove _ _ _ _ _ _ _ C1 Hnx Hnb) as (m2 & ls2 & R2 & C2 & Fr2).
  simp_state_in R2. simp_state_in C2. simp_state_in Fr2.
  assert (Ebs : bs = pre ++ [(bp, sz, true); (nx, nsz, true)] ++ post')
    by (rewrite E, Epost; reflexivity).
  rewrite Ebs in C2, Hfuel.
  destruct (merge_finish fuel _ _ _ pre [(bp, sz, true); (nx, nsz, true)] post' bp (sz + nsz) C2)
    as (m3 & ls3 & R3 & C3 & Fr3); auto.
  { discriminate. }
  { cbn [laid]. repeat split; auto; lia. }
  { intros b [<-|[<-|[]]]; reflexivity. }
  { intros q. split.
    - intros [<-|[<-|[]]]; eauto 6 with datatypes.
    - intros (zq & fq & [Heq|[Heq|[]]]); inversion Heq; subst; in_all. }
  simp_state_in R3. simp_state_in C3. simp_state_in Fr3.
  assert (Fr3' : confined m2 m3 (free_area s bs))
    by (eapply confined_weaken; [|exact Fr3]; intros x Hx; rewrite Ebs; exact Hx).
  exists m3, ls3, (pre ++ (bp, sz + nsz, true) :: post'), bp, (sz + nsz).
  split.
  { unfold coalesce.
    rewrite (run_bind _ _ _ _ _ P1), (run_bind _ _ _ _ _ P2).
    rewrite (run_bind _ _ _ _ _ N1), (run_bind _ _ _ _ _ N2).
    rewrite (run_bind _ _ _ _ _ G1).
    rewrite Epf, Enf. change (1 =? 0) with false. change (0 =? 0) with true.
    cbn [negb andb].
    rewrite (run_bind _ _ _ _ _ N1). rewrite <- Enx. rewrite (run_bind _ _ _ _ _ G2).
    rewrite (run_bind _ _ _ _ _ R1). rewrite (run_bind _ _ _ _ _ N1'). rewrite <- Enx.
    rewrite (run_bind _ _ _ _ _ R2). cbv zeta.
    rewrite (size_t_small (sz + nsz)) by lia.
    exact R3. }
  split.
  { split; [exact C3|]. revert Hco. rewrite Epost. rewrite !coalesced_app.
    cbn [coalesced head_free is_free snd]. rewrite Epf.
    intros (H1 & (H2 & H3 & H4) & H5). repeat split; auto; discriminate. }
  split; [in_all|]. split; [lia|]. split.
  { intros b zb Hbz. rewrite Ebs in Hbz. apply in_app_or in Hbz.
    destruct Hbz as [?|[Heq|[Heq|?]]]; [in_all|discriminate|discriminate|in_all]. }
  split.
  { rewrite Ebs, !length_app. cbn [length app]. unfold block. lia. }
  split.
  { intros x Hx. eapply (free_area_merge s bs [] pre _ post' bp (sz + nsz)); eauto.
    - cbn [laid]. repeat split; auto; lia.
    - intros b [<-|[<-|[]]]; reflexivity. }
  assert (Fr1' : confined (mem s) m1 (free_area s bs)).
  { eapply confined_weaken; [|exact Fr1]. intros x. apply (links_in_free_area _ _ _ _ Hb). }
  assert (Fr2' : confined m1 m2 (free_area s bs)).
  { eapply confined_weaken; [|exact Fr2]. intros x. apply (links_in_free_area _ _ _ _ Hb). }
  eauto using confined_trans.
Qed.

Lemma coalesce_prev :
  last_free pre = true -> head_free post = false -> coalesce_post fuel s bs bp sz.
Proof.
  intros Epf Enf.
  assert (Hin : In (bp, sz, true) bs) by (rewrite E; in_all).
  pose proof Hcore as (Hb & Hl).
  pose proof Hb as (Hg & _ & Hlaid & _).
  destruct (hdr_run _ _ _ Hb _ _ _ Hin (not_in_nil bp)) as (G1 & _).
  destruct (next_run _ _ _ Hb _ _ _ _ _ E (not_in_nil bp) (fun b z f _ => not_in_nil b))
    as (N1 & N2 & _).
  destruct (last_free_snoc_inv _ Epf) as (pre' & pv & psz & Epre).
  assert (Ebs' : bs = pre' ++ (pv, psz, true) :: (bp, sz, true) :: post)
    by (rewrite E, Epre, <- app_assoc; reflexivity).
  assert (Hpv : In (pv, psz, true) bs) by (rewrite Ebs'; in_all).
  destruct (prev_blk _ _ _ _ _ _ _ _ _ _ _ Hb Ebs' (not_in_nil pv)) as (P1 & Epv).
  destruct (hdr_run _ _ _ Hb _ _ _ Hpv (not_in_nil pv)) as (G2 & P2 & _).
  destruct (block_facts _ _ _ _ _ _ Hb Hin) as (F1 & F2 & F3 & F4 & F5 & F6 & F7 & F8).
  destruct (block_facts _ _ _ _ _ _ Hb Hpv) as (X1 & X2 & X3 & X4 & X5 & X6 & X7 & X8).
  destruct (block_addr _ _ _ Hb _ _ _ Hin) as (A1 & A2).
  (* the two removals *)
  destruct (core_remove _ _ _ _ _ _ _ Hcore Hin (not_in_nil bp))
    as (m1 & ls1 & R1 & C1 & Fr1).
  pose proof C1 as (Hb1 & _).
  destruct (prev_blk _ _ _ _ _ _ _ _ _ _ _ Hb1 Ebs' (not_in_nil pv)) as (P1' & _).
  assert (Hnb : ~ In pv [bp]) by (intros [?|[]]; lia).
  destruct (core_remove _ _ _ _ _ _ _ C1 Hpv Hnb) as (m2 & ls2 & R2 & C2 & Fr2).
  simp_state_in R2. simp_state_in C2. simp_state_in Fr2.
  pose proof C2 as (Hb2 & _).
  destruct (prev_blk _ _ _ _ _ _ _ _ _ _ _ Hb2 Ebs' (not_in_nil pv)) as (P1'' & _).
  assert (Ebs : bs = pre' ++ [(pv, psz, true); (bp, sz, true)] ++ post)
    by (rewrite Ebs'; reflexivity).
  rewrite Ebs in C2, Hfuel.
  destruct (merge_finish fuel _ _ _ pre' [(pv, psz, true); (bp, sz, true)] post pv (sz + psz) C2)
    as (m3 & ls3 & R3 & C3 & Fr3); auto.
  { discriminate. }
  { cbn [laid]. repeat split; auto; lia. }
  { intros b [<-|[<-|[]]]; reflexivity. }
  { intros q. split.
    - intros [<-|[<-|[]]]; eauto 6 with datatypes.
    - intros (zq & fq & [Heq|[Heq|[]]]); inversion Heq; subst; in_all. }
  simp_state_in R3. simp_state_in C3. simp_state_in Fr3.
  assert (Fr3' : confined m2 m3 (free_area s bs))
    by (eapply confined_weaken; [|exact Fr3]; intros x Hx; rewrite Ebs; exact Hx).
  exists m3, ls3, (pre' ++ (pv, sz + psz, true) :: post), pv, (sz + psz).
  split.
  { unfold coalesce.
    rewrite (run_bind _ _ _ _ _ P1), (run_bind _ _ _ _ _ P2).
    rewrite (run_bind _ _ _ _ _ N1), (run_bind _ _ _ _ _ N2).
    rewrite (run_bind _ _ _ _ _ G1).
    rewrite Enf. change (1 =? 0) with false. change (0 =? 0) with true.
    cbn [negb andb].
    rewrite (run_bind _ _ _ _ _ P1). rewrite (run_bind _ _ _ _ _ G2).
    rewrite (run_bind _ _ _ _ _ R1). rewrite (run_bind _ _ _ _ _ P1').
    rewrite (run_bind _ _ _ _ _ R2). cbv zeta.
    rewrite (size_t_small (sz + psz)) by lia.
    rewrite (run_bind _ _ _ _ _ P1'').
    exact R3. }
  split.
  { split; [exact C3|]. revert Hco. rewrite Epre. rewrite !coalesced_app.
    cbn [coalesced head_free is_free snd]. rewrite Enf.
    intros ((H1 & H2 & H3) & (H4 & H5) & H6). repeat split; auto. }
  split; [in_all|]. split; [lia|]. split.
  { intros b zb Hbz. rewrite Ebs in Hbz. apply in_app_or in Hbz.
    destruct Hbz as [?|[Heq|[Heq|?]]]; [in_all|discriminate|discriminate|in_all]. }
  split.
  { rewrite Ebs, !length_app. cbn [length app]. unfold block. lia. }
  split.
  { intros x Hx. eapply (free_area_merge s bs [] pre' _ post pv (sz + psz)); eauto.
    - cbn [laid]. repeat split; auto; lia.
    - intros b [<-|[<-|[]]]; reflexivity. }
  assert (Fr1' : confined (mem s) m1 (free_area s bs)).
  { eapply confined_weaken; [|exact Fr1]. intros x. apply (links_in_free_area _ _ _ _ Hb). }
  assert (Fr2' : confined m1 m2 (free_area s bs)).
  { eapply confined_weaken; [|exact Fr2]. intros x. apply (links_in_free_area _ _ _ _ Hb). }
  eauto using confined_trans.
Qed.

Lemma coalesce_both :
  last_free pre = true -> head_free post = true -> coalesce_post fuel s bs bp sz.
Proof.
  intros Epf Enf.
  assert (Hin : In (bp, sz, true) bs) by (rewrite E; in_all).
  pose proof Hcore as (Hb & Hl).
  pose proof Hb as (Hg & _ & Hlaid & _).
  destruct (hdr_run _ _ _ Hb _ _ _ Hin (not_in_nil bp)) as (G1 & _ & _ & N1).
  destruct (head_free_cons _ Enf) as (nx & nsz & post' & Epost).
  assert (Enx : nx = bp + sz).
  { rewrite E, Epost in Hlaid. apply laid_mid in Hlaid. destruct Hlaid as (_ & L & _).
    cbn [laid] in L. lia. }
  assert (Hnx : In (nx, nsz, true) bs) by (rewrite E, Epost; in_all).
  destruct (hdr_run _ _ _ Hb _ _ _ Hnx (not_in_nil nx)) as (G3 & N2 & _).
  destruct (last_free_snoc_inv _ Epf) as (pre' & pv & psz & Epre).
  assert (Ebs' : bs = pre' ++ (pv, psz, true) :: (bp, sz, true) :: post)
    by (rewrite E, Epre, <- app_assoc; reflexivity).
  assert (Hpv : In (pv, psz, true) bs) by (rewrite Ebs'; in_all).
  destruct (prev_blk _ _ _ _ _ _ _ _ _ _ _ Hb Ebs' (not_in_nil pv)) as (P1 & Epv).
  destruct (hdr_run _ _ _ Hb _ _ _ Hpv (not_in_nil pv)) as (G2 & P2 & _).
  destruct (block_facts _ _ _ _ _ _ Hb Hin) as (F1 & F2 & F3 & F4 & F5 & F6 & F7 & F8).
  destruct (block_facts _ _ _ _ _ _ Hb Hpv) as (X1 & X2 & X3 & X4 & X5 & X6 & X7 & X8).
  destruct (block_facts _ _ _ _ _ _ Hb Hnx) as (Y1 & Y2 & Y3 & Y4 & Y5 & Y6 & Y7 & Y8).
  destruct (block_addr _ _ _ Hb _ _ _ Hnx) as (A1 & A2).
  (* the three removals *)
  destruct (core_remove _ _ _ _ _ _ _ Hcore Hin (not_in_nil bp))
    as (m1 & ls1 & R1 & C1 & Fr1).
  pose proof C1 as (Hb1 & _).
  destruct (prev_blk _ _ _ _ _ _ _ _ _ _ _ Hb1 Ebs' (not_in_nil pv)) as (P1' & _).
  assert (Hnb : ~ In pv [bp]) by (intros [?|[]]; lia).
  destruct (core_remove _ _ _ _ _ _ _ C1 Hpv Hnb) as (m2 & ls2 & R2 & C2 & Fr2).
  simp_state_in R2. simp_state_in C2. simp_state_in Fr2.
  pose proof C2 as (Hb2 & _).
  destruct (hdr_run _ _ _ Hb2 _ _ _ Hin (not_in_nil bp)) as (_ & _ & _ & N1').
  assert (Hnb2 : ~ In nx [pv; bp]) by (intros [?|[?|[]]]; lia).
  destruct (core_remove _ _ _ _ _ _ _ C2 Hnx Hnb2) as (m3 & ls3 & R3 & C3 & Fr3).
  simp_state_in R3. simp_state_in C3. simp_state_in Fr3.
  pose proof C3 as (Hb3 & _).
  destruct (prev_blk _ _ _ _ _ _ _ _ _ _ _ Hb3 Ebs' (not_in_nil pv)) as (P1'' & _).
  assert (Ebs : bs = pre' ++ [(pv, psz, true); (bp, sz, true); (nx, nsz, true)] ++ post')
    by (rewrite Ebs', Epost; reflexivity).
  rewrite Ebs in C3, Hfuel.
  destruct (merge_finish fuel _ _ _ pre' [(pv, psz, true); (bp, sz, true); (nx, nsz, true)]
              post' pv (sz + (nsz + psz)) C3)
    as (m4 & ls4 & R4 & C4 & Fr4); auto.
  { discriminate. }
  { cbn [laid]. repeat split; auto; lia. }
  { intros b [<-|[<-|[<-|[]]]]; reflexivity. }
  { intros q. split.
    - intros [<-|[<-|[<-|[]]]]; eauto 7 with datatypes.
    - intros (zq & fq & [Heq|[Heq|[Heq|[]]]]); inversion Heq; subst; in_all. }
  simp_state_in R4. simp_state_in C4. simp_state_in Fr4.
  assert (Fr4' : confined m3 m4 (free_area s bs))
    by (eapply confined_weaken; [|exact Fr4]; intros x Hx; rewrite Ebs; exact Hx).
  exists m4, ls4, (pre' ++ (pv, sz + (nsz + psz), true) :: post'), pv, (sz + (nsz + psz)).
  split.
  { unfold coalesce.
    rewrite (run_bind _ _ _ _ _ P1), (run_bind _ _ _ _ _ P2).
    rewrite (run_bind _ _ _ _ _ N1). rewrite <- Enx. rewrite (run_bind _ _ _ _ _ N2).
    rewrite (run_bind _ _ _ _ _ G1).
    change (0 =? 0) with true. cbn [negb andb].
    rewrite (run_bind _ _ _ _ _ N1). rewrite <- Enx. rewrite (run_bind _ _ _ _ _ G3).
    rewrite (run_bind _ _ _ _ _ P1). rewrite (run_bind _ _ _ _ _ G2).
    rewrite (run_bind _ _ _ _ _ R1). rewrite (run_bind _ _ _ _ _ P1').
    rewrite (run_bind _ _ _ _ _ R2). rewrite (run_bind _ _ _ _ _ N1'). rewrite <- Enx.
    rewrite (run_bind _ _ _ _ _ R3). cbv zeta.
    rewrite (size_t_small (nsz + psz)) by lia.
    rewrite (size_t_small (sz + (nsz + psz))) by lia.
    rewrite (run_bind _ _ _ _ _ P1'').
    exact R4. }
  split.
  { split; [exact C4|]. revert Hco. rewrite Epre, Epost. rewrite !coalesced_app.
    cbn [coalesced head_free is_free snd].
    intros ((H1 & H2 & H3) & (H4 & H5 & H6) & H7). repeat split; auto. }
  split; [in_all|]. split; [lia|]. split.
  { intros b zb Hbz. rewrite Ebs in Hbz. apply in_app_or in Hbz.
    destruct Hbz as [?|[Heq|[Heq|[Heq|?]]]];
      [in_all|discriminate|discriminate|discriminate|in_all]. }
  split.
  { rewrite Ebs, !length_app. cbn [length app]. unfold block. lia. }
  split.
  { intros x Hx.
    eapply (free_area_merge s bs [] pre' _ post' pv (sz + (nsz + psz))); eauto.
    - cbn [laid]. repeat split; auto; lia.
    - intros b [<-|[<-|[<-|[]]]]; reflexivity. }
  assert (Fr1' : confined (mem s) m1 (free_area s bs)).
  { eapply confined_weaken; [|exact Fr1]. intros x. apply (links_in_free_area _ _ _ _ Hb). }
  assert (Fr2' : confined m1 m2 (free_area s bs)).
  { eapply confined_weaken; [|exact Fr2]. intros x. apply (links_in_free_area _ _ _ _ Hb). }
  assert (Fr3' : confined m2 m3 (free_area s bs)).
  { eapply confined_weaken; [|exact Fr3]. intros x. apply (links_in_free_area _ _ _ _ Hb). }
  eauto using confined_trans.
Qed.

(** [coalesce] on a listed free block whose neighbours are the only
    possible violation of the invariant. *)
Lemma coalesce_spec : coalesce_post fuel s bs bp sz.
Proof.
  destruct (last_free pre) eqn:Epf; destruct (head_free post) eqn:Enf.
  - apply coalesce_both; assumption.
  - apply coalesce_prev; assumption.
  - apply coalesce_next; assumption.
  - apply coalesce_none; assumption.
Qed.
End Coalesce.

(** ** Growth *)

(** The invariant does not look at the count of growth requests. *)
Lemma core_regs s s' bs ls U T :
  mem s' = mem s -> mem_start_brk s' = mem_start_brk s -> mem_brk s' = mem_brk s ->
  mem_max_addr s' = mem_max_addr s -> heap_listp s' = heap_listp s ->
  seg_lists s' = seg_lists s ->
  core s bs ls U T -> core s' bs ls U T.
Proof.
  intros E1 E2 E3 E4 E5 E6 (Hb & Hl). split.
  - unfold blocks_ok, geometry, sentinels, region_ok in *.
    rewrite E1, E2, E3, E4, E5, E6. exact Hb.
  - eapply lists_reshape; [exact Hl| | | |auto|auto].
    + unfold grown. rewrite E2, E3, E5, E6. repeat split; lia.
    + intros. rewrite E1. reflexivity.
    + intros. rewrite E1. auto.
Qed.

Lemma heap_ok_refused s bs ls : heap_ok s bs ls -> heap_ok (refused s) bs ls.
Proof.
  intros (Hc & Hco). split; [|exact Hco].
  apply (core_regs s); auto.
Qed.

Lemma coalesced_snoc bs b : coalesced bs -> is_free b = false -> coalesced (bs ++ [b]).
Proof.
  intros H Hb. apply coalesced_app. split; [exact H|]. split.
  - cbn [coalesced head_free]. split; [|exact I]. auto.
  - intros _. exact Hb.
Qed.

(** The heap right after the new block and the epilogue are written. *)
Lemma core_extend s bs ls size :
  core s bs ls [] [] -> 16 <= size -> size mod 8 = 0 ->
  mem_brk s + size <= mem_max_addr s ->
  core (set_mem (granted s size) (extend_mem s size))
       (bs ++ [(mem_brk s, size, true)]) ls [mem_brk s] [].
Proof.
  intros (Hb & Hl) H16 H8 Hroom.
  pose proof Hb as (Hg & (S1 & S2 & S3) & Hlaid & Ht).
  pose proof Hg as ((R0 & R1 & R2 & R3) & G8 & Gseg & Ghl & G56 & Gcap).
  assert (Htr : 0 <= tag size true < 2 ^ 32) by (apply tag_range; lia).
  split.
  - split; [|split; [|split]].
    + unfold geometry, region_ok. cbn [granted set_mem mem_start_brk mem_brk mem_max_addr
        heap_listp seg_lists]. repeat split; auto; lia.
    + unfold sentinels, extend_mem.
      cbn [granted set_mem mem mem_start_brk mem_brk].
      rewrite !get32_set32_other by lia. rewrite !get32_retag_other by lia.
      split; [exact S1|]. split; [exact S2|].
      replace (mem_brk s + size - 4) with (mem_brk s + size - 4) by lia.
      rewrite get32_set32_same. reflexivity.
    + cbn [granted set_mem mem_start_brk mem_brk].
      apply laid_app. exists (mem_brk s). split; [exact Hlaid|].
      cbn [laid]. auto.
    + intros a z f Hin HT. cbn [granted set_mem mem]. unfold extend_mem.
      apply in_app_or in Hin. destruct Hin as [Hin|[Heq|[]]].
      * destruct (laid_in _ _ _ _ _ _ Hlaid Hin) as (? & ? & ? & _).
        rewrite !get32_set32_other by lia. rewrite !get32_retag_other by lia.
        apply (Ht _ _ _ Hin HT).
      * inversion Heq; subst a z f.
        rewrite !get32_set32_other by lia.
        apply get32_retag_tags; assumption.
  - eapply lists_reshape; [exact Hl| | | | |].
    + unfold grown. cbn [granted set_mem mem_start_brk mem_brk heap_listp seg_lists].
      repeat split; lia.
    + intros i Hi. cbn [granted set_mem mem]. unfold extend_mem.
      rewrite !get32_set32_other by lia. rewrite !get32_retag_other by lia. reflexivity.
    + intros q z Hq _. cbn [granted set_mem mem]. unfold extend_mem.
      destruct (laid_in _ _ _ _ _ _ Hlaid Hq) as (? & ? & ? & _).
      rewrite !get32_set32_other by lia. rewrite !get32_retag_other by lia. auto.
    + intros q z Hq _. split; [in_all|].
      destruct (laid_in _ _ _ _ _ _ Hlaid Hq) as (? & ? & ? & _).
      intros [?|[]]. lia.
    + intros q z Hq NU. split; [|apply not_in_nil].
      apply in_app_or in Hq. destruct Hq as [Hq|[Heq|[]]]; [exact Hq|].
      inversion Heq; subst. exfalso. apply NU. left; reflexivity.
Qed.

Lemma ALIGN_idem x : 0 <= x < 2 ^ 64 -> x mod 8 = 0 -> ALIGN x = x.
Proof.
  intros Hx H8.
  assert (x + 7 < 2 ^ 64).
  { assert (2 ^ 64 mod 8 = 0) by reflexivity.
    apply Z.div_exact in H8; [|lia]. 
    assert (x / 8 < 2 ^ 61) by (apply Z.div_lt_upper_bound; lia). lia. }
  rewrite ALIGN_spec by lia.
  apply Z.div_exact in H8; [|lia].
  replace ((x + 7) / 8) with (x / 8); [lia|].
  rewrite H8 at 2. replace (8 * (x / 8) + 7) with (x / 8 * 8 + 7) by lia.
  rewrite Z.div_add_l by lia. change (7 / 8) with 0. lia.
Qed.

Lemma mem_sbrk_granted s incr :
  mem_brk s + incr <= mem_max_addr s ->
  mem_sbrk incr s = Ret (mem_brk s) (granted s incr).
Proof.
  intros H. unfold mem_sbrk.
  replace (mem_brk s + incr <=? mem_max_addr s) with true
    by (symmetry; apply Z.leb_le; assumption).
  reflexivity.
Qed.

Lemma extend_heap_spec fuel s bs ls size :
  heap_ok s bs ls -> 16 <= size -> size mod 8 = 0 ->
  mem_brk s + size <= mem_max_addr s -> (length bs + 1 < fuel)%nat ->
  exists m' ls' bs' r z,
    extend_heap fuel size s = Ret r (set_mem (granted s size) m') /\
    heap_ok (set_mem (granted s size) m') bs' ls' /\
    In (r, z, true) bs' /\ size <= z /\
    (forall b zb, In (b, zb, false) bs -> In (b, zb, false) bs') /\
    (length bs' <= length bs + 1)%nat /\
    (forall x, free_area (granted s size) bs' x -> free_area s bs x) /\
    confined (mem s) m' (free_area s bs).
Proof.
  intros (Hcore & Hco) H16 H8 Hroom Hfuel.
  pose proof Hcore as (Hb & Hl).
  pose proof Hb as (Hg & (S1 & S2 & S3) & Hlaid & Ht).
  pose proof Hg as ((R0 & R1 & R2 & R3) & G8 & Gseg & Ghl & G56 & Gcap).
  assert (Htr : 0 <= tag size true < 2 ^ 32) by (apply tag_range; lia).
  set (bp := mem_brk s).
  set (bs1 := bs ++ [(bp, size, true)]).
  pose proof (core_extend _ _ _ _ Hcore H16 H8 Hroom) as C1. fold bp bs1 in C1.
  assert (Hin1 : In (bp, size, true) bs1) by (unfold bs1; in_all).
  destruct (core_add fuel _ _ _ [] [] bp size C1 Hin1 (not_in_nil bp))
    as (m2 & ls2 & A2 & C2 & Fr2).
  { intros q []. }
  { unfold bs1. rewrite length_app. cbn [length]. lia. }
  simp_state_in A2. simp_state_in C2. simp_state_in Fr2.
  assert (Hfuel1 : (length bs1 < fuel)%nat)
    by (unfold bs1; rewrite length_app; cbn [length]; lia).
  assert (Hco1 : coalesced (bs ++ [(bp, size, false)]))
    by (apply coalesced_snoc; [exact Hco|reflexivity]).
  destruct (coalesce_spec fuel _ bs1 ls2 bs [] bp size C2 eq_refl Hco1 Hfuel1)
    as (m3 & ls3 & bs3 & r & z & A3 & H3 & Hr & Hz & Hal & Hlen & Hfa & Fr3).
  simp_state_in A3. simp_state_in H3. simp_state_in Fr3.
  exists m3, ls3, bs3, r, z.
  assert (Hsub : forall x, free_area (granted s size) bs1 x -> free_area s bs x).
  { intros x [H|[(q & zq & Hq & Hx)|H]].
    - left. exact H.
    - unfold bs1 in Hq. apply in_app_or in Hq. destruct Hq as [Hq|[Heq|[]]].
      + right; left. eauto.
      + inversion Heq; subst q zq. right; right. unfold bp in Hx. lia.
    - right; right. cbn [granted mem_brk] in H. lia. }
  split.
  { unfold extend_heap. cbv zeta. rewrite ALIGN_idem by (auto; lia).
    rewrite (run_bind _ _ _ _ _ (mem_sbrk_granted s size Hroom)). fold bp.
    replace (bp =? size_t (-1)) with false
      by (symmetry; apply Z.eqb_neq; change (size_t (-1)) with (2 ^ 64 - 1); unfold bp; lia).
    rewrite (put_tags_run _ bp size true);
      [|repeat split; cbn [granted mem_start_brk mem_brk mem_max_addr]; lia
       |cbn [granted mem_start_brk]; unfold bp; lia
       |cbn [granted mem_brk]; unfold bp; lia|lia|assumption|lia
       |apply u_32_PACK_free; lia].
    cbn [granted mem].
    rewrite (run_bind _ _ _ (bp + size)
               (set_mem (granted s size) (retag (mem s) bp size true))).
    2:{ unfold NEXT_BLKP. change (padd bp (- WSIZE)) with (HDRP bp).
        rewrite HDRP_small by (unfold bp; lia).
        erewrite run_bind;
          [|rewrite GET_SIZE_run by (cbn [set_mem granted mem_start_brk mem_brk]; unfold bp; lia);
            reflexivity].
        cbn [set_mem mem]. unfold ret.
        rewrite (proj1 (get32_retag_tags _ _ _ _ H16 Htr)).
        rewrite tag_size by assumption.
        rewrite padd_small by (unfold bp; lia). reflexivity. }
    rewrite HDRP_small by (unfold bp; lia). unfold PUT.
    rewrite bind_store32 by (cbn [set_mem granted mem_start_brk mem_brk]; unfold bp; lia).
    simp_state.
    change (u_32 (PACK 0 1)) with 1.
    change (set32 (retag (mem s) bp size true) (bp + size - 4) 1) with (extend_mem s size).
    rewrite (run_bind _ _ _ _ _ A2).
    exact A3. }
  split; [exact H3|]. split; [exact Hr|]. split; [exact Hz|]. split.
  { intros b zb Hbz. apply Hal. unfold bs1. in_all. }
  split.
  { unfold bs1 in Hlen. rewrite length_app in Hlen. cbn [length] in Hlen. lia. }
  split.
  { intros x Hx. apply Hsub. apply Hfa. exact Hx. }
  apply (confined_trans _ (extend_mem s size)); [|apply (confined_trans _ m2)].
  - unfold extend_mem. intros x Hx.
    assert (x < mem_brk s - 4) by (destruct (Z_lt_dec x (mem_brk s - 4)); [assumption|];
      exfalso; apply Hx; right; right; lia).
    rewrite byte_set32. rewrite range_false by (fold bp; lia).
    apply confined_retag. unfold word. fold bp. lia.
  - eapply confined_weaken; [|exact Fr2].
    intros x Hx. apply Hsub. destruct C1 as (Hb1 & _).
    apply (links_in_free_area _ _ _ _ Hb1) in Hx. exact Hx.
  - eapply confined_weaken; [|exact Fr3]. intros x Hx. apply Hsub. exact Hx.
Qed.

(** ** Release and search *)

(** The payload of an allocated block lies outside the free area. *)
Lemma free_area_payload s bs b zb x :
  laid (mem_start_brk s + 56) bs (mem_brk s) -> In (b, zb, false) bs ->
  b <= x < b + zb - 8 -> ~ free_area s bs x.
Proof.
  intros Hlaid Hin Hx.
  destruct (laid_in _ _ _ _ _ _ Hlaid Hin) as (B1 & B2 & B3 & _).
  intros [H|[(q & z & Hq & Hqx)|H]]; [lia| |lia].
  destruct (laid_in _ _ _ _ _ _ Hlaid Hq) as (Q1 & Q2 & Q3 & _).
  destruct (laid_disjoint _ _ _ _ _ _ _ _ _ Hlaid Hin Hq) as [(_ & _ & Hf)|Hd];
    [discriminate|lia].
Qed.

Lemma geometry_init s : geometry s -> heap_listp s <> NULL.
Proof.
  intros ((R0 & _) & _ & _ & Ghl & _). unfold NULL. lia.
Qed.

(** [free] on a live pointer. *)
Lemma free_spec fuel s bs ls pre post bp sz :
  heap_ok s bs ls -> bs = pre ++ (bp, sz, false) :: post -> (length bs < fuel)%nat ->
  exists m' ls' bs',
    free fuel bp s = Ret tt (set_mem s m') /\
    heap_ok (set_mem s m') bs' ls' /\
    (forall b zb, In (b, zb, false) bs -> b <> bp -> In (b, zb, false) bs') /\
    (length bs' <= length bs)%nat /\
    (forall b zb x, In (b, zb, false) bs -> b <> bp -> b <= x < b + zb - 8 ->
       byte_at m' x = byte_at (mem s) x).
Proof.
  intros (Hcore & Hco) E Hfuel.
  assert (Hin : In (bp, sz, false) bs) by (rewrite E; in_all).
  pose proof Hcore as (Hb & Hl).
  pose proof Hb as (Hg & _ & Hlaid & _).
  pose proof Hg as (Hr & G8 & Gseg & Ghl & G56 & Gcap).
  destruct (block_facts _ _ _ _ _ _ Hb Hin) as (F1 & F2 & F3 & F4 & F5 & F6 & F7 & F8).
  destruct (block_addr _ _ _ Hb _ _ _ Hin) as (A1 & A2).
  destruct (hdr_run _ _ _ Hb _ _ _ Hin (not_in_nil bp)) as (G1 & _).
  set (bs1 := pre ++ (bp, sz, true) :: post).
  rewrite E in Hlaid.
  pose proof (laid_flip _ _ _ _ _ true _ _ Hlaid) as Hlaid1. fold bs1 in Hlaid1.
  assert (Hin1 : In (bp, sz, true) bs1) by (unfold bs1; in_all).
  assert (C1 : core (set_mem s (retag (mem s) bp sz true)) bs1 ls [bp] []).
  { apply (core_retag _ bs ls [] [] _ [bp] []); auto.
    - intros b z f Hbin Hne _. split; [|apply not_in_nil].
      rewrite E. unfold bs1 in Hbin. apply in_app_or in Hbin.
      destruct Hbin as [?|[Heq|?]]; [in_all| |in_all].
      inversion Heq; subst; contradiction.
    - intros q z Hq _. rewrite E in Hq.
      destruct (mid_unique _ _ _ _ _ _ _ _ _ _ Hlaid Hq) as [(_ & _ & Hf)|(Hne & Hd)];
        [discriminate|].
      split; [unfold bs1; clear - Hd; in_all|]. intros [?|[]]. congruence.
    - intros q z Hq NU.
      split; [|apply not_in_nil]. rewrite E. unfold bs1 in Hq. apply in_app_or in Hq.
      destruct Hq as [?|[Heq|?]]; [in_all| |in_all].
      inversion Heq; subst. exfalso. apply NU. left; reflexivity. }
  destruct (core_add fuel _ _ _ [] [] bp sz C1 Hin1 (not_in_nil bp))
    as (m2 & ls2 & A2' & C2 & Fr2).
  { intros q []. }
  { unfold bs1. rewrite E in Hfuel. rewrite length_app in *. cbn [length] in *. lia. }
  simp_state_in A2'. simp_state_in C2. simp_state_in Fr2.
  assert (Hfuel1 : (length bs1 < fuel)%nat).
  { unfold bs1. rewrite E in Hfuel. rewrite length_app in *. cbn [length] in *. lia. }
  assert (Hco1 : coalesced (pre ++ (bp, sz, false) :: post)) by (rewrite <- E; exact Hco).
  destruct (coalesce_spec fuel _ bs1 ls2 pre post bp sz C2 eq_refl Hco1 Hfuel1)
    as (m3 & ls3 & bs3 & r & z & A3 & H3 & Hr3 & Hz & Hal & Hlen & Hfa & Fr3).
  simp_state_in A3. simp_state_in H3. simp_state_in Fr3.
  assert (Hfr : confined (mem s) m3 (free_area s bs1)).
  { apply (confined_trans _ (retag (mem s) bp sz true)); [|apply (confined_trans _ m2)].
    - eapply confined_weaken; [|apply confined_retag].
      intros x Hx. right; left. exists bp, sz. split; [exact Hin1|]. unfold word in Hx. lia.
    - eapply confined_weaken; [|exact Fr2].
      intros x Hx. destruct C1 as (Hb1 & _).
      apply (links_in_free_area _ _ _ _ Hb1) in Hx. exact Hx.
    - exact Fr3. }
  assert (Hkeep : forall b zb, In (b, zb, false) bs -> b <> bp -> In (b, zb, false) bs1).
  { intros b zb Hbz Hne. rewrite E in Hbz. unfold bs1. apply in_app_or in Hbz.
    destruct Hbz as [?|[Heq|?]]; [in_all| |in_all]. inversion Heq; subst; contradiction. }
  exists m3, ls3, bs3.
  split.
  { unfold free. rewrite (run_bind _ _ _ _ _ (lazy_init_initialised fuel s (geometry_init s Hg))).
    replace (bp =? NULL) with false by (symmetry; apply Z.eqb_neq; unfold NULL; lia).
    rewrite (run_bind _ _ _ _ _ G1).
    rewrite (put_tags_run _ bp sz true);
      [|assumption|lia|lia|lia|assumption|lia|apply u_32_PACK_free; lia].
    rewrite (run_bind _ _ _ _ _ A2'). rewrite (run_bind _ _ _ _ _ A3). reflexivity. }
  split; [exact H3|]. split.
  { intros b zb Hbz Hne. apply Hal. apply Hkeep; assumption. }
  split.
  { unfold bs1 in Hlen. rewrite E. rewrite length_app in *. cbn [length] in *. lia. }
  intros b zb x Hbz Hne Hx. apply Hfr.
  apply (free_area_payload s bs1 b zb x); auto.
Qed.

Section Search.
Variables (fuel : nat) (s : state) (bs : list block) (ls : Z -> list (Z * Z)).
Variable asize : Z.
Hypothesis Hcore : core s bs ls [] [].
Hypothesis Hfuel : (length bs < fuel)%nat.

Lemma fit_scan_listed i :
  0 <= i <= 9 ->
  exists bp,
    fit_scan fuel asize (B2P (heap_listp s) (get32 (mem s) (seg_lists s + 4 * i))) s
      = Ret bp s /\
    (bp = NULL \/ exists z, In (bp, z, true) bs /\ asize <= z).
Proof.
  intros Hi.
  pose proof Hcore as (Hb & Hl1 & Hl2 & Hl3).
  pose proof Hb as (Hg & _).
  destruct (Hl1 i Hi) as (Hrep & _ & _).
  pose proof (listed_length _ _ _ _ _ i Hcore Hi) as Hlen.
  destruct (fit_scan_chain asize (map fst (ls i)) fuel 0 _ s (geometry_region _ Hg) Hrep)
    as (bp & Hrun & Hres).
  { rewrite length_map. lia. }
  exists bp. split; [exact Hrun|].
  destruct Hres as [(-> & _)|(l1 & l2 & El & _ & Hge)]; [left; reflexivity|right].
  assert (Hq : In bp (map fst (ls i))) by (rewrite El; in_all).
  destruct (listed_node ls i bp Hi Hq) as (z & Hz).
  destruct (Hl2 _ _ _ Hi Hz) as (B & _ & _).
  destruct (block_tags _ _ _ _ _ _ Hb B (not_in_nil bp)) as (_ & _ & Esz).
  exists z. split; [exact B|lia].
Qed.

Lemma malloc_lists_spec n : forall i,
  0 <= i -> i + Z.of_nat n <= 9 ->
  exists bp i',
    malloc_lists fuel n i asize NULL s = Ret (bp, i') s /\ 0 <= i' <= 9 /\
    (bp = NULL \/ exists z, In (bp, z, true) bs /\ asize <= z).
Proof.
  pose proof Hcore as (Hb & _). pose proof Hb as (Hg & _).
  induction n as [|n IH]; intros i Hi Hn.
  - exists NULL, i. split; [reflexivity|]. split; [lia|left; reflexivity].
  - cbn [malloc_lists]. change (LISTNUM - 1) with 9.
    replace (i <? 9) with true by (symmetry; apply Z.ltb_lt; lia).
    assert (Hnext : exists bp i',
      malloc_lists fuel n (i + 1) asize NULL s = Ret (bp, i') s /\ 0 <= i' <= 9 /\
      (bp = NULL \/ exists z, In (bp, z, true) bs /\ asize <= z))
      by (apply IH; lia).
    destruct (asize <=? Z.shiftl 16 i); [|exact Hnext].
    destruct (slot_in_region s i Hg ltac:(lia)) as (Sl1 & Sl2).
    rewrite seg_get_run by (auto using geometry_region).
    destruct (get32 (mem s) (seg_lists s + 4 * i) =? 0) eqn:Eh; cbn [negb]; [exact Hnext|].
    unfold bind at 1. unfold get_heap_listp.
    destruct (fit_scan_listed i ltac:(lia)) as (bp & Hrun & Hres).
    rewrite (run_bind _ _ _ _ _ Hrun).
    destruct (bp =? NULL) eqn:Eb; cbn [negb].
    + apply Z.eqb_eq in Eb. subst bp. exact Hnext.
    + exists bp, i. split; [reflexivity|]. split; [lia|exact Hres].
Qed.

Lemma malloc_search_ok :
  exists bp,
    malloc_search fuel asize s = Ret bp s /\
    (bp = NULL \/ exists z, In (bp, z, true) bs /\ asize <= z).
Proof.
  pose proof Hcore as (Hb & _). pose proof Hb as (Hg & _).
  destruct (malloc_lists_spec 9 0 ltac:(lia) ltac:(lia)) as (bp & i & Hrun & Hi & Hres).
  unfold malloc_search. rewrite (run_bind _ _ _ _ _ Hrun). cbn [fst snd].
  destruct (bp =? NULL) eqn:Eb.
  - unfold bind at 1. unfold get_heap_listp.
    destruct (slot_in_region s i Hg Hi) as (Sl1 & Sl2).
    rewrite seg_get_run by (auto using geometry_region).
    apply fit_scan_listed. exact Hi.
  - exists bp. split; [reflexivity|exact Hres].
Qed.
End Search.

(** ** Allocation *)

Ltac in_deep :=
  repeat (progress (rewrite ?in_app_iff in *; cbn [In] in * ));
  intuition auto.

Lemma adjust_eq size :
  0 < size -> size + 15 < 2 ^ 64 -> adjust size = 8 * ((size + 15) / 8).
Proof.
  intros H1 H2. destruct (Z_le_gt_dec size 8).
  - rewrite adjust_small by lia.
    assert ((size + 15) / 8 = 2) by (Z.div_mod_to_equations; lia). lia.
  - apply adjust_large; lia.
Qed.

Lemma MAX_facts x :
  16 <= x -> x mod 8 = 0 ->
  16 <= MAX x CHUNKSIZE /\ MAX x CHUNKSIZE mod 8 = 0 /\ x <= MAX x CHUNKSIZE /\
  (MAX x CHUNKSIZE = x \/ MAX x CHUNKSIZE = 4096).
Proof.
  intros H1 H2. unfold MAX. change CHUNKSIZE with 4096.
  destruct (x >? 4096) eqn:E.
  - repeat split; auto; lia.
  - rewrite Z.gtb_ltb in E. apply Z.ltb_ge in E. repeat split; auto; lia.
Qed.

Lemma not_both s bs T a z z0 :
  blocks_ok s bs T -> In (a, z, true) bs -> ~ In (a, z0, false) bs.
Proof.
  intros Hb H1 H2. destruct (blocks_unique _ _ _ _ _ _ _ _ Hb H1 H2) as (_ & ?).
  discriminate.
Qed.

(** [place] seen from [malloc]. *)
Lemma place_found fuel s bs ls bp bsz asize :
  heap_ok s bs ls -> In (bp, bsz, true) bs ->
  16 <= asize <= bsz -> asize mod 8 = 0 -> (length bs + 1 < fuel)%nat ->
  exists m' ls' bs' z,
    place fuel bp asize s = Ret bp (set_mem s m') /\
    heap_ok (set_mem s m') bs' ls' /\
    In (bp, z, false) bs' /\ asize <= z /\
    (forall b zb, In (b, zb, false) bs -> In (b, zb, false) bs') /\
    (length bs' <= length bs + 1)%nat /\
    confined (mem s) m' (free_area s bs).
Proof.
  intros Hok Hin Hsz H8 Hfuel.
  destruct (in_split _ _ Hin) as (pre & post & E).
  destruct (place_spec fuel s bs ls pre post bp bsz asize Hok E Hsz H8 Hfuel)
    as (m' & ls' & z & rest & Hrun & Hok' & Hz & _ & Hrest & Hfr).
  exists m', ls', (pre ++ (bp, z, false) :: rest ++ post), z.
  split; [exact Hrun|]. split; [exact Hok'|]. split; [in_all|]. split; [exact Hz|].
  split; [|split; [|exact Hfr]].
  - intros b zb Hbz. rewrite E in Hbz. apply in_app_or in Hbz.
    destruct Hbz as [?|[Heq|?]]; [in_deep|discriminate|in_deep].
  - rewrite E. rewrite !length_app. cbn [length]. rewrite length_app.
    destruct Hrest as [->| ->]; cbn [length]; lia.
Qed.

Lemma malloc_spec fuel s bs ls n :
  heap_ok s bs ls -> 1 <= n -> n + 15 < 2 ^ 64 -> (length bs + 2 < fuel)%nat ->
  exists r s', malloc fuel n s = Ret r s' /\ malloc_post s bs n r s'.
Proof.
  intros Hok Hn1 Hn2 Hfuel.
  pose proof Hok as (Hcore & Hco).
  pose proof Hcore as (Hb & Hl).
  pose proof Hb as (Hg & _ & Hlaid & _).
  pose proof Hg as ((R0 & R1 & R2 & R3) & G8 & Gseg & Ghl & G56 & Gcap).
  destruct (adjust_facts n ltac:(lia) Hn2) as (J1 & J2 & J3 & J4).
  rewrite (malloc_initialised fuel n s (geometry_init s Hg)).
  replace (n =? 0) with false by (symmetry; apply Z.eqb_neq; lia).
  destruct (malloc_search_ok fuel s bs ls (adjust n) Hcore ltac:(lia)) as (bp & Hs & Hres).
  rewrite (run_bind _ _ _ _ _ Hs).
  destruct (bp =? NULL) eqn:Eb.
  - (* no fit: the heap has to grow *)
    clear Hres.
    destruct (MAX_facts (adjust n) J1 J2) as (M1 & M2 & M3 & M4).
    set (sz := MAX (adjust n) CHUNKSIZE) in *.
    assert (Hsz : 0 <= sz < 2 ^ 64).
    { pose proof (adjust_eq n ltac:(lia) Hn2) as Ea.
      assert (8 * ((n + 15) / 8) <= n + 15) by (Z.div_mod_to_equations; lia). lia. }
    destruct (Z_lt_le_dec (mem_max_addr s) (mem_brk s + sz)) as [Hno|Hyes].
    + (* refused *)
      rewrite (run_bind _ _ _ _ _ (extend_heap_refused fuel sz s
                  ltac:(rewrite ALIGN_idem by auto; exact Hno))).
      change (NULL =? NULL) with true.
      exists NULL, (refused s). split; [reflexivity|].
      exists bs, ls. split; [apply heap_ok_refused; exact Hok|].
      split; [auto|]. split; [lia|]. split; [apply confined_refl|].
      split; [split; reflexivity|]. intros H; contradiction.
    + (* granted *)
      destruct (extend_heap_spec fuel s bs ls sz Hok M1 M2 Hyes ltac:(lia))
        as (m1 & ls1 & bs1 & r & z & Hrun & Hok1 & Hr & Hz & Hal & Hlen & Hfa & Hfr).
      rewrite (run_bind _ _ _ _ _ Hrun).
      pose proof Hok1 as ((Hb1 & _) & _).
      destruct (block_facts _ _ _ _ _ _ Hb1 Hr) as (F1 & _).
      cbn [set_mem granted mem_start_brk] in F1.
      replace (r =? NULL) with false by (symmetry; apply Z.eqb_neq; unfold NULL; lia).
      destruct (place_found fuel _ bs1 ls1 r z (adjust n) Hok1 Hr ltac:(lia) J2 ltac:(lia))
        as (m2 & ls2 & bs2 & z2 & Hrun2 & Hok2 & Hr2 & Hz2 & Hal2 & Hlen2 & Hfr2).
      simp_state_in Hrun2. simp_state_in Hok2. simp_state_in Hfr2.
      exists r, (set_mem (granted s sz) m2). split; [exact Hrun2|].
      exists bs2, ls2. split; [exact Hok2|]. split; [auto|]. split; [lia|]. split.
      * cbn [set_mem mem]. eapply confined_trans; [exact Hfr|].
        eapply confined_weaken; [|exact Hfr2]. intros x Hx. apply Hfa. exact Hx.
      * split; [split; reflexivity|]. intros _. exists z2. split; [exact Hr2|]. split; [exact Hz2|].
        intros z0 Hz0. apply (not_both _ _ _ _ _ z0 Hb1 Hr). auto.
  - (* a fit was found *)
    apply Z.eqb_neq in Eb.
    destruct Hres as [?|(z & Hin & Hz)]; [contradiction|].
    destruct (place_found fuel s bs ls bp z (adjust n) Hok Hin ltac:(lia) J2 ltac:(lia))
      as (m2 & ls2 & bs2 & z2 & Hrun2 & Hok2 & Hr2 & Hz2 & Hal2 & Hlen2 & Hfr2).
    exists bp, (set_mem s m2). split; [exact Hrun2|].
    exists bs2, ls2. split; [exact Hok2|]. split; [auto|]. split; [lia|].
    split; [exact Hfr2|]. split; [split; reflexivity|].
    intros _. exists z2. split; [exact Hr2|]. split; [exact Hz2|].
    intros z0 Hz0. apply (not_both _ _ _ _ _ z0 Hb Hin). exact Hz0.
Qed.

(** ** Resizing *)

Lemma byte_copy m dst src n x :
  dst <= x < dst + n -> byte_at (copy m dst src n) x = byte_at m (src + (x - dst)).
Proof.
  intros H. unfold byte_at, copy.
  replace ((dst <=? x) && (x <? dst + n)) with true; [reflexivity|].
  symmetry. apply andb_true_intro. split; [apply Z.leb_le|apply Z.ltb_lt]; lia.
Qed.

Lemma byte_copy_other m dst src n x :
  x < dst \/ dst + n <= x -> byte_at (copy m dst src n) x = byte_at m x.
Proof.
  intros H. unfold byte_at, copy.
  replace ((dst <=? x) && (x <? dst + n)) with false; [reflexivity|].
  symmetry. apply andb_false_iff. rewrite Z.leb_gt, Z.ltb_ge. lia.
Qed.

(** Writing into the payload of an allocated block keeps the invariant. *)
Lemma heap_ok_payload s bs ls r z m' :
  heap_ok s bs ls -> In (r, z, false) bs ->
  confined (mem s) m' (fun x => r <= x < r + z - 8) ->
  heap_ok (set_mem s m') bs ls.
Proof.
  intros ((Hb & Hl) & Hco) Hin Hc. split; [|exact Hco].
  pose proof Hb as (Hg & (S1 & S2 & S3) & Hlaid & Ht).
  pose proof Hg as ((R0 & R1 & R2 & R3) & G8 & Gseg & Ghl & G56 & Gcap).
  destruct (laid_in _ _ _ _ _ _ Hlaid Hin) as (B1 & B2 & B3 & _).
  assert (Hw : forall a, a + 4 <= r \/ r + z - 8 <= a -> get32 m' a = get32 (mem s) a).
  { intros a Ha. apply (confined_get32 _ _ _ _ Hc). unfold word. intros x Hx. lia. }
  split.
  - split; [exact Hg|]. split; [|split; [exact Hlaid|]].
    + unfold sentinels. cbn [mem set_mem mem_start_brk mem_brk].
      rewrite !Hw by lia. auto.
    + intros a za fa Ha HT. cbn [mem set_mem].
      destruct (laid_in _ _ _ _ _ _ Hlaid Ha) as (? & ? & ? & _).
      destruct (laid_disjoint _ _ _ _ _ _ _ _ _ Hlaid Ha Hin) as [(-> & -> & _)|Hd];
        rewrite !Hw by lia; apply (Ht _ _ _ Ha HT).
  - eapply lists_reshape; [exact Hl|apply grown_set_mem| | |auto|auto]; cbn [mem set_mem].
    + intros i Hi. apply Hw. lia.
    + intros q zq Hq _.
      destruct (laid_in _ _ _ _ _ _ Hlaid Hq) as (? & ? & ? & _).
      destruct (laid_disjoint _ _ _ _ _ _ _ _ _ Hlaid Hq Hin) as [(_ & _ & Hf)|Hd];
        [discriminate|].
      rewrite !Hw by lia. auto.
Qed.

(** What [realloc] achieves on the live pointer [p] of block size [osz]. *)
Lemma realloc_spec fuel s bs ls p osz n :
  heap_ok s bs ls -> In (p, osz, false) bs ->
  1 <= n -> n + 15 < 2 ^ 64 -> (length bs + 2 < fuel)%nat ->
  exists r s' bs' ls',
    realloc fuel p n s = Ret r s' /\ heap_ok s' bs' ls' /\
    (mem_max_addr s' = mem_max_addr s /\ mem_start_brk s' = mem_start_brk s) /\
    (r <> NULL ->
     exists z, In (r, z, false) bs' /\ adjust n <= z /\
       forall i, 0 <= i < Z.min (osz - 8) (z - 8) ->
         byte_at (mem s') (r + i) = byte_at (mem s) (p + i)).
Proof.
  intros Hok Hp Hn1 Hn2 Hfuel.
  pose proof Hok as ((Hb & _) & _).
  pose proof Hb as (Hg & _ & Hlaid & _).
  destruct (block_facts _ _ _ _ _ _ Hb Hp) as (P1 & P2 & P3 & P4 & P5 & P6 & P7 & P8).
  destruct (malloc_spec fuel s bs ls n Hok Hn1 Hn2 Hfuel)
    as (r & s1 & Hrun & bs1 & ls1 & Hok1 & Hal & Hlen & Hfr & Hregs & Hres).
  unfold realloc.
  replace (n =? 0) with false by (symmetry; apply Z.eqb_neq; lia).
  replace (p =? NULL) with false
    by (symmetry; apply Z.eqb_neq; unfold NULL; destruct Hg as ((? & _) & _); lia).
  rewrite (run_bind _ _ _ _ _ Hrun).
  destruct (r =? NULL) eqn:Er.
  - apply Z.eqb_eq in Er. exists 0, s1, bs1, ls1.
    split; [reflexivity|]. split; [exact Hok1|]. split; [exact Hregs|].
    intros H. exfalso. apply H. reflexivity.
  - apply Z.eqb_neq in Er.
    destruct (Hres Er) as (z & Hr & Hz & Hnew).
    pose proof (Hal _ _ Hp) as Hp1.
    pose proof Hok1 as ((Hb1 & _) & _).
    pose proof Hb1 as (Hg1 & _ & Hlaid1 & _).
    destruct (block_facts _ _ _ _ _ _ Hb1 Hr) as (F1 & F2 & F3 & F4 & F5 & F6 & F7 & F8).
    destruct (block_facts _ _ _ _ _ _ Hb1 Hp1) as (Q1 & Q2 & _).
    destruct (hdr_run _ _ _ Hb1 _ _ _ Hr (not_in_nil r)) as (G1 & _).
    destruct (hdr_run _ _ _ Hb1 _ _ _ Hp1 (not_in_nil p)) as (G2 & _).
    assert (Hne : r <> p) by (intros ->; apply (Hnew osz); exact Hp).
    rewrite (run_bind _ _ _ _ _ G1). cbv zeta. rewrite (run_bind _ _ _ _ _ G2).
    unfold DSIZE. rewrite !u_32_small by lia.
    set (k := if z - 8 <? osz - 8 then z - 8 else osz - 8).
    assert (Hk : k = Z.min (osz - 8) (z - 8)).
    { unfold k. destruct (z - 8 <? osz - 8) eqn:El;
        [apply Z.ltb_lt in El|apply Z.ltb_ge in El]; lia. }
    assert (Hcopy : memcpy r p k s1 = Ret tt (set_mem s1 (copy (mem s1) r p k))).
    { unfold memcpy.
      replace (k =? 0) with false by (symmetry; apply Z.eqb_neq; lia).
      replace (valid s1 r k && valid s1 p k) with true; [reflexivity|].
      symmetry. unfold valid. repeat (apply andb_true_intro; split);
        (apply Z.leb_le; lia). }
    rewrite (run_bind _ _ _ _ _ Hcopy).
    assert (Hok2 : heap_ok (set_mem s1 (copy (mem s1) r p k)) bs1 ls1).
    { apply (heap_ok_payload _ _ _ r z); auto.
      intros x Hx. apply byte_copy_other. lia. }
    destruct (in_split _ _ Hp1) as (pre & post & E1).
    destruct (free_spec fuel _ bs1 ls1 pre post p osz Hok2 E1 ltac:(lia))
      as (m3 & ls3 & bs3 & Hrun3 & Hok3 & Hal3 & Hlen3 & Hkeep3).
    rewrite (run_bind _ _ _ _ _ Hrun3). simp_state.
    exists r, (set_mem s1 m3), bs3, ls3.
    split; [reflexivity|]. split; [simp_state_in Hok3; exact Hok3|].
    split; [exact Hregs|].
    intros _. exists z. split; [apply Hal3; assumption|]. split; [exact Hz|].
    intros i Hi. cbn [mem set_mem].
    rewrite (Hkeep3 r z (r + i)) by (auto; lia). cbn [mem set_mem].
    rewrite byte_copy by lia. replace (p + (r + i - r)) with (p + i) by lia.
    apply Hfr. apply (free_area_payload s bs p osz); auto. lia.
Qed.

(** ** Initialisation *)

Ltac side_init :=
  cbn [mem set_mem set_heap_listp granted mem_start_brk mem_brk mem_max_addr
       sbrk_calls heap_listp seg_lists];
  lia.

Lemma set32_cong m m' a a' v : m = m' -> a = a' -> set32 m a v = set32 m' a' v.
Proof. intros -> ->. reflexivity. Qed.

Lemma mm_init_run fuel s :
  untouched s -> mem_brk s + 56 <= mem_max_addr s ->
  mm_init fuel s =
  (r <- extend_heap fuel CHUNKSIZE ;; if r =? NULL then ret (-1) else ret 0)
    (init_state s).
Proof.
  intros ((R0 & R1 & R2 & R3) & Eb & G8) Hroom.
  unfold mm_init. change (14 * WSIZE) with 56.
  rewrite (run_bind _ _ _ _ _ (mem_sbrk_granted s 56 Hroom)).
  unfold bind at 1. unfold put_heap_listp.
  replace (mem_brk s =? size_t (-1)) with false
    by (symmetry; apply Z.eqb_neq; change (size_t (-1)) with (2 ^ 64 - 1); lia).
  unfold WSIZE, DSIZE, PUT.
  rewrite !padd_small by lia.
  change (u_32 0) with 0. change (u_32 (PACK 8 1)) with 9. change (u_32 (PACK 0 1)) with 1.
  repeat (rewrite bind_store32 by side_init; rewrite ?set_mem_set_mem).
  unfold bind at 1. unfold put_seg_lists. unfold bind at 1.
  f_equal. unfold init_state, set_heap_listp, set_seg_lists, set_mem, granted.
  cbn [mem mem_start_brk mem_brk mem_max_addr sbrk_calls heap_listp seg_lists].
  rewrite Eb. f_equal.
  unfold init_words. cbn [put_words].
  repeat (apply set32_cong; [|lia]). reflexivity.
Qed.

Lemma put_words_below ws : forall m a p,
  p + 4 <= a -> get32 (put_words m a ws) p = get32 m p.
Proof.
  induction ws as [|w ws IH]; intros m a p Hp; cbn [put_words]; [reflexivity|].
  rewrite IH by lia. apply get32_set32_other. lia.
Qed.

Lemma get32_put_words ws : forall m a k,
  0 <= k < Z.of_nat (length ws) -> Forall (fun w => 0 <= w < 2 ^ 32) ws ->
  get32 (put_words m a ws) (a + 4 * k) = nth (Z.to_nat k) ws 0.
Proof.
  induction ws as [|w ws IH]; intros m a k Hk Hws; cbn [length] in Hk; [lia|].
  inversion Hws as [|? ? Hw Hws']; subst. cbn [put_words].
  destruct (Z.eq_dec k 0) as [->|Hne].
  - replace (a + 4 * 0) with a by lia. rewrite put_words_below by lia.
    rewrite get32_set32_same. cbn [Z.to_nat nth]. apply Z.mod_small. exact Hw.
  - replace (a + 4 * k) with (a + 4 + 4 * (k - 1)) by lia.
    rewrite IH by (auto; lia).
    replace (Z.to_nat k) with (S (Z.to_nat (k - 1))) by lia. reflexivity.
Qed.

Lemma init_words_range : Forall (fun w => 0 <= w < 2 ^ 32) init_words.
Proof. unfold init_words. repeat constructor; lia. Qed.

(** The heap before its first block: the list heads, the prologue and the
    epilogue. *)
Lemma init_state_ok s :
  untouched s -> small_store s -> mem_brk s + 56 <= mem_max_addr s ->
  heap_ok (init_state s) [] (fun _ => []).
Proof.
  intros ((R0 & R1 & R2 & R3) & Eb & G8) Gcap Hroom. unfold small_store in Gcap.
  assert (Hget : forall k, 0 <= k < 14 ->
            get32 (mem (init_state s)) (mem_start_brk s + 4 * k) =
            nth (Z.to_nat k) init_words 0).
  { intros k Hk. cbn [init_state mem]. apply get32_put_words.
    - cbn [init_words length]. lia.
    - apply init_words_range. }
  split; [|exact I]. split.
  - split; [|split; [|split]].
    + unfold geometry, region_ok.
      cbn [init_state mem_start_brk mem_brk mem_max_addr heap_listp seg_lists].
      repeat split; auto; lia.
    + unfold sentinels. cbn [init_state mem_start_brk mem_brk].
      replace (mem_start_brk s + 44) with (mem_start_brk s + 4 * 11) by lia.
      replace (mem_start_brk s + 48) with (mem_start_brk s + 4 * 12) by lia.
      replace (mem_brk s + 56 - 4) with (mem_start_brk s + 4 * 13) by lia.
      change (put_words (mem s) (mem_start_brk s) init_words) with (mem (init_state s)).
      rewrite !Hget by lia. repeat split; reflexivity.
    + cbn [laid init_state mem_start_brk mem_brk]. lia.
    + intros a z f [].
  - split; [|split].
    + intros i Hi. cbn [map]. split; [|split; [exact I|constructor]].
      unfold list_rep. cbn [chain]. cbn [init_state seg_lists].
      change (put_words (mem s) (mem_start_brk s) init_words) with (mem (init_state s)).
      rewrite Hget by lia.
      assert (Hc : i = 0 \/ i = 1 \/ i = 2 \/ i = 3 \/ i = 4 \/ i = 5 \/ i = 6 \/
                   i = 7 \/ i = 8 \/ i = 9) by lia.
      repeat (destruct Hc as [->|Hc]; [reflexivity|]). subst i. reflexivity.
    + intros i q z _ [].
    + intros q z [].
Qed.

Lemma mm_init_spec fuel s :
  untouched s -> small_store s ->
  (mem_brk s + 56 + 4096 <= mem_max_addr s -> (1 < fuel)%nat) ->
  exists r s',
    mm_init fuel s = Ret r s' /\
    (r = 0 \/ r = -1) /\
    (r = 0 <-> mem_brk s + 56 + 4096 <= mem_max_addr s) /\
    (r = 0 -> exists bs ls, heap_ok s' bs ls) /\
    (mem_max_addr s' = mem_max_addr s /\ mem_start_brk s' = mem_start_brk s).
Proof.
  intros Hu Gcap Hfuel. pose proof Hu as ((R0 & R1 & R2 & R3) & Eb & G8).
  destruct (Z_lt_le_dec (mem_max_addr s) (mem_brk s + 56)) as [Hno|Hyes].
  - (* not even the prologue fits *)
    exists (-1), (set_heap_listp (refused s) (size_t (-1))).
    split; [|split; [right; reflexivity|split; [split; [discriminate|lia]|
      split; [discriminate|split; reflexivity]]]].
    unfold mm_init. change (14 * WSIZE) with 56.
    unfold bind at 1. unfold mem_sbrk.
    replace (mem_brk s + 56 <=? mem_max_addr s) with false
      by (symmetry; apply Z.leb_gt; lia).
    unfold bind at 1. unfold put_heap_listp.
    rewrite Z.eqb_refl. reflexivity.
  - rewrite (mm_init_run fuel s Hu Hyes).
    pose proof (init_state_ok s Hu Gcap Hyes) as Hok.
    destruct (Z_lt_le_dec (mem_max_addr s) (mem_brk s + 56 + 4096)) as [Hno2|Hyes2].
    + exists (-1), (refused (init_state s)).
      split; [|split; [right; reflexivity|split; [split; [discriminate|lia]|
        split; [discriminate|split; reflexivity]]]].
      rewrite (run_bind _ _ _ _ _ (extend_heap_refused fuel CHUNKSIZE (init_state s)
                 ltac:(change (ALIGN CHUNKSIZE) with 4096; cbn [init_state mem_brk mem_max_addr]; lia))).
      reflexivity.
    + destruct (extend_heap_spec fuel (init_state s) [] (fun _ => []) CHUNKSIZE Hok)
        as (m1 & ls1 & bs1 & r & z & Hrun & Hok1 & Hr & _).
      { change CHUNKSIZE with 4096. lia. }
      { reflexivity. }
      { change CHUNKSIZE with 4096. cbn [init_state mem_brk mem_max_addr]. lia. }
      { cbn [length]. specialize (Hfuel Hyes2). lia. }
      rewrite (run_bind _ _ _ _ _ Hrun).
      pose proof Hok1 as ((Hb1 & _) & _).
      destruct (block_facts _ _ _ _ _ _ Hb1 Hr) as (F1 & _).
      cbn [set_mem granted init_state mem_start_brk] in F1.
      replace (r =? NULL) with false by (symmetry; apply Z.eqb_neq; unfold NULL; lia).
      eexists 0, _. split; [reflexivity|]. split; [left; reflexivity|].
      split; [split; [lia|reflexivity]|]. split; [intros _; eauto|split; reflexivity].
Qed.

(** ** The invariant across the public calls *)

Lemma laid_length bs : forall q e, laid q bs e -> q + 16 * Z.of_nat (length bs) <= e.
Proof.
  induction bs as [|[[a sz] fr] bs IH]; intros q e H; cbn [laid length] in *.
  - lia.
  - destruct H as (_ & H16 & _ & H). apply IH in H. lia.
Qed.

Lemma enough_length fuel s bs ls :
  heap_ok s bs ls -> enough fuel s -> (length bs + 3 < fuel)%nat.
Proof.
  intros (((Hg & _ & Hlaid & _) & _) & _) He.
  destruct Hg as ((R0 & R1 & R2 & R3) & _).
  apply laid_length in Hlaid. unfold enough in He. lia.
Qed.

Lemma malloc_zero fuel s : heap_listp s <> NULL -> malloc fuel 0 s = Ret NULL s.
Proof. intros H. rewrite malloc_initialised by assumption. reflexivity. Qed.

Lemma heap_ok_init s bs ls : heap_ok s bs ls -> heap_listp s <> NULL.
Proof. intros (((Hg & _) & _) & _). apply geometry_init. exact Hg. Qed.

(** The invariant of the proofs is the invariant set on a small store. *)
Lemma invariant_heap_ok s bs ls :
  small_store s -> invariant s bs ls -> heap_ok s bs ls.
Proof.
  intros Hs (((R & G8 & Gseg & Ghl & G56) & Hsen & Hlaid & Ht) & Hl & Hco).
  split; [|exact Hco]. split; [|exact Hl].
  split; [|split; [exact Hsen|split; [exact Hlaid|exact Ht]]].
  unfold geometry. repeat split; auto; apply R.
Qed.

Lemma heap_ok_invariant s bs ls : heap_ok s bs ls -> invariant s bs ls.
Proof.
  intros (((Hg & Hsen & Hlaid & Ht) & Hl) & Hco).
  destruct Hg as (R & G8 & Gseg & Ghl & G56 & _).
  split; [|split; [exact Hl|exact Hco]].
  split; [|split; [exact Hsen|split; [exact Hlaid|exact Ht]]].
  unfold placement. auto.
Qed.

Lemma heap_ok_small s bs ls : heap_ok s bs ls -> small_store s.
Proof. intros (((Hg & _) & _) & _). apply Hg. Qed.

Lemma malloc_ready fuel s n :
  small_store s -> ready s -> enough fuel s -> in_range n ->
  exists r s',
    malloc fuel n s = Ret r s' /\ ready s' /\ enough fuel s' /\ small_store s'.
Proof.
  intros Hs (bs & ls & Hinv) He (Hn0 & Hn1).
  pose proof (invariant_heap_ok _ _ _ Hs Hinv) as Hok.
  destruct (Z.eq_dec n 0) as [->|Hne].
  - exists NULL, s. rewrite (malloc_zero fuel s (heap_ok_init _ _ _ Hok)).
    split; [reflexivity|]. split; [exists bs, ls; exact Hinv|auto].
  - pose proof (enough_length _ _ _ _ Hok He) as Hlen.
    destruct (malloc_spec fuel s bs ls n Hok ltac:(lia) ltac:(lia) ltac:(lia))
      as (r & s' & Hrun & bs' & ls' & Hok' & _ & _ & _ & (E1 & E2) & _).
    exists r, s'. split; [exact Hrun|].
    split; [exists bs', ls'; apply heap_ok_invariant; exact Hok'|].
    split; [|exact (heap_ok_small _ _ _ Hok')].
    unfold enough. rewrite E1, E2. exact He.
Qed.

Lemma free_null fuel s : heap_listp s <> NULL -> free fuel NULL s = Ret tt s.
Proof.
  intros H. unfold free. rewrite (run_bind _ _ _ _ _ (lazy_init_initialised fuel s H)).
  reflexivity.
Qed.

Lemma free_ready fuel s p :
  small_store s -> ready s -> enough fuel s -> p = NULL \/ live s p ->
  exists s', free fuel p s = Ret tt s' /\ ready s' /\ enough fuel s' /\ small_store s'.
Proof.
  intros Hs (bs0 & ls0 & Hinv0) He [->|(bs & ls & z & Hinv & Hin)].
  - pose proof (invariant_heap_ok _ _ _ Hs Hinv0) as Hok0.
    exists s. rewrite (free_null fuel s (heap_ok_init _ _ _ Hok0)).
    split; [reflexivity|]. split; [exists bs0, ls0; exact Hinv0|auto].
  - pose proof (invariant_heap_ok _ _ _ Hs Hinv) as Hok.
    pose proof (enough_length _ _ _ _ Hok He) as Hlen.
    destruct (in_split _ _ Hin) as (pre & post & E).
    destruct (free_spec fuel s bs ls pre post p z Hok E ltac:(lia))
      as (m' & ls' & bs' & Hrun & Hok' & _).
    exists (set_mem s m'). split; [exact Hrun|].
    split; [exists bs', ls'; apply heap_ok_invariant; exact Hok'|].
    split; [exact He|exact Hs].
Qed.

Lemma realloc_ready fuel s p n :
  small_store s -> ready s -> enough fuel s -> p = NULL \/ live s p -> in_range n ->
  exists r s',
    realloc fuel p n s = Ret r s' /\ ready s' /\ enough fuel s' /\ small_store s'.
Proof.
  intros Hs Hr He Hp Hn.
  destruct (Z.eq_dec n 0) as [->|Hne].
  - destruct (free_ready fuel s p Hs Hr He Hp) as (s' & Hrun & Hr' & He' & Hs').
    exists 0, s'. unfold realloc. change (0 =? 0) with true. cbv iota.
    rewrite (run_bind _ _ _ _ _ Hrun). auto.
  - unfold realloc.
    replace (n =? 0) with false by (symmetry; apply Z.eqb_neq; assumption).
    destruct Hp as [->|(bs & ls & z & Hinv & Hin)].
    + change (NULL =? NULL) with true. cbv iota. apply malloc_ready; assumption.
    + pose proof (invariant_heap_ok _ _ _ Hs Hinv) as Hok.
      pose proof (enough_length _ _ _ _ Hok He) as Hlen. destruct Hn as (Hn0 & Hn1).
      destruct (realloc_spec fuel s bs ls p z n Hok Hin ltac:(lia) ltac:(lia) ltac:(lia))
        as (r & s' & bs' & ls' & Hrun & Hok' & (E1 & E2) & _).
      unfold realloc in Hrun.
      replace (n =? 0) with false in Hrun by (symmetry; apply Z.eqb_neq; assumption).
      cbv iota in Hrun. cbv iota.
      exists r, s'. split; [exact Hrun|].
      split; [exists bs', ls'; apply heap_ok_invariant; exact Hok'|].
      split; [|exact (heap_ok_small _ _ _ Hok')].
      unfold enough. rewrite E1, E2. exact He.
Qed.

Lemma run_ready fuel s c :
  small_store s -> ready s -> enough fuel s -> admissible s c ->
  exists r s', run fuel c s = Ret r s' /\ ready s' /\ enough fuel s' /\ small_store s'.
Proof.
  intros Hs Hr He Ha. destruct c as [n|p|p n]; cbn [run admissible] in *.
  - apply malloc_ready; assumption.
  - destruct (free_ready fuel s p Hs Hr He Ha) as (s' & Hrun & Hr' & He' & Hs').
    exists 0, s'. rewrite (run_bind _ _ _ _ _ Hrun). auto.
  - destruct Ha as (Hp & Hn). apply realloc_ready; assumption.
Qed.

Lemma reach_ready fuel s s' :
  reach fuel s s' -> small_store s -> ready s -> enough fuel s -> ready s'.
Proof.
  induction 1 as [s|s c r s1 s2 Ha Hrun Hreach IH]; intros Hs Hr He; [exact Hr|].
  destruct (run_ready fuel s c Hs Hr He Ha) as (r' & s1' & Hrun' & Hr1 & He1 & Hs1).
  rewrite Hrun in Hrun'. inversion Hrun'; subst r' s1'.
  apply IH; assumption.
Qed.

Lemma boot_small_untouched : untouched boot_small.
Proof.
  unfold untouched, region_ok, boot_small, fresh.
  cbn [mem_start_brk mem_brk mem_max_addr]. repeat split; try lia; reflexivity.
Qed.

Lemma boot_small_store : small_store boot_small.
Proof. unfold small_store, boot_small, fresh. cbn [mem_start_brk mem_max_addr]. lia. Qed.

Lemma boot_small_enough : enough 300 boot_small.
Proof. unfold enough, boot_small, fresh. cbn [mem_start_brk mem_max_addr]. lia. Qed.

Lemma started_facts : ready started /\ enough 300 started /\ small_store started.
Proof.
  destruct (mm_init_spec 300 boot_small boot_small_untouched boot_small_store ltac:(lia))
    as (r & s' & Hrun & _ & Hiff & Hready & (E1 & E2)).
  unfold started, exec. rewrite Hrun.
  destruct Hready as (bs & ls & Hok); [apply Hiff; cbn; lia|].
  split; [exists bs, ls; apply heap_ok_invariant; exact Hok|].
  split; [|exact (heap_ok_small _ _ _ Hok)].
  unfold enough. rewrite E1, E2. cbn. lia.
Qed.

Lemma holding_facts : live holding first_bp /\ enough 300 holding /\ small_store holding.
Proof.
  destruct started_facts as ((bs & ls & Hinv) & He & Hs).
  pose proof (invariant_heap_ok _ _ _ Hs Hinv) as Hok.
  pose proof (enough_length _ _ _ _ Hok He) as Hlen.
  destruct (malloc_spec 300 started bs ls 8 Hok ltac:(lia) ltac:(lia) ltac:(lia))
    as (r & s' & Hrun & bs' & ls' & Hok' & _ & _ & _ & (E1 & E2) & Hres).
  assert (Hv : value (malloc 300 8) started = Some first_bp) by (vm_compute; reflexivity).
  unfold value in Hv. rewrite Hrun in Hv. inversion Hv; subst r.
  unfold holding, exec. rewrite Hrun. split; [|split].
  - destruct Hres as (z & Hin & _); [unfold first_bp, NULL; lia|].
    exists bs', ls', z. split; [apply heap_ok_invariant; exact Hok'|exact Hin].
  - unfold enough. rewrite E1, E2. exact He.
  - exact (heap_ok_small _ _ _ Hok').
Qed.

(** C3, amended: on a backing store of less than 4 GiB the invariant set
    is established by a successful [mm_init] on an untouched region, and
    from a heap that satisfies it every call of [malloc], [free] and
    [realloc] with a size of at most [2^64 - 16] and a pointer that is null
    or live returns and leaves a heap that satisfies it again, also after
    any sequence of such calls. *)
Theorem invariant_preserved fuel s :
  small_store s -> enough fuel s ->
  (untouched s ->
     exists r s', mm_init fuel s = Ret r s' /\ (r = 0 -> ready s')) /\
  (ready s ->
     (forall c, admissible s c -> exists r s', run fuel c s = Ret r s' /\ ready s') /\
     (forall s', reach fuel s s' -> ready s')).
Proof.
  intros Hs He. split.
  - intros Hu.
    destruct (mm_init_spec fuel s Hu Hs) as (r & s' & Hrun & _ & _ & Hready & _).
    { intros Hroom. destruct Hu as (_ & Eb & _). unfold enough in He. lia. }
    exists r, s'. split; [exact Hrun|].
    intros Hr0. destruct (Hready Hr0) as (bs & ls & Hok).
    exists bs, ls. apply heap_ok_invariant. exact Hok.
  - intros Hr. split.
    + intros c Ha. destruct (run_ready fuel s c Hs Hr He Ha) as (r & s' & Hrun & Hr' & _).
      exists r, s'. auto.
    + intros s' Hreach. apply (reach_ready fuel s s'); assumption.
Qed.

Lemma invariant_preserved_witness :
  (small_store boot_small /\ enough 300 boot_small /\ untouched boot_small /\
   exists r s', mm_init 300 boot_small = Ret r s' /\ (r = 0 -> ready s')) /\
  (small_store started /\ enough 300 started /\ ready started /\
   (forall c, admissible started c ->
      exists r s', run 300 c started = Ret r s' /\ ready s') /\
   (forall s', reach 300 started s' -> ready s')).
Proof.
  destruct started_facts as (Hr & He & Hs).
  split.
  - split; [exact boot_small_store|].
    split; [exact boot_small_enough|]. split; [exact boot_small_untouched|].
    exact (proj1 (invariant_preserved 300 boot_small boot_small_store boot_small_enough)
                 boot_small_untouched).
  - split; [exact Hs|]. split; [exact He|]. split; [exact Hr|].
    exact (proj2 (invariant_preserved 300 started Hs He) Hr).
Defined.

(** C4, amended: on a backing store of less than 4 GiB and a heap that
    satisfies the invariant set, for every [n] from 1 to [2^64 - 16],
    [malloc(n)] returns, and a non-null result is 8-byte aligned and is the
    payload of an allocated block whose size is at least the adjusted size,
    so that its usable payload is at least [n] bytes and a multiple of 8;
    the adjusted size is [n + 8] rounded up to a multiple of 8 and at least
    16. *)
Theorem malloc_in_range_payload fuel s n :
  small_store s -> ready s -> enough fuel s -> 1 <= n <= 2 ^ 64 - 16 ->
  adjust n = Z.max 16 (8 * ((n + DSIZE + 7) / 8)) /\
  exists r s',
    malloc fuel n s = Ret r s' /\
    (r <> NULL ->
       r mod 8 = 0 /\ Z.land (get32 (mem s') (r - 4)) 1 = 1 /\
       adjust n <= size_at s' r /\
       n <= size_at s' r - DSIZE /\ (size_at s' r - DSIZE) mod 8 = 0).
Proof.
  intros Hs (bs & ls & Hinv) He (Hn0 & Hn1).
  pose proof (invariant_heap_ok _ _ _ Hs Hinv) as Hok.
  destruct (adjust_facts n ltac:(lia) ltac:(lia)) as (J1 & J2 & J3 & J4).
  split.
  { rewrite (adjust_eq n) in * by lia. unfold DSIZE.
    replace (n + 8 + 7) with (n + 15) by lia. lia. }
  pose proof (enough_length _ _ _ _ Hok He) as Hlen.
  destruct (malloc_spec fuel s bs ls n Hok ltac:(lia) ltac:(lia) ltac:(lia))
    as (r & s' & Hrun & bs' & ls' & Hok' & _ & _ & _ & _ & Hres).
  exists r, s'. split; [exact Hrun|].
  intros Hnn. destruct (Hres Hnn) as (z & Hin & Hz & _).
  pose proof Hok' as ((Hb' & _) & _).
  destruct (block_facts _ _ _ _ _ _ Hb' Hin) as (_ & _ & F3 & F4 & F5 & _).
  destruct (block_tags _ _ _ _ _ _ Hb' Hin (not_in_nil r)) as (T1 & _ & T3).
  rewrite T3, T1. unfold DSIZE.
  split; [exact F5|]. split; [apply (tag_alloc z false F4)|]. split; [exact Hz|].
  split; [lia|]. rewrite Zminus_mod, F4. reflexivity.
Qed.

Lemma malloc_in_range_payload_witness :
  small_store started /\ ready started /\ enough 300 started /\
  1 <= 100 <= 2 ^ 64 - 16 /\
  adjust 100 = Z.max 16 (8 * ((100 + DSIZE + 7) / 8)) /\
  exists r s',
    malloc 300 100 started = Ret r s' /\
    (r <> NULL ->
       r mod 8 = 0 /\ Z.land (get32 (mem s') (r - 4)) 1 = 1 /\
       adjust 100 <= size_at s' r /\
       100 <= size_at s' r - DSIZE /\ (size_at s' r - DSIZE) mod 8 = 0).
Proof.
  destruct started_facts as (Hr & He & Hs).
  split; [exact Hs|]. split; [exact Hr|]. split; [exact He|]. split; [lia|].
  apply (malloc_in_range_payload 300 started 100 Hs Hr He). lia.
Defined.

(** C5, amended: on a backing store of less than 4 GiB, for a live pointer
    [p] and every [n] from 1 to [2^64 - 16], [realloc(p, n)] returns, and
    when the result is not null its first [min(s_old, s_new)] payload bytes
    are the bytes [p] held before the call, where [s_old] and [s_new] are
    the payload sizes of the old and of the new block. *)
Theorem realloc_in_range_keeps fuel s p n :
  small_store s -> live s p -> enough fuel s -> 1 <= n <= 2 ^ 64 - 16 ->
  exists r s',
    realloc fuel p n s = Ret r s' /\
    (r <> NULL ->
       forall i, 0 <= i < Z.min (size_at s p - DSIZE) (size_at s' r - DSIZE) ->
         byte_at (mem s') (r + i) = byte_at (mem s) (p + i)).
Proof.
  intros Hs (bs & ls & z & Hinv & Hin) He (Hn0 & Hn1).
  pose proof (invariant_heap_ok _ _ _ Hs Hinv) as Hok.
  pose proof (enough_length _ _ _ _ Hok He) as Hlen.
  destruct (realloc_spec fuel s bs ls p z n Hok Hin ltac:(lia) ltac:(lia) ltac:(lia))
    as (r & s' & bs' & ls' & Hrun & Hok' & _ & Hres).
  exists r, s'. split; [exact Hrun|].
  intros Hnn i Hi. destruct (Hres Hnn) as (z' & Hin' & _ & Hbytes).
  pose proof Hok as ((Hb & _) & _). pose proof Hok' as ((Hb' & _) & _).
  destruct (block_tags _ _ _ _ _ _ Hb Hin (not_in_nil p)) as (_ & _ & T3).
  destruct (block_tags _ _ _ _ _ _ Hb' Hin' (not_in_nil r)) as (_ & _ & T3').
  rewrite T3, T3' in Hi. apply Hbytes. exact Hi.
Qed.

Lemma realloc_in_range_keeps_witness :
  small_store holding /\ live holding first_bp /\ enough 300 holding /\
  1 <= 24 <= 2 ^ 64 - 16 /\
  exists r s',
    realloc 300 first_bp 24 holding = Ret r s' /\
    (r <> NULL ->
       forall i, 0 <= i < Z.min (size_at holding first_bp - DSIZE) (size_at s' r - DSIZE) ->
         byte_at (mem s') (r + i) = byte_at (mem holding) (first_bp + i)).
Proof.
  destruct holding_facts as (Hl & He & Hs).
  split; [exact Hs|]. split; [exact Hl|]. split; [exact He|]. split; [lia|].
  apply (realloc_in_range_keeps 300 holding first_bp 24 Hs Hl He). lia.
Defined.

(** ** Outside the limits of the amended claims *)

(** On a heap that satisfies the invariant set, the first node of a
    non-empty list is a free block of the class of that list. *)
Lemma ready_head_class s i :
  ready s -> 0 <= i <= 9 ->
  get32 (mem s) (seg_lists s + 4 * i) <> 0 ->
  class_of (get32 (mem s)
              (heap_listp s + get32 (mem s) (seg_lists s + 4 * i) - 4)) = i.
Proof.
  intros (bs & ls & (_ & _ & _ & Ht) & (Hl1 & Hl2 & _) & _) Hi Hh.
  destruct (Hl1 i Hi) as (Hrep & _ & _). unfold list_rep in Hrep.
  destruct (ls i) as [|[q sz] l] eqn:El; cbn [map chain fst] in Hrep; [contradiction|].
  destruct Hrep as (_ & Eq & _).
  destruct (Hl2 i q sz Hi) as (Hin & Hc & _); [rewrite El; left; reflexivity|].
  destruct (Ht q sz true Hin (not_in_nil q)) as (Hhd & _).
  rewrite <- Eq, Hhd. exact Hc.
Qed.

(** On a heap that satisfies the invariant set and holds a block, the
    footer of the first block is equal to its header. *)
Lemma ready_first_block s :
  ready s -> mem_start_brk s + 56 <> mem_brk s ->
  get32 (mem s)
    (mem_start_brk s + 56 + 8 * (get32 (mem s) (mem_start_brk s + 52) / 8) - 8) =
  get32 (mem s) (mem_start_brk s + 52).
Proof.
  intros (bs & ls & (_ & _ & Hlaid & Ht) & _) Hne.
  destruct bs as [|[[a sz] fr] bs]; cbn [laid] in Hlaid; [contradiction|].
  destruct Hlaid as (-> & _ & H8 & _).
  destruct (Ht _ sz fr (or_introl eq_refl) (not_in_nil _)) as (Hhd & Hft).
  replace (mem_start_brk s + 56 - 4) with (mem_start_brk s + 52) in Hhd by lia.
  rewrite Hhd.
  replace (8 * (tag sz fr / 8)) with sz; [exact Hft|].
  unfold tag. destruct fr; Z.div_mod_to_equations; lia.
Qed.

Lemma boot_untouched : untouched boot.
Proof.
  unfold untouched, region_ok, boot, fresh.
  cbn [mem_start_brk mem_brk mem_max_addr]. repeat split; try lia; reflexivity.
Qed.

Lemma boot_store : small_store boot.
Proof. unfold small_store, boot, fresh. cbn [mem_start_brk mem_max_addr]. lia. Qed.

Lemma booted_ready : ready booted /\ small_store booted.
Proof.
  destruct (mm_init_spec 100 boot boot_untouched boot_store ltac:(lia))
    as (r & s' & Hrun & _ & Hiff & Hready & _).
  unfold booted, exec. rewrite Hrun.
  destruct Hready as (bs & ls & Hok); [apply Hiff; cbn; lia|].
  split; [exists bs, ls; apply heap_ok_invariant; exact Hok|].
  exact (heap_ok_small _ _ _ Hok).
Qed.

Lemma ten_cases i :
  0 <= i <= 9 ->
  i = 0 \/ i = 1 \/ i = 2 \/ i = 3 \/ i = 4 \/ i = 5 \/ i = 6 \/ i = 7 \/ i = 8 \/ i = 9.
Proof. lia. Qed.

(** The heap that [mm_init] builds on the store of 5 GiB satisfies the
    invariant set: one free block of 4096 bytes, in list 8. *)
Lemma big_booted_ready : ready big_booted.
Proof.
  exists [(first_bp, 4096, true)],
         (fun i => if i =? 8 then [(first_bp, 4096)] else []).
  split; [split; [|split; [|split]]|split; [split; [|split]|]].
  - repeat split; vm_compute; congruence.
  - repeat split; vm_compute; reflexivity.
  - cbn [laid]. repeat split; vm_compute; congruence.
  - intros a sz fr [H|[]] _. inversion H; subst. split; vm_compute; reflexivity.
  - intros i Hi.
    destruct (ten_cases i Hi) as [->|[->|[->|[->|[->|[->|[->|[->|[->| ->]]]]]]]]];
      cbn [Z.eqb Pos.eqb map fst];
      (split; [|split; [cbn; auto|repeat constructor; cbn; auto]]);
      unfold list_rep; cbn [chain]; unfold node_ok;
      repeat split; vm_compute; congruence.
  - intros i q sz Hi Hin. destruct (i =? 8) eqn:E; [|destruct Hin].
    apply Z.eqb_eq in E. destruct Hin as [H|[]]. inversion H; subst.
    split; [left; reflexivity|]. split; [vm_compute; reflexivity|intros []].
  - intros q sz [H|[]] _. inversion H; subst.
    change (class_of 4096) with 8. left. reflexivity.
  - cbn. auto.
Qed.

(** On the same store, after the two requests of 5000 and 4072 bytes the
    invariant set holds too, and the first block is live: two allocated
    blocks of 5008 and 4080 bytes and a free one of 16 bytes, in list 0. *)
Lemma big_two_live : live big_two first_bp.
Proof.
  exists [(first_bp, 5008, false); (first_bp + 5008, 4080, false);
          (first_bp + 9088, 16, true)],
         (fun i => if i =? 0 then [(first_bp + 9088, 16)] else []),
         5008.
  split; [|left; reflexivity].
  split; [split; [|split; [|split]]|split; [split; [|split]|]].
  - repeat split; vm_compute; congruence.
  - repeat split; vm_compute; reflexivity.
  - cbn [laid]. repeat split; vm_compute; congruence.
  - intros a sz fr [H|[H|[H|[]]]] _; inversion H; subst; split; vm_compute; reflexivity.
  - intros i Hi.
    destruct (ten_cases i Hi) as [->|[->|[->|[->|[->|[->|[->|[->|[->| ->]]]]]]]]];
      cbn [Z.eqb Pos.eqb map fst];
      (split; [|split; [cbn; auto|repeat constructor; cbn; auto]]);
      unfold list_rep; cbn [chain]; unfold node_ok;
      repeat split; vm_compute; congruence.
  - intros i q sz Hi Hin. destruct (i =? 0) eqn:E; [|destruct Hin].
    apply Z.eqb_eq in E. destruct Hin as [H|[]]. inversion H; subst.
    split; [right; right; left; reflexivity|]. split; [vm_compute; reflexivity|intros []].
  - intros q sz [H|[H|[H|[]]]] _; inversion H; subst.
    change (class_of 16) with 0. left. reflexivity.
  - cbn. repeat split; auto; discriminate.
Qed.

Lemma big_store_not_small : ~ small_store big_booted.
Proof. unfold small_store. intros H. vm_compute in H. discriminate. Qed.

(** C3 as stated fails, and each limit of the amended claim is needed.  A
    request above [2^64 - 16]: on the fresh heap of a small store, which
    satisfies the invariant set, [malloc(2^64 - 8)] computes an adjusted
    size of 0 and returns the first block after writing a footer of size 0
    onto the footer of the prologue.  A store of 4 GiB or more: on the
    fresh heap of a store of 5 GiB, which satisfies the invariant set too,
    [malloc(2^32 + 100)] returns after leaving a block of 112 bytes in list
    9.  [calloc]: on the fresh heap of the small store, [calloc(1, 8)]
    returns after clearing the footer of its block.  None of the three
    heaps satisfies the invariant set any more. *)
Theorem invariant_broken_outside_limits :
  (small_store booted /\ ready booted /\
   value (malloc 100 (2 ^ 64 - 8)) booted = Some first_bp /\
   get32 (mem wrapped) (first_bp - 12) = 9 /\
   get32 (mem wrapped) (first_bp - 8) = 1 /\
   value (checkheap_violations 100) wrapped =
     Some [SizeMismatch (first_bp - 8); NotCoalesced 8 first_bp] /\
   ~ ready wrapped) /\
  (~ small_store big_booted /\ ready big_booted /\ in_range (2 ^ 32 + 100) /\
   value (malloc 100 (2 ^ 32 + 100)) big_booted = Some first_bp /\
   get32 (mem big_took) (seg_lists big_took + 4 * 9) = 4104 /\
   size_at big_took (heap_listp big_took + 4104) = 112 /\
   class_of 112 = 3 /\
   value (checkheap_violations 100) big_took =
     Some [WrongList 9 (first_bp + 4096); WrongList 9 (first_bp + 112)] /\
   ~ ready big_took) /\
  (value (calloc 100 1 8) booted = Some first_bp /\
   get32 (mem zeroed8) (first_bp - 4) = 17 /\
   get32 (mem zeroed8) (first_bp + 8) = 0 /\
   ~ ready zeroed8).
Proof.
  destruct booted_ready as (Hr & Hs).
  split; [|split].
  - split; [exact Hs|]. split; [exact Hr|].
    do 4 (split; [vm_compute; reflexivity|]).
    intros (bs & ls & (_ & (_ & Hft & _) & _) & _).
    vm_compute in Hft. discriminate.
  - split; [exact big_store_not_small|]. split; [exact big_booted_ready|].
    split; [unfold in_range; lia|].
    do 5 (split; [vm_compute; reflexivity|]).
    intros H. apply (ready_head_class big_took 9) in H; [|lia|vm_compute; congruence].
    vm_compute in H. discriminate.
  - do 3 (split; [vm_compute; reflexivity|]).
    intros H. apply ready_first_block in H; [|vm_compute; congruence].
    vm_compute in H. discriminate.
Qed.

(** C4 as stated fails, and each limit of the amended claim is needed.  A
    request above [2^64 - 16]: asked for [2^64 - 1] bytes on the fresh heap
    of a small store, [malloc] computes an adjusted size of 8, finds the
    initial free block and returns its address as a block of size 8, whose
    payload is empty.  A store of 4 GiB or more: asked for [2^32 + 100]
    bytes on the fresh heap of a store of 5 GiB, [malloc] returns a block
    whose tag holds the size 112, with a payload of 104 bytes. *)
Theorem malloc_payload_short_outside_limits :
  (small_store booted /\ ready booted /\
   adjust (2 ^ 64 - 1) = 8 /\
   value (malloc 100 (2 ^ 64 - 1)) booted = Some first_bp /\
   get32 (mem huge) (first_bp - 4) = 9 /\
   size_at huge first_bp - DSIZE = 0) /\
  (~ small_store big_booted /\ ready big_booted /\
   1 <= 2 ^ 32 + 100 <= 2 ^ 64 - 16 /\
   value (malloc 100 (2 ^ 32 + 100)) big_booted = Some first_bp /\
   get32 (mem big_took) (first_bp - 4) = 113 /\
   size_at big_took first_bp - DSIZE = 104).
Proof.
  destruct booted_ready as (Hr & Hs).
  split.
  - split; [exact Hs|]. split; [exact Hr|]. repeat split; vm_compute; reflexivity.
  - split; [exact big_store_not_small|]. split; [exact big_booted_ready|].
    split; [lia|]. repeat split; vm_compute; reflexivity.
Qed.

(** C5 as stated fails, and each limit of the amended claim is needed.  A
    request above [2^64 - 16]: the old block has 8 bytes of payload,
    20 0 0 0 0 0 0 0; asked for [2^64 - 8] bytes, the allocation inside
    [realloc] succeeds with an adjusted size of 0 and hands out a block
    that stays in its free list, and the release of the old block then
    unlinks that block and rewrites its first eight bytes.  A store of
    4 GiB or more: on the store of 5 GiB the live block at [first_bp] has
    5000 bytes of payload, all zero; asked for [2^32 + 100] bytes,
    [realloc] returns a block with 104 bytes of payload whose byte 20 is
    8. *)
Theorem realloc_loses_payload_outside_limits :
  (bytes patterned first_bp 8 = [20; 0; 0; 0; 0; 0; 0; 0] /\
   size_at patterned first_bp - DSIZE = 8 /\
   adjust (2 ^ 64 - 8) = 0 /\
   value (malloc 100 (2 ^ 64 - 8)) patterned = Some (first_bp + 16) /\
   value (realloc 100 first_bp (2 ^ 64 - 8)) patterned = Some (first_bp + 16) /\
   size_at resized (first_bp + 16) - DSIZE = 4072 /\
   bytes resized (first_bp + 16) 8 = [0; 0; 0; 0; 8; 0; 0; 0]) /\
  (~ small_store big_two /\ live big_two first_bp /\
   1 <= 2 ^ 32 + 100 <= 2 ^ 64 - 16 /\
   size_at big_two first_bp - DSIZE = 5000 /\
   bytes big_two first_bp 24 =
     [0; 0; 0; 0; 0; 0; 0; 0; 0; 0; 0; 0; 0; 0; 0; 0; 0; 0; 0; 0; 0; 0; 0; 0] /\
   value (realloc 100 first_bp (2 ^ 32 + 100)) big_two = Some (first_bp + 9088) /\
   size_at big_moved (first_bp + 9088) - DSIZE = 104 /\
   bytes big_moved (first_bp + 9088) 24 =
     [0; 0; 0; 0; 0; 0; 0; 0; 0; 0; 0; 0; 0; 0; 0; 0; 0; 0; 0; 0; 8; 0; 0; 0]).
Proof.
  split.
  - repeat split; vm_compute; reflexivity.
  - split; [unfold small_store; intros H; vm_compute in H; discriminate|].
    split; [exact big_two_live|]. split; [lia|].
    repeat split; vm_compute; reflexivity.
Qed.


(** ** Heaps on which the checker neither returns nor exits *)

(** After [calloc(1, 8)] the header of the second block is zero: a size of
    zero with the allocated bit clear, which the walk over the blocks takes
    for a block and from which it never moves on. *)
Lemma heap_violations_stuck fuel :
  heap_violations fuel (first_bp + 16) zeroed8 = OutOfFuel.
Proof.
  induction fuel as [|fuel IH]; [reflexivity|].
  cbn [heap_violations].
  assert (Hsz : GET_SIZE (HDRP (first_bp + 16)) zeroed8 = Ret 0 zeroed8)
    by (apply readonly_value; [auto with readonly|vm_compute; reflexivity]).
  assert (Hal : GET_ALLOC (HDRP (first_bp + 16)) zeroed8 = Ret 0 zeroed8)
    by (apply readonly_value; [auto with readonly|vm_compute; reflexivity]).
  assert (Hnx : NEXT_BLKP (first_bp + 16) zeroed8 = Ret (first_bp + 16) zeroed8)
    by (apply readonly_value; [auto with readonly|vm_compute; reflexivity]).
  assert (Hbv : exists l, block_violations (first_bp + 16) zeroed8 = Ret l zeroed8).
  { destruct (value (block_violations (first_bp + 16)) zeroed8) as [l|] eqn:E.
    - exists l. apply readonly_value; [auto with readonly|exact E].
    - vm_compute in E. discriminate. }
  destruct Hbv as (l & Hbv).
  rewrite (run_bind _ _ _ _ _ Hsz). cbn [Z.eqb negb orelse].
  rewrite bind_assoc. rewrite (run_bind _ _ _ _ _ Hal). rewrite bind_ret_l. cbn [Z.eqb].
  rewrite (run_bind _ _ _ _ _ Hbv). rewrite (run_bind _ _ _ _ _ Hnx).
  unfold bind. rewrite IH. reflexivity.
Qed.

Lemma heap_violations_stuck_before fuel :
  heap_violations fuel first_bp zeroed8 = OutOfFuel /\
  heap_violations fuel (first_bp - 8) zeroed8 = OutOfFuel.
Proof.
  assert (H1 : forall fuel, heap_violations fuel first_bp zeroed8 = OutOfFuel).
  { intros [|f]; [reflexivity|]. cbn [heap_violations].
    assert (Hsz : GET_SIZE (HDRP first_bp) zeroed8 = Ret 16 zeroed8)
      by (apply readonly_value; [auto with readonly|vm_compute; reflexivity]).
    assert (Hnx : NEXT_BLKP first_bp zeroed8 = Ret (first_bp + 16) zeroed8)
      by (apply readonly_value; [auto with readonly|vm_compute; reflexivity]).
    assert (Hbv : exists l, block_violations first_bp zeroed8 = Ret l zeroed8).
    { destruct (value (block_violations first_bp) zeroed8) as [l|] eqn:E.
      - exists l. apply readonly_value; [auto with readonly|exact E].
      - vm_compute in E. discriminate. }
    destruct Hbv as (l & Hbv).
    rewrite (run_bind _ _ _ _ _ Hsz). cbn [Z.eqb negb orelse]. rewrite bind_ret_l.
    rewrite (run_bind _ _ _ _ _ Hbv). rewrite (run_bind _ _ _ _ _ Hnx).
    unfold bind. rewrite heap_violations_stuck. reflexivity. }
  split; [apply H1|].
  destruct fuel as [|f]; [reflexivity|]. cbn [heap_violations].
  assert (Hsz : GET_SIZE (HDRP (first_bp - 8)) zeroed8 = Ret 8 zeroed8)
    by (apply readonly_value; [auto with readonly|vm_compute; reflexivity]).
  assert (Hnx : NEXT_BLKP (first_bp - 8) zeroed8 = Ret first_bp zeroed8)
    by (apply readonly_value; [auto with readonly|vm_compute; reflexivity]).
  assert (Hbv : exists l, block_violations (first_bp - 8) zeroed8 = Ret l zeroed8).
  { destruct (value (block_violations (first_bp - 8)) zeroed8) as [l|] eqn:E.
    - exists l. apply readonly_value; [auto with readonly|exact E].
    - vm_compute in E. discriminate. }
  destruct Hbv as (l & Hbv).
  rewrite (run_bind _ _ _ _ _ Hsz). cbn [Z.eqb negb orelse]. rewrite bind_ret_l.
  rewrite (run_bind _ _ _ _ _ Hbv). rewrite (run_bind _ _ _ _ _ Hnx).
  unfold bind. rewrite H1. reflexivity.
Qed.

(** The checker does not always return or exit.  On a heap that was never
    initialised its first read is at address -4, outside the region, and
    it faults; after [calloc(1, 8)] it walks the blocks for ever, whatever
    the number of steps it is given. *)
Lemma mm_checkheap_faults_or_never_ends :
  mm_checkheap 100 398 boot = Fault /\
  forall fuel, mm_checkheap fuel 398 zeroed8 = OutOfFuel.
Proof.
  split; [vm_compute; reflexivity|].
  intros fuel.
  assert (Hv : checkheap_violations fuel zeroed8 = OutOfFuel).
  { unfold checkheap_violations, bind, get_heap_listp, get_seg_lists.
    change (heap_listp zeroed8) with (first_bp - 8).
    rewrite (proj2 (heap_violations_stuck_before fuel)). reflexivity. }
  unfold mm_checkheap.
  rewrite (bind_subst _ _ _ _ _ (checkheap_flag_violations fuel)).
  unfold bind. rewrite Hv. reflexivity.
Qed.

(** ** Macros and size classes *)

Lemma tag_inj sz fr sz' fr' :
  sz mod 8 = 0 -> sz' mod 8 = 0 -> tag sz fr = tag sz' fr' -> sz = sz' /\ fr = fr'.
Proof.
  intros H1 H2 E. unfold tag in E.
  destruct fr, fr'; split; try reflexivity;
    try (exfalso; Z.div_mod_to_equations; lia); Z.div_mod_to_equations; lia.
Qed.

(** The memory determines the layout. *)
Lemma laid_unique m bs : forall bs' q e,
  laid q bs e -> laid q bs' e -> tags m bs [] -> tags m bs' [] -> bs = bs'.
Proof.
  induction bs as [|[[a sz] fr] bs IH]; intros bs' q e L L' T T'.
  - destruct bs' as [|[[a' sz'] fr'] bs']; [reflexivity|].
    cbn [laid] in L, L'. destruct L' as (_ & ? & _ & L'). apply laid_le in L'. lia.
  - destruct bs' as [|[[a' sz'] fr'] bs'].
    + cbn [laid] in L, L'. destruct L as (_ & ? & _ & L). apply laid_le in L. lia.
    + cbn [laid] in L, L'.
      destruct L as (-> & H16 & H8 & L). destruct L' as (-> & H16' & H8' & L').
      destruct (T q sz fr (or_introl eq_refl) (not_in_nil q)) as (E1 & _).
      destruct (T' q sz' fr' (or_introl eq_refl) (not_in_nil q)) as (E1' & _).
      rewrite E1 in E1'. destruct (tag_inj _ _ _ _ H8 H8' E1') as (-> & ->).
      f_equal. apply (IH bs' (q + sz') e); auto.
      * intros b z f Hin HT. apply T; [right; exact Hin|exact HT].
      * intros b z f Hin HT. apply T'; [right; exact Hin|exact HT].
Qed.

Lemma layout_unique s bs ls bs' ls' :
  heap_ok s bs ls -> heap_ok s bs' ls' -> bs = bs'.
Proof.
  intros (((_ & _ & L & T) & _) & _) (((_ & _ & L' & T') & _) & _).
  eapply laid_unique; eauto.
Qed.

(** X1: [aligned] accepts exactly the multiples of 8. *)
Theorem aligned_iff_multiple_of_8 p : aligned p = true <-> p mod 8 = 0.
Proof.
  unfold aligned, ALIGN, ALIGNMENT. rewrite land_lnot7. unfold size_t.
  rewrite Z.eqb_eq. change (2 ^ 64) with 18446744073709551616.
  split; intros H; Z.div_mod_to_equations; lia.
Qed.

(** X2: [ALIGN] rounds up to the next multiple of 8, and wraps around to 0
    in the last seven values of [size_t]. *)
Theorem ALIGN_rounds_up_or_wraps p :
  0 <= p < 2 ^ 64 ->
  ALIGN p mod 8 = 0 /\
  (p <= 2 ^ 64 - 8 -> p <= ALIGN p < p + 8) /\
  (2 ^ 64 - 8 < p -> ALIGN p = 0).
Proof.
  intros Hp. unfold ALIGN, ALIGNMENT. rewrite land_lnot7. unfold size_t.
  change (2 ^ 64) with 18446744073709551616 in *.
  repeat split; intros; Z.div_mod_to_equations; lia.
Qed.

Lemma ALIGN_rounds_up_or_wraps_witness :
  0 <= 2 ^ 64 - 3 < 2 ^ 64 /\
  ALIGN (2 ^ 64 - 3) mod 8 = 0 /\
  (2 ^ 64 - 3 <= 2 ^ 64 - 8 -> 2 ^ 64 - 3 <= ALIGN (2 ^ 64 - 3) < 2 ^ 64 - 3 + 8) /\
  (2 ^ 64 - 8 < 2 ^ 64 - 3 -> ALIGN (2 ^ 64 - 3) = 0).
Proof.
  split; [lia|]. apply (ALIGN_rounds_up_or_wraps (2 ^ 64 - 3)). lia.
Defined.

(** X3: the offsets kept in the lists decode to the pointer they were made
    from exactly when the pointer is less than 4 GiB above the base; an
    offset of 0 is the null pointer; and a nonzero offset is recovered from
    the pointer it decodes to. *)
Theorem offset_codec_round_trip base :
  0 <= base < 2 ^ 64 ->
  B2P base 0 = NULL /\
  (forall p, base < p < 2 ^ 64 ->
     (B2P base (P2B base p) = p <-> p - base < 2 ^ 32)) /\
  (forall b, 0 < b < 2 ^ 32 -> base + b < 2 ^ 64 -> P2B base (B2P base b) = b).
Proof.
  intros Hb. split; [reflexivity|]. split.
  - intros p Hp. unfold B2P, P2B, u_32, size_t, NULL.
    rewrite (Z.mod_small p) by lia. rewrite (Z.mod_small base) by lia.
    rewrite (Z.mod_small (p - base)) by lia.
    assert (Hm : 0 <= (p - base) mod 2 ^ 32 < 2 ^ 32) by (apply Z.mod_pos_bound; lia).
    rewrite (Z.mod_small ((p - base) mod 2 ^ 32)) by lia.
    destruct (Z_lt_le_dec (p - base) (2 ^ 32)) as [Hlt|Hge].
    + rewrite (Z.mod_small (p - base)) by lia.
      replace (p - base >? 0) with true by (symmetry; apply Z.gtb_lt; lia).
      rewrite Z.mod_small by lia. split; intros; lia.
    + assert ((p - base) mod 2 ^ 32 <= p - base - 2 ^ 32).
      { change (2 ^ 32) with 4294967296 in *. Z.div_mod_to_equations. lia. }
      destruct ((p - base) mod 2 ^ 32 >? 0).
      * rewrite Z.mod_small by lia. split; intros; lia.
      * split; intros; lia.
  - intros b Hb0 Hb1. rewrite B2P_pos by lia. rewrite P2B_sub by lia. lia.
Qed.

Lemma offset_codec_round_trip_witness :
  0 <= 65584 < 2 ^ 64 /\
  B2P 65584 0 = NULL /\
  (forall p, 65584 < p < 2 ^ 64 ->
     (B2P 65584 (P2B 65584 p) = p <-> p - 65584 < 2 ^ 32)) /\
  (forall b, 0 < b < 2 ^ 32 -> 65584 + b < 2 ^ 64 -> P2B 65584 (B2P 65584 b) = b).
Proof.
  split; [lia|]. apply (offset_codec_round_trip 65584). lia.
Defined.

(** X4: a tag written with [PUT] and [PACK] is read back by [GET_SIZE] and
    [GET_ALLOC] as the size modulo [2^32] and the allocation bit. *)
Theorem tag_write_read s p sz a :
  mem_start_brk s <= p -> p + 4 <= mem_brk s ->
  0 <= sz -> sz mod 8 = 0 -> a = 0 \/ a = 1 ->
  (PUT p (PACK sz a) ;; x <- GET_SIZE p ;; y <- GET_ALLOC p ;; ret (x, y)) s =
  Ret (sz mod 2 ^ 32, a) (set_mem s (set32 (mem s) p (u_32 (PACK sz a)))).
Proof.
  intros H1 H2 Hsz H8 Ha.
  assert (Hp : PACK sz a = sz + a).
  { destruct Ha as [-> | ->]; [rewrite PACK_free; lia|apply PACK_alloc; assumption]. }
  unfold PUT. rewrite bind_store32 by assumption.
  rewrite (run_bind _ _ _ _ _
             (GET_SIZE_run (set_mem s (set32 (mem s) p (u_32 (PACK sz a)))) p H1 H2)).
  rewrite (run_bind _ _ _ _ _
             (GET_ALLOC_run (set_mem s (set32 (mem s) p (u_32 (PACK sz a)))) p H1 H2)).
  cbn [mem set_mem]. rewrite get32_set32_same. unfold ret. f_equal.
  rewrite land_lnot7, land_1, Hp. unfold u_32.
  change (2 ^ 32) with 4294967296.
  f_equal; destruct Ha as [-> | ->]; Z.div_mod_to_equations; lia.
Qed.

Lemma tag_write_read_witness :
  (PUT first_bp (PACK (2 ^ 32 + 24) 1) ;;
   x <- GET_SIZE first_bp ;; y <- GET_ALLOC first_bp ;; ret (x, y)) started =
  Ret ((2 ^ 32 + 24) mod 2 ^ 32, 1)
      (set_mem started (set32 (mem started) first_bp (u_32 (PACK (2 ^ 32 + 24) 1)))).
Proof.
  apply (tag_write_read started first_bp (2 ^ 32 + 24) 1).
  - vm_compute. discriminate.
  - vm_compute. discriminate.
  - lia.
  - reflexivity.
  - right. reflexivity.
Defined.

(** X5: the list index that [add_to_list] and [remove_from_list] compute
    for a size is the least [k] with [asize <= 16 * 2^k], and 9 when there
    is none below 9; it never decreases when the size grows. *)
Theorem list_index_of_classes asize :
  0 <= list_index_of asize <= 9 /\
  (list_index_of asize < 9 -> asize <= 16 * 2 ^ list_index_of asize) /\
  (forall j, 0 <= j < list_index_of asize -> 16 * 2 ^ j < asize) /\
  (forall bsize, asize <= bsize -> list_index_of asize <= list_index_of bsize).
Proof.
  rewrite list_index_of_class.
  destruct (class_of_facts asize) as (H1 & H2 & H3). unfold class_bound in *.
  split; [exact H1|]. split; [exact H3|]. split; [exact H2|].
  intros bsize Hle. rewrite list_index_of_class.
  destruct (class_of_facts bsize) as (B1 & B2 & B3). unfold class_bound in *.
  destruct (Z_le_gt_dec (class_of asize) (class_of bsize)) as [?|Hgt]; [assumption|].
  specialize (H2 (class_of bsize) ltac:(lia)). specialize (B3 ltac:(lia)). lia.
Qed.

(** ** Placement, with the layout it leaves *)

Lemma place_exact fuel s bs ls pre post bp bsz asize :
  heap_ok s bs ls -> bs = pre ++ (bp, bsz, true) :: post ->
  16 <= asize <= bsz -> asize mod 8 = 0 -> (length bs + 1 < fuel)%nat ->
  exists m' ls',
    place fuel bp asize s = Ret bp (set_mem s m') /\
    heap_ok (set_mem s m') (placed pre bp bsz asize post) ls' /\
    confined (mem s) m' (free_area s bs).
Proof.
  intros (Hcore & Hco) E Hsz Hmod Hfuel.
  assert (Hin : In (bp, bsz, true) bs) by (rewrite E; in_all).
  pose proof Hcore as (Hb & Hl).
  pose proof Hb as (Hg & _ & Hlaid & _).
  pose proof Hg as (Hr & G8 & Gseg & Ghl & G56 & Gcap).
  destruct (block_facts _ _ _ _ _ _ Hb Hin) as (F1 & F2 & F3 & F4 & F5 & F6 & F7 & F8).
  destruct (block_addr _ _ _ Hb _ _ _ Hin) as (A1 & A2).
  destruct (hdr_run _ _ _ Hb _ _ _ Hin (not_in_nil bp)) as (G1 & _).
  destruct (core_remove _ _ _ _ _ _ _ Hcore Hin (not_in_nil bp))
    as (m1 & ls1 & R1 & C1 & Fr1).
  pose proof C1 as (Hb1 & Hl1).
  assert (Fr1' : confined (mem s) m1 (free_area s bs)).
  { eapply confined_weaken; [|exact Fr1]. intros x. apply (links_in_free_area _ _ _ _ Hb). }
  unfold place. rewrite (run_bind _ _ _ _ _ G1). cbv zeta.
  rewrite (size_t_small (bsz - asize)) by lia.
  rewrite (run_bind _ _ _ _ _ R1).
  pose proof (region_ok_set_mem s m1 Hr) as Hr1.
  unfold DSIZE. change (2 * 8) with 16. unfold placed.
  destruct (bsz - asize <? 16) eqn:Ed.
  - apply Z.ltb_lt in Ed.
    rewrite (put_tags_run _ bp bsz false) by (side || (apply u_32_PACK_alloc; lia)).
    unfold ret. simp_state.
    exists (retag m1 bp bsz false), ls1.
    split; [reflexivity|]. split.
    + split; [|apply coalesced_flip; rewrite <- E; exact Hco].
      rewrite E in Hlaid.
      pose proof (laid_flip _ _ _ _ _ false _ _ Hlaid) as Hlaid'.
      replace (set_mem s (retag m1 bp bsz false))
        with (set_mem (set_mem s m1) (retag (mem (set_mem s m1)) bp bsz false))
        by (simp_state; reflexivity).
      apply (core_retag _ bs ls1 [bp] [] _ [] []); auto.
      * in_all.
      * intros b z f Hbin Hne _. split; [|apply not_in_nil].
        rewrite E. apply in_app_or in Hbin. destruct Hbin as [?|[Heq|?]]; [in_all| |in_all].
        inversion Heq; subst; contradiction.
      * intros q z Hq NU. split; [|apply not_in_nil].
        rewrite E in Hq. apply in_app_or in Hq. destruct Hq as [?|[Heq|?]]; [in_all| |in_all].
        inversion Heq; subst. exfalso. apply NU. left; reflexivity.
      * intros q z Hq _.
        destruct (mid_unique _ _ _ _ _ _ _ _ _ _ Hlaid' Hq) as [(_ & _ & Hf)|(Hne & Hd)];
          [discriminate|].
        split; [rewrite E; in_all|intros [->|[]]; contradiction].
    + eapply confined_trans; [exact Fr1'|].
      eapply confined_weaken; [|apply confined_retag].
      intros x Hx. right; left. exists bp, bsz. split; [exact Hin|].
      unfold word in Hx. lia.
  - apply Z.ltb_ge in Ed.
    set (nx := bp + asize). set (delta := bsz - asize).
    rewrite (put_tags_run _ bp asize false) by (side || (apply u_32_PACK_alloc; lia)).
    simp_state.
    set (m2 := retag m1 bp asize false).
    set (bs2 := pre ++ (bp, asize, false) :: (nx, delta, true) :: post).
    rewrite E in Hlaid.
    assert (Hlaid2 : laid (mem_start_brk s + 56) bs2 (mem_brk s))
      by (apply (laid_cut _ pre bp bsz true post _ asize); auto; lia).
    assert (Hin2 : In (bp, asize, false) bs2) by (unfold bs2; in_all).
    assert (Hnx : In (nx, delta, true) bs2) by (unfold bs2; in_all).
    assert (C2 : core (set_mem s m2) bs2 ls1 [nx] [nx]).
    { replace (set_mem s m2)
        with (set_mem (set_mem s m1) (retag (mem (set_mem s m1)) bp asize false))
        by (simp_state; reflexivity).
      apply (core_retag _ bs ls1 [bp] [] _ [nx] [nx]); auto.
      - intros b z f Hbin Hne HT. split; [|apply not_in_nil].
        rewrite E. unfold bs2 in Hbin. apply in_app_or in Hbin.
        destruct Hbin as [?|[Heq|[Heq|?]]]; [in_all| | |in_all].
        + inversion Heq; subst; contradiction.
        + inversion Heq; subst. exfalso. apply HT. left; reflexivity.
      - intros q z Hq NU. rewrite E in Hq.
        destruct (mid_unique _ _ _ _ _ _ _ _ _ _ Hlaid Hq) as [(-> & _)|(Hne & Hd)].
        + exfalso. apply NU. left; reflexivity.
        + split; [unfold bs2; clear - Hd; in_all|].
          intros [Heq|[]]. unfold nx in Heq.
          destruct Hd as [(Hq1 & ?)|(Hq1 & ?)]; [|lia].
          destruct (laid_mid _ _ _ _ _ _ _ Hlaid) as (L1 & _).
          destruct (laid_in _ _ _ _ _ _ L1 Hq1) as (_ & _ & ? & _). lia.
      - intros q z Hq NU. unfold bs2 in Hq. apply in_app_or in Hq.
        destruct Hq as [Hq|[Heq|[Heq|Hq]]].
        + assert (Hq' : In (q, z, true) bs) by (rewrite E; in_all).
          split; [exact Hq'|]. intros [<-|[]].
          destruct (blocks_unique _ _ _ _ _ _ _ _ Hb Hin Hq') as (_ & _).
          destruct (laid_mid _ _ _ _ _ _ _ Hlaid) as (L1 & _).
          destruct (laid_in _ _ _ _ _ _ L1 Hq) as (_ & ? & ? & _). lia.
        + discriminate.
        + inversion Heq; subst. exfalso. apply NU. left; reflexivity.
        + assert (Hq' : In (q, z, true) bs) by (rewrite E; in_all).
          split; [exact Hq'|]. intros [<-|[]].
          destruct (laid_mid _ _ _ _ _ _ _ Hlaid) as (_ & L2 & _).
          destruct (laid_in _ _ _ _ _ _ L2 Hq) as (? & _). lia. }
    pose proof C2 as (Hb2 & Hl2).
    assert (HnT : ~ In bp [nx]) by (intros [Heq|[]]; unfold nx in Heq; lia).
    destruct (hdr_run _ _ _ Hb2 _ _ _ Hin2 HnT) as (_ & _ & _ & N2).
    rewrite (run_bind _ _ _ _ _ N2). fold nx.
    destruct (core_add fuel _ _ _ [] [nx] nx delta C2 Hnx (not_in_nil nx))
      as (m3 & ls3 & R3 & C3 & Fr3).
    { auto. }
    { unfold bs2. rewrite E in Hfuel. rewrite length_app in *. cbn [length] in *. lia. }
    rewrite (run_bind _ _ _ _ _ R3). simp_state.
    pose proof C3 as (Hb3 & Hl3). simp_state_in Hb3.
    destruct (hdr_run _ _ _ Hb3 _ _ _ Hin2 HnT) as (_ & _ & _ & N3).
    rewrite (run_bind _ _ _ _ _ N3). fold nx.
    pose proof (region_ok_set_mem s m3 Hr) as Hr3.
    fold delta.
    assert (D8 : delta mod 8 = 0) by (unfold delta; rewrite Zminus_mod, F4, Hmod; reflexivity).
    rewrite (put_tags_run2 _ nx delta true).
    all: try (side || (unfold nx, delta; side) || (apply u_32_PACK_free; unfold delta; lia)).
    2:{ cbv zeta. unfold NEXT_BLKP. change (padd bp (- WSIZE)) with (HDRP bp).
        rewrite HDRP_small by lia.
        erewrite run_bind; [|rewrite GET_SIZE_run by side; reflexivity].
        cbn [mem set_mem]. unfold ret.
        rewrite get32_set32_other by (unfold nx; lia).
        destruct (block_tags _ _ _ _ _ _ Hb3 Hin2 HnT) as (T1 & _).
        cbn [mem set_mem] in T1. rewrite T1. rewrite tag_size by assumption.
        rewrite padd_small by lia. reflexivity. }
    unfold ret. simp_state.
    exists (retag m3 nx delta true), ls3.
    split; [reflexivity|]. split.
    + split; [|apply coalesced_cut; rewrite <- E; exact Hco].
      fold bs2.
      replace (set_mem s (retag m3 nx delta true))
        with (set_mem (set_mem s m3) (retag (mem (set_mem s m3)) nx delta true))
        by (simp_state; reflexivity).
      apply (core_retag _ bs2 ls3 [] [nx] _ [] []); auto.
      * intros b z f Hbin Hne _. split; [exact Hbin|]. intros [Heq|[]]. congruence.
    + eapply confined_trans; [exact Fr1'|].
      apply (confined_trans _ m2); [|apply (confined_trans _ m3)].
      * eapply confined_weaken; [|apply confined_retag].
        intros x Hx. right; left. exists bp, bsz. split; [exact Hin|].
        unfold word in Hx. lia.
      * eapply confined_weaken; [|exact Fr3].
        intros x [Hx|(q & z & Hq & Hx)]; [left; exact Hx|].
        right; left. unfold bs2 in Hq. apply in_app_or in Hq.
        destruct Hq as [Hq|[Heq|[Heq|Hq]]].
        -- assert (Hq' : In (q, z, true) bs) by (rewrite E; in_all).
           destruct (block_facts _ _ _ _ _ _ Hb Hq') as (_ & _ & ? & _).
           exists q, z. split; [exact Hq'|lia].
        -- discriminate.
        -- inversion Heq; subst q z. exists bp, bsz. split; [exact Hin|].
           unfold nx, delta in *. lia.
        -- assert (Hq' : In (q, z, true) bs) by (rewrite E; in_all).
           destruct (block_facts _ _ _ _ _ _ Hb Hq') as (_ & _ & ? & _).
           exists q, z. split; [exact Hq'|lia].
      * eapply confined_weaken; [|apply confined_retag].
        intros x Hx. right; left. exists bp, bsz. split; [exact Hin|].
        unfold word, nx, delta in Hx. lia.
Qed.

(** ** Coalescing, with the layout it leaves *)

Section CoalesceExact.
Variables (fuel : nat) (s : state) (bs : list block) (ls : Z -> list (Z * Z)).
Variables (pre post : list block) (bp sz : Z).
Hypothesis Hcore : core s bs ls [] [].
Hypothesis E : bs = pre ++ (bp, sz, true) :: post.
Hypothesis Hco : coalesced (pre ++ (bp, sz, false) :: post).
Hypothesis Hfuel : (length bs < fuel)%nat.

Lemma coalesce_exact_none :
  last_free pre = false -> head_free post = false -> coalesce_exact_post fuel s bs pre bp sz post.
Proof.
  intros Epf Enf.
  assert (Hin : In (bp, sz, true) bs) by (rewrite E; in_all).
  pose proof Hcore as (Hb & Hl).
  destruct (hdr_run _ _ _ Hb _ _ _ Hin (not_in_nil bp)) as (G1 & _).
  destruct (prev_run _ _ _ Hb _ _ _ _ _ E (fun b z f _ => not_in_nil b)) as (pv & P1 & P2 & _).
  destruct (next_run _ _ _ Hb _ _ _ _ _ E (not_in_nil bp) (fun b z f _ => not_in_nil b))
    as (N1 & N2 & _).
  assert (Elay : coalesced_layout pre bp sz post = bs).
  { unfold coalesced_layout, coalesced_ptr. rewrite Epf, Enf. cbv zeta.
    replace (0 + sz + 0) with sz by lia. symmetry. exact E. }
  assert (Eptr : coalesced_ptr pre bp = bp) by (unfold coalesced_ptr; rewrite Epf; reflexivity).
  unfold coalesce_exact_post. rewrite Elay, Eptr.
  exists (mem s), ls.
  split.
  { unfold coalesce.
    rewrite (run_bind _ _ _ _ _ P1), (run_bind _ _ _ _ _ P2).
    rewrite (run_bind _ _ _ _ _ N1), (run_bind _ _ _ _ _ N2).
    rewrite (run_bind _ _ _ _ _ G1).
    rewrite Epf, Enf. change (1 =? 0) with false. cbn [negb andb].
    rewrite set_mem_same. reflexivity. }
  rewrite set_mem_same.
  split.
  { split; [exact Hcore|]. rewrite E. revert Hco. rewrite !coalesced_app.
    cbn [coalesced head_free is_free snd]. rewrite Epf, Enf.
    intros (H1 & (H2 & H3) & H4). repeat split; auto; discriminate. }
  apply confined_refl.
Qed.

Lemma coalesce_exact_next :
  last_free pre = false -> head_free post = true -> coalesce_exact_post fuel s bs pre bp sz post.
Proof.
  intros Epf Enf.
  assert (Hin : In (bp, sz, true) bs) by (rewrite E; in_all).
  pose proof Hcore as (Hb & Hl).
  pose proof Hb as (Hg & _ & Hlaid & _).
  destruct (hdr_run _ _ _ Hb _ _ _ Hin (not_in_nil bp)) as (G1 & _).
  destruct (prev_run _ _ _ Hb _ _ _ _ _ E (fun b z f _ => not_in_nil b)) as (pv & P1 & P2 & _).
  destruct (next_run _ _ _ Hb _ _ _ _ _ E (not_in_nil bp) (fun b z f _ => not_in_nil b))
    as (N1 & N2 & _).
  destruct (head_free_cons _ Enf) as (nx & nsz & post' & Epost).
  assert (Enx : nx = bp + sz).
  { rewrite E, Epost in Hlaid. apply laid_mid in Hlaid. destruct Hlaid as (_ & L & _).
    cbn [laid] in L. lia. }
  assert (Hnx : In (nx, nsz, true) bs) by (rewrite E, Epost; in_all).
  destruct (hdr_run _ _ _ Hb _ _ _ Hnx (not_in_nil nx)) as (G2 & _).
  destruct (block_facts _ _ _ _ _ _ Hb Hin) as (F1 & F2 & F3 & F4 & F5 & F6 & F7 & F8).
  destruct (block_facts _ _ _ _ _ _ Hb Hnx) as (X1 & X2 & X3 & X4 & X5 & X6 & X7 & X8).
  destruct (block_addr _ _ _ Hb _ _ _ Hnx) as (A1 & A2).
  (* the two removals *)
  destruct (core_remove _ _ _ _ _ _ _ Hcore Hin (not_in_nil bp))
    as (m1 & ls1 & R1 & C1 & Fr1).
  pose proof C1 as (Hb1 & _).
  destruct (hdr_run _ _ _ Hb1 _ _ _ Hin (not_in_nil bp)) as (_ & _ & _ & N1').
  assert (Hnb : ~ In nx [bp]) by (intros [?|[]]; lia).
  destruct (core_remove _ _ _ _ _ _ _ C1 Hnx Hnb) as (m2 & ls2 & R2 & C2 & Fr2).
  simp_state_in R2. simp_state_in C2. simp_state_in Fr2.
  assert (Ebs : bs = pre ++ [(bp, sz, true); (nx, nsz, true)] ++ post')
    by (rewrite E, Epost; reflexivity).
  rewrite Ebs in C2, Hfuel.
  destruct (merge_finish fuel _ _ _ pre [(bp, sz, true); (nx, nsz, true)] post' bp (sz + nsz) C2)
    as (m3 & ls3 & R3 & C3 & Fr3); auto.
  { discriminate. }
  { cbn [laid]. repeat split; auto; lia. }
  { intros b [<-|[<-|[]]]; reflexivity. }
  { intros q. split.
    - intros [<-|[<-|[]]]; eauto 6 with datatypes.
    - intros (zq & fq & [Heq|[Heq|[]]]); inversion Heq; subst; in_all. }
  simp_state_in R3. simp_state_in C3. simp_state_in Fr3.
  assert (Fr3' : confined m2 m3 (free_area s bs))
    by (eapply confined_weaken; [|exact Fr3]; intros x Hx; rewrite Ebs; exact Hx).
  assert (Elay : coalesced_layout pre bp sz post = pre ++ (bp, sz + nsz, true) :: post').
  { unfold coalesced_layout, coalesced_ptr. rewrite Epf, Enf, Epost. cbn [tl hd fst snd]. cbv zeta.
    replace (0 + sz + nsz) with (sz + nsz) by lia. reflexivity. }
  assert (Eptr : coalesced_ptr pre bp = bp) by (unfold coalesced_ptr; rewrite Epf; reflexivity).
  unfold coalesce_exact_post. rewrite Elay, Eptr.
  exists m3, ls3.
  split.
  { unfold coalesce.
    rewrite (run_bind _ _ _ _ _ P1), (run_bind _ _ _ _ _ P2).
    rewrite (run_bind _ _ _ _ _ N1), (run_bind _ _ _ _ _ N2).
    rewrite (run_bind _ _ _ _ _ G1).
    rewrite Epf, Enf. change (1 =? 0) with false. change (0 =? 0) with true.
    cbn [negb andb].
    rewrite (run_bind _ _ _ _ _ N1). rewrite <- Enx. rewrite (run_bind _ _ _ _ _ G2).
    rewrite (run_bind _ _ _ _ _ R1). rewrite (run_bind _ _ _ _ _ N1'). rewrite <- Enx.
    rewrite (run_bind _ _ _ _ _ R2). cbv zeta.
    rewrite (size_t_small (sz + nsz)) by lia.
    exact R3. }
  split.
  { split; [exact C3|]. revert Hco. rewrite Epost. rewrite !coalesced_app.
    cbn [coalesced head_free is_free snd]. rewrite Epf.
    intros (H1 & (H2 & H3 & H4) & H5). repeat split; auto; discriminate. }
  assert (Fr1' : confined (mem s) m1 (free_area s bs)).
  { eapply confined_weaken; [|exact Fr1]. intros x. apply (links_in_free_area _ _ _ _ Hb). }
  assert (Fr2' : confined m1 m2 (free_area s bs)).
  { eapply confined_weaken; [|exact Fr2]. intros x. apply (links_in_free_area _ _ _ _ Hb). }
  eauto using confined_trans.
Qed.

Lemma coalesce_exact_prev :
  last_free pre = true -> head_free post = false -> coalesce_exact_post fuel s bs pre bp sz post.
Proof.
  intros Epf Enf.
  assert (Hin : In (bp, sz, true) bs) by (rewrite E; in_all).
  pose proof Hcore as (Hb & Hl).
  pose proof Hb as (Hg & _ & Hlaid & _).
  destruct (hdr_run _ _ _ Hb _ _ _ Hin (not_in_nil bp)) as (G1 & _).
  destruct (next_run _ _ _ Hb _ _ _ _ _ E (not_in_nil bp) (fun b z f _ => not_in_nil b))
    as (N1 & N2 & _).
  destruct (last_free_snoc_inv _ Epf) as (pre' & pv & psz & Epre).
  assert (Ebs' : bs = pre' ++ (pv, psz, true) :: (bp, sz, true) :: post)
    by (rewrite E, Epre, <- app_assoc; reflexivity).
  assert (Hpv : In (pv, psz, true) bs) by (rewrite Ebs'; in_all).
  destruct (prev_blk _ _ _ _ _ _ _ _ _ _ _ Hb Ebs' (not_in_nil pv)) as (P1 & Epv).
  destruct (hdr_run _ _ _ Hb _ _ _ Hpv (not_in_nil pv)) as (G2 & P2 & _).
  destruct (block_facts _ _ _ _ _ _ Hb Hin) as (F1 & F2 & F3 & F4 & F5 & F6 & F7 & F8).
  destruct (block_facts _ _ _ _ _ _ Hb Hpv) as (X1 & X2 & X3 & X4 & X5 & X6 & X7 & X8).
  destruct (block_addr _ _ _ Hb _ _ _ Hin) as (A1 & A2).
  (* the two removals *)
  destruct (core_remove _ _ _ _ _ _ _ Hcore Hin (not_in_nil bp))
    as (m1 & ls1 & R1 & C1 & Fr1).
  pose proof C1 as (Hb1 & _).
  destruct (prev_blk _ _ _ _ _ _ _ _ _ _ _ Hb1 Ebs' (not_in_nil pv)) as (P1' & _).
  assert (Hnb : ~ In pv [bp]) by (intros [?|[]]; lia).
  destruct (core_remove _ _ _ _ _ _ _ C1 Hpv Hnb) as (m2 & ls2 & R2 & C2 & Fr2).
  simp_state_in R2. simp_state_in C2. simp_state_in Fr2.
  pose proof C2 as (Hb2 & _).
  destruct (prev_blk _ _ _ _ _ _ _ _ _ _ _ Hb2 Ebs' (not_in_nil pv)) as (P1'' & _).
  assert (Ebs : bs = pre' ++ [(pv, psz, true); (bp, sz, true)] ++ post)
    by (rewrite Ebs'; reflexivity).
  rewrite Ebs in C2, Hfuel.
  destruct (merge_finish fuel _ _ _ pre' [(pv, psz, true); (bp, sz, true)] post pv (sz + psz) C2)
    as (m3 & ls3 & R3 & C3 & Fr3); auto.
  { discriminate. }
  { cbn [laid]. repeat split; auto; lia. }
  { intros b [<-|[<-|[]]]; reflexivity. }
  { intros q. split.
    - intros [<-|[<-|[]]]; eauto 6 with datatypes.
    - intros (zq & fq & [Heq|[Heq|[]]]); inversion Heq; subst; in_all. }
  simp_state_in R3. simp_state_in C3. simp_state_in Fr3.
  assert (Fr3' : confined m2 m3 (free_area s bs))
    by (eapply confined_weaken; [|exact Fr3]; intros x Hx; rewrite Ebs; exact Hx).
  assert (Elay : coalesced_layout pre bp sz post = pre' ++ (pv, sz + psz, true) :: post).
  { unfold coalesced_layout, coalesced_ptr. rewrite Epf, Enf, Epre. rewrite removelast_last, last_last. cbn [fst snd]. cbv zeta.
    replace (psz + sz + 0) with (sz + psz) by lia. reflexivity. }
  assert (Eptr : coalesced_ptr pre bp = pv) by (unfold coalesced_ptr; rewrite Epf, Epre, last_last; reflexivity).
  unfold coalesce_exact_post. rewrite Elay, Eptr.
  exists m3, ls3.
  split.
  { unfold coalesce.
    rewrite (run_bind _ _ _ _ _ P1), (run_bind _ _ _ _ _ P2).
    rewrite (run_bind _ _ _ _ _ N1), (run_bind _ _ _ _ _ N2).
    rewrite (run_bind _ _ _ _ _ G1).
    rewrite Enf. change (1 =? 0) with false. change (0 =? 0) with true.
    cbn [negb andb].
    rewrite (run_bind _ _ _ _ _ P1). rewrite (run_bind _ _ _ _ _ G2).
    rewrite (run_bind _ _ _ _ _ R1). rewrite (run_bind _ _ _ _ _ P1').
    rewrite (run_bind _ _ _ _ _ R2). cbv zeta.
    rewrite (size_t_small (sz + psz)) by lia.
    rewrite (run_bind _ _ _ _ _ P1'').
    exact R3. }
  split.
  { split; [exact C3|]. revert Hco. rewrite Epre. rewrite !coalesced_app.
    cbn [coalesced head_free is_free snd]. rewrite Enf.
    intros ((H1 & H2 & H3) & (H4 & H5) & H6). repeat split; auto. }
  assert (Fr1' : confined (mem s) m1 (free_area s bs)).
  { eapply confined_weaken; [|exact Fr1]. intros x. apply (links_in_free_area _ _ _ _ Hb). }
  assert (Fr2' : confined m1 m2 (free_area s bs)).
  { eapply confined_weaken; [|exact Fr2]. intros x. apply (links_in_free_area _ _ _ _ Hb). }
  eauto using confined_trans.
Qed.

Lemma coalesce_exact_both :
  last_free pre = true -> head_free post = true -> coalesce_exact_post fuel s bs pre bp sz post.
Proof.
  intros Epf Enf.
  assert (Hin : In (bp, sz, true) bs) by (rewrite E; in_all).
  pose proof Hcore as (Hb & Hl).
  pose proof Hb as (Hg & _ & Hlaid & _).
  destruct (hdr_run _ _ _ Hb _ _ _ Hin (not_in_nil bp)) as (G1 & _ & _ & N1).
  destruct (head_free_cons _ Enf) as (nx & nsz & post' & Epost).
  assert (Enx : nx = bp + sz).
  { rewrite E, Epost in Hlaid. apply laid_mid in Hlaid. destruct Hlaid as (_ & L & _).
    cbn [laid] in L. lia. }
  assert (Hnx : In (nx, nsz, true) bs) by (rewrite E, Epost; in_all).
  destruct (hdr_run _ _ _ Hb _ _ _ Hnx (not_in_nil nx)) as (G3 & N2 & _).
  destruct (last_free_snoc_inv _ Epf) as (pre' & pv & psz & Epre).
  assert (Ebs' : bs = pre' ++ (pv, psz, true) :: (bp, sz, true) :: post)
    by (rewrite E, Epre, <- app_assoc; reflexivity).
  assert (Hpv : In (pv, psz, true) bs) by (rewrite Ebs'; in_all).
  destruct (prev_blk _ _ _ _ _ _ _ _ _ _ _ Hb Ebs' (not_in_nil pv)) as (P1 & Epv).
  destruct (hdr_run _ _ _ Hb _ _ _ Hpv (not_in_nil pv)) as (G2 & P2 & _).
  destruct (block_facts _ _ _ _ _ _ Hb Hin) as (F1 & F2 & F3 & F4 & F5 & F6 & F7 & F8).
  destruct (block_facts _ _ _ _ _ _ Hb Hpv) as (X1 & X2 & X3 & X4 & X5 & X6 & X7 & X8).
  destruct (block_facts _ _ _ _ _ _ Hb Hnx) as (Y1 & Y2 & Y3 & Y4 & Y5 & Y6 & Y7 & Y8).
  destruct (block_addr _ _ _ Hb _ _ _ Hnx) as (A1 & A2).
  (* the three removals *)
  destruct (core_remove _ _ _ _ _ _ _ Hcore Hin (not_in_nil bp))
    as (m1 & ls1 & R1 & C1 & Fr1).
  pose proof C1 as (Hb1 & _).
  destruct (prev_blk _ _ _ _ _ _ _ _ _ _ _ Hb1 Ebs' (not_in_nil pv)) as (P1' & _).
  assert (Hnb : ~ In pv [bp]) by (intros [?|[]]; lia).
  destruct (core_remove _ _ _ _ _ _ _ C1 Hpv Hnb) as (m2 & ls2 & R2 & C2 & Fr2).
  simp_state_in R2. simp_state_in C2. simp_state_in Fr2.
  pose proof C2 as (Hb2 & _).
  destruct (hdr_run _ _ _ Hb2 _ _ _ Hin (not_in_nil bp)) as (_ & _ & _ & N1').
  assert (Hnb2 : ~ In nx [pv; bp]) by (intros [?|[?|[]]]; lia).
  destruct (core_remove _ _ _ _ _ _ _ C2 Hnx Hnb2) as (m3 & ls3 & R3 & C3 & Fr3).
  simp_state_in R3. simp_state_in C3. simp_state_in Fr3.
  pose proof C3 as (Hb3 & _).
  destruct (prev_blk _ _ _ _ _ _ _ _ _ _ _ Hb3 Ebs' (not_in_nil pv)) as (P1'' & _).
  assert (Ebs : bs = pre' ++ [(pv, psz, true); (bp, sz, true); (nx, nsz, true)] ++ post')
    by (rewrite Ebs', Epost; reflexivity).
  rewrite Ebs in C3, Hfuel.
  destruct (merge_finish fuel _ _ _ pre' [(pv, psz, true); (bp, sz, true); (nx, nsz, true)]
              post' pv (sz + (nsz + psz)) C3)
    as (m4 & ls4 & R4 & C4 & Fr4); auto.
  { discriminate. }
  { cbn [laid]. repeat split; auto; lia. }
  { intros b [<-|[<-|[<-|[]]]]; reflexivity. }
  { intros q. split.
    - intros [<-|[<-|[<-|[]]]]; eauto 7 with datatypes.
    - intros (zq & fq & [Heq|[Heq|[Heq|[]]]]); inversion Heq; subst; in_all. }
  simp_state_in R4. simp_state_in C4. simp_state_in Fr4.
  assert (Fr4' : confined m3 m4 (free_area s bs))
    by (eapply confined_weaken; [|exact Fr4]; intros x Hx; rewrite Ebs; exact Hx).
  assert (Elay : coalesced_layout pre bp sz post = pre' ++ (pv, sz + (nsz + psz), true) :: post').
  { unfold coalesced_layout, coalesced_ptr. rewrite Epf, Enf, Epre, Epost. rewrite removelast_last, last_last.
    cbn [tl hd fst snd]. cbv zeta.
    replace (psz + sz + nsz) with (sz + (nsz + psz)) by lia. reflexivity. }
  assert (Eptr : coalesced_ptr pre bp = pv) by (unfold coalesced_ptr; rewrite Epf, Epre, last_last; reflexivity).
  unfold coalesce_exact_post. rewrite Elay, Eptr.
  exists m4, ls4.
  split.
  { unfold coalesce.
    rewrite (run_bind _ _ _ _ _ P1), (run_bind _ _ _ _ _ P2).
    rewrite (run_bind _ _ _ _ _ N1). rewrite <- Enx. rewrite (run_bind _ _ _ _ _ N2).
    rewrite (run_bind _ _ _ _ _ G1).
    change (0 =? 0) with true. cbn [negb andb].
    rewrite (run_bind _ _ _ _ _ N1). rewrite <- Enx. rewrite (run_bind _ _ _ _ _ G3).
    rewrite (run_bind _ _ _ _ _ P1). rewrite (run_bind _ _ _ _ _ G2).
    rewrite (run_bind _ _ _ _ _ R1). rewrite (run_bind _ _ _ _ _ P1').
    rewrite (run_bind _ _ _ _ _ R2). rewrite (run_bind _ _ _ _ _ N1'). rewrite <- Enx.
    rewrite (run_bind _ _ _ _ _ R3). cbv zeta.
    rewrite (size_t_small (nsz + psz)) by lia.
    rewrite (size_t_small (sz + (nsz + psz))) by lia.
    rewrite (run_bind _ _ _ _ _ P1'').
    exact R4. }
  split.
  { split; [exact C4|]. revert Hco. rewrite Epre, Epost. rewrite !coalesced_app.
    cbn [coalesced head_free is_free snd].
    intros ((H1 & H2 & H3) & (H4 & H5 & H6) & H7). repeat split; auto. }
  assert (Fr1' : confined (mem s) m1 (free_area s bs)).
  { eapply confined_weaken; [|exact Fr1]. intros x. apply (links_in_free_area _ _ _ _ Hb). }
  assert (Fr2' : confined m1 m2 (free_area s bs)).
  { eapply confined_weaken; [|exact Fr2]. intros x. apply (links_in_free_area _ _ _ _ Hb). }
  assert (Fr3' : confined m2 m3 (free_area s bs)).
  { eapply confined_weaken; [|exact Fr3]. intros x. apply (links_in_free_area _ _ _ _ Hb). }
  eauto using confined_trans.
Qed.

(** [coalesce], with the layout it leaves. *)
Lemma coalesce_exact : coalesce_exact_post fuel s bs pre bp sz post.
Proof.
  destruct (last_free pre) eqn:Epf; destruct (head_free post) eqn:Enf.
  - apply coalesce_exact_both; assumption.
  - apply coalesce_exact_prev; assumption.
  - apply coalesce_exact_next; assumption.
  - apply coalesce_exact_none; assumption.
Qed.
End CoalesceExact.

(** ** Growth and release, with the layouts they leave *)

Lemma extend_heap_exact fuel s bs ls size :
  heap_ok s bs ls -> 16 <= size -> size mod 8 = 0 ->
  mem_brk s + size <= mem_max_addr s -> (length bs + 1 < fuel)%nat ->
  exists m' ls',
    extend_heap fuel size s =
      Ret (coalesced_ptr bs (mem_brk s)) (set_mem (granted s size) m') /\
    heap_ok (set_mem (granted s size) m') (coalesced_layout bs (mem_brk s) size []) ls' /\
    confined (mem s) m' (free_area s bs).
Proof.
  intros (Hcore & Hco) H16 H8 Hroom Hfuel.
  pose proof Hcore as (Hb & Hl).
  pose proof Hb as (Hg & (S1 & S2 & S3) & Hlaid & Ht).
  pose proof Hg as ((R0 & R1 & R2 & R3) & G8 & Gseg & Ghl & G56 & Gcap).
  assert (Htr : 0 <= tag size true < 2 ^ 32) by (apply tag_range; lia).
  set (bp := mem_brk s).
  set (bs1 := bs ++ [(bp, size, true)]).
  pose proof (core_extend _ _ _ _ Hcore H16 H8 Hroom) as C1. fold bp bs1 in C1.
  assert (Hin1 : In (bp, size, true) bs1) by (unfold bs1; in_all).
  destruct (core_add fuel _ _ _ [] [] bp size C1 Hin1 (not_in_nil bp))
    as (m2 & ls2 & A2 & C2 & Fr2).
  { intros q []. }
  { unfold bs1. rewrite length_app. cbn [length]. lia. }
  simp_state_in A2. simp_state_in C2. simp_state_in Fr2.
  assert (Hfuel1 : (length bs1 < fuel)%nat)
    by (unfold bs1; rewrite length_app; cbn [length]; lia).
  assert (Hco1 : coalesced (bs ++ [(bp, size, false)]))
    by (apply coalesced_snoc; [exact Hco|reflexivity]).
  destruct (coalesce_exact fuel _ bs1 ls2 bs [] bp size C2 eq_refl Hco1 Hfuel1)
    as (m3 & ls3 & A3 & H3 & Fr3).
  simp_state_in A3. simp_state_in H3. simp_state_in Fr3.
  exists m3, ls3.
  assert (Hsub : forall x, free_area (granted s size) bs1 x -> free_area s bs x).
  { intros x [H|[(q & zq & Hq & Hx)|H]].
    - left. exact H.
    - unfold bs1 in Hq. apply in_app_or in Hq. destruct Hq as [Hq|[Heq|[]]].
      + right; left. eauto.
      + inversion Heq; subst q zq. right; right. unfold bp in Hx. lia.
    - right; right. cbn [granted mem_brk] in H. lia. }
  split.
  { unfold extend_heap. cbv zeta. rewrite ALIGN_idem by (auto; lia).
    rewrite (run_bind _ _ _ _ _ (mem_sbrk_granted s size Hroom)). fold bp.
    replace (bp =? size_t (-1)) with false
      by (symmetry; apply Z.eqb_neq; change (size_t (-1)) with (2 ^ 64 - 1); unfold bp; lia).
    rewrite (put_tags_run _ bp size true);
      [|repeat split; cbn [granted mem_start_brk mem_brk mem_max_addr]; lia
       |cbn [granted mem_start_brk]; unfold bp; lia
       |cbn [granted mem_brk]; unfold bp; lia|lia|assumption|lia
       |apply u_32_PACK_free; lia].
    cbn [granted mem].
    rewrite (run_bind _ _ _ (bp + size)
               (set_mem (granted s size) (retag (mem s) bp size true))).
    2:{ unfold NEXT_BLKP. change (padd bp (- WSIZE)) with (HDRP bp).
        rewrite HDRP_small by (unfold bp; lia).
        erewrite run_bind;
          [|rewrite GET_SIZE_run by (cbn [set_mem granted mem_start_brk mem_brk]; unfold bp; lia);
            reflexivity].
        cbn [set_mem mem]. unfold ret.
        rewrite (proj1 (get32_retag_tags _ _ _ _ H16 Htr)).
        rewrite tag_size by assumption.
        rewrite padd_small by (unfold bp; lia). reflexivity. }
    rewrite HDRP_small by (unfold bp; lia). unfold PUT.
    rewrite bind_store32 by (cbn [set_mem granted mem_start_brk mem_brk]; unfold bp; lia).
    simp_state.
    change (u_32 (PACK 0 1)) with 1.
    change (set32 (retag (mem s) bp size true) (bp + size - 4) 1) with (extend_mem s size).
    rewrite (run_bind _ _ _ _ _ A2).
    exact A3. }
  split; [exact H3|].
  apply (confined_trans _ (extend_mem s size)); [|apply (confined_trans _ m2)].
  - unfold extend_mem. intros x Hx.
    assert (x < mem_brk s - 4) by (destruct (Z_lt_dec x (mem_brk s - 4)); [assumption|];
      exfalso; apply Hx; right; right; lia).
    rewrite byte_set32. rewrite range_false by (fold bp; lia).
    apply confined_retag. unfold word. fold bp. lia.
  - eapply confined_weaken; [|exact Fr2].
    intros x Hx. apply Hsub. destruct C1 as (Hb1 & _).
    apply (links_in_free_area _ _ _ _ Hb1) in Hx. exact Hx.
  - eapply confined_weaken; [|exact Fr3]. intros x Hx. apply Hsub. exact Hx.
Qed.

Lemma free_exact fuel s bs ls pre post bp sz :
  heap_ok s bs ls -> bs = pre ++ (bp, sz, false) :: post -> (length bs < fuel)%nat ->
  exists m' ls',
    free fuel bp s = Ret tt (set_mem s m') /\
    heap_ok (set_mem s m') (coalesced_layout pre bp sz post) ls' /\
    (forall b zb x, In (b, zb, false) bs -> b <> bp -> b <= x < b + zb - 8 ->
       byte_at m' x = byte_at (mem s) x).
Proof.
  intros (Hcore & Hco) E Hfuel.
  assert (Hin : In (bp, sz, false) bs) by (rewrite E; in_all).
  pose proof Hcore as (Hb & Hl).
  pose proof Hb as (Hg & _ & Hlaid & _).
  pose proof Hg as (Hr & G8 & Gseg & Ghl & G56 & Gcap).
  destruct (block_facts _ _ _ _ _ _ Hb Hin) as (F1 & F2 & F3 & F4 & F5 & F6 & F7 & F8).
  destruct (block_addr _ _ _ Hb _ _ _ Hin) as (A1 & A2).
  destruct (hdr_run _ _ _ Hb _ _ _ Hin (not_in_nil bp)) as (G1 & _).
  set (bs1 := pre ++ (bp, sz, true) :: post).
  rewrite E in Hlaid.
  pose proof (laid_flip _ _ _ _ _ true _ _ Hlaid) as Hlaid1. fold bs1 in Hlaid1.
  assert (Hin1 : In (bp, sz, true) bs1) by (unfold bs1; in_all).
  assert (C1 : core (set_mem s (retag (mem s) bp sz true)) bs1 ls [bp] []).
  { apply (core_retag _ bs ls [] [] _ [bp] []); auto.
    - intros b z f Hbin Hne _. split; [|apply not_in_nil].
      rewrite E. unfold bs1 in Hbin. apply in_app_or in Hbin.
      destruct Hbin as [?|[Heq|?]]; [in_all| |in_all].
      inversion Heq; subst; contradiction.
    - intros q z Hq _. rewrite E in Hq.
      destruct (mid_unique _ _ _ _ _ _ _ _ _ _ Hlaid Hq) as [(_ & _ & Hf)|(Hne & Hd)];
        [discriminate|].
      split; [unfold bs1; clear - Hd; in_all|]. intros [?|[]]. congruence.
    - intros q z Hq NU.
      split; [|apply not_in_nil]. rewrite E. unfold bs1 in Hq. apply in_app_or in Hq.
      destruct Hq as [?|[Heq|?]]; [in_all| |in_all].
      inversion Heq; subst. exfalso. apply NU. left; reflexivity. }
  destruct (core_add fuel _ _ _ [] [] bp sz C1 Hin1 (not_in_nil bp))
    as (m2 & ls2 & A2' & C2 & Fr2).
  { intros q []. }
  { unfold bs1. rewrite E in Hfuel. rewrite length_app in *. cbn [length] in *. lia. }
  simp_state_in A2'. simp_state_in C2. simp_state_in Fr2.
  assert (Hfuel1 : (length bs1 < fuel)%nat).
  { unfold bs1. rewrite E in Hfuel. rewrite length_app in *. cbn [length] in *. lia. }
  assert (Hco1 : coalesced (pre ++ (bp, sz, false) :: post)) by (rewrite <- E; exact Hco).
  destruct (coalesce_exact fuel _ bs1 ls2 pre post bp sz C2 eq_refl Hco1 Hfuel1)
    as (m3 & ls3 & A3 & H3 & Fr3).
  simp_state_in A3. simp_state_in H3. simp_state_in Fr3.
  assert (Hfr : confined (mem s) m3 (free_area s bs1)).
  { apply (confined_trans _ (retag (mem s) bp sz true)); [|apply (confined_trans _ m2)].
    - eapply confined_weaken; [|apply confined_retag].
      intros x Hx. right; left. exists bp, sz. split; [exact Hin1|]. unfold word in Hx. lia.
    - eapply confined_weaken; [|exact Fr2].
      intros x Hx. destruct C1 as (Hb1 & _).
      apply (links_in_free_area _ _ _ _ Hb1) in Hx. exact Hx.
    - exact Fr3. }
  assert (Hkeep : forall b zb, In (b, zb, false) bs -> b <> bp -> In (b, zb, false) bs1).
  { intros b zb Hbz Hne. rewrite E in Hbz. unfold bs1. apply in_app_or in Hbz.
    destruct Hbz as [?|[Heq|?]]; [in_all| |in_all]. inversion Heq; subst; contradiction. }
  exists m3, ls3.
  split.
  { unfold free. rewrite (run_bind _ _ _ _ _ (lazy_init_initialised fuel s (geometry_init s Hg))).
    replace (bp =? NULL) with false by (symmetry; apply Z.eqb_neq; unfold NULL; lia).
    rewrite (run_bind _ _ _ _ _ G1).
    rewrite (put_tags_run _ bp sz true);
      [|assumption|lia|lia|lia|assumption|lia|apply u_32_PACK_free; lia].
    rewrite (run_bind _ _ _ _ _ A2'). rewrite (run_bind _ _ _ _ _ A3). reflexivity. }
  split; [exact H3|].
  intros b zb x Hbz Hne Hx. apply Hfr.
  apply (free_area_payload s bs1 b zb x); auto.
Qed.

(** ** Initialisation and the search, in full *)

Lemma mm_init_exact fuel s :
  untouched s -> small_store s ->
  mem_brk s + 56 + 4096 <= mem_max_addr s -> (1 < fuel)%nat ->
  exists m' ls',
    mm_init fuel s = Ret 0 (set_mem (granted (init_state s) 4096) m') /\
    heap_ok (set_mem (granted (init_state s) 4096) m')
            [(mem_start_brk s + 56, 4096, true)] ls'.
Proof.
  intros Hu Hs Hroom Hfuel. pose proof Hu as ((R0 & R1 & R2 & R3) & Eb & G8).
  assert (Hyes : mem_brk s + 56 <= mem_max_addr s) by lia.
  rewrite (mm_init_run fuel s Hu Hyes).
  pose proof (init_state_ok s Hu Hs Hyes) as Hok.
  destruct (extend_heap_exact fuel (init_state s) [] (fun _ => []) 4096 Hok)
    as (m1 & ls1 & Hrun & Hok1 & _).
  { lia. }
  { reflexivity. }
  { cbn [init_state mem_brk mem_max_addr]. lia. }
  { cbn [length]. lia. }
  change CHUNKSIZE with 4096.
  rewrite (run_bind _ _ _ _ _ Hrun).
  unfold coalesced_ptr. cbn [last_free].
  replace (mem_brk (init_state s) =? NULL) with false
    by (symmetry; apply Z.eqb_neq; cbn [init_state mem_brk]; unfold NULL; lia).
  exists m1, ls1. split; [reflexivity|].
  unfold coalesced_layout, coalesced_ptr in Hok1. cbn [last_free head_free app] in Hok1.
  cbv zeta in Hok1. cbn [init_state mem_brk] in Hok1.
  replace (mem_brk s + 56) with (mem_start_brk s + 56) in Hok1 by lia.
  exact Hok1.
Qed.

Section SearchComplete.
Variables (fuel : nat) (s : state) (bs : list block) (ls : Z -> list (Z * Z)).
Variable asize : Z.
Hypothesis Hcore : core s bs ls [] [].
Hypothesis Hfuel : (length bs < fuel)%nat.

Lemma fit_scan_listed_full i :
  0 <= i <= 9 ->
  exists bp,
    fit_scan fuel asize (B2P (heap_listp s) (get32 (mem s) (seg_lists s + 4 * i))) s
      = Ret bp s /\
    ((bp = NULL /\ forall q z, In (q, z) (ls i) -> z < asize) \/
     (bp <> NULL /\ exists z, In (bp, z, true) bs /\ asize <= z)).
Proof.
  intros Hi.
  pose proof Hcore as (Hb & Hl1 & Hl2 & Hl3).
  pose proof Hb as (Hg & _).
  destruct (Hl1 i Hi) as (Hrep & _ & _).
  pose proof (listed_length _ _ _ _ _ i Hcore Hi) as Hlen.
  destruct (fit_scan_chain asize (map fst (ls i)) fuel 0 _ s (geometry_region _ Hg) Hrep)
    as (bp & Hrun & Hres).
  { rewrite length_map. lia. }
  exists bp. split; [exact Hrun|].
  destruct Hres as [(-> & Hall)|(l1 & l2 & El & _ & Hge)]; [left|right].
  - split; [reflexivity|]. intros q z Hz.
    destruct (Hl2 _ _ _ Hi Hz) as (B & _ & _).
    destruct (block_tags _ _ _ _ _ _ Hb B (not_in_nil q)) as (_ & _ & Esz).
    rewrite <- Esz. apply Hall. apply (in_map fst _ _ Hz).
  - assert (Hq : In bp (map fst (ls i))) by (rewrite El; in_all).
    destruct (listed_node ls i bp Hi Hq) as (z & Hz).
    destruct (Hl2 _ _ _ Hi Hz) as (B & _ & _).
    destruct (block_tags _ _ _ _ _ _ Hb B (not_in_nil bp)) as (_ & _ & Esz).
    destruct (block_facts _ _ _ _ _ _ Hb B) as (F1 & _).
    destruct Hg as ((R0 & _) & _).
    split; [unfold NULL; lia|]. exists z. split; [exact B|lia].
Qed.

Lemma empty_head i :
  0 <= i <= 9 -> get32 (mem s) (seg_lists s + 4 * i) = 0 -> ls i = [].
Proof.
  intros Hi Hh. destruct Hcore as (_ & Hl1 & _).
  destruct (Hl1 i Hi) as (Hrep & _ & _). unfold list_rep in Hrep. rewrite Hh in Hrep.
  destruct (ls i) as [|[q z] l]; [reflexivity|].
  cbn [map chain] in Hrep. lia.
Qed.

Lemma malloc_lists_complete n : forall i,
  0 <= i -> i + Z.of_nat n <= 9 ->
  exists bp i',
    malloc_lists fuel n i asize NULL s = Ret (bp, i') s /\
    ((bp = NULL /\ i' = i + Z.of_nat n /\
      forall j q z, i <= j < i + Z.of_nat n -> In (q, z) (ls j) -> z < asize) \/
     (bp <> NULL /\ exists z, In (bp, z, true) bs /\ asize <= z)).
Proof.
  pose proof Hcore as (Hb & Hl1 & Hl2 & Hl3). pose proof Hb as (Hg & _).
  induction n as [|n IH]; intros i Hi Hn.
  - exists NULL, i. split; [reflexivity|]. left. split; [reflexivity|]. split; [lia|].
    intros j q z Hj. lia.
  - cbn [malloc_lists]. change (LISTNUM - 1) with 9.
    replace (i <? 9) with true by (symmetry; apply Z.ltb_lt; lia).
    assert (Hnext : (forall q z, In (q, z) (ls i) -> z < asize) ->
      exists bp i',
      malloc_lists fuel n (i + 1) asize NULL s = Ret (bp, i') s /\
      ((bp = NULL /\ i' = i + Z.of_nat (S n) /\
        forall j q z, i <= j < i + Z.of_nat (S n) -> In (q, z) (ls j) -> z < asize) \/
       (bp <> NULL /\ exists z, In (bp, z, true) bs /\ asize <= z))).
    { intros Hhere. destruct (IH (i + 1) ltac:(lia) ltac:(lia)) as (bp & i' & Hrun & Hres).
      exists bp, i'. split; [exact Hrun|].
      destruct Hres as [(E1 & E2 & Hall)|Hf]; [left|right; exact Hf].
      split; [exact E1|]. split; [lia|].
      intros j q z Hj Hin. destruct (Z.eq_dec j i) as [->|Hne]; [eauto|].
      apply (Hall j q z); [lia|exact Hin]. }
    rewrite shiftl16 by lia.
    destruct (asize <=? class_bound i) eqn:Ea.
    + destruct (slot_in_region s i Hg ltac:(lia)) as (Sl1 & Sl2).
      rewrite seg_get_run by (auto using geometry_region).
      destruct (get32 (mem s) (seg_lists s + 4 * i) =? 0) eqn:Eh; cbn [negb].
      * apply Z.eqb_eq in Eh. apply Hnext. rewrite (empty_head i ltac:(lia) Eh).
        intros q z [].
      * unfold bind at 1. unfold get_heap_listp.
        destruct (fit_scan_listed_full i ltac:(lia)) as (bp & Hrun & Hres).
        rewrite (run_bind _ _ _ _ _ Hrun).
        destruct Hres as [(-> & Hall)|(Hnn & Hf)].
        -- change (NULL =? NULL) with true. cbn [negb]. apply Hnext. exact Hall.
        -- replace (bp =? NULL) with false by (symmetry; apply Z.eqb_neq; assumption).
           cbn [negb]. exists bp, i. split; [reflexivity|]. right. auto.
    + apply Z.leb_gt in Ea. apply Hnext. intros q z Hz.
      destruct (Hl2 i q z ltac:(lia) Hz) as (_ & C & _).
      pose proof (class_of_below z i ltac:(lia) ltac:(lia)). lia.
Qed.

(** The search returns null only when no free block is large enough. *)
Lemma malloc_search_complete :
  exists bp,
    malloc_search fuel asize s = Ret bp s /\
    ((bp = NULL /\ no_fit bs asize) \/
     (bp <> NULL /\ exists z, In (bp, z, true) bs /\ asize <= z)).
Proof.
  pose proof Hcore as (Hb & Hl1 & Hl2 & Hl3). pose proof Hb as (Hg & _).
  destruct (malloc_lists_complete 9 0 ltac:(lia) ltac:(lia)) as (bp & i & Hrun & Hres).
  unfold malloc_search. rewrite (run_bind _ _ _ _ _ Hrun). cbn [fst snd].
  destruct Hres as [(-> & -> & Hall)|(Hnn & Hf)].
  - change (NULL =? NULL) with true. cbv iota.
    unfold bind at 1. unfold get_heap_listp.
    destruct (slot_in_region s 9 Hg ltac:(lia)) as (Sl1 & Sl2).
    change (0 + Z.of_nat 9) with 9.
    rewrite seg_get_run by (auto using geometry_region).
    destruct (fit_scan_listed_full 9 ltac:(lia)) as (bp & Hrun9 & Hres).
    exists bp. split; [exact Hrun9|].
    destruct Hres as [(-> & Hall9)|Hf]; [left|right; exact Hf].
    split; [reflexivity|]. intros q z Hq.
    pose proof (Hl3 q z Hq (not_in_nil q)) as Hlisted.
    pose proof (class_of_range z) as Hc.
    destruct (Z.eq_dec (class_of z) 9) as [E9|Hne].
    + rewrite E9 in Hlisted. eauto.
    + apply (Hall (class_of z) q z); [change (0 + Z.of_nat 9) with 9; lia|exact Hlisted].
  - replace (bp =? NULL) with false by (symmetry; apply Z.eqb_neq; assumption).
    exists bp. split; [reflexivity|]. right. auto.
Qed.
End SearchComplete.

(** ** Allocation, case by case *)

(** The shape of a layout after a merge. *)
Lemma coalesced_layout_cases pre bp sz post :
  exists pre' post' zp zn,
    coalesced_layout pre bp sz post =
      pre' ++ (coalesced_ptr pre bp, zp + sz + zn, true) :: post' /\
    ((last_free pre = false /\ pre' = pre /\ zp = 0 /\ coalesced_ptr pre bp = bp) \/
     (last_free pre = true /\ pre = pre' ++ [(coalesced_ptr pre bp, zp, true)])) /\
    ((head_free post = false /\ post' = post /\ zn = 0) \/
     (head_free post = true /\ exists nx, post = (nx, zn, true) :: post')).
Proof.
  unfold coalesced_layout, coalesced_ptr.
  destruct (last_free pre) eqn:Ep; destruct (head_free post) eqn:En.
  - destruct (last_free_snoc_inv _ Ep) as (pre' & p & z & ->).
    destruct (head_free_cons _ En) as (n & zn & post' & ->).
    rewrite removelast_last, last_last. cbn [fst snd hd tl].
    exists pre', post', z, zn. split; [reflexivity|]. split; right; eauto.
  - destruct (last_free_snoc_inv _ Ep) as (pre' & p & z & ->).
    rewrite removelast_last, last_last. cbn [fst snd].
    exists pre', post, z, 0. split; [reflexivity|]. split; [right|left]; eauto.
  - destruct (head_free_cons _ En) as (n & zn & post' & ->). cbn [fst snd hd tl].
    exists pre, post', 0, zn. split; [reflexivity|]. split; [left|right]; eauto.
  - exists pre, post, 0, 0. split; [reflexivity|]. split; left; auto.
Qed.

(** What a merge does to a tiled layout: the merged block covers the block
    at [bp] and consists of it and of free neighbours, every other block
    stays, and no block is new. *)
Lemma coalesced_layout_facts q pre bp sz fr post e :
  laid q (pre ++ (bp, sz, fr) :: post) e ->
  exists pre' post' r z,
    coalesced_layout pre bp sz post = pre' ++ (r, z, true) :: post' /\
    r = coalesced_ptr pre bp /\ r <= bp /\ bp + sz <= r + z /\
    (forall x, r - 4 <= x < r + z - 4 ->
       bp - 4 <= x < bp + sz - 4 \/
       exists b zb, In (b, zb, true) (pre ++ post) /\ b - 4 <= x < b + zb - 4) /\
    (forall b, In b (pre ++ post) -> is_free b = false ->
       In b (pre' ++ post')) /\
    (forall b, In b (pre' ++ post') -> In b (pre ++ post)) /\
    (length (pre' ++ post') <= length (pre ++ post))%nat.
Proof.
  intros Hl.
  destruct (coalesced_layout_cases pre bp sz post)
    as (pre' & post' & zp & zn & E & [(P1 & -> & -> & Er)|(P1 & P2)] & Hn).
  - destruct Hn as [(N1 & -> & ->)|(N1 & nx & ->)].
    + exists pre, post, bp, sz. rewrite E, Er. replace (0 + sz + 0) with sz by lia.
      repeat split; auto; try lia.
    + exists pre, post', bp, (sz + zn). rewrite E, Er.
      replace (0 + sz + zn) with (sz + zn) by lia.
      apply laid_mid in Hl. destruct Hl as (_ & Hl & S16 & _).
      cbn [laid] in Hl. destruct Hl as (-> & N16 & _ & _).
      split; [reflexivity|]. split; [reflexivity|]. split; [lia|]. split; [lia|].
      split; [|split; [|split]].
      * intros x Hx. destruct (Z_lt_dec x (bp + sz - 4)); [left; lia|right].
        exists (bp + sz), zn. split; [in_all|lia].
      * intros b Hb Hf. apply in_app_or in Hb. destruct Hb as [Hb|[<-|Hb]];
          [in_all|discriminate|in_all].
      * intros b Hb. in_all.
      * rewrite !length_app. cbn [length]. lia.
  - set (r := coalesced_ptr pre bp) in *. clearbody r. subst pre.
    rewrite <- app_assoc in Hl. cbn [app] in Hl.
    apply laid_mid in Hl. destruct Hl as (_ & Hl & P16 & _).
    cbn [laid] in Hl. destruct Hl as (Ebp & S16 & _ & Hl).
    destruct Hn as [(N1 & -> & ->)|(N1 & nx & ->)].
    + exists pre', post, r, (zp + sz). rewrite E.
      replace (zp + sz + 0) with (zp + sz) by lia.
      split; [reflexivity|]. split; [reflexivity|]. split; [lia|]. split; [lia|].
      split; [|split; [|split]].
      * intros x Hx. destruct (Z_lt_dec x (r + zp - 4)); [right|left; lia].
        exists r, zp. split; [in_all|lia].
      * intros b Hb Hf. rewrite <- app_assoc in Hb. apply in_app_or in Hb.
        destruct Hb as [Hb|[<-|Hb]]; [in_all|discriminate|in_all].
      * intros b Hb. rewrite <- app_assoc. in_all.
      * rewrite !length_app. cbn [length]. lia.
    + exists pre', post', r, (zp + sz + zn). rewrite E.
      cbn [laid] in Hl. destruct Hl as (-> & N16 & _ & _).
      split; [reflexivity|]. split; [reflexivity|]. split; [lia|]. split; [lia|].
      split; [|split; [|split]].
      * intros x Hx. destruct (Z_lt_dec x (r + zp - 4)); [right|].
        { exists r, zp. split; [in_all|lia]. }
        destruct (Z_lt_dec x (bp + sz - 4)); [left; lia|right].
        exists (r + zp + sz), zn. split; [in_all|lia].
      * intros b Hb Hf. rewrite <- app_assoc in Hb. apply in_app_or in Hb.
        destruct Hb as [Hb|[<-|[<-|Hb]]]; [in_all|discriminate|discriminate|in_all].
      * intros b Hb. rewrite <- app_assoc. in_all.
      * rewrite !length_app. cbn [length]. lia.
Qed.

Lemma malloc_exact fuel s bs ls n :
  heap_ok s bs ls -> 1 <= n -> n + 15 < 2 ^ 64 -> (length bs + 2 < fuel)%nat ->
  malloc_cases fuel s bs n.
Proof.
  intros Hok Hn1 Hn2 Hfuel. unfold malloc_cases. cbv zeta.
  pose proof Hok as (Hcore & Hco).
  pose proof Hcore as (Hb & Hl).
  pose proof Hb as (Hg & _ & Hlaid & _).
  pose proof Hg as ((R0 & R1 & R2 & R3) & G8 & Gseg & Ghl & G56 & Gcap).
  destruct (adjust_facts n ltac:(lia) Hn2) as (J1 & J2 & J3 & J4).
  rewrite !(malloc_initialised fuel n s (geometry_init s Hg)).
  replace (n =? 0) with false by (symmetry; apply Z.eqb_neq; lia).
  destruct (malloc_search_complete fuel s bs ls (adjust n) Hcore ltac:(lia))
    as (bp & Hs & Hres).
  rewrite !(run_bind _ _ _ _ _ Hs).
  destruct Hres as [(-> & Hno)|(Hnn & z & Hin & Hz)].
  - (* no fit: the heap has to grow *)
    right. change (NULL =? NULL) with true. cbv iota.
    destruct (MAX_facts (adjust n) J1 J2) as (M1 & M2 & M3 & M4).
    set (sz := MAX (adjust n) CHUNKSIZE) in *.
    assert (Hsz : 0 <= sz < 2 ^ 64).
    { pose proof (adjust_eq n ltac:(lia) Hn2) as Ea.
      assert (8 * ((n + 15) / 8) <= n + 15) by (Z.div_mod_to_equations; lia). lia. }
    destruct (Z_lt_le_dec (mem_max_addr s) (mem_brk s + sz)) as [Hfull|Hroom].
    + left. split; [exact Hno|]. split; [exact Hfull|].
      assert (Ha : mem_max_addr s < mem_brk s + ALIGN sz)
        by (rewrite ALIGN_idem by auto; exact Hfull).
      rewrite (run_bind _ _ _ _ _ (extend_heap_refused fuel sz s Ha)).
      reflexivity.
    + right. split; [exact Hno|]. split; [exact Hroom|].
      destruct (extend_heap_exact fuel s bs ls sz Hok M1 M2 Hroom ltac:(lia))
        as (m1 & ls1 & Hrun & Hok1 & Fr1).
      assert (Hl1 : laid (mem_start_brk s + 56) (bs ++ (mem_brk s, sz, true) :: []) (mem_brk s + sz)).
      { apply laid_app. exists (mem_brk s). split; [exact Hlaid|].
        cbn [laid]. repeat split; auto. }
      destruct (coalesced_layout_facts _ _ _ _ _ _ _ Hl1)
        as (pre' & post' & r & zr & E & Er & Hr1 & Hr2 & Hcov & Hkeep & Hold & Hlen).
      assert (Ep : post' = []).
      { destruct post' as [|b post'']; [reflexivity|].
        assert (In b (bs ++ [])) by (apply Hold; in_all).
        pose proof Hok1 as (((_ & _ & L0 & _) & _) & _).
        assert (L1 : laid (mem_start_brk s + 56) (pre' ++ (r, zr, true) :: b :: post'')
                       (mem_brk s + sz)) by (rewrite <- E; exact L0).
        apply laid_mid in L1. destruct L1 as (_ & L1 & _). destruct b as [[b zb] fb].
        cbn [laid] in L1. destruct L1 as (-> & B16 & _ & L1). apply laid_le in L1.
        rewrite app_nil_r in H.
        destruct (laid_in _ _ _ _ _ _ Hlaid H). lia. }
      subst post'.
      rewrite (run_bind _ _ _ _ _ Hrun). rewrite <- Er.
      replace (r =? NULL) with false.
      2:{ symmetry. apply Z.eqb_neq. unfold NULL.
          pose proof Hok1 as ((Hb1 & _) & _).
          assert (Hin : In (r, zr, true) (pre' ++ [(r, zr, true)])) by in_all.
          rewrite <- E in Hin.
          destruct (block_facts _ _ _ _ _ _ Hb1 Hin) as (F1 & _).
          cbn [set_mem granted mem_start_brk] in F1. lia. }
      destruct (place_exact fuel _ _ ls1 pre' [] r zr (adjust n) Hok1 E)
        as (m2 & ls2 & Hrun2 & Hok2 & Fr2).
      { lia. }
      { exact J2. }
      { pose proof (f_equal (@length _) E) as El. rewrite length_app in El.
        cbn [length] in El. rewrite !app_nil_r in Hlen. unfold block in *. lia. }
      simp_state_in Hrun2. simp_state_in Hok2. simp_state_in Fr2.
      exists pre', r, zr, m2, ls2. split; [exact E|]. split; [reflexivity|].
      split; [lia|]. split; [exact Hrun2|]. split; [exact Hok2|].
      eapply confined_trans; [exact Fr1|].
      eapply confined_weaken; [|exact Fr2].
      intros x [H|[(q & zq & Hq & Hx)|H]].
      * left. exact H.
      * assert (Hq' : In (q, zq, true) (pre' ++ [(r, zr, true)]))
          by (rewrite <- E; exact Hq).
        clear Hq. apply in_app_or in Hq'. destruct Hq' as [Hq|[Heq|[]]].
        -- right; left. exists q, zq. split; [|exact Hx].
           assert (In (q, zq, true) (bs ++ [])) by (apply Hold; in_all).
           rewrite app_nil_r in H. exact H.
        -- inversion Heq; subst q zq.
           destruct (Hcov x Hx) as [Hy|(b & zb & Hb' & Hy)].
           ++ right; right. lia.
           ++ right; left. rewrite app_nil_r in Hb'. eauto.
      * right; right. cbn [set_mem granted mem_brk] in H. lia.
  - (* a fit was found *)
    left. replace (bp =? NULL) with false by (symmetry; apply Z.eqb_neq; assumption).
    destruct (in_split _ _ Hin) as (pre & post & E).
    destruct (place_exact fuel s bs ls pre post bp z (adjust n) Hok E ltac:(lia) J2 ltac:(lia))
      as (m2 & ls2 & Hrun2 & Hok2 & Fr2).
    exists pre, bp, z, post, m2, ls2.
    split; [exact E|]. split; [exact Hz|]. split; [exact Hrun2|]. split; [exact Hok2|exact Fr2].
Qed.

(** ** Release and resizing, in full *)

(** After a merge around [p] no allocated block starts at [p]. *)
Lemma merged_gone q pre p sz fr post e z0 :
  laid q (pre ++ (p, sz, fr) :: post) e ->
  laid q (coalesced_layout pre p sz post) e ->
  ~ In (p, z0, false) (coalesced_layout pre p sz post).
Proof.
  intros Hl Hl' Hin.
  destruct (coalesced_layout_facts _ _ _ _ _ _ _ Hl)
    as (pre' & post' & r & z & E & _ & Hr1 & Hr2 & _).
  pose proof (laid_mid _ _ _ _ _ _ _ Hl) as (_ & _ & S16 & _).
  rewrite E in Hl', Hin.
  assert (Hm : In (r, z, true) (pre' ++ (r, z, true) :: post')) by in_all.
  destruct (laid_in _ _ _ _ _ _ Hl' Hin) as (_ & _ & Z16 & _).
  destruct (laid_disjoint _ _ _ _ _ _ _ _ _ Hl' Hin Hm) as [(_ & _ & Hf)|Hd];
    [discriminate|lia].
Qed.

(** [free] on a live pointer, in full: the layout afterwards, the block
    that now covers the freed one, and what stays as it was. *)
Lemma free_full fuel s bs ls pre post p sz :
  heap_ok s bs ls -> bs = pre ++ (p, sz, false) :: post -> (length bs < fuel)%nat ->
  exists m' ls',
    free fuel p s = Ret tt (set_mem s m') /\
    heap_ok (set_mem s m') (coalesced_layout pre p sz post) ls' /\
    (forall z0, ~ In (p, z0, false) (coalesced_layout pre p sz post)) /\
    (exists r z, In (r, z, true) (coalesced_layout pre p sz post) /\
                 r <= p /\ p + sz <= r + z) /\
    (forall b zb, In (b, zb, false) bs -> b <> p ->
                  In (b, zb, false) (coalesced_layout pre p sz post)) /\
    (length (coalesced_layout pre p sz post) <= length bs)%nat /\
    (forall b zb x, In (b, zb, false) bs -> b <> p -> b <= x < b + zb - 8 ->
       byte_at m' x = byte_at (mem s) x).
Proof.
  intros Hok E Hfuel.
  destruct (free_exact fuel s bs ls pre post p sz Hok E Hfuel)
    as (m' & ls' & Hrun & Hok' & Hkeep).
  exists m', ls'. split; [exact Hrun|]. split; [exact Hok'|].
  pose proof Hok as (((_ & _ & Hl & _) & _) & _).
  pose proof Hok' as (((_ & _ & Hl' & _) & _) & _).
  cbn [set_mem mem_start_brk mem_brk] in Hl'. rewrite E in Hl.
  destruct (coalesced_layout_facts _ _ _ _ _ _ _ Hl)
    as (pre' & post' & r & z & E' & _ & Hr1 & Hr2 & _ & Hstay & _ & Hlen).
  split; [intros z0; apply (merged_gone _ _ _ _ _ _ _ z0 Hl Hl')|].
  split; [exists r, z; split; [rewrite E'; in_all|lia]|].
  split; [|split; [|exact Hkeep]].
  - intros b zb Hb Hne. rewrite E in Hb. rewrite E'.
    assert (Hb' : In (b, zb, false) (pre ++ post)).
    { apply in_app_or in Hb. destruct Hb as [?|[Heq|?]]; [in_all| |in_all].
      inversion Heq; subst; contradiction. }
    apply Hstay in Hb'; [|reflexivity]. in_all.
  - rewrite E, E'. rewrite !length_app in *. cbn [length]. unfold block in *. lia.
Qed.

Lemma placed_in pre bp bsz asize post :
  In (bp, (if bsz - asize <? 16 then bsz else asize), false) (placed pre bp bsz asize post).
Proof. unfold placed. destruct (bsz - asize <? 16); in_all. Qed.

Lemma placed_not_null s pre bp bsz asize post ls :
  heap_ok s (placed pre bp bsz asize post) ls -> bp <> NULL.
Proof.
  intros ((Hb & _) & _).
  destruct (block_facts _ _ _ _ _ _ Hb (placed_in pre bp bsz asize post)) as (F1 & _).
  destruct Hb as (((R0 & _) & _) & _). unfold NULL. lia.
Qed.

(** [malloc] returns null for a nonzero size only after a refused growth
    request, and then it has changed nothing but the count of requests. *)
Lemma malloc_null_refused fuel s bs ls n s' :
  heap_ok s bs ls -> 1 <= n -> n + 15 < 2 ^ 64 -> (length bs + 2 < fuel)%nat ->
  malloc fuel n s = Ret NULL s' ->
  s' = refused s /\ no_fit bs (adjust n) /\
  mem_max_addr s < mem_brk s + MAX (adjust n) CHUNKSIZE.
Proof.
  intros Hok Hn1 Hn2 Hfuel Hrun.
  destruct (malloc_exact fuel s bs ls n Hok Hn1 Hn2 Hfuel)
    as [(pre & bp & bsz & post & m' & ls' & _ & _ & Hrun' & Hok' & _)
       |[(Hno & Hfull & Hrun')
        |(_ & _ & pre & bp & bsz & m' & ls' & _ & _ & _ & Hrun' & Hok' & _)]].
  - rewrite Hrun in Hrun'. inversion Hrun'; subst bp.
    exfalso. apply (placed_not_null _ _ _ _ _ _ _ Hok'). reflexivity.
  - rewrite Hrun in Hrun'. inversion Hrun'. auto.
  - rewrite Hrun in Hrun'. inversion Hrun'; subst bp.
    exfalso. apply (placed_not_null _ _ _ _ _ _ _ Hok'). reflexivity.
Qed.

(** [realloc] of a live pointer with a nonzero size, in full. *)
Lemma realloc_full fuel s bs ls p osz n :
  heap_ok s bs ls -> In (p, osz, false) bs ->
  1 <= n -> n + 15 < 2 ^ 64 -> (length bs + 2 < fuel)%nat ->
  exists r s',
    realloc fuel p n s = Ret r s' /\
    ((r = 0 /\ s' = refused s /\ no_fit bs (adjust n) /\
      mem_max_addr s < mem_brk s + MAX (adjust n) CHUNKSIZE) \/
     (r <> 0 /\ r <> p /\
      exists bs' ls' z,
        heap_ok s' bs' ls' /\ In (r, z, false) bs' /\ adjust n <= z /\
        (forall z0, ~ In (r, z0, false) bs) /\
        (forall z0, ~ In (p, z0, false) bs') /\
        (forall b zb, In (b, zb, false) bs -> b <> p ->
           In (b, zb, false) bs' /\
           forall x, b <= x < b + zb - 8 -> byte_at (mem s') x = byte_at (mem s) x) /\
        (forall i, 0 <= i < Z.min (osz - 8) (z - 8) ->
           byte_at (mem s') (r + i) = byte_at (mem s) (p + i)))).
Proof.
  intros Hok Hp Hn1 Hn2 Hfuel.
  pose proof Hok as ((Hb & _) & _).
  pose proof Hb as (Hg & _ & Hlaid & _).
  destruct (block_facts _ _ _ _ _ _ Hb Hp) as (P1 & P2 & P3 & P4 & P5 & P6 & P7 & P8).
  destruct (malloc_spec fuel s bs ls n Hok Hn1 Hn2 Hfuel)
    as (r & s1 & Hrun & bs1 & ls1 & Hok1 & Hal & Hlen & Hfr & Hregs & Hres).
  unfold realloc.
  replace (n =? 0) with false by (symmetry; apply Z.eqb_neq; lia).
  replace (p =? NULL) with false
    by (symmetry; apply Z.eqb_neq; unfold NULL; destruct Hg as ((? & _) & _); lia).
  rewrite (run_bind _ _ _ _ _ Hrun).
  destruct (r =? NULL) eqn:Er.
  - apply Z.eqb_eq in Er. subst r.
    destruct (malloc_null_refused fuel s bs ls n s1 Hok Hn1 Hn2 Hfuel Hrun) as (-> & Hno & Hfull).
    exists 0, (refused s). split; [reflexivity|]. left. auto.
  - apply Z.eqb_neq in Er.
    destruct (Hres Er) as (z & Hr & Hz & Hnew).
    pose proof (Hal _ _ Hp) as Hp1.
    pose proof Hok1 as ((Hb1 & _) & _).
    pose proof Hb1 as (Hg1 & _ & Hlaid1 & _).
    destruct (block_facts _ _ _ _ _ _ Hb1 Hr) as (F1 & F2 & F3 & F4 & F5 & F6 & F7 & F8).
    destruct (block_facts _ _ _ _ _ _ Hb1 Hp1) as (Q1 & Q2 & _).
    destruct (hdr_run _ _ _ Hb1 _ _ _ Hr (not_in_nil r)) as (G1 & _).
    destruct (hdr_run _ _ _ Hb1 _ _ _ Hp1 (not_in_nil p)) as (G2 & _).
    assert (Hne : r <> p) by (intros ->; apply (Hnew osz); exact Hp).
    rewrite (run_bind _ _ _ _ _ G1). cbv zeta. rewrite (run_bind _ _ _ _ _ G2).
    unfold DSIZE. rewrite !u_32_small by lia.
    set (k := if z - 8 <? osz - 8 then z - 8 else osz - 8).
    assert (Hk : k = Z.min (osz - 8) (z - 8)).
    { unfold k. destruct (z - 8 <? osz - 8) eqn:El;
        [apply Z.ltb_lt in El|apply Z.ltb_ge in El]; lia. }
    assert (Hcopy : memcpy r p k s1 = Ret tt (set_mem s1 (copy (mem s1) r p k))).
    { unfold memcpy.
      replace (k =? 0) with false by (symmetry; apply Z.eqb_neq; lia).
      replace (valid s1 r k && valid s1 p k) with true; [reflexivity|].
      symmetry. unfold valid. repeat (apply andb_true_intro; split);
        (apply Z.leb_le; lia). }
    rewrite (run_bind _ _ _ _ _ Hcopy).
    assert (Hok2 : heap_ok (set_mem s1 (copy (mem s1) r p k)) bs1 ls1).
    { apply (heap_ok_payload _ _ _ r z); auto.
      intros x Hx. apply byte_copy_other. lia. }
    destruct (in_split _ _ Hp1) as (pre & post & E1).
    destruct (free_full fuel _ bs1 ls1 pre post p osz Hok2 E1 ltac:(lia))
      as (m3 & ls3 & Hrun3 & Hok3 & Hgone3 & _ & Hal3 & Hlen3 & Hkeep3).
    rewrite (run_bind _ _ _ _ _ Hrun3). simp_state.
    exists r, (set_mem s1 m3). split; [reflexivity|]. right.
    split; [exact Er|]. split; [exact Hne|].
    exists (coalesced_layout pre p osz post), ls3, z.
    split; [simp_state_in Hok3; exact Hok3|].
    split; [apply Hal3; assumption|]. split; [exact Hz|]. split; [exact Hnew|].
    split; [exact Hgone3|]. split.
    + intros b zb Hbz Hbp. pose proof (Hal _ _ Hbz) as Hb1z.
      split; [apply Hal3; assumption|].
      intros x Hx. cbn [mem set_mem].
      rewrite (Hkeep3 b zb x) by auto. cbn [mem set_mem].
      assert (Hbr : b <> r) by (intros ->; apply (Hnew zb); exact Hbz).
      destruct (laid_in _ _ _ _ _ _ Hlaid1 Hb1z) as (_ & _ & B16 & _).
      destruct (laid_disjoint _ _ _ _ _ _ _ _ _ Hlaid1 Hb1z Hr) as [(? & _)|Hd];
        [contradiction|].
      rewrite byte_copy_other by lia.
      apply Hfr. apply (free_area_payload s bs b zb); auto.
    + intros i Hi. cbn [mem set_mem].
      rewrite (Hkeep3 r z (r + i)) by (auto; lia). cbn [mem set_mem].
      rewrite byte_copy by lia. replace (p + (r + i - r)) with (p + i) by lia.
      apply Hfr. apply (free_area_payload s bs p osz); auto. lia.
Qed.

(** ** Layouts of the small process *)

Lemma started_layout : exists ls, heap_ok started [(first_bp, 4096, true)] ls.
Proof.
  destruct (mm_init_exact 300 boot_small boot_small_untouched boot_small_store)
    as (m' & ls' & Hrun & Hok).
  { cbn. lia. }
  { lia. }
  exists ls'. unfold started, exec. rewrite Hrun. exact Hok.
Qed.

Lemma booted_layout : exists ls, heap_ok booted [(first_bp, 4096, true)] ls.
Proof.
  destruct (mm_init_exact 100 boot boot_untouched boot_store) as (m' & ls' & Hrun & Hok).
  { cbn. lia. }
  { lia. }
  exists ls'. unfold booted, exec. rewrite Hrun. exact Hok.
Qed.

Lemma holding_layout :
  exists ls, heap_ok holding [(first_bp, 16, false); (first_bp + 16, 4080, true)] ls.
Proof.
  destruct started_layout as (ls & Hok).
  assert (Ea : adjust 8 = 16) by reflexivity.
  destruct (malloc_exact 300 started _ ls 8 Hok)
    as [(pre & bp & bsz & post & m' & ls' & E & Hz & Hrun & Hok' & _)
       |[(Hno & _)|(Hno & _)]]; [lia|lia|cbn [length]; lia| | |].
  - destruct pre as [|b pre]; [|destruct pre; discriminate E].
    cbn [app] in E. inversion E; subst bp bsz post.
    exists ls'. unfold holding, exec. rewrite Hrun.
    rewrite Ea in Hok'. exact Hok'.
  - specialize (Hno first_bp 4096 (or_introl eq_refl)). rewrite Ea in Hno. lia.
  - specialize (Hno first_bp 4096 (or_introl eq_refl)). rewrite Ea in Hno. lia.
Qed.

(** ** The helpers, summed up *)

Lemma assemble fuel s bs ls :
  small_store s -> invariant s bs ls -> enough fuel s ->
  heap_ok s bs ls /\ (length bs + 3 < fuel)%nat.
Proof.
  intros Hs Hinv He. pose proof (invariant_heap_ok _ _ _ Hs Hinv) as Hok.
  split; [exact Hok|exact (enough_length _ _ _ _ Hok He)].
Qed.

Lemma live_intro s bs ls p z : heap_ok s bs ls -> In (p, z, false) bs -> live s p.
Proof. intros Hok Hin. exists bs, ls, z. split; [apply heap_ok_invariant; exact Hok|exact Hin]. Qed.

Lemma not_live s bs ls p :
  heap_ok s bs ls -> (forall z, ~ In (p, z, false) bs) -> ~ live s p.
Proof.
  intros Hok Hno (bs' & ls' & z & Hinv & Hin).
  pose proof (invariant_heap_ok _ _ _ (heap_ok_small _ _ _ Hok) Hinv) as Hok'.
  rewrite (layout_unique _ _ _ _ _ Hok Hok') in Hno. exact (Hno z Hin).
Qed.

(** Bytes of the payload of an allocated block are outside what the
    allocator may write. *)
Lemma payload_kept s bs ls m' b zb x :
  heap_ok s bs ls -> confined (mem s) m' (free_area s bs) ->
  In (b, zb, false) bs -> b <= x < b + zb - 8 -> byte_at m' x = byte_at (mem s) x.
Proof.
  intros Hok Hfr Hin Hx. apply Hfr.
  destruct Hok as (((_ & _ & Hlaid & _) & _) & _).
  apply (free_area_payload s bs b zb); auto.
Qed.

(** The first two steps of [free] on a live pointer: afterwards the block
    is free and listed, and all that is left to do is the merge. *)
Lemma free_before_merge fuel s bs ls pre post bp sz :
  heap_ok s bs ls -> bs = pre ++ (bp, sz, false) :: post -> (length bs < fuel)%nat ->
  exists m' ls',
    free_before_coalesce fuel bp s = Ret tt (set_mem s m') /\
    core (set_mem s m') (pre ++ (bp, sz, true) :: post) ls' [] [].
Proof.
  intros (Hcore & Hco) E Hfuel.
  assert (Hin : In (bp, sz, false) bs) by (rewrite E; in_all).
  pose proof Hcore as (Hb & Hl).
  pose proof Hb as (Hg & _ & Hlaid & _).
  pose proof Hg as (Hr & G8 & Gseg & Ghl & G56 & Gcap).
  destruct (block_facts _ _ _ _ _ _ Hb Hin) as (F1 & F2 & F3 & F4 & F5 & F6 & F7 & F8).
  destruct (block_addr _ _ _ Hb _ _ _ Hin) as (A1 & A2).
  destruct (hdr_run _ _ _ Hb _ _ _ Hin (not_in_nil bp)) as (G1 & _).
  set (bs1 := pre ++ (bp, sz, true) :: post).
  rewrite E in Hlaid.
  pose proof (laid_flip _ _ _ _ _ true _ _ Hlaid) as Hlaid1. fold bs1 in Hlaid1.
  assert (Hin1 : In (bp, sz, true) bs1) by (unfold bs1; in_all).
  assert (C1 : core (set_mem s (retag (mem s) bp sz true)) bs1 ls [bp] []).
  { apply (core_retag _ bs ls [] [] _ [bp] []); auto.
    - intros b z f Hbin Hne _. split; [|apply not_in_nil].
      rewrite E. unfold bs1 in Hbin. apply in_app_or in Hbin.
      destruct Hbin as [?|[Heq|?]]; [in_all| |in_all].
      inversion Heq; subst; contradiction.
    - intros q z Hq _. rewrite E in Hq.
      destruct (mid_unique _ _ _ _ _ _ _ _ _ _ Hlaid Hq) as [(_ & _ & Hf)|(Hne & Hd)];
        [discriminate|].
      split; [unfold bs1; clear - Hd; in_all|]. intros [?|[]]. congruence.
    - intros q z Hq NU.
      split; [|apply not_in_nil]. rewrite E. unfold bs1 in Hq. apply in_app_or in Hq.
      destruct Hq as [?|[Heq|?]]; [in_all| |in_all].
      inversion Heq; subst. exfalso. apply NU. left; reflexivity. }
  destruct (core_add fuel _ _ _ [] [] bp sz C1 Hin1 (not_in_nil bp))
    as (m2 & ls2 & A2' & C2 & Fr2).
  { intros q []. }
  { unfold bs1. rewrite E in Hfuel. rewrite length_app in *. cbn [length] in *. lia. }
  simp_state_in A2'. simp_state_in C2.
  exists m2, ls2. split; [|exact C2].
  unfold free_before_coalesce.
  rewrite (run_bind _ _ _ _ _ G1).
  rewrite (put_tags_run _ bp sz true);
    [|assumption|lia|lia|lia|assumption|lia|apply u_32_PACK_free; lia].
  exact A2'.
Qed.

Lemma unmerged_layout :
  exists ls, core unmerged [(first_bp, 16, true); (first_bp + 16, 4080, true)] ls [] [].
Proof.
  destruct holding_layout as (ls & Hok).
  destruct (free_before_merge 300 holding _ ls [] [(first_bp + 16, 4080, true)] first_bp 16
              Hok eq_refl) as (m' & ls' & Hrun & Hc).
  { cbn [length]. lia. }
  exists ls'. unfold unmerged, exec. rewrite Hrun. exact Hc.
Qed.

(** X6: [place] takes the whole free block when the part left over would
    be shorter than 16 bytes, and splits it otherwise. *)
Theorem place_splits_or_takes_whole fuel s bs ls pre post bp bsz asize :
  small_store s -> invariant s bs ls -> enough fuel s ->
  bs = pre ++ (bp, bsz, true) :: post ->
  16 <= asize <= bsz -> asize mod 8 = 0 ->
  exists s' ls',
    place fuel bp asize s = Ret bp s' /\
    invariant s' (placed pre bp bsz asize post) ls' /\
    size_at s' bp = (if bsz - asize <? 16 then bsz else asize) /\
    mem_brk s' = mem_brk s /\ sbrk_calls s' = sbrk_calls s /\
    (forall b zb x, In (b, zb, false) bs -> b <= x < b + zb - 8 ->
       byte_at (mem s') x = byte_at (mem s) x).
Proof.
  intros Hs Hinv He E Hsz H8.
  destruct (assemble fuel s bs ls Hs Hinv He) as (Hok & Hlen).
  destruct (place_exact fuel s bs ls pre post bp bsz asize Hok E Hsz H8 ltac:(lia))
    as (m' & ls' & Hrun & Hok' & Hfr).
  exists (set_mem s m'), ls'. split; [exact Hrun|].
  split; [apply heap_ok_invariant; exact Hok'|].
  pose proof Hok' as ((Hb' & _) & _).
  destruct (block_tags _ _ _ _ _ _ Hb' (placed_in pre bp bsz asize post) (not_in_nil bp))
    as (_ & _ & T3).
  split; [exact T3|]. split; [reflexivity|]. split; [reflexivity|].
  intros b zb x Hin Hx. cbn [set_mem mem]. eapply payload_kept; eauto.
Qed.

Lemma place_splits_or_takes_whole_witness :
  exists s' ls',
    place 300 first_bp 16 started = Ret first_bp s' /\
    invariant s' (placed [] first_bp 4096 16 []) ls' /\
    size_at s' first_bp = (if 4096 - 16 <? 16 then 4096 else 16) /\
    mem_brk s' = mem_brk started /\ sbrk_calls s' = sbrk_calls started /\
    (forall b zb x, In (b, zb, false) [(first_bp, 4096, true)] -> b <= x < b + zb - 8 ->
       byte_at (mem s') x = byte_at (mem started) x).
Proof.
  destruct started_layout as (ls & Hok).
  destruct started_facts as (_ & He & Hs).
  apply (place_splits_or_takes_whole 300 started _ ls [] [] first_bp 4096 16 Hs
           (heap_ok_invariant _ _ _ Hok) He eq_refl); [lia|reflexivity].
Defined.

(** X7: [coalesce] merges a listed free block with the free blocks next to
    it: it returns the start of the merged block, the heap then satisfies
    the invariant set with the merged layout, and the payload of every
    allocated block is left as it was. *)
Theorem coalesce_merges_free_neighbours fuel s bs ls pre post bp sz :
  small_store s -> enough fuel s ->
  placement s -> sentinels s ->
  laid (mem_start_brk s + 56) bs (mem_brk s) -> tags (mem s) bs [] ->
  lists_ok s bs ls [] ->
  bs = pre ++ (bp, sz, true) :: post -> coalesced pre -> coalesced post ->
  exists s' ls',
    coalesce fuel bp s = Ret (coalesced_ptr pre bp) s' /\
    invariant s' (coalesced_layout pre bp sz post) ls' /\
    mem_brk s' = mem_brk s /\
    (forall b zb x, In (b, zb, false) bs -> b <= x < b + zb - 8 ->
       byte_at (mem s') x = byte_at (mem s) x).
Proof.
  intros Hs He Hp Hsen Hlaid Ht Hl E Hpre Hpost.
  assert (Hcore : core s bs ls [] []).
  { split; [|exact Hl]. split; [|split; [exact Hsen|split; [exact Hlaid|exact Ht]]].
    destruct Hp as (R & G8 & Gseg & Ghl & G56). unfold geometry. repeat split; auto; apply R. }
  assert (Hlen : (length bs < fuel)%nat).
  { pose proof (laid_length _ _ _ Hlaid) as Hll. destruct Hp as ((R0 & R1 & R2 & R3) & _).
    unfold enough in He. lia. }
  assert (Hco : coalesced (pre ++ (bp, sz, false) :: post)).
  { apply coalesced_app. split; [exact Hpre|]. split.
    - cbn [coalesced is_free snd]. split; [discriminate|exact Hpost].
    - intros _. reflexivity. }
  destruct (coalesce_exact fuel s bs ls pre post bp sz Hcore E Hco Hlen)
    as (m' & ls' & Hrun & Hok' & Hfr).
  exists (set_mem s m'), ls'. split; [exact Hrun|].
  split; [apply heap_ok_invariant; exact Hok'|]. split; [reflexivity|].
  intros b zb x Hin Hx. cbn [set_mem mem]. apply Hfr.
  apply (free_area_payload s bs b zb); auto.
Qed.

Lemma coalesce_merges_free_neighbours_witness :
  exists s' ls',
    coalesce 300 first_bp unmerged = Ret (coalesced_ptr [] first_bp) s' /\
    invariant s' (coalesced_layout [] first_bp 16 [(first_bp + 16, 4080, true)]) ls' /\
    mem_brk s' = mem_brk unmerged /\
    (forall b zb x,
       In (b, zb, false) [(first_bp, 16, true); (first_bp + 16, 4080, true)] ->
       b <= x < b + zb - 8 ->
       byte_at (mem s') x = byte_at (mem unmerged) x).
Proof.
  destruct unmerged_layout as (ls & ((Hg & Hsen & Hlaid & Ht) & Hl)).
  destruct Hg as (R & G8 & Gseg & Ghl & G56 & Gcap).
  assert (He : enough 300 unmerged).
  { unfold enough.
    assert (E1 : mem_max_addr unmerged = 65536 + 56 + 4096) by reflexivity.
    assert (E2 : mem_start_brk unmerged = 65536) by reflexivity.
    rewrite E1, E2. lia. }
  assert (Hp : placement unmerged) by (unfold placement; auto).
  apply (coalesce_merges_free_neighbours 300 unmerged _ ls [] [(first_bp + 16, 4080, true)]
           first_bp 16 Gcap He Hp Hsen Hlaid Ht Hl eq_refl).
  - exact I.
  - cbn. auto.
Defined.

Lemma roomy_facts : untouched roomy /\ small_store roomy /\ enough 600 roomy.
Proof.
  unfold untouched, small_store, enough, region_ok, roomy, fresh.
  cbn [mem_start_brk mem_brk mem_max_addr]. repeat split; try lia; reflexivity.
Qed.

Lemma settled_layout :
  (exists ls, heap_ok settled [(first_bp, 4096, true)] ls) /\
  enough 600 settled /\ mem_brk settled = first_bp + 4096 /\
  mem_max_addr settled = 65536 + 8192.
Proof.
  destruct roomy_facts as (Hu & Hs & He).
  destruct (mm_init_exact 600 roomy Hu Hs) as (m' & ls' & Hrun & Hok).
  { cbn. lia. }
  { lia. }
  unfold settled, exec. rewrite Hrun.
  split; [exists ls'; exact Hok|]. split; [exact He|]. split; reflexivity.
Qed.

Lemma extend_heap_aligned fuel size s :
  0 <= size -> size + 7 < 2 ^ 64 ->
  extend_heap fuel size s = extend_heap fuel (ALIGN size) s.
Proof.
  intros H1 H2. unfold extend_heap. cbv zeta.
  pose proof (ALIGN_ge size H1 H2) as Hge. pose proof (ALIGN_mod8 size) as Hm.
  rewrite (ALIGN_idem (ALIGN size)) by (auto; lia). reflexivity.
Qed.

(** X8: [extend_heap] asks the backing store once, for the size rounded up
    to a multiple of 8.  When the store refuses it returns null and
    nothing but the count of requests has changed; when the store grants
    the request the break moves up by that many bytes, the new space
    becomes a free block, merged with a free block at the end of the old
    heap if there is one, and its start is returned. *)
Theorem extend_heap_outcome fuel s bs ls size :
  small_store s -> invariant s bs ls -> enough fuel s ->
  8 < size <= 2 ^ 64 - 8 ->
  exists r s',
    extend_heap fuel size s = Ret r s' /\
    sbrk_calls s' = S (sbrk_calls s) /\
    (mem_max_addr s < mem_brk s + ALIGN size -> r = NULL /\ s' = refused s) /\
    (mem_brk s + ALIGN size <= mem_max_addr s ->
       r = coalesced_ptr bs (mem_brk s) /\
       mem_brk s' = mem_brk s + ALIGN size /\
       exists ls',
         invariant s' (coalesced_layout bs (mem_brk s) (ALIGN size) []) ls').
Proof.
  intros Hs Hinv He Hsz.
  destruct (assemble fuel s bs ls Hs Hinv He) as (Hok & Hlen).
  pose proof (ALIGN_ge size ltac:(lia) ltac:(lia)) as Hge.
  pose proof (ALIGN_mod8 size) as Hm.
  assert (H16 : 16 <= ALIGN size) by (Z.div_mod_to_equations; lia).
  rewrite extend_heap_aligned by lia.
  destruct (Z_lt_le_dec (mem_max_addr s) (mem_brk s + ALIGN size)) as [Hfull|Hroom].
  - exists NULL, (refused s).
    split; [apply extend_heap_refused; rewrite ALIGN_idem by (auto; lia); exact Hfull|].
    split; [reflexivity|]. split; [auto|]. intros H. lia.
  - destruct (extend_heap_exact fuel s bs ls (ALIGN size) Hok H16 Hm Hroom ltac:(lia))
      as (m' & ls' & Hrun & Hok' & _).
    exists (coalesced_ptr bs (mem_brk s)), (set_mem (granted s (ALIGN size)) m').
    split; [exact Hrun|]. split; [reflexivity|]. split; [intros H; lia|].
    intros _. split; [reflexivity|]. split; [reflexivity|].
    exists ls'. apply heap_ok_invariant. exact Hok'.
Qed.

Lemma extend_heap_outcome_witness :
  exists r s',
    extend_heap 600 100 settled = Ret r s' /\
    sbrk_calls s' = S (sbrk_calls settled) /\
    (mem_max_addr settled < mem_brk settled + ALIGN 100 -> r = NULL /\ s' = refused settled) /\
    (mem_brk settled + ALIGN 100 <= mem_max_addr settled ->
       r = coalesced_ptr [(first_bp, 4096, true)] (mem_brk settled) /\
       mem_brk s' = mem_brk settled + ALIGN 100 /\
       exists ls',
         invariant s'
           (coalesced_layout [(first_bp, 4096, true)] (mem_brk settled) (ALIGN 100) []) ls').
Proof.
  destruct settled_layout as ((ls & Hok) & He & _).
  apply (extend_heap_outcome 600 settled _ ls 100 (heap_ok_small _ _ _ Hok)
           (heap_ok_invariant _ _ _ Hok) He).
  lia.
Defined.

(** X9: on an untouched region [mm_init] returns 0 exactly when the store
    can supply the 56 bytes of list heads and sentinels and the first
    chunk of 4096 bytes; the heap then consists of one free block of 4096
    bytes and satisfies the invariant set, after two requests to the
    store.  Otherwise it returns -1. *)
Theorem mm_init_outcome fuel s :
  small_store s -> untouched s -> (1 < fuel)%nat ->
  exists r s',
    mm_init fuel s = Ret r s' /\
    (mem_brk s + 4152 <= mem_max_addr s ->
       r = 0 /\ mem_brk s' = mem_start_brk s + 4152 /\
       sbrk_calls s' = S (S (sbrk_calls s)) /\
       exists ls', invariant s' [(mem_start_brk s + 56, 4096, true)] ls') /\
    (mem_max_addr s < mem_brk s + 4152 -> r = -1).
Proof.
  intros Hs Hu Hfuel.
  destruct (Z_lt_le_dec (mem_max_addr s) (mem_brk s + 4152)) as [Hfull|Hroom].
  - destruct (mm_init_spec fuel s Hu Hs) as (r & s' & Hrun & Hr & Hiff & _).
    { intros _. exact Hfuel. }
    exists r, s'. split; [exact Hrun|]. split; [intros H; lia|].
    intros _. destruct Hr as [Hr|Hr]; [|exact Hr].
    apply Hiff in Hr. lia.
  - destruct (mm_init_exact fuel s Hu Hs ltac:(lia) Hfuel) as (m' & ls' & Hrun & Hok).
    exists 0, (set_mem (granted (init_state s) 4096) m').
    split; [exact Hrun|]. split; [|intros H; lia].
    intros _. split; [reflexivity|]. destruct Hu as (_ & Eb & _).
    split; [cbn [set_mem granted init_state mem_brk]; lia|].
    split; [reflexivity|].
    exists ls'. apply heap_ok_invariant. exact Hok.
Qed.

Lemma mm_init_outcome_witness :
  exists r s',
    mm_init 300 boot_small = Ret r s' /\
    (mem_brk boot_small + 4152 <= mem_max_addr boot_small ->
       r = 0 /\ mem_brk s' = mem_start_brk boot_small + 4152 /\
       sbrk_calls s' = S (S (sbrk_calls boot_small)) /\
       exists ls', invariant s' [(mem_start_brk boot_small + 56, 4096, true)] ls') /\
    (mem_max_addr boot_small < mem_brk boot_small + 4152 -> r = -1).
Proof.
  apply (mm_init_outcome 300 boot_small boot_small_store boot_small_untouched). lia.
Defined.

(** ** The public calls, summed up *)

Lemma in_range_adjust n :
  1 <= n <= 2 ^ 64 - 16 ->
  16 <= adjust n /\ adjust n mod 8 = 0 /\ n + 8 <= adjust n /\ adjust n < 2 ^ 64.
Proof.
  intros Hn. destruct (adjust_facts n ltac:(lia) ltac:(lia)) as (J1 & J2 & J3 & J4).
  repeat split; auto.
  pose proof (adjust_eq n ltac:(lia) ltac:(lia)) as Ea.
  assert (8 * ((n + 15) / 8) <= n + 15) by (Z.div_mod_to_equations; lia). lia.
Qed.

(** X10: [malloc] of a nonzero size turns to the backing store exactly
    when no free block is large enough.  When one is, the block it returns
    was a free block of at least the adjusted size and the heap keeps its
    size; when none is, it asks the store once, for the larger of the
    adjusted size and 4096 bytes, and returns null when that is refused. *)
Theorem malloc_grows_only_without_fit fuel s bs ls n :
  small_store s -> invariant s bs ls -> enough fuel s -> 1 <= n <= 2 ^ 64 - 16 ->
  exists r s',
    malloc fuel n s = Ret r s' /\
    ((exists q z, In (q, z, true) bs /\ adjust n <= z) ->
       r <> NULL /\ (exists z, In (r, z, true) bs /\ adjust n <= z) /\
       mem_brk s' = mem_brk s /\ sbrk_calls s' = sbrk_calls s) /\
    (no_fit bs (adjust n) ->
       sbrk_calls s' = S (sbrk_calls s) /\
       (mem_brk s + MAX (adjust n) CHUNKSIZE <= mem_max_addr s ->
          r <> NULL /\ mem_brk s' = mem_brk s + MAX (adjust n) CHUNKSIZE) /\
       (mem_max_addr s < mem_brk s + MAX (adjust n) CHUNKSIZE ->
          r = NULL /\ s' = refused s)).
Proof.
  intros Hs Hinv He Hn.
  destruct (assemble fuel s bs ls Hs Hinv He) as (Hok & Hlen).
  destruct (malloc_exact fuel s bs ls n Hok ltac:(lia) ltac:(lia) ltac:(lia))
    as [(pre & bp & bsz & post & m' & ls' & E & Hz & Hrun & Hok' & _)
       |[(Hno & Hfull & Hrun)
        |(Hno & Hroom & pre & bp & bsz & m' & ls' & _ & _ & _ & Hrun & Hok' & _)]].
  - exists bp, (set_mem s m'). split; [exact Hrun|].
    assert (Hin : In (bp, bsz, true) bs) by (rewrite E; in_all).
    split.
    + intros _. split; [exact (placed_not_null _ _ _ _ _ _ _ Hok')|].
      split; [exists bsz; auto|]. split; reflexivity.
    + intros Hno. specialize (Hno bp bsz Hin). lia.
  - exists NULL, (refused s). split; [exact Hrun|]. split.
    + intros (q & z & Hq & Hz). specialize (Hno q z Hq). lia.
    + intros _. split; [reflexivity|]. split; [intros H; lia|auto].
  - exists bp, (set_mem (granted s (MAX (adjust n) CHUNKSIZE)) m').
    split; [exact Hrun|]. split.
    + intros (q & z & Hq & Hz). specialize (Hno q z Hq). lia.
    + intros _. split; [reflexivity|]. split; [|intros H; lia].
      intros _. split; [exact (placed_not_null _ _ _ _ _ _ _ Hok')|reflexivity].
Qed.

Lemma malloc_grows_only_without_fit_witness :
  exists r s',
    malloc 600 5000 settled = Ret r s' /\
    ((exists q z, In (q, z, true) [(first_bp, 4096, true)] /\ adjust 5000 <= z) ->
       r <> NULL /\ (exists z, In (r, z, true) [(first_bp, 4096, true)] /\ adjust 5000 <= z) /\
       mem_brk s' = mem_brk settled /\ sbrk_calls s' = sbrk_calls settled) /\
    (no_fit [(first_bp, 4096, true)] (adjust 5000) ->
       sbrk_calls s' = S (sbrk_calls settled) /\
       (mem_brk settled + MAX (adjust 5000) CHUNKSIZE <= mem_max_addr settled ->
          r <> NULL /\ mem_brk s' = mem_brk settled + MAX (adjust 5000) CHUNKSIZE) /\
       (mem_max_addr settled < mem_brk settled + MAX (adjust 5000) CHUNKSIZE ->
          r = NULL /\ s' = refused settled)).
Proof.
  destruct settled_layout as ((ls & Hok) & He & _).
  apply (malloc_grows_only_without_fit 600 settled _ ls 5000 (heap_ok_small _ _ _ Hok)
           (heap_ok_invariant _ _ _ Hok) He).
  lia.
Defined.

(** X11: the block that [malloc] returns is at most 8 bytes longer than
    the adjusted size. *)
Theorem malloc_block_at_most_8_over fuel s n :
  small_store s -> ready s -> enough fuel s -> 1 <= n <= 2 ^ 64 - 16 ->
  exists r s',
    malloc fuel n s = Ret r s' /\
    (r <> NULL -> adjust n <= size_at s' r <= adjust n + 8).
Proof.
  intros Hs (bs & ls & Hinv) He Hn.
  destruct (assemble fuel s bs ls Hs Hinv He) as (Hok & Hlen).
  destruct (in_range_adjust n Hn) as (J1 & J2 & J3 & J4).
  assert (Hsize : forall s1 pre bp bsz post ls1,
            heap_ok s1 (placed pre bp bsz (adjust n) post) ls1 -> adjust n <= bsz ->
            adjust n <= size_at s1 bp <= adjust n + 8).
  { intros s1 pre bp bsz post ls1 Hok1 Hz.
    pose proof Hok1 as ((Hb1 & _) & _).
    pose proof (placed_in pre bp bsz (adjust n) post) as Hin.
    destruct (block_tags _ _ _ _ _ _ Hb1 Hin (not_in_nil bp)) as (_ & _ & T3).
    destruct (block_facts _ _ _ _ _ _ Hb1 Hin) as (_ & _ & _ & F4 & _).
    rewrite T3. destruct (bsz - adjust n <? 16) eqn:El;
      [apply Z.ltb_lt in El|apply Z.ltb_ge in El]; [|lia].
    Z.div_mod_to_equations. lia. }
  destruct (malloc_exact fuel s bs ls n Hok ltac:(lia) ltac:(lia) ltac:(lia))
    as [(pre & bp & bsz & post & m' & ls' & E & Hz & Hrun & Hok' & _)
       |[(Hno & Hfull & Hrun)
        |(Hno & Hroom & pre & bp & bsz & m' & ls' & _ & _ & Hz & Hrun & Hok' & _)]].
  - exists bp, (set_mem s m'). split; [exact Hrun|]. intros _. eapply Hsize; eauto.
  - exists NULL, (refused s). split; [exact Hrun|]. intros H. contradiction.
  - exists bp, (set_mem (granted s (MAX (adjust n) CHUNKSIZE)) m').
    split; [exact Hrun|]. intros _. eapply Hsize; eauto.
Qed.

Lemma malloc_block_at_most_8_over_witness :
  exists r s',
    malloc 300 4081 started = Ret r s' /\
    (r <> NULL -> adjust 4081 <= size_at s' r <= adjust 4081 + 8).
Proof.
  destruct started_facts as (Hr & He & Hs).
  apply (malloc_block_at_most_8_over 300 started 4081 Hs Hr He). lia.
Defined.

(** X12: [malloc] leaves every allocated block as it is, payload included,
    and a block it returns is new, lies inside the heap, and its payload
    overlaps the payload of no block that was allocated before. *)
Theorem malloc_keeps_live_blocks fuel s bs ls n :
  small_store s -> invariant s bs ls -> enough fuel s -> in_range n ->
  exists r s',
    malloc fuel n s = Ret r s' /\
    (forall b zb, In (b, zb, false) bs ->
       live s' b /\ size_at s' b = zb /\
       (forall x, b <= x < b + zb - 8 -> byte_at (mem s') x = byte_at (mem s) x) /\
       (r <> NULL -> r + (size_at s' r - 8) <= b \/ b + (zb - 8) <= r)) /\
    (r <> NULL ->
       live s' r /\ ~ live s r /\
       mem_start_brk s' <= r /\ r + (size_at s' r - 8) <= mem_brk s').
Proof.
  intros Hs Hinv He (Hn0 & Hn1).
  destruct (assemble fuel s bs ls Hs Hinv He) as (Hok & Hlen).
  pose proof Hok as ((Hb & _) & _).
  destruct (Z.eq_dec n 0) as [->|Hne].
  { exists NULL, s. rewrite (malloc_zero fuel s (heap_ok_init _ _ _ Hok)).
    split; [reflexivity|]. split; [|intros H; contradiction].
    intros b zb Hin. split; [exact (live_intro _ _ _ _ _ Hok Hin)|].
    destruct (block_tags _ _ _ _ _ _ Hb Hin (not_in_nil b)) as (_ & _ & T3).
    split; [exact T3|]. split; [reflexivity|]. intros H; contradiction. }
  destruct (malloc_spec fuel s bs ls n Hok ltac:(lia) ltac:(lia) ltac:(lia))
    as (r & s' & Hrun & bs' & ls' & Hok' & Hal & _ & Hfr & _ & Hres).
  pose proof Hok' as ((Hb' & _) & _).
  pose proof Hb' as (_ & _ & Hlaid' & _).
  exists r, s'. split; [exact Hrun|]. split.
  - intros b zb Hin. pose proof (Hal _ _ Hin) as Hin'.
    split; [exact (live_intro _ _ _ _ _ Hok' Hin')|].
    destruct (block_tags _ _ _ _ _ _ Hb' Hin' (not_in_nil b)) as (_ & _ & T3).
    split; [exact T3|].
    split; [intros x Hx; eapply payload_kept; eauto|].
    intros Hnn. destruct (Hres Hnn) as (z & Hr & _ & Hnew).
    destruct (block_tags _ _ _ _ _ _ Hb' Hr (not_in_nil r)) as (_ & _ & T3r).
    rewrite T3r.
    destruct (laid_disjoint _ _ _ _ _ _ _ _ _ Hlaid' Hr Hin') as [(-> & _)|Hd];
      [exfalso; exact (Hnew zb Hin)|lia].
  - intros Hnn. destruct (Hres Hnn) as (z & Hr & _ & Hnew).
    destruct (block_tags _ _ _ _ _ _ Hb' Hr (not_in_nil r)) as (_ & _ & T3r).
    destruct (block_facts _ _ _ _ _ _ Hb' Hr) as (F1 & F2 & _).
    split; [exact (live_intro _ _ _ _ _ Hok' Hr)|].
    split; [exact (not_live _ _ _ _ Hok Hnew)|].
    rewrite T3r. lia.
Qed.

Lemma malloc_keeps_live_blocks_witness :
  exists r s',
    malloc 300 100 holding = Ret r s' /\
    (forall b zb, In (b, zb, false) [(first_bp, 16, false); (first_bp + 16, 4080, true)] ->
       live s' b /\ size_at s' b = zb /\
       (forall x, b <= x < b + zb - 8 -> byte_at (mem s') x = byte_at (mem holding) x) /\
       (r <> NULL -> r + (size_at s' r - 8) <= b \/ b + (zb - 8) <= r)) /\
    (r <> NULL ->
       live s' r /\ ~ live holding r /\
       mem_start_brk s' <= r /\ r + (size_at s' r - 8) <= mem_brk s').
Proof.
  destruct holding_layout as (ls & Hok).
  destruct holding_facts as (_ & He & Hs).
  apply (malloc_keeps_live_blocks 300 holding _ ls 100 Hs (heap_ok_invariant _ _ _ Hok) He).
  unfold in_range. lia.
Defined.

(** X13: [free] of a live pointer merges its block with the free blocks
    next to it and leaves the heap in the invariant set; the pointer is
    no longer live, the heap keeps its size, and every other allocated
    block stays live with its payload unchanged. *)
Theorem free_merges_and_keeps_others fuel s bs ls pre post p sz :
  small_store s -> invariant s bs ls -> enough fuel s ->
  bs = pre ++ (p, sz, false) :: post ->
  exists s' ls',
    free fuel p s = Ret tt s' /\
    invariant s' (coalesced_layout pre p sz post) ls' /\
    ~ live s' p /\
    (exists r z, In (r, z, true) (coalesced_layout pre p sz post) /\
                 r <= p /\ p + sz <= r + z) /\
    mem_brk s' = mem_brk s /\ sbrk_calls s' = sbrk_calls s /\
    (forall b zb, In (b, zb, false) bs -> b <> p ->
       live s' b /\
       forall x, b <= x < b + zb - 8 -> byte_at (mem s') x = byte_at (mem s) x).
Proof.
  intros Hs Hinv He E.
  destruct (assemble fuel s bs ls Hs Hinv He) as (Hok & Hlen).
  destruct (free_full fuel s bs ls pre post p sz Hok E ltac:(lia))
    as (m' & ls' & Hrun & Hok' & Hgone & Hcov & Hstay & _ & Hkeep).
  exists (set_mem s m'), ls'. split; [exact Hrun|].
  split; [apply heap_ok_invariant; exact Hok'|].
  split; [exact (not_live _ _ _ _ Hok' Hgone)|].
  split; [exact Hcov|]. split; [reflexivity|]. split; [reflexivity|].
  intros b zb Hin Hne.
  split; [exact (live_intro _ _ _ _ _ Hok' (Hstay _ _ Hin Hne))|].
  intros x Hx. cbn [set_mem mem]. eapply Hkeep; eauto.
Qed.

Lemma free_merges_and_keeps_others_witness :
  exists s' ls',
    free 300 first_bp holding = Ret tt s' /\
    invariant s' (coalesced_layout [] first_bp 16 [(first_bp + 16, 4080, true)]) ls' /\
    ~ live s' first_bp /\
    (exists r z,
       In (r, z, true) (coalesced_layout [] first_bp 16 [(first_bp + 16, 4080, true)]) /\
       r <= first_bp /\ first_bp + 16 <= r + z) /\
    mem_brk s' = mem_brk holding /\ sbrk_calls s' = sbrk_calls holding /\
    (forall b zb,
       In (b, zb, false) ([] ++ (first_bp, 16, false) :: [(first_bp + 16, 4080, true)]) ->
       b <> first_bp ->
       live s' b /\
       forall x, b <= x < b + zb - 8 -> byte_at (mem s') x = byte_at (mem holding) x).
Proof.
  destruct holding_layout as (ls & Hok).
  destruct holding_facts as (_ & He & Hs).
  exact (free_merges_and_keeps_others 300 holding _ ls [] [(first_bp + 16, 4080, true)]
           first_bp 16 Hs (heap_ok_invariant _ _ _ Hok) He eq_refl).
Defined.

(** X14: after [free] of a live block a request that fits into it is met
    without growing the heap and without a call of the backing store. *)
Theorem free_then_malloc_reuses fuel s p n :
  small_store s -> live s p -> enough fuel s ->
  1 <= n <= size_at s p - 8 ->
  exists s1 r s2,
    free fuel p s = Ret tt s1 /\ malloc fuel n s1 = Ret r s2 /\
    r <> NULL /\ mem_brk s2 = mem_brk s /\ sbrk_calls s2 = sbrk_calls s.
Proof.
  intros Hs (bs & ls & sz & Hinv & Hin) He Hn.
  destruct (assemble fuel s bs ls Hs Hinv He) as (Hok & Hlen).
  pose proof Hok as ((Hb & _) & _).
  destruct (block_tags _ _ _ _ _ _ Hb Hin (not_in_nil p)) as (_ & _ & T3).
  destruct (block_facts _ _ _ _ _ _ Hb Hin) as (_ & _ & F3 & F4 & _ & F6 & _).
  rewrite T3 in Hn.
  destruct (in_split _ _ Hin) as (pre & post & E).
  destruct (free_full fuel s bs ls pre post p sz Hok E ltac:(lia))
    as (m' & ls' & Hrun & Hok' & _ & (q & z & Hq & Hq1 & Hq2) & _ & Hlen' & _).
  assert (Hn' : 1 <= n <= 2 ^ 64 - 16) by lia.
  destruct (in_range_adjust n Hn') as (J1 & J2 & J3 & J4).
  assert (Ha : adjust n <= sz).
  { rewrite (adjust_eq n) by lia. Z.div_mod_to_equations. lia. }
  destruct (malloc_exact fuel (set_mem s m') _ ls' n Hok' ltac:(lia) ltac:(lia) ltac:(lia))
    as [(pre1 & bp & bsz & post1 & m1 & ls1 & E1 & Hz & Hrun1 & Hok1 & _)
       |[(Hno & _)|(Hno & _)]].
  - exists (set_mem s m'), bp, (set_mem (set_mem s m') m1).
    split; [exact Hrun|]. split; [exact Hrun1|].
    split; [exact (placed_not_null _ _ _ _ _ _ _ Hok1)|]. split; reflexivity.
  - specialize (Hno q z Hq). lia.
  - specialize (Hno q z Hq). lia.
Qed.

Lemma free_then_malloc_reuses_witness :
  exists s1 r s2,
    free 300 first_bp holding = Ret tt s1 /\ malloc 300 8 s1 = Ret r s2 /\
    r <> NULL /\ mem_brk s2 = mem_brk holding /\ sbrk_calls s2 = sbrk_calls holding.
Proof.
  destruct holding_facts as (Hl & He & Hs).
  apply (free_then_malloc_reuses 300 holding first_bp 8 Hs Hl He).
  assert (E : size_at holding first_bp = 16) by (vm_compute; reflexivity).
  rewrite E. lia.
Defined.

(** X15: when [realloc] of a live pointer with a nonzero size returns
    null, no free block was large enough and the store has refused to
    grow; the memory is what it was and the old block is still live. *)
Theorem realloc_failure_keeps_block fuel s bs ls p osz n :
  small_store s -> invariant s bs ls -> In (p, osz, false) bs -> enough fuel s ->
  1 <= n <= 2 ^ 64 - 16 ->
  exists r s',
    realloc fuel p n s = Ret r s' /\
    (r = NULL ->
       no_fit bs (adjust n) /\
       mem_max_addr s < mem_brk s + MAX (adjust n) CHUNKSIZE /\
       mem s' = mem s /\ mem_brk s' = mem_brk s /\
       invariant s' bs ls /\ live s' p).
Proof.
  intros Hs Hinv Hin He Hn.
  destruct (assemble fuel s bs ls Hs Hinv He) as (Hok & Hlen).
  destruct (realloc_full fuel s bs ls p osz n Hok Hin ltac:(lia) ltac:(lia) ltac:(lia))
    as (r & s' & Hrun & [(-> & -> & Hno & Hfull)|(Hnn & _)]).
  - exists 0, (refused s). split; [exact Hrun|]. intros _.
    pose proof (heap_ok_refused _ _ _ Hok) as Hok'.
    split; [exact Hno|]. split; [exact Hfull|]. split; [reflexivity|].
    split; [reflexivity|]. split; [apply heap_ok_invariant; exact Hok'|].
    exact (live_intro _ _ _ _ _ Hok' Hin).
  - exists r, s'. split; [exact Hrun|]. intros H. contradiction.
Qed.

Lemma realloc_failure_keeps_block_witness :
  exists r s',
    realloc 300 first_bp 5000 holding = Ret r s' /\
    (r = NULL ->
       no_fit [(first_bp, 16, false); (first_bp + 16, 4080, true)] (adjust 5000) /\
       mem_max_addr holding < mem_brk holding + MAX (adjust 5000) CHUNKSIZE /\
       mem s' = mem holding /\ mem_brk s' = mem_brk holding /\
       (exists ls, invariant s' [(first_bp, 16, false); (first_bp + 16, 4080, true)] ls) /\
       live s' first_bp).
Proof.
  destruct holding_layout as (ls & Hok).
  destruct holding_facts as (_ & He & Hs).
  destruct (realloc_failure_keeps_block 300 holding _ ls first_bp 16 5000 Hs
              (heap_ok_invariant _ _ _ Hok) (or_introl eq_refl) He ltac:(lia))
    as (r & s' & Hrun & H).
  exists r, s'. split; [exact Hrun|].
  intros Hr. destruct (H Hr) as (H1 & H2 & H3 & H4 & H5 & H6).
  repeat split; auto. exists ls. exact H5.
Defined.

(** X16: when [realloc] of a live pointer with a nonzero size succeeds, the
    block has moved: the result is a new live block, the old pointer is no
    longer live, and every other allocated block stays live with its
    payload unchanged. *)
Theorem realloc_moves_and_releases fuel s bs ls p osz n :
  small_store s -> invariant s bs ls -> In (p, osz, false) bs -> enough fuel s ->
  1 <= n <= 2 ^ 64 - 16 ->
  exists r s',
    realloc fuel p n s = Ret r s' /\
    (r <> NULL ->
       r <> p /\ live s' r /\ ~ live s r /\ ~ live s' p /\
       forall b zb, In (b, zb, false) bs -> b <> p ->
         live s' b /\
         forall x, b <= x < b + zb - 8 -> byte_at (mem s') x = byte_at (mem s) x).
Proof.
  intros Hs Hinv Hin He Hn.
  destruct (assemble fuel s bs ls Hs Hinv He) as (Hok & Hlen).
  destruct (realloc_full fuel s bs ls p osz n Hok Hin ltac:(lia) ltac:(lia) ltac:(lia))
    as (r & s' & Hrun & [(-> & _)|(Hnn & Hne & bs' & ls' & z & Hok' & Hr & _ & Hnew & Hgone & Hkeep & _)]).
  - exists 0, s'. split; [exact Hrun|]. intros H. exfalso. apply H. reflexivity.
  - exists r, s'. split; [exact Hrun|]. intros _.
    split; [exact Hne|]. split; [exact (live_intro _ _ _ _ _ Hok' Hr)|].
    split; [exact (not_live _ _ _ _ Hok Hnew)|].
    split; [exact (not_live _ _ _ _ Hok' Hgone)|].
    intros b zb Hb Hbp. destruct (Hkeep b zb Hb Hbp) as (Hb' & Hbytes).
    split; [exact (live_intro _ _ _ _ _ Hok' Hb')|exact Hbytes].
Qed.

Lemma realloc_moves_and_releases_witness :
  exists r s',
    realloc 300 first_bp 24 holding = Ret r s' /\
    (r <> NULL ->
       r <> first_bp /\ live s' r /\ ~ live holding r /\ ~ live s' first_bp /\
       forall b zb,
         In (b, zb, false) [(first_bp, 16, false); (first_bp + 16, 4080, true)] ->
         b <> first_bp ->
         live s' b /\
         forall x, b <= x < b + zb - 8 -> byte_at (mem s') x = byte_at (mem holding) x).
Proof.
  destruct holding_layout as (ls & Hok).
  destruct holding_facts as (_ & He & Hs).
  apply (realloc_moves_and_releases 300 holding _ ls first_bp 16 24 Hs
           (heap_ok_invariant _ _ _ Hok) (or_introl eq_refl) He).
  lia.
Defined.

(** X17: the first [malloc] of a process that has not called [mm_init]
    sets up the heap itself: with room for the list heads, the sentinels
    and the first chunk, a request of up to 4088 bytes returns the first
    payload address, 56 bytes above the start of the region, after two
    requests to the store, and the heap satisfies the invariant set. *)
Theorem first_malloc_initialises fuel s n :
  small_store s -> untouched s -> heap_listp s = NULL -> enough fuel s ->
  mem_brk s + 4152 <= mem_max_addr s -> 1 <= n <= 4088 ->
  exists s',
    malloc fuel n s = Ret (mem_start_brk s + 56) s' /\ ready s' /\
    mem_brk s' = mem_start_brk s + 4152 /\
    sbrk_calls s' = S (S (sbrk_calls s)).
Proof.
  intros Hs Hu Hnull He Hroom Hn.
  pose proof Hu as ((R0 & R1 & R2 & R3) & Eb & G8).
  assert (Hfuel : (260 <= fuel)%nat) by (unfold enough in He; lia).
  destruct (mm_init_exact fuel s Hu Hs ltac:(lia) ltac:(lia)) as (m0 & ls0 & Hinit & Hok0).
  set (s0 := set_mem (granted (init_state s) 4096) m0) in *.
  assert (Hn' : 1 <= n <= 2 ^ 64 - 16) by lia.
  destruct (in_range_adjust n Hn') as (J1 & J2 & J3 & J4).
  assert (Ha : adjust n <= 4096).
  { rewrite (adjust_eq n) by lia. Z.div_mod_to_equations. lia. }
  destruct (malloc_exact fuel s0 _ ls0 n Hok0 ltac:(lia) ltac:(lia) ltac:(cbn [length]; lia))
    as [(pre & bp & bsz & post & m' & ls' & E & Hz & Hrun & Hok' & _)
       |[(Hno & _)|(Hno & _)]].
  - destruct pre as [|b pre]; [|destruct pre; discriminate E].
    cbn [app] in E. inversion E; subst bp bsz post.
    exists (set_mem s0 m').
    split.
    + unfold malloc, lazy_init. rewrite !bind_assoc.
      unfold bind at 1. unfold get_heap_listp.
      replace (heap_listp s =? NULL) with true by (symmetry; apply Z.eqb_eq; exact Hnull).
      rewrite !bind_assoc. rewrite (run_bind _ _ _ _ _ Hinit). rewrite bind_ret_l.
      pose proof (heap_ok_init _ _ _ Hok0) as Hhl.
      rewrite (malloc_initialised fuel n s0 Hhl) in Hrun.
      exact Hrun.
    + split; [exists (placed [] (mem_start_brk s + 56) 4096 (adjust n) []), ls';
              apply heap_ok_invariant; exact Hok'|].
      split; [unfold s0; cbn [set_mem granted init_state mem_brk]; lia|reflexivity].
  - specialize (Hno (mem_start_brk s + 56) 4096 (or_introl eq_refl)). lia.
  - specialize (Hno (mem_start_brk s + 56) 4096 (or_introl eq_refl)). lia.
Qed.

Lemma first_malloc_initialises_witness :
  exists s',
    malloc 300 100 boot_small = Ret (mem_start_brk boot_small + 56) s' /\ ready s' /\
    mem_brk s' = mem_start_brk boot_small + 4152 /\
    sbrk_calls s' = S (S (sbrk_calls boot_small)).
Proof.
  apply (first_malloc_initialises 300 boot_small 100 boot_small_store boot_small_untouched
           eq_refl boot_small_enough).
  - cbn. lia.
  - lia.
Defined.

(** X18: when the store cannot even supply the 56 bytes of list heads and
    sentinels, the first [malloc] of a nonzero size of a process that has
    not called [mm_init] faults: [mm_init] fails, its result is ignored,
    and the search reads a list head through the table that was never
    set up. *)
Theorem first_malloc_without_room_faults fuel s n :
  mem_brk s = mem_start_brk s -> heap_listp s = NULL ->
  mem_max_addr s < mem_brk s + 56 -> n <> 0 ->
  malloc fuel n s = Fault.
Proof.
  intros Eb Hnull Hfull Hn0.
  unfold malloc, lazy_init. rewrite !bind_assoc.
  unfold bind at 1. unfold get_heap_listp.
  replace (heap_listp s =? NULL) with true by (symmetry; apply Z.eqb_eq; exact Hnull).
  rewrite !bind_assoc.
  unfold mm_init. change (14 * WSIZE) with 56. rewrite !bind_assoc.
  unfold bind at 1. unfold mem_sbrk.
  replace (mem_brk s + 56 <=? mem_max_addr s) with false
    by (symmetry; apply Z.leb_gt; lia).
  rewrite bind_assoc. unfold bind at 1. unfold put_heap_listp.
  rewrite Z.eqb_refl. rewrite !bind_ret_l.
  replace (n =? 0) with false by (symmetry; apply Z.eqb_neq; exact Hn0).
  match goal with |- _ ?st = Fault => set (s1 := st) end.
  assert (Hnoread : forall p, load32 p s1 = Fault).
  { intros p. unfold load32, valid. unfold s1, set_heap_listp. cbn [mem_start_brk mem_brk].
    destruct (mem_start_brk s <=? p) eqn:E1; cbn [andb]; [|reflexivity].
    replace (p + 4 <=? mem_brk s) with false; [reflexivity|].
    symmetry. apply Z.leb_gt. apply Z.leb_le in E1. lia. }
  assert (Hseg : forall i, seg_get i s1 = Fault).
  { intros i. unfold seg_get, bind, get_seg_lists. apply Hnoread. }
  assert (Hlists : forall k i,
            malloc_lists fuel k i (adjust n) NULL s1 = Fault \/
            exists j, malloc_lists fuel k i (adjust n) NULL s1 = Ret (NULL, j) s1).
  { induction k as [|k IH]; intros i; cbn [malloc_lists].
    - right. exists i. reflexivity.
    - destruct (i <? LISTNUM - 1); [|right; exists i; reflexivity].
      destruct (adjust n <=? Z.shiftl 16 i); [|apply IH].
      left. unfold bind at 1. rewrite Hseg. reflexivity. }
  unfold malloc_search. rewrite bind_assoc.
  destruct (Hlists 9%nat 0) as [Ho|(j & Ho)]; unfold bind at 1; rewrite Ho; [reflexivity|].
  cbn [fst snd]. change (NULL =? NULL) with true. cbv iota.
  rewrite !bind_assoc. unfold bind at 1. unfold get_heap_listp.
  rewrite !bind_assoc. unfold bind at 1. rewrite Hseg. reflexivity.
Qed.

Lemma first_malloc_without_room_faults_witness : malloc 100 8 tiny40 = Fault.
Proof.
  apply (first_malloc_without_room_faults 100 tiny40 8).
  - reflexivity.
  - reflexivity.
  - cbn. lia.
  - lia.
Defined.

(** ** The lists, summed up *)

Lemma marked_list3 : list_rep marked (list_index_of 120) [first_bp; first_bp + 264].
Proof.
  unfold list_rep. cbn [chain]. unfold node_ok.
  repeat split; vm_compute; congruence.
Qed.

(** X19: [add_to_list] puts the block into the list of its size class,
    behind every node whose block is smaller than the size given and in
    front of the first node whose block is not; the list is well formed
    again, and nothing changes but the head of that list and the link
    words of the block and of the nodes of the list. *)
Theorem add_to_list_inserts_in_order fuel bp asize s L :
  region_ok s ->
  mem_start_brk s <= seg_lists s + 4 * list_index_of asize /\
  seg_lists s + 4 * list_index_of asize + 4 <= mem_brk s ->
  list_rep s (list_index_of asize) L ->
  (length L < fuel)%nat ->
  node_ok s bp -> 0 < off s bp < 2 ^ 32 ->
  sep (bp :: L) ->
  (forall q, In q (bp :: L) ->
     q + 8 <= seg_lists s + 4 * list_index_of asize \/
     seg_lists s + 4 * list_index_of asize + 4 <= q) ->
  exists l1 l2 s',
    L = l1 ++ l2 /\
    (forall q, In q l1 -> size_at s q < asize) /\
    match l2 with [] => True | n :: _ => asize <= size_at s n end /\
    add_to_list fuel bp asize s = Ret tt s' /\
    same_regs s s' /\
    list_rep s' (list_index_of asize) (l1 ++ bp :: l2) /\
    (forall x, (x < bp \/ bp + 8 <= x) ->
               (x < seg_lists s + 4 * list_index_of asize \/
                seg_lists s + 4 * list_index_of asize + 4 <= x) ->
               (forall q, In q L -> x < q \/ q + 8 <= x) ->
               byte_at (mem s') x = byte_at (mem s) x).
Proof.
  intros Hr Hslot HL Hfuel Hbp Hd Hsep Hsl.
  destruct (add_to_list_spec fuel bp asize s L Hr Hslot HL Hfuel Hbp Hd Hsep Hsl)
    as (l1 & l2 & m' & E & Hsmall & Hfit & Hrun & Hrep & Hframe).
  exists l1, l2, (set_mem s m'). repeat split; auto.
Qed.

Lemma add_to_list_inserts_in_order_witness :
  exists l1 l2 s',
    [first_bp; first_bp + 264] = l1 ++ l2 /\
    (forall q, In q l1 -> size_at marked q < 120) /\
    match l2 with [] => True | n :: _ => 120 <= size_at marked n end /\
    add_to_list 100 (first_bp + 128) 120 marked = Ret tt s' /\
    same_regs marked s' /\
    list_rep s' (list_index_of 120) (l1 ++ (first_bp + 128) :: l2) /\
    (forall x, (x < first_bp + 128 \/ first_bp + 128 + 8 <= x) ->
               (x < seg_lists marked + 4 * list_index_of 120 \/
                seg_lists marked + 4 * list_index_of 120 + 4 <= x) ->
               (forall q, In q [first_bp; first_bp + 264] -> x < q \/ q + 8 <= x) ->
               byte_at (mem s') x = byte_at (mem marked) x).
Proof.
  apply (add_to_list_inserts_in_order 100 (first_bp + 128) 120 marked
           [first_bp; first_bp + 264]).
  - repeat split; vm_compute; congruence.
  - split; vm_compute; congruence.
  - exact marked_list3.
  - simpl. lia.
  - split; vm_compute; congruence.
  - split; vm_compute; congruence.
  - cbn [sep In]. unfold far, first_bp. repeat split; intros; intuition lia.
  - intros q [<-|[<-|[<-|[]]]]; right; vm_compute; congruence.
Defined.

(** X20: [remove_from_list] unlinks a node of a well-formed list: the list
    of the class of the size given is well formed again without the node,
    the other nodes keep their order, and nothing changes but the head of
    that list and the link words of the remaining nodes. *)
Theorem remove_from_list_unlinks bp asize s l1 l2 :
  region_ok s ->
  mem_start_brk s <= seg_lists s + 4 * list_index_of asize /\
  seg_lists s + 4 * list_index_of asize + 4 <= mem_brk s ->
  list_rep s (list_index_of asize) (l1 ++ bp :: l2) ->
  sep (l1 ++ bp :: l2) ->
  (forall q, In q (l1 ++ l2) ->
     q + 8 <= seg_lists s + 4 * list_index_of asize \/
     seg_lists s + 4 * list_index_of asize + 4 <= q) ->
  exists s',
    remove_from_list bp asize s = Ret tt s' /\
    same_regs s s' /\
    list_rep s' (list_index_of asize) (l1 ++ l2) /\
    (forall x, (x < seg_lists s + 4 * list_index_of asize \/
                seg_lists s + 4 * list_index_of asize + 4 <= x) ->
               (forall q, In q (l1 ++ l2) -> x < q \/ q + 8 <= x) ->
               byte_at (mem s') x = byte_at (mem s) x).
Proof.
  intros Hr Hslot HL Hsep Hsl.
  destruct (remove_from_list_spec bp asize s l1 l2 Hr Hslot HL Hsep Hsl)
    as (m' & Hrun & Hrep & Hframe).
  exists (set_mem s m'). repeat split; auto.
Qed.

Lemma remove_from_list_unlinks_witness :
  exists s',
    remove_from_list first_bp 112 marked = Ret tt s' /\
    same_regs marked s' /\
    list_rep s' (list_index_of 112) ([] ++ [first_bp + 264]) /\
    (forall x, (x < seg_lists marked + 4 * list_index_of 112 \/
                seg_lists marked + 4 * list_index_of 112 + 4 <= x) ->
               (forall q, In q ([] ++ [first_bp + 264]) -> x < q \/ q + 8 <= x) ->
               byte_at (mem s') x = byte_at (mem marked) x).
Proof.
  apply (remove_from_list_unlinks first_bp 112 marked [] [first_bp + 264]).
  - repeat split; vm_compute; congruence.
  - split; vm_compute; congruence.
  - exact marked_list3.
  - cbn [app sep In]. unfold far, first_bp. repeat split; intros; intuition lia.
  - intros q [<-|[]]. right. vm_compute. congruence.
Defined.

(** ** The checker on a heap that satisfies the invariant *)

Lemma multiple_aligned p : p mod 8 = 0 -> aligned p = true.
Proof.
  intros H. unfold aligned, ALIGN, ALIGNMENT. rewrite land_lnot7. unfold size_t.
  rewrite Z.eqb_eq. change (2 ^ 64) with 18446744073709551616.
  Z.div_mod_to_equations; lia.
Qed.

Lemma block_violations_none s bs a sz fr :
  blocks_ok s bs [] -> In (a, sz, fr) bs -> block_violations a s = Ret [] s.
Proof.
  intros Hb Hin.
  destruct (block_facts _ _ _ _ _ _ Hb Hin) as (F1 & F2 & F3 & F4 & F5 & F6 & F7 & F8).
  destruct (block_addr _ _ _ Hb _ _ _ Hin) as (A1 & A2).
  destruct (block_tags _ _ _ _ _ _ Hb Hin (fun x => x)) as (T1 & T2 & T3).
  destruct (hdr_run _ _ _ Hb _ _ _ Hin (fun x => x)) as (H1 & H2 & H3 & H4).
  pose proof Hb as (((R0 & R1 & R2 & R3) & _) & _).
  unfold block_violations.
  rewrite (run_bind _ _ _ _ _ H1), (run_bind _ _ _ _ _ H3).
  assert (E1 : GET_SIZE (a + sz - 8) s = Ret sz s).
  { rewrite GET_SIZE_run by lia. rewrite T2, tag_size by assumption. reflexivity. }
  assert (E2 : GET_ALLOC (a + sz - 8) s = Ret (if fr then 0 else 1) s).
  { rewrite GET_ALLOC_run by lia. rewrite T2, tag_alloc by assumption. reflexivity. }
  rewrite (run_bind _ _ _ _ _ E1), (run_bind _ _ _ _ _ H2),
    (run_bind _ _ _ _ _ H3), (run_bind _ _ _ _ _ E2).
  unfold in_heap, mem_heap_hi, mem_heap_lo, bind, ret.
  rewrite !Z.eqb_refl, (multiple_aligned a F5).
  replace (a <=? mem_brk s - 1) with true by (symmetry; apply Z.leb_le; lia).
  replace (a >=? mem_start_brk s) with true by (symmetry; apply Z.geb_le; lia).
  reflexivity.
Qed.

Lemma heap_violations_from s bs : forall suffix fuel q pre,
  blocks_ok s bs [] -> bs = pre ++ suffix -> laid q suffix (mem_brk s) ->
  (length suffix < fuel)%nat ->
  heap_violations fuel q s = Ret [] s.
Proof.
  induction suffix as [|[[a sz] fr] suffix IH]; intros fuel q pre Hb E Hl Hf.
  - cbn [laid] in Hl. subst q.
    destruct fuel as [|fuel]; [cbn in Hf; lia|].
    pose proof Hb as (((R0 & R1 & R2 & R3) & G8 & Gs & Gh & G56 & Gm) & (S1 & S2 & S3) & _).
    cbn [heap_violations].
    rewrite HDRP_small by lia.
    assert (E1 : GET_SIZE (mem_brk s - 4) s = Ret 0 s).
    { rewrite GET_SIZE_run by lia. rewrite S3. reflexivity. }
    assert (E2 : GET_ALLOC (mem_brk s - 4) s = Ret 1 s).
    { rewrite GET_ALLOC_run by lia. rewrite S3. reflexivity. }
    rewrite (run_bind _ _ _ _ _ E1). cbn [Z.eqb negb orelse].
    rewrite bind_assoc, (run_bind _ _ _ _ _ E2). reflexivity.
  - cbn [laid] in Hl. destruct Hl as (-> & L1 & L2 & L3).
    destruct fuel as [|fuel]; [cbn in Hf; lia|].
    assert (Hin : In (q, sz, fr) bs) by (rewrite E; in_all).
    destruct (hdr_run _ _ _ Hb _ _ _ Hin (fun x => x)) as (H1 & H2 & H3 & H4).
    cbn [heap_violations].
    rewrite (run_bind _ _ _ _ _ H1).
    replace (sz =? 0) with false by (symmetry; apply Z.eqb_neq; lia).
    cbn [negb orelse]. rewrite bind_ret_l.
    rewrite (run_bind _ _ _ _ _ (block_violations_none _ _ _ _ _ Hb Hin)).
    rewrite (run_bind _ _ _ _ _ H4).
    rewrite (run_bind _ _ _ _ _ (IH fuel (q + sz) (pre ++ [(q, sz, fr)]) Hb
               ltac:(rewrite <- app_assoc; exact E) L3 ltac:(cbn in Hf; lia))).
    reflexivity.
Qed.

(** The walk over the blocks, from the prologue on, finds nothing. *)
Lemma heap_violations_none s bs fuel :
  blocks_ok s bs [] -> (length bs + 1 < fuel)%nat ->
  heap_violations fuel (heap_listp s) s = Ret [] s.
Proof.
  intros Hb Hf.
  pose proof Hb as (((R0 & R1 & R2 & R3) & G8 & Gs & Gh & G56 & Gm) & (S1 & S2 & S3) & Hl & _).
  destruct fuel as [|fuel]; [lia|].
  cbn [heap_violations]. rewrite Gh.
  rewrite HDRP_small by lia.
  replace (mem_start_brk s + 48 - 4) with (mem_start_brk s + 44) by lia.
  assert (E1 : GET_SIZE (mem_start_brk s + 44) s = Ret 8 s).
  { rewrite GET_SIZE_run by lia. rewrite S1. reflexivity. }
  assert (E2 : GET_ALLOC (mem_start_brk s + 44) s = Ret 1 s).
  { rewrite GET_ALLOC_run by lia. rewrite S1. reflexivity. }
  assert (E3 : GET_SIZE (mem_start_brk s + 48) s = Ret 8 s).
  { rewrite GET_SIZE_run by lia. rewrite S2. reflexivity. }
  assert (E4 : GET_ALLOC (mem_start_brk s + 48) s = Ret 1 s).
  { rewrite GET_ALLOC_run by lia. rewrite S2. reflexivity. }
  assert (E5 : FTRP (mem_start_brk s + 48) s = Ret (mem_start_brk s + 48) s).
  { unfold FTRP. rewrite HDRP_small by lia.
    replace (mem_start_brk s + 48 - 4) with (mem_start_brk s + 44) by lia.
    rewrite (run_bind _ _ _ _ _ E1). unfold ret, DSIZE.
    rewrite (padd_small (mem_start_brk s + 48) 8) by lia.
    rewrite padd_small by lia. f_equal. lia. }
  assert (E6 : NEXT_BLKP (mem_start_brk s + 48) s = Ret (mem_start_brk s + 56) s).
  { unfold NEXT_BLKP, WSIZE. rewrite padd_small by lia.
    replace (mem_start_brk s + 48 + Z.opp 4) with (mem_start_brk s + 44) by lia.
    rewrite (run_bind _ _ _ _ _ E1). unfold ret.
    rewrite padd_small by lia. f_equal. lia. }
  assert (E7 : block_violations (mem_start_brk s + 48) s = Ret [] s).
  { unfold block_violations. rewrite HDRP_small by lia.
    replace (mem_start_brk s + 48 - 4) with (mem_start_brk s + 44) by lia.
    rewrite (run_bind _ _ _ _ _ E1), (run_bind _ _ _ _ _ E5),
      (run_bind _ _ _ _ _ E3), (run_bind _ _ _ _ _ E2),
      (run_bind _ _ _ _ _ E5), (run_bind _ _ _ _ _ E4).
    unfold in_heap, mem_heap_hi, mem_heap_lo, bind, ret.
    rewrite !Z.eqb_refl, multiple_aligned by (Z.div_mod_to_equations; lia).
    replace (mem_start_brk s + 48 <=? mem_brk s - 1) with true
      by (symmetry; apply Z.leb_le; lia).
    replace (mem_start_brk s + 48 >=? mem_start_brk s) with true
      by (symmetry; apply Z.geb_le; lia).
    reflexivity. }
  rewrite (run_bind _ _ _ _ _ E1). cbn [Z.eqb negb orelse]. rewrite bind_ret_l.
  rewrite (run_bind _ _ _ _ _ E7), (run_bind _ _ _ _ _ E6).
  rewrite (run_bind _ _ _ _ _ (heap_violations_from s bs bs fuel _ [] Hb eq_refl Hl
             ltac:(lia))).
  reflexivity.
Qed.

(** The tests on an entry of a list: its neighbours are allocated, so only
    the test of the size range can fail. *)
Lemma entry_violations_run s bs ls i q z :
  heap_ok s bs ls -> 0 <= i <= 9 -> In (q, z) (ls i) ->
  entry_violations i q s = Ret (entry_findings i (q, z)) s.
Proof.
  intros ((Hb & Hl1 & Hl2 & Hl3) & Hco) Hi Hin.
  destruct (Hl2 _ _ _ Hi Hin) as (Hbs & Hc & _).
  destruct (in_split _ _ Hbs) as (pre & post & E).
  rewrite E in Hco. apply coalesced_app in Hco.
  destruct Hco as (_ & Hco2 & Hco3). cbn [coalesced is_free snd head_free] in Hco2, Hco3.
  destruct Hco2 as (Hnx & _). specialize (Hnx eq_refl).
  assert (Hpv : last_free pre = false).
  { destruct (last_free pre); [|reflexivity].
    specialize (Hco3 eq_refl). discriminate Hco3. }
  destruct (prev_run _ _ _ Hb _ _ _ _ _ E (fun _ _ _ _ x => x)) as (pv & P1 & P2 & _).
  destruct (next_run _ _ _ Hb _ _ _ _ _ E (fun x => x) (fun _ _ _ _ x => x))
    as (N1 & N2 & _).
  destruct (hdr_run _ _ _ Hb _ _ _ Hbs (fun x => x)) as (H1 & _).
  rewrite Hpv in P2. rewrite Hnx in N2.
  unfold entry_violations.
  rewrite (run_bind _ _ _ _ _ P1), (run_bind _ _ _ _ _ P2).
  cbn [Z.eqb orelse].
  rewrite !bind_assoc, (run_bind _ _ _ _ _ N1).
  rewrite !bind_assoc, (run_bind _ _ _ _ _ N2).
  rewrite bind_ret_l. cbn [Z.eqb].
  rewrite (run_bind _ _ _ _ _ H1).
  reflexivity.
Qed.

Lemma list_violations_run s bs ls i : forall l fuel pb b,
  heap_ok s bs ls -> 0 <= i <= 9 ->
  (forall e, In e l -> In e (ls i)) ->
  chain s pb b (map fst l) -> (length l < fuel)%nat ->
  list_violations fuel i (B2P (heap_listp s) b) s =
    Ret (flat_map (entry_findings i) l) s.
Proof.
  induction l as [|[q z] l IH]; intros fuel pb b Hok Hi Hsub Hc Hf;
    (destruct fuel as [|fuel]; [cbn in Hf; lia|]);
    pose proof Hok as (((((R0 & R1 & R2 & R3) & _) & _) & _) & _);
    assert (R : region_ok s) by (repeat split; assumption);
    rewrite (chain_head _ _ _ _ R Hc); cbn [map fst list_violations flat_map].
  - reflexivity.
  - cbn [map fst chain] in Hc. destruct Hc as (Hb1 & Hq & Hn & Hp & Hc).
    pose proof Hn as (Hn1 & Hn2).
    replace (q =? NULL) with false by (symmetry; apply Z.eqb_neq; unfold NULL; lia).
    rewrite (run_bind _ _ _ _ _ (entry_violations_run _ _ _ _ _ _ Hok Hi
               (Hsub _ (or_introl eq_refl)))).
    rewrite (run_bind _ _ _ _ _ (NEXT_BIAS_node _ _ R Hn)).
    rewrite (run_bind get_heap_listp _ s (heap_listp s) s eq_refl).
    rewrite (run_bind _ _ _ _ _ (IH fuel _ _ Hok Hi
               (fun e H => Hsub e (or_intror H)) Hc ltac:(cbn in Hf; lia))).
    reflexivity.
Qed.

Lemma lists_violations_run s bs ls fuel : forall n i,
  heap_ok s bs ls -> (length bs < fuel)%nat ->
  0 <= i -> i + Z.of_nat n = 10 ->
  lists_violations fuel n i s = Ret (lists_findings ls n i) s.
Proof.
  induction n as [|n IH]; intros i Hok Hf Hi Hn; cbn [lists_violations lists_findings];
    [reflexivity|].
  pose proof Hok as ((Hb & Hl1 & Hl2 & Hl3) & Hco).
  pose proof Hb as (((R0 & R1 & R2 & R3) & G8 & Gs & Gh & G56 & Gm) & _).
  assert (R : region_ok s) by (repeat split; assumption).
  assert (Hi9 : 0 <= i <= 9) by lia.
  unfold LISTNUM. replace (i <? 10) with true by (symmetry; apply Z.ltb_lt; lia).
  rewrite (run_bind get_heap_listp _ s (heap_listp s) s eq_refl).
  rewrite seg_get_run by (auto; lia).
  destruct (Hl1 i Hi9) as (Hrep & _).
  pose proof (listed_length _ _ _ _ _ i (proj1 Hok) Hi9) as Hlen.
  rewrite (run_bind _ _ _ _ _ (list_violations_run _ _ _ _ (ls i) fuel _ _ Hok Hi9
             (fun e H => H) Hrep ltac:(lia))).
  rewrite (run_bind _ _ _ _ _ (IH (i + 1) Hok Hf ltac:(lia) ltac:(lia))).
  reflexivity.
Qed.

(** On a heap in the invariant the checker finds nothing among the blocks;
    among the lists it finds the entries outside the size range it tests. *)
Lemma checkheap_violations_run s bs ls fuel :
  heap_ok s bs ls -> (length bs + 1 < fuel)%nat ->
  checkheap_violations fuel s = Ret (lists_findings ls 10 0) s.
Proof.
  intros Hok Hf.
  pose proof Hok as ((Hb & _) & _).
  pose proof Hb as (((R0 & R1 & R2 & R3) & G8 & Gs & Gh & G56 & Gm) & _).
  unfold checkheap_violations.
  rewrite (run_bind get_heap_listp _ s (heap_listp s) s eq_refl).
  rewrite (run_bind get_seg_lists _ s (seg_lists s) s eq_refl).
  rewrite (run_bind _ _ _ _ _ (heap_violations_none _ _ _ Hb Hf)).
  rewrite (run_bind _ _ _ _ _ (lists_violations_run _ _ _ fuel 10 0 Hok
             ltac:(lia) ltac:(lia) ltac:(lia))).
  replace (heap_listp s =? NULL) with false
    by (symmetry; apply Z.eqb_neq; unfold NULL; lia).
  replace (seg_lists s =? NULL) with false
    by (symmetry; apply Z.eqb_neq; unfold NULL; lia).
  reflexivity.
Qed.

Lemma shiftl8 k : 1 <= k -> Z.shiftl 8 k = class_bound (k - 1).
Proof.
  intros H. unfold class_bound. rewrite Z.shiftl_mul_pow2 by lia.
  replace k with (Z.succ (k - 1)) at 1 by lia.
  rewrite Z.pow_succ_r by lia. lia.
Qed.

(** The test of the size range accepts an entry of its class, unless the
    class is the last one and the size above 8192. *)
Lemma entry_findings_class i q z :
  16 <= z -> class_of z = i ->
  entry_findings i (q, z) =
    (if andb (i =? 9) (8192 <? z) then [WrongList i q] else []).
Proof.
  intros Hz Hc. unfold entry_findings. cbn [fst snd].
  pose proof (class_of_range z) as Hr. rewrite Hc in Hr.
  assert (Hlo : (z >? Z.shiftl 8 i) = true).
  { apply Z.gtb_lt. destruct (Z.eq_dec i 0) as [->|Hi0].
    - change (Z.shiftl 8 0) with 8. lia.
    - rewrite shiftl8 by lia. apply class_of_above. lia. }
  rewrite Hlo. cbn [andb].
  destruct (Z.eq_dec i 9) as [->|Hi9].
  - change (Z.shiftl 16 9) with 8192. cbn [Z.eqb andb].
    destruct (Z.ltb_spec 8192 z), (Z.leb_spec z 8192); try lia; reflexivity.
  - replace (i =? 9) with false by (symmetry; apply Z.eqb_neq; lia).
    cbn [andb].
    replace (z <=? Z.shiftl 16 i) with true; [reflexivity|].
    symmetry. apply Z.leb_le. rewrite shiftl16 by lia.
    apply class_of_below; lia.
Qed.

Lemma lists_findings_nil ls : forall n i,
  (forall j e, i <= j < i + Z.of_nat n -> In e (ls j) -> entry_findings j e = []) ->
  lists_findings ls n i = [].
Proof.
  induction n as [|n IH]; intros i H; cbn [lists_findings]; [reflexivity|].
  rewrite IH by (intros j e Hj; apply H; lia).
  rewrite app_nil_r.
  assert (G : forall l, (forall e, In e l -> In e (ls i)) ->
                        flat_map (entry_findings i) l = []).
  { induction l as [|e l IHl]; intros Hsub; cbn [flat_map]; [reflexivity|].
    rewrite (H i e) by (try lia; apply Hsub; left; reflexivity).
    apply IHl. intros e' He'. apply Hsub. right. exact He'. }
  apply G. auto.
Qed.

Lemma lists_findings_in ls v : forall n i j e,
  i <= j < i + Z.of_nat n -> In e (ls j) -> In v (entry_findings j e) ->
  In v (lists_findings ls n i).
Proof.
  induction n as [|n IH]; intros i j e Hj He Hv; [lia|].
  cbn [lists_findings]. apply in_or_app.
  destruct (Z.eq_dec j i) as [->|Hne].
  - left. apply in_flat_map. exists e. auto.
  - right. apply (IH (i + 1) j e); auto. lia.
Qed.

(** X21: on a heap that satisfies the invariant set, on a store of less than
    2^32 bytes, [mm_checkheap] returns and leaves the state as it was when
    no free block is larger than 8192 bytes, and ends the process with
    [exit(0)] when one is: no other test of the checker fails there. *)
Theorem mm_checkheap_on_invariant fuel lineno s bs ls :
  small_store s -> invariant s bs ls -> (length bs + 1 < fuel)%nat ->
  ((forall q z, In (q, z, true) bs -> z <= 8192) ->
     mm_checkheap fuel lineno s = Ret tt s) /\
  ((exists q z, In (q, z, true) bs /\ 8192 < z) ->
     mm_checkheap fuel lineno s = Exit 0).
Proof.
  intros Hs Hinv Hf.
  pose proof (invariant_heap_ok _ _ _ Hs Hinv) as Hok.
  pose proof (checkheap_violations_run _ _ _ _ Hok Hf) as Hv.
  pose proof Hok as ((Hb & Hl1 & Hl2 & Hl3) & Hco).
  assert (Hrun : forall l, checkheap_violations fuel s = Ret l s ->
            mm_checkheap fuel lineno s =
            match l with [] => Ret tt s | _ :: _ => Exit 0 end).
  { intros l E. unfold mm_checkheap.
    rewrite (bind_subst _ _ _ _ _ (checkheap_flag_violations fuel)).
    unfold bind. rewrite E. destruct l; reflexivity. }
  rewrite (Hrun _ Hv). split.
  - intros Hall.
    rewrite lists_findings_nil; [reflexivity|].
    intros j [q z] Hj Hin.
    assert (Hj9 : 0 <= j <= 9) by lia.
    destruct (Hl2 j q z Hj9 Hin) as (Hbs & Hc & _).
    destruct (block_facts _ _ _ _ _ _ Hb Hbs) as (_ & _ & F3 & _).
    rewrite (entry_findings_class j q z F3 Hc).
    specialize (Hall _ _ Hbs).
    replace (8192 <? z) with false by (symmetry; apply Z.ltb_ge; lia).
    rewrite andb_false_r. reflexivity.
  - intros (q & z & Hbs & Hz).
    destruct (block_facts _ _ _ _ _ _ Hb Hbs) as (_ & _ & F3 & _).
    pose proof (Hl3 _ _ Hbs (fun x => x)) as Hin.
    pose proof (class_of_range z) as Hr.
    assert (Hc9 : class_of z = 9).
    { destruct (Z.eq_dec (class_of z) 9) as [e|n]; [exact e|].
      pose proof (class_of_below z 8 ltac:(lia) ltac:(lia)) as Hb8.
      unfold class_bound in Hb8. change (16 * 2 ^ 8) with 4096 in Hb8. lia. }
    assert (Hw : In (WrongList 9 q) (lists_findings ls 10 0)).
    { apply (lists_findings_in ls _ 10 0 9 (q, z)); [lia| |].
      - rewrite <- Hc9. exact Hin.
      - rewrite (entry_findings_class 9 q z F3 Hc9).
        replace (8192 <? z) with true by (symmetry; apply Z.ltb_lt; lia).
        left. reflexivity. }
    destruct (lists_findings ls 10 0); [destruct Hw|reflexivity].
Qed.

Lemma mm_checkheap_on_invariant_witness :
  mm_checkheap 300 0 started = Ret tt started.
Proof.
  destruct started_layout as (ls & Hok).
  destruct started_facts as (_ & _ & Hs).
  apply (mm_checkheap_on_invariant 300 0 started _ ls Hs (heap_ok_invariant _ _ _ Hok)).
  - cbn [length]. lia.
  - intros q z [E|[]]. injection E as _ Ez. lia.
Defined.

